(** * mvfst: wire codec, packet builders and server worker routing

    A shallow embedding of
      - quic/codec/Decode.cpp            (frame and header decoding),
      - quic/codec/QuicPacketBuilder.cpp (packet builders),
    and of the worker behaviour exercised by
      - quic/server/test/QuicServerTest.cpp.

    Bytes on the wire are [Byte.byte]; fixed-width C++ integers are [Z] with
    their wrap-around written out; exceptions are an explicit outcome. *)

From Stdlib Require Import ZArith List Bool Lia.
From Stdlib Require Import Init.Byte Strings.Byte.
From stdpp Require Import gmap list.
Import ListNotations.

Local Open Scope Z_scope.

(** ** Machine integers *)

(** Truncation of a mathematical integer to an unsigned [w]-bit value. *)
Definition wrap (w : Z) (z : Z) : Z := z mod 2 ^ w.

Definition uint8 := wrap 8.
Definition uint16 := wrap 16.
Definition uint32 := wrap 32.
Definition uint64 := wrap 64.

(** ** Bytes *)

Definition Z_of_byte (b : byte) : Z := Z.of_N (Byte.to_N b).

Definition byte_of_Z (z : Z) : byte :=
  match Byte.of_N (Z.to_N (z mod 256)) with
  | Some b => b
  | None => x00
  end.

(** [writeBE<T>] of a [n]-byte integer: most significant byte first. *)
Fixpoint be_bytes (n : nat) (v : Z) : list byte :=
  match n with
  | O => []
  | S k => be_bytes k (v / 256) ++ [byte_of_Z v]
  end.

(** [readBE<T>]: the unsigned value of a big-endian byte string. *)
Definition be_value (bs : list byte) : Z :=
  fold_left (fun acc b => acc * 256 + Z_of_byte b) bs 0.

(** ** Errors *)

Inductive TransportErrorCode :=
| FRAME_ENCODING_ERROR
| PROTOCOL_VIOLATION
| INTERNAL_ERROR.

(** [enum class FrameType : uint8_t]; kept as its underlying value because
    [parseFrame] casts arbitrary decoded integers to it. The values are those
    of RFC 9000; the source asserts [PADDING == 0]. *)
Definition FrameType := Z.
Definition PADDING : FrameType := 0.
Definition PING : FrameType := 1.
Definition ACK : FrameType := 2.
Definition ACK_ECN : FrameType := 3.

(** [QuicTransportException(msg, code, frameType)]; the message is dropped. *)
Record QuicTransportException := mkException {
  errorCode : TransportErrorCode;
  errorFrameType : option FrameType
}.

(** What a call may do: return, throw, or violate a [DCHECK]/[CHECK]. *)
Inductive outcome (A : Type) :=
| Ok (a : A)
| Throw (e : QuicTransportException)
| Aborted.
Arguments Ok {A} a.
Arguments Throw {A} e.
Arguments Aborted {A}.

#[global] Instance outcome_ret : MRet outcome := fun A a => Ok a.

#[global] Instance outcome_bind : MBind outcome := fun A B k m =>
  match m with
  | Ok a => k a
  | Throw e => Throw e
  | Aborted => Aborted
  end.

Definition throwAck {A} : outcome A :=
  Throw (mkException FRAME_ENCODING_ERROR (Some ACK)).

(** ** folly::io::Cursor over an IOBuf chain *)

(** An IOBuf chain: the contiguous segments in order. A cursor is the part of
    the chain not yet consumed; its head is the rest of the current segment. *)
Definition IOBufChain := list (list byte).
Definition Cursor := IOBufChain.

Definition totalLength (c : Cursor) : Z := Z.of_nat (length (concat c)).

Definition canAdvance (n : Z) (c : Cursor) : bool := n <=? totalLength c.

(** [Cursor::skip] / [BufQueue::trimStart]: drop [n] bytes, leaving emptied
    segments behind. *)
Fixpoint skip (n : nat) (c : Cursor) : Cursor :=
  match c with
  | [] => []
  | b :: c' =>
      if (n <? length b)%nat then drop n b :: c'
      else skip (n - length b) c'
  end.

(** [Cursor::peekBytes]: the bytes left in the current segment only (the next
    non-empty one when the current segment is used up). *)
Definition peekBytes (c : Cursor) : list byte :=
  match skip 0 c with
  | [] => []
  | b :: _ => b
  end.

(** [Cursor::pull]/[clone] of [n] bytes, across segments. *)
Definition pull (n : nat) (c : Cursor) : list byte := take n (concat c).

(** ** QUIC variable-length integers *)

Definition kOneByteLimit : Z := 0x3F.
Definition kTwoByteLimit : Z := 0x3FFF.
Definition kFourByteLimit : Z := 0x3FFFFFFF.
Definition kEightByteLimit : Z := 0x3FFFFFFFFFFFFFFF.

(** Modelled from the spec: [decodeQuicInteger] (quic/codec/QuicInteger.cpp is
    not part of the sources at hand). The two most significant bits of the
    first byte give the length 1, 2, 4 or 8; the remaining bits are the
    big-endian value; decoding fails when the buffer is shorter than that.
    Returns the value, the number of bytes read and the advanced cursor. *)
Definition decodeQuicInteger (c : Cursor) : option (Z * Z * Cursor) :=
  match concat c with
  | [] => None
  | first :: _ =>
      let n := Z.to_nat (2 ^ (Z_of_byte first / 64)) in
      if canAdvance (Z.of_nat n) c then
        match pull n c with
        | [] => None
        | b0 :: rest =>
            Some (be_value (byte_of_Z (Z.land (Z_of_byte b0) 0x3F) :: rest),
                  Z.of_nat n, skip n c)
        end
      else None
  end.

(** The [size]-byte form of a varint: the value big-endian, with the two top
    bits of the first byte set to log2 of the size. *)
Definition encodeWithSize (size : Z) (value : Z) : list byte :=
  match be_bytes (Z.to_nat size) value with
  | [] => []
  | b0 :: rest =>
      byte_of_Z (Z.lor (Z_of_byte b0) (Z.log2 size * 64)) :: rest
  end.

(** Modelled from the spec: [QuicInteger::encode] (quic/codec/QuicInteger.h is
    not part of the sources at hand). Without a byte size the shortest form is
    emitted; with one, exactly that many bytes, provided the value fits. Fails
    above 2^62 - 1. *)
Definition encodeQuicInteger (value : Z) (byteSize : option Z)
  : option (list byte) :=
  match byteSize with
  | None =>
      if value <=? kOneByteLimit then Some (encodeWithSize 1 value)
      else if value <=? kTwoByteLimit then Some (encodeWithSize 2 value)
      else if value <=? kFourByteLimit then Some (encodeWithSize 4 value)
      else if value <=? kEightByteLimit then Some (encodeWithSize 8 value)
      else None
  | Some 1 => if value <=? kOneByteLimit then Some (encodeWithSize 1 value) else None
  | Some 2 => if value <=? kTwoByteLimit then Some (encodeWithSize 2 value) else None
  | Some 4 => if value <=? kFourByteLimit then Some (encodeWithSize 4 value) else None
  | Some 8 => if value <=? kEightByteLimit then Some (encodeWithSize 8 value) else None
  | Some _ => None
  end.

(** ** Packet headers *)

Inductive HeaderForm := Long | Short.

Inductive LongHeaderTypes := Initial | ZeroRtt | Handshake | Retry.

Inductive ProtectionType := KeyPhaseZero | KeyPhaseOne.

Definition ConnectionId := list byte.
Definition PacketNum := Z.

Record LongHeader := mkLongHeader {
  longHeaderType : LongHeaderTypes;
  longVersion : Z;
  longSourceConnId : ConnectionId;
  longDestinationConnId : ConnectionId;
  longPacketSequenceNum : PacketNum;
  longToken : list byte;
  longOriginalDstConnId : option ConnectionId
}.

Record ShortHeader := mkShortHeader {
  shortProtectionType : ProtectionType;
  shortConnectionId : ConnectionId;
  shortPacketSequenceNum : PacketNum
}.

Inductive PacketHeader :=
| HLong (h : LongHeader)
| HShort (h : ShortHeader).

Definition getHeaderForm (h : PacketHeader) : HeaderForm :=
  match h with HLong _ => Long | HShort _ => Short end.

Definition asLong (h : PacketHeader) : option LongHeader :=
  match h with HLong l => Some l | HShort _ => None end.

Record CodecParameters := mkCodecParameters {
  peerAckDelayExponent : Z
}.

(** ** quic/codec/Decode.cpp: ACK frames *)

Record AckBlock := mkAckBlock {
  startPacket : PacketNum;
  endPacket : PacketNum
}.

Record ReadAckFrame := mkReadAckFrame {
  largestAcked : PacketNum;
  ackDelay : Z;
  ackBlocks : list AckBlock
}.

Definition nextAckedPacketGap (packetNum gap : Z) : outcome PacketNum :=
  let adjustedGap := uint64 (gap + 2) in
  if packetNum <? adjustedGap then throwAck
  else Ok (packetNum - adjustedGap).

Definition nextAckedPacketLen (packetNum ackBlockLen : Z) : outcome PacketNum :=
  if packetNum <? ackBlockLen then throwAck
  else Ok (packetNum - ackBlockLen).

(** [decodeQuicInteger] followed by the [throw] every call site of
    [decodeAckFrame] attaches to an absent result. *)
Definition decodeAckInteger (cursor : Cursor) : outcome (Z * Cursor) :=
  match decodeQuicInteger cursor with
  | Some (v, _, cursor') => Ok (v, cursor')
  | None => throwAck
  end.

(** The [for] loop of [decodeAckFrame]; [numBlocks] counts the iterations
    still to run. *)
Fixpoint decodeAckBlocks (numBlocks : nat) (cursor : Cursor)
    (currentPacketNum : PacketNum) (blocks : list AckBlock)
  : outcome (list AckBlock * Cursor) :=
  match numBlocks with
  | O => Ok (blocks, cursor)
  | S n =>
      '(currentGap, c1) ← decodeAckInteger cursor;
      '(blockLen, c2) ← decodeAckInteger c1;
      nextEndPacket ← nextAckedPacketGap currentPacketNum currentGap;
      currentPacketNum' ← nextAckedPacketLen nextEndPacket blockLen;
      decodeAckBlocks n c2 currentPacketNum'
        (blocks ++ [mkAckBlock currentPacketNum' nextEndPacket])
  end.

(** Modelled from the spec: [kDefaultAckDelayExponent], the default [3] used
    for long-header packets (quic/QuicConstants.h is not part of the sources
    at hand). *)
Definition kDefaultAckDelayExponent : Z := 3.

(** [std::numeric_limits<std::chrono::microseconds::rep>::max()]. *)
Definition kMaxMicroseconds : Z := 2 ^ 63 - 1.

(** The ack-delay scaling of [decodeAckFrame], with its two [DCHECK_LT]s. *)
Definition adjustAckDelay (ackDelayExponentToUse : Z) (delay : Z) : outcome Z :=
  if negb (ackDelayExponentToUse <? 64) then Aborted
  else
    let leftShift := uint8 (64 - ackDelayExponentToUse) in
    if negb (leftShift <? 64) then Aborted
    else
      let delayOverflowMask := uint64 (Z.shiftl 0xFFFFFFFFFFFFFFFF leftShift) in
      if negb (Z.land delay delayOverflowMask =? 0) then throwAck
      else
        let adjustedAckDelay := uint64 (Z.shiftl delay ackDelayExponentToUse) in
        if adjustedAckDelay >? kMaxMicroseconds then throwAck
        else Ok adjustedAckDelay.

Definition decodeAckFrame (cursor : Cursor) (header : PacketHeader)
    (params : CodecParameters) : outcome (ReadAckFrame * Cursor) :=
  '(largestAcked, c1) ← decodeAckInteger cursor;
  '(ackDelay, c2) ← decodeAckInteger c1;
  '(additionalAckBlocks, c3) ← decodeAckInteger c2;
  '(firstAckBlockLen, c4) ← decodeAckInteger c3;
  let ackDelayExponentToUse :=
    match getHeaderForm header with
    | Long => kDefaultAckDelayExponent
    | Short => uint8 (peerAckDelayExponent params)
    end in
  adjustedAckDelay ← adjustAckDelay ackDelayExponentToUse ackDelay;
  currentPacketNum ← nextAckedPacketLen largestAcked firstAckBlockLen;
  '(blocks, c5) ← decodeAckBlocks (Z.to_nat additionalAckBlocks) c4
      currentPacketNum [mkAckBlock currentPacketNum largestAcked];
  Ok (mkReadAckFrame largestAcked adjustedAckDelay blocks, c5).

(** ** quic/codec/Decode.cpp: padding and frame dispatch *)

Definition byte_eqb (a b : byte) : bool := Z_of_byte a =? Z_of_byte b.

(** [memcmp(p, q, n) == 0] on two byte strings of equal length. *)
Fixpoint bytes_eqb (p q : list byte) : bool :=
  match p, q with
  | [], [] => true
  | a :: p', b :: q' => byte_eqb a b && bytes_eqb p' q'
  | _, _ => false
  end.

(** [decodePaddingFrame]: returns the cursor after the padding consumed. *)
Definition decodePaddingFrame (cursor : Cursor) : Cursor :=
  let paddingBytes := peekBytes cursor in
  match paddingBytes with
  | [] => cursor
  | firstByte :: _ =>
      if negb (Z_of_byte firstByte =? PADDING) then cursor
      else
        let size := length paddingBytes in
        if bytes_eqb (take (size - 1) paddingBytes) (drop 1 paddingBytes)
        then skip size cursor
        else cursor
  end.

Definition BufQueue := IOBufChain.

Definition chainLength (q : BufQueue) : Z := totalLength q.

Section ParseFrame.

(** The frame decoders that are not embedded here ([decodeRstStreamFrame],
    [decodeStreamFrame], ...), as one function of the frame type and the
    decoded type field; [None] stands for a thrown exception or for a frame
    type outside the [switch]. *)
Variable OtherFrame : Type.
Variable decodeOtherFrame :
  FrameType -> Z -> PacketHeader -> CodecParameters -> BufQueue ->
  option (OtherFrame * BufQueue).

Inductive QuicFrame :=
| QuicPaddingFrame
| QuicPingFrame
| QuicReadAckFrame (f : ReadAckFrame)
| QuicOtherFrame (f : OtherFrame).

(** The [catch] of [parseFrame]: every exception of a decoder is rethrown
    as FRAME_ENCODING_ERROR with the frame type. *)
Definition catchFrame {A} (frameType : FrameType) (m : outcome A) : outcome A :=
  match m with
  | Ok a => Ok a
  | Throw _ => Throw (mkException FRAME_ENCODING_ERROR (Some frameType))
  | Aborted => Aborted
  end.

(** [parseFrame]: the frame and the queue after the trailing
    [queue.trimStart]. [sizeof(FrameType)] is 1. *)
Definition parseFrame (queue : BufQueue) (header : PacketHeader)
    (params : CodecParameters) : outcome (QuicFrame * BufQueue) :=
  if negb (canAdvance 1 queue) then
    Throw (mkException FRAME_ENCODING_ERROR None)
  else
    match decodeQuicInteger queue with
    | None => Throw (mkException FRAME_ENCODING_ERROR None)
    | Some (initialByte, _, queue1) =>
        let frameType : FrameType := uint8 initialByte in
        if frameType =? PADDING then
          Ok (QuicPaddingFrame, decodePaddingFrame queue1)
        else if frameType =? PING then
          Ok (QuicPingFrame, queue1)
        else if frameType =? ACK then
          catchFrame frameType
            ('(f, queue2) ← decodeAckFrame queue1 header params;
             Ok (QuicReadAckFrame f, queue2))
        else
          match decodeOtherFrame frameType initialByte header params queue1 with
          | Some (f, queue2) => Ok (QuicOtherFrame f, queue2)
          | None => Throw (mkException FRAME_ENCODING_ERROR (Some frameType))
          end
    end.

Record RegularQuicPacket := mkRegularQuicPacket {
  packetHeader : PacketHeader;
  packetFrames : list QuicFrame
}.

(** The [while (queue.chainLength() > 0)] loop of [decodeRegularPacket];
    [None] when [fuel] iterations were not enough. *)
Fixpoint decodeFrames (fuel : nat) (queue : BufQueue) (header : PacketHeader)
    (params : CodecParameters) (frames : list QuicFrame)
  : option (outcome (list QuicFrame)) :=
  if chainLength queue >? 0 then
    match fuel with
    | O => None
    | S fuel' =>
        match parseFrame queue header params with
        | Ok (f, queue') => decodeFrames fuel' queue' header params (frames ++ [f])
        | Throw e => Some (Throw e)
        | Aborted => Some Aborted
        end
    end
  else Some (Ok frames).

Definition decodeRegularPacket (header : PacketHeader)
    (params : CodecParameters) (packetData : IOBufChain)
  : option (outcome RegularQuicPacket) :=
  match decodeFrames (length (concat packetData)) packetData header params [] with
  | Some (Ok frames) => Some (Ok (mkRegularQuicPacket header frames))
  | Some (Throw e) => Some (Throw e)
  | Some Aborted => Some Aborted
  | None => None
  end.

End ParseFrame.

Arguments QuicPaddingFrame {OtherFrame}.
Arguments QuicPingFrame {OtherFrame}.
Arguments QuicReadAckFrame {OtherFrame} f.
Arguments QuicOtherFrame {OtherFrame} f.
Arguments mkRegularQuicPacket {OtherFrame} _ _.

(** ** quic/codec/Decode.cpp: short headers *)

(** Modelled from the spec: the initial-byte masks of quic/codec/Types.h, which
    is not part of the sources at hand: header form is the top bit, the fixed
    bit is bit 6, the reserved bits of a short header are bits 4-5, the key
    phase is bit 2. *)
Definition kHeaderFormMask : Z := 0x80.
Definition kMaxConnectionIdSize : Z := 20.

Module ShortHeaderMasks.
Definition kFixedBitMask : Z := 0x40.
Definition kReservedBitsMask : Z := 0x30.
Definition kKeyPhaseMask : Z := 0x04.
End ShortHeaderMasks.

Definition getHeaderFormOfByte (initialByte : Z) : HeaderForm :=
  if Z.land initialByte kHeaderFormMask =? 0 then Short else Long.

(** [ShortHeaderInvariant]: the destination connection id. *)
Definition parseShortHeaderInvariants (initialByte : Z) (cursor : Cursor)
    (dstConnIdSize : Z) : TransportErrorCode + (ConnectionId * Cursor) :=
  match getHeaderFormOfByte initialByte with
  | Long => inl FRAME_ENCODING_ERROR
  | Short =>
      if dstConnIdSize >? kMaxConnectionIdSize then inl PROTOCOL_VIOLATION
      else if negb (canAdvance dstConnIdSize cursor) then inl FRAME_ENCODING_ERROR
      else inr (pull (Z.to_nat dstConnIdSize) cursor,
                skip (Z.to_nat dstConnIdSize) cursor)
  end.

(** [parseShortHeader]: [folly::Expected<ShortHeader, TransportErrorCode>];
    the two-argument [ShortHeader] constructor leaves the packet number at 0. *)
Definition parseShortHeader (initialByte : Z) (cursor : Cursor)
    (dstConnIdSize : Z) : TransportErrorCode + (ShortHeader * Cursor) :=
  match getHeaderFormOfByte initialByte with
  | Long => inl FRAME_ENCODING_ERROR
  | Short =>
      if Z.land initialByte ShortHeaderMasks.kFixedBitMask =? 0 then
        inl FRAME_ENCODING_ERROR
      else if negb (Z.land initialByte ShortHeaderMasks.kReservedBitsMask =? 0) then
        inl PROTOCOL_VIOLATION
      else
        match parseShortHeaderInvariants initialByte cursor dstConnIdSize with
        | inl _ => inl FRAME_ENCODING_ERROR
        | inr (connId, cursor') =>
            let protectionType :=
              if negb (Z.land initialByte ShortHeaderMasks.kKeyPhaseMask =? 0)
              then KeyPhaseOne else KeyPhaseZero in
            inr (mkShortHeader protectionType connId 0, cursor')
        end
  end.

(** ** quic/codec/QuicPacketBuilder.cpp: header helpers *)

Record PacketNumEncodingResult := mkPacketNumEncodingResult {
  pnResult : PacketNum;
  pnLength : Z
}.

(** Modelled from the spec: [encodePacketNumber] (quic/codec/PacketNumber.cpp
    is not part of the sources at hand): the smallest byte length in 1..4 whose
    window 2^(8*len-1) strictly exceeds [pn - largestAcked], with the packet
    number truncated to that many bytes; no result when no length fits. *)
Definition encodePacketNumber (packetNum largestAckedPacketNum : PacketNum)
  : option PacketNumEncodingResult :=
  let distance := uint64 (packetNum - largestAckedPacketNum) in
  if distance <? 2 ^ 7 then Some (mkPacketNumEncodingResult (packetNum mod 2 ^ 8) 1)
  else if distance <? 2 ^ 15 then Some (mkPacketNumEncodingResult (packetNum mod 2 ^ 16) 2)
  else if distance <? 2 ^ 23 then Some (mkPacketNumEncodingResult (packetNum mod 2 ^ 24) 3)
  else if distance <? 2 ^ 31 then Some (mkPacketNumEncodingResult (packetNum mod 2 ^ 32) 4)
  else None.

(** Modelled from the spec: [kMaxPacketLenSize] is always 4, and a packet
    number is encoded in at most 4 bytes (quic/QuicConstants.h is not part of
    the sources at hand). *)
Definition kMaxPacketLenSize : Z := 4.
Definition kMaxPacketNumEncodingSize : Z := 4.

(** The long-header initial-byte layout of RFC 9000, section 17.2, standing
    for [LongHeader::kFixedBitMask], [kReservedBitsMask], [kTypeShift] and the
    values of [LongHeader::Types] in quic/codec/Types.h. *)
Module LongHeaderMasks.
Definition kFixedBitMask : Z := 0x40.
Definition kReservedBitsMask : Z := 0x0C.
Definition kTypeShift : Z := 4.
End LongHeaderMasks.

Definition longHeaderTypeValue (t : LongHeaderTypes) : Z :=
  match t with
  | Initial => 0
  | ZeroRtt => 1
  | Handshake => 2
  | Retry => 3
  end.

Definition isRetry (t : LongHeaderTypes) : bool :=
  match t with Retry => true | _ => false end.

Definition isInitial (t : LongHeaderTypes) : bool :=
  match t with Initial => true | _ => false end.

Definition sizeZ {A} (l : list A) : Z := Z.of_nat (length l).

(** [appendBytes]: the low [byteNumber] bytes of [value], big-endian. *)
Definition packetNumBytes (value : PacketNum) (byteNumber : Z) : list byte :=
  be_bytes (Z.to_nat byteNumber) value.

(** [encodeLongHeaderHelper]: the packet-number encoding, the bytes handed to
    [bufop] and the updated [spaceCounter]. [None] when [encodePacketNumber]
    or a [QuicInteger] throws, when a Retry header has no original destination
    connection id, or when its token is empty ([CHECK]). *)
Definition encodeLongHeaderHelper (longHeader : LongHeader) (spaceCounter : Z)
    (largestAckedPacketNum : PacketNum)
  : option (PacketNumEncodingResult * list byte * Z) :=
  let type := longHeaderType longHeader in
  let initialByte0 :=
    uint8 (Z.lor (Z.lor kHeaderFormMask LongHeaderMasks.kFixedBitMask)
                 (Z.shiftl (longHeaderTypeValue type) LongHeaderMasks.kTypeShift)) in
  encodedPacketNum ← encodePacketNumber (longPacketSequenceNum longHeader)
                        largestAckedPacketNum;
  let initialByte1 :=
    uint8 (Z.lor (Z.land initialByte0 (Z.lnot LongHeaderMasks.kReservedBitsMask))
                 (pnLength encodedPacketNum - 1)) in
  initialByte ←
    (if isRetry type then
       odcid ← longOriginalDstConnId longHeader;
       let odcidSize := sizeZ odcid in
       Some (uint8 (Z.lor (Z.land initialByte1 0xF0)
                          (if odcidSize =? 0 then 0 else odcidSize - 3)))
     else Some initialByte1);
  let token := longToken longHeader in
  tokenLengthInt ←
    (if isInitial type then encodeQuicInteger (sizeZ token) None else Some []);
  let tokenHeaderLength :=
    if isInitial type then sizeZ tokenLengthInt + sizeZ token else 0 in
  let longHeaderSize :=
    1 + 4 + 1 + sizeZ (longSourceConnId longHeader) + 1 +
    sizeZ (longDestinationConnId longHeader) + tokenHeaderLength +
    kMaxPacketLenSize + pnLength encodedPacketNum in
  let spaceCounter' :=
    if spaceCounter <? longHeaderSize then 0
    else uint32 (spaceCounter - longHeaderSize) in
  let fixedPart :=
    [byte_of_Z initialByte] ++ be_bytes 4 (longVersion longHeader) ++
    [byte_of_Z (sizeZ (longDestinationConnId longHeader))] ++
    longDestinationConnId longHeader ++
    [byte_of_Z (sizeZ (longSourceConnId longHeader))] ++
    longSourceConnId longHeader in
  let initialPart := if isInitial type then tokenLengthInt ++ token else [] in
  retryPart ←
    (if isRetry type then
       odcid ← longOriginalDstConnId longHeader;
       if sizeZ token =? 0 then None
       else Some ([byte_of_Z (sizeZ odcid)] ++ odcid ++ token)
     else Some []);
  Some (encodedPacketNum, fixedPart ++ initialPart ++ retryPart, spaceCounter').

(** [encodeShortHeaderHelper]: [folly::none] and a zeroed [spaceCounter] when
    the header does not fit; the outer [option] is [None] when
    [encodePacketNumber] throws. *)
Definition encodeShortHeaderHelper (shortHeader : ShortHeader) (spaceCounter : Z)
    (largestAckedPacketNum : PacketNum)
  : option (option PacketNumEncodingResult * list byte * Z) :=
  packetNumberEncoding ← encodePacketNumber (shortPacketSequenceNum shortHeader)
                            largestAckedPacketNum;
  let connId := shortConnectionId shortHeader in
  if spaceCounter <? 1 + pnLength packetNumberEncoding + sizeZ connId then
    Some (None, [], 0)
  else
    let initialByte0 :=
      uint8 (Z.lor ShortHeaderMasks.kFixedBitMask (pnLength packetNumberEncoding - 1)) in
    let initialByte1 :=
      uint8 (Z.land initialByte0 (Z.lnot ShortHeaderMasks.kReservedBitsMask)) in
    let initialByte :=
      match shortProtectionType shortHeader with
      | KeyPhaseOne => uint8 (Z.lor initialByte1 ShortHeaderMasks.kKeyPhaseMask)
      | KeyPhaseZero => initialByte1
      end in
    Some (Some packetNumberEncoding,
          [byte_of_Z initialByte] ++ connId,
          uint32 (uint32 (spaceCounter - 1) - sizeZ connId)).

(** What [buildPacket] of either builder returns. *)
Record RegularQuicWritePacket (QuicWriteFrame : Type) := mkRegularQuicWritePacket {
  writeHeader : PacketHeader;
  writeFrames : list QuicWriteFrame
}.
Arguments mkRegularQuicWritePacket {QuicWriteFrame} _ _.
Arguments writeHeader {QuicWriteFrame} _.
Arguments writeFrames {QuicWriteFrame} _.

Record Packet (QuicWriteFrame : Type) := mkPacket {
  builtPacket : RegularQuicWritePacket QuicWriteFrame;
  builtHeader : list byte;
  builtBody : list byte
}.
Arguments mkPacket {QuicWriteFrame} _ _ _.
Arguments builtPacket {QuicWriteFrame} _.
Arguments builtHeader {QuicWriteFrame} _.
Arguments builtBody {QuicWriteFrame} _.

(** The condition of the padding loop shared by both [buildPacket]s. *)
Definition needsPadding {F} (bodyLength extraDataWritten cipherOverhead minBodySize : Z)
    (frames : list F) (remainingBytes : Z) : bool :=
  (uint64 (bodyLength + extraDataWritten + cipherOverhead) <? minBodySize)
  && negb (sizeZ frames =? 0)
  && (remainingBytes >? kMaxPacketLenSize).

(** A long header that is not a Retry: the case in which the packet length
    and packet number are written at build time. *)
Definition lengthPatched (h : PacketHeader) : bool :=
  match asLong h with
  | Some longHeader => negb (isRetry (longHeaderType longHeader))
  | None => false
  end.

(** The calls [PacketBuilderInterface] offers a frame writer between the
    construction of a builder and [buildPacket]. [CallWriteBE] stands for the
    three [writeBE] overloads, [width] being [sizeof(data)] (1, 2 or 8);
    [CallInsert] and [CallInsertLimit] for the [insert] overloads without and
    with a limit. *)
Inductive BuilderCall (QuicWriteFrame : Type) :=
| CallWriteBE (width : nat) (data : Z)
| CallWrite (quicInteger : Z)
| CallAppendBytes (value : PacketNum) (byteNumber : Z)
| CallInsert (buf : IOBufChain)
| CallInsertLimit (buf : IOBufChain) (limit : Z)
| CallPush (data : list byte)
| CallAppendFrame (frame : QuicWriteFrame)
| CallSetCipherOverhead (overhead : Z).
Arguments CallWriteBE {QuicWriteFrame} width data.
Arguments CallWrite {QuicWriteFrame} quicInteger.
Arguments CallAppendBytes {QuicWriteFrame} value byteNumber.
Arguments CallInsert {QuicWriteFrame} buf.
Arguments CallInsertLimit {QuicWriteFrame} buf limit.
Arguments CallPush {QuicWriteFrame} data.
Arguments CallAppendFrame {QuicWriteFrame} frame.
Arguments CallSetCipherOverhead {QuicWriteFrame} overhead.

(** ** RegularQuicPacketBuilder: header and body in growable buffers *)

Module RegularQuicPacketBuilder.
Section Builder.

Variable QuicWriteFrame : Type.
(** [sizeof(Sample)], the header-protection sample size; [Sample] is
    declared in a header that is not part of the sources at hand. *)
Variable sampleSize : Z.

Record t := mk {
  remainingBytes_ : Z;
  packet_ : RegularQuicWritePacket QuicWriteFrame;
  header_ : list byte;
  body_ : list byte;
  packetNumberEncoding_ : option PacketNumEncodingResult;
  cipherOverhead_ : Z
  }.

(** The constructor with [writeHeaderBytes], [encodeLongHeader] and
    [encodeShortHeader]. *)
Definition new (remainingBytes : Z) (header : PacketHeader)
    (largestAckedPacketNum : PacketNum) : option t :=
  match header with
  | HLong longHeader =>
      '(enc, bytes, space) ←
        encodeLongHeaderHelper longHeader remainingBytes largestAckedPacketNum;
      Some (mk space (mkRegularQuicWritePacket header []) bytes []
               (Some enc) 0)
  | HShort shortHeader =>
      '(enc, bytes, space) ←
        encodeShortHeaderHelper shortHeader remainingBytes largestAckedPacketNum;
      match enc with
      | Some e =>
          Some (mk (uint32 (space - pnLength e))
                   (mkRegularQuicWritePacket header [])
                   (bytes ++ packetNumBytes (pnResult e) (pnLength e)) []
                   enc 0)
      | None =>
          Some (mk space (mkRegularQuicWritePacket header []) bytes [] None 0)
      end
  end.

Definition remainingSpaceInPkt (b : t) : Z := remainingBytes_ b.

(** [push]: raw bytes into the body. *)
Definition push (data : list byte) (b : t) : t :=
  mk (uint32 (remainingBytes_ b - sizeZ data)) (packet_ b) (header_ b)
     (body_ b ++ data) (packetNumberEncoding_ b) (cipherOverhead_ b).

(** [write(const QuicInteger&)]: the shortest encoding into the body. *)
Definition write (value : Z) (b : t) : option t :=
  bytes ← encodeQuicInteger value None;
  Some (push bytes b).

Definition appendFrame (frame : QuicWriteFrame) (b : t) : t :=
  mk (remainingBytes_ b)
     (mkRegularQuicWritePacket (writeHeader (packet_ b))
        (writeFrames (packet_ b) ++ [frame]))
     (header_ b) (body_ b) (packetNumberEncoding_ b) (cipherOverhead_ b).

Definition setCipherOverhead (overhead : Z) (b : t) : t :=
  mk (remainingBytes_ b) (packet_ b) (header_ b) (body_ b)
     (packetNumberEncoding_ b) (uint8 overhead).

Definition canBuildPacket (b : t) : bool := negb (remainingBytes_ b =? 0).

(** The padding loop of [buildPacket]; [bodyLength] is read once before the
    loop. The loop runs fewer than [minBodySize] times, which is the fuel
    [buildPacket] gives it. *)
Fixpoint padLoop (fuel : nat) (bodyLength minBodySize extraDataWritten : Z)
    (b : t) : t :=
  match fuel with
  | O => b
  | S fuel' =>
      if needsPadding bodyLength extraDataWritten (cipherOverhead_ b)
           minBodySize (writeFrames (packet_ b)) (remainingBytes_ b)
      then
        match write PADDING b with
        | Some b' => padLoop fuel' bodyLength minBodySize (extraDataWritten + 1) b'
        | None => b
        end
      else b
  end.

Definition minBodySizeOf (enc : PacketNumEncodingResult) : Z :=
  uint64 (kMaxPacketNumEncodingSize - pnLength enc + sampleSize).

(** [buildPacket]; [None] when dereferencing an empty
    [packetNumberEncoding_] or encoding the packet length throws. *)
Definition buildPacket (b : t) : option (Packet QuicWriteFrame) :=
  enc ← packetNumberEncoding_ b;
  let minBodySize := minBodySizeOf enc in
  let bodyLength := sizeZ (body_ b) in
  let b1 := padLoop (Z.to_nat minBodySize) bodyLength minBodySize 0 b in
  if lengthPatched (writeHeader (packet_ b1)) then
    pktLen ← encodeQuicInteger
                (pnLength enc + sizeZ (body_ b1) + cipherOverhead_ b1) None;
    Some (mkPacket (packet_ b1)
            (header_ b1 ++ pktLen ++ packetNumBytes (pnResult enc) (pnLength enc))
            (body_ b1))
  else Some (mkPacket (packet_ b1) (header_ b1) (body_ b1)).

(** [getHeaderBytes]; [None] when the [CHECK] on [packetNumberEncoding_]
    fails. The header length is far below 2^32, where [folly::to<uint32_t>]
    would throw. *)
Definition getHeaderBytes (b : t) : option Z :=
  enc ← packetNumberEncoding_ b;
  let isLongHeader :=
    match getHeaderForm (writeHeader (packet_ b)) with
    | Long => true
    | Short => false
    end in
  Some (uint32 (sizeZ (header_ b) +
                (if isLongHeader then pnLength enc + kMaxPacketLenSize else 0))).

(** [writeBE(uint8_t)], [writeBE(uint16_t)] and [writeBE(uint64_t)];
    [width] is [sizeof(data)]. *)
Definition writeBE (width : nat) (data : Z) (b : t) : t :=
  mk (uint32 (remainingBytes_ b - Z.of_nat width)) (packet_ b) (header_ b)
     (body_ b ++ be_bytes width data) (packetNumberEncoding_ b)
     (cipherOverhead_ b).

(** [appendBytes(value, byteNumber)]: into the body. *)
Definition appendBytes (value : PacketNum) (byteNumber : Z) (b : t) : t :=
  let byteNumber := uint8 byteNumber in
  mk (uint32 (remainingBytes_ b - byteNumber)) (packet_ b) (header_ b)
     (body_ b ++ packetNumBytes value byteNumber) (packetNumberEncoding_ b)
     (cipherOverhead_ b).

(** [insert(buf)]: the whole chain goes into the body. *)
Definition insert (buf : IOBufChain) (b : t) : t :=
  mk (uint32 (remainingBytes_ b - totalLength buf)) (packet_ b) (header_ b)
     (body_ b ++ concat buf) (packetNumberEncoding_ b) (cipherOverhead_ b).

(** [insert(buf, limit)], for a buffer and for a [BufQueue]: the first
    [limit] bytes are cloned and inserted; [None] when [Cursor::clone] throws
    because the chain is shorter than [limit]. *)
Definition insertLimit (buf : IOBufChain) (limit : Z) (b : t) : option t :=
  let limit := uint64 limit in
  if canAdvance limit buf then Some (insert [pull (Z.to_nat limit) buf] b)
  else None.

Definition getPacketHeader (b : t) : PacketHeader := writeHeader (packet_ b).

(** One call of the interface; [None] when it throws. *)
Definition call (c : BuilderCall QuicWriteFrame) (b : t) : option t :=
  match c with
  | CallWriteBE width data => Some (writeBE width data b)
  | CallWrite quicInteger => write quicInteger b
  | CallAppendBytes value byteNumber => Some (appendBytes value byteNumber b)
  | CallInsert buf => Some (insert buf b)
  | CallInsertLimit buf limit => insertLimit buf limit b
  | CallPush data => Some (push data b)
  | CallAppendFrame frame => Some (appendFrame frame b)
  | CallSetCipherOverhead overhead => Some (setCipherOverhead overhead b)
  end.

(** A sequence of calls, in the order a frame writer issues them. *)
Fixpoint calls (cs : list (BuilderCall QuicWriteFrame)) (b : t) : option t :=
  match cs with
  | [] => Some b
  | c :: cs' => b' ← call c b; calls cs' b'
  end.

End Builder.
End RegularQuicPacketBuilder.

(** ** InplaceQuicPacketBuilder: one caller-provided buffer *)

(** Modelled from the spec: [BufWriter] (quic/common/BufUtil.h is not part of
    the sources at hand) writes into the caller's buffer; [backFill] fills a
    slot reserved earlier, found by its recorded offset. Its capacity checks
    are left out. *)
Definition backFill (data : list byte) (destOffset : Z) (buf : list byte)
  : list byte :=
  take (Z.to_nat destOffset) buf ++ data ++
  drop (Z.to_nat destOffset + length data) buf.

Module InplaceQuicPacketBuilder.
Section Builder.

Variable QuicWriteFrame : Type.
Variable sampleSize : Z.
(** [BufWriter::insert(data, limit)] is declared in quic/common/BufUtil.h,
    which is not part of the sources at hand. [bufWriterInsert written data
    limit] stands for the bytes that [bufWriter_], which the constructor set
    up with the budget as its own limit, copies behind the bytes [written]
    that the buffer holds; [None] when it refuses. *)
Variable bufWriterInsert : list byte -> IOBufChain -> Z -> option (list byte).

(** [iobuf_] holds the bytes between [data()] and [tail()]; [bodyStart_] is
    kept as its offset from [data()]. *)
Record t := mk {
  iobuf_ : list byte;
  remainingBytes_ : Z;
  packet_ : RegularQuicWritePacket QuicWriteFrame;
  packetNumberEncoding_ : option PacketNumEncodingResult;
  cipherOverhead_ : Z;
  packetLenOffset_ : Z;
  packetNumOffset_ : Z;
  bodyStart_ : Z
  }.

(** The constructor. For a long header the helper is handed the
    constructor's own [remainingBytes] argument, so the member
    [remainingBytes_] keeps its initial value. [bufWriter_.append] exposes
    the reserved slot, whose bytes are overwritten at build time. *)
Definition new (iobuf : list byte) (remainingBytes : Z) (header : PacketHeader)
    (largestAckedPacketNum : PacketNum) : option t :=
  match header with
  | HLong longHeader =>
      '(enc, bytes, _) ←
        encodeLongHeaderHelper longHeader remainingBytes largestAckedPacketNum;
      let buf1 := iobuf ++ bytes in
      if negb (isRetry (longHeaderType longHeader)) then
        let packetLenOffset := sizeZ buf1 in
        let buf2 :=
          buf1 ++ repeat x00 (Z.to_nat (pnLength enc + kMaxPacketLenSize)) in
        Some (mk buf2 remainingBytes (mkRegularQuicWritePacket header [])
                 (Some enc) 0 packetLenOffset
                 (packetLenOffset + kMaxPacketLenSize) (sizeZ buf2))
      else
        Some (mk buf1 remainingBytes (mkRegularQuicWritePacket header [])
                 (Some enc) 0 0 0 (sizeZ buf1))
  | HShort shortHeader =>
      '(enc, bytes, space) ←
        encodeShortHeaderHelper shortHeader remainingBytes largestAckedPacketNum;
      match enc with
      | Some e =>
          let buf1 := iobuf ++ bytes ++ packetNumBytes (pnResult e) (pnLength e) in
          Some (mk buf1 (uint32 (space - pnLength e))
                   (mkRegularQuicWritePacket header []) enc 0 0 0 (sizeZ buf1))
      | None =>
          Some (mk (iobuf ++ bytes) space
                   (mkRegularQuicWritePacket header []) None 0 0 0
                   (sizeZ (iobuf ++ bytes)))
      end
  end.

Definition remainingSpaceInPkt (b : t) : Z := remainingBytes_ b.

Definition push (data : list byte) (b : t) : t :=
  mk (iobuf_ b ++ data) (uint32 (remainingBytes_ b - sizeZ data)) (packet_ b)
     (packetNumberEncoding_ b) (cipherOverhead_ b) (packetLenOffset_ b)
     (packetNumOffset_ b) (bodyStart_ b).

Definition write (value : Z) (b : t) : option t :=
  bytes ← encodeQuicInteger value None;
  Some (push bytes b).

Definition appendFrame (frame : QuicWriteFrame) (b : t) : t :=
  mk (iobuf_ b) (remainingBytes_ b)
     (mkRegularQuicWritePacket (writeHeader (packet_ b))
        (writeFrames (packet_ b) ++ [frame]))
     (packetNumberEncoding_ b) (cipherOverhead_ b) (packetLenOffset_ b)
     (packetNumOffset_ b) (bodyStart_ b).

Definition setCipherOverhead (overhead : Z) (b : t) : t :=
  mk (iobuf_ b) (remainingBytes_ b) (packet_ b) (packetNumberEncoding_ b)
     (uint8 overhead) (packetLenOffset_ b) (packetNumOffset_ b) (bodyStart_ b).

Definition canBuildPacket (b : t) : bool := negb (remainingBytes_ b =? 0).

Fixpoint padLoop (fuel : nat) (bodyLength minBodySize extraDataWritten : Z)
    (b : t) : t :=
  match fuel with
  | O => b
  | S fuel' =>
      if needsPadding bodyLength extraDataWritten (cipherOverhead_ b)
           minBodySize (writeFrames (packet_ b)) (remainingBytes_ b)
      then
        match write PADDING b with
        | Some b' => padLoop fuel' bodyLength minBodySize (extraDataWritten + 1) b'
        | None => b
        end
      else b
  end.

Definition minBodySizeOf (enc : PacketNumEncodingResult) : Z :=
  uint64 (kMaxPacketNumEncodingSize - pnLength enc + sampleSize).

(** [buildPacket]. The packet length is computed from [bodyLength] as read
    before the padding loop and written with exactly [kMaxPacketLenSize]
    bytes at [packetLenOffset_]. *)
Definition buildPacket (b : t) : option (Packet QuicWriteFrame) :=
  enc ← packetNumberEncoding_ b;
  let minBodySize := minBodySizeOf enc in
  let bodyLength := sizeZ (iobuf_ b) - bodyStart_ b in
  let b1 := padLoop (Z.to_nat minBodySize) bodyLength minBodySize 0 b in
  buf ←
    (if lengthPatched (writeHeader (packet_ b1)) then
       pktLen ← encodeQuicInteger
                   (pnLength enc + bodyLength + cipherOverhead_ b1)
                   (Some kMaxPacketLenSize);
       Some (backFill (packetNumBytes (pnResult enc) (pnLength enc))
               (packetNumOffset_ b1)
               (backFill pktLen (packetLenOffset_ b1) (iobuf_ b1)))
     else Some (iobuf_ b1));
  Some (mkPacket (packet_ b1)
          (take (Z.to_nat (bodyStart_ b1)) buf)
          (drop (Z.to_nat (bodyStart_ b1)) buf)).

(** [getHeaderBytes]: [bodyStart_ - iobuf_.data()] plus, for a long header,
    the packet-number length and [kMaxPacketLenSize]; [None] when the
    [CHECK] on [packetNumberEncoding_] fails. *)
Definition getHeaderBytes (b : t) : option Z :=
  enc ← packetNumberEncoding_ b;
  let isLongHeader :=
    match getHeaderForm (writeHeader (packet_ b)) with
    | Long => true
    | Short => false
    end in
  Some (uint32 (bodyStart_ b +
                (if isLongHeader then pnLength enc + kMaxPacketLenSize else 0))).

Definition writeBE (width : nat) (data : Z) (b : t) : t :=
  mk (iobuf_ b ++ be_bytes width data)
     (uint32 (remainingBytes_ b - Z.of_nat width)) (packet_ b)
     (packetNumberEncoding_ b) (cipherOverhead_ b) (packetLenOffset_ b)
     (packetNumOffset_ b) (bodyStart_ b).

Definition appendBytes (value : PacketNum) (byteNumber : Z) (b : t) : t :=
  let byteNumber := uint8 byteNumber in
  mk (iobuf_ b ++ packetNumBytes value byteNumber)
     (uint32 (remainingBytes_ b - byteNumber)) (packet_ b)
     (packetNumberEncoding_ b) (cipherOverhead_ b) (packetLenOffset_ b)
     (packetNumOffset_ b) (bodyStart_ b).

(** Modelled from the spec: [insert(buf)] hands the chain to
    [BufWriter::insert], which copies it behind the bytes written so far. *)
Definition insert (buf : IOBufChain) (b : t) : t :=
  mk (iobuf_ b ++ concat buf)
     (uint32 (remainingBytes_ b - totalLength buf)) (packet_ b)
     (packetNumberEncoding_ b) (cipherOverhead_ b) (packetLenOffset_ b)
     (packetNumOffset_ b) (bodyStart_ b).

(** [insert(buf, limit)], for a buffer and for a [BufQueue]: [limit] is
    charged to [remainingBytes_], whatever the chain holds, and the chain is
    handed to [BufWriter::insert] with the same limit. The builder itself
    checks nothing and throws nothing. *)
Definition insertLimit (buf : IOBufChain) (limit : Z) (b : t) : option t :=
  let limit := uint64 limit in
  bytes ← bufWriterInsert (iobuf_ b) buf limit;
  Some (mk (iobuf_ b ++ bytes)
           (uint32 (remainingBytes_ b - limit)) (packet_ b)
           (packetNumberEncoding_ b) (cipherOverhead_ b) (packetLenOffset_ b)
           (packetNumOffset_ b) (bodyStart_ b)).

Definition getPacketHeader (b : t) : PacketHeader := writeHeader (packet_ b).

Definition call (c : BuilderCall QuicWriteFrame) (b : t) : option t :=
  match c with
  | CallWriteBE width data => Some (writeBE width data b)
  | CallWrite quicInteger => write quicInteger b
  | CallAppendBytes value byteNumber => Some (appendBytes value byteNumber b)
  | CallInsert buf => Some (insert buf b)
  | CallInsertLimit buf limit => insertLimit buf limit b
  | CallPush data => Some (push data b)
  | CallAppendFrame frame => Some (appendFrame frame b)
  | CallSetCipherOverhead overhead => Some (setCipherOverhead overhead b)
  end.

Fixpoint calls (cs : list (BuilderCall QuicWriteFrame)) (b : t) : option t :=
  match cs with
  | [] => Some b
  | c :: cs' => b' ← call c b; calls cs' b'
  end.

End Builder.
End InplaceQuicPacketBuilder.

(** ** StatelessResetPacketBuilder *)

Definition StatelessResetToken := list byte.

Module StatelessResetPacketBuilder.

(** The constructor; [secureRandom i] is the [i]-th octet drawn from
    [folly::Random::secureRandom]. [resetToken] is a
    [std::array<uint8_t, 16>], so [resetToken.size()] is its length. *)
Definition new (secureRandom : nat -> byte) (maxPacketSize : Z)
    (resetToken : StatelessResetToken) : list byte :=
  let randomOctetLength := uint16 (maxPacketSize - sizeZ resetToken - 1) in
  let initialByte := ShortHeaderMasks.kFixedBitMask in
  [byte_of_Z initialByte] ++
  map secureRandom (seq 0 (Z.to_nat randomOctetLength)) ++
  resetToken.

Definition buildPacket (data : list byte) : list byte := data.

End StatelessResetPacketBuilder.

(** ** VersionNegotiationPacketBuilder *)

Definition QuicVersion := Z.
(** Modelled from the spec: the version field of a version-negotiation packet
    is 0 ([QuicVersion::VERSION_NEGOTIATION]). *)
Definition VERSION_NEGOTIATION : QuicVersion := 0.

Record VersionNegotiationPacket := mkVersionNegotiationPacket {
  packetType : Z;
  sourceConnectionId : ConnectionId;
  destinationConnectionId : ConnectionId;
  versions : list QuicVersion
}.

Module VersionNegotiationPacketBuilder.
Section Builder.

(** [kDefaultUDPSendPacketLen], declared in quic/QuicConstants.h, which is
    not part of the sources at hand. *)
Variable kDefaultUDPSendPacketLen : Z.

Record t := mk {
  remainingBytes_ : Z;
  packet_ : VersionNegotiationPacket;
  data_ : list byte
  }.

Definition generateRandomPacketType : Z := kHeaderFormMask.

(** The [for (auto version : versions)] loop. *)
Fixpoint writeVersions (vs : list QuicVersion) (b : t) : t :=
  match vs with
  | [] => b
  | version :: vs' =>
      if remainingBytes_ b <? 4 then b
      else
        writeVersions vs'
          (mk (uint32 (remainingBytes_ b - 4))
              (mkVersionNegotiationPacket
                 (packetType (packet_ b))
                 (sourceConnectionId (packet_ b))
                 (destinationConnectionId (packet_ b))
                 (versions (packet_ b) ++ [version]))
              (data_ b ++ be_bytes 4 version))
  end.

(** The header bytes written before the versions. *)
Definition headerBytes (p : VersionNegotiationPacket) : list byte :=
  [byte_of_Z (packetType p)] ++ be_bytes 4 VERSION_NEGOTIATION ++
  [byte_of_Z (sizeZ (destinationConnectionId p))] ++ destinationConnectionId p ++
  [byte_of_Z (sizeZ (sourceConnectionId p))] ++ sourceConnectionId p.

(** [remainingBytes_] after the header has been written. *)
Definition remainingAfterHeader (remainingBytes : Z)
    (p : VersionNegotiationPacket) : Z :=
  uint32 (uint32 (uint32 (uint32 (uint32 (uint32
    (remainingBytes - 1) - 4) - 1)
    - sizeZ (destinationConnectionId p)) - 1)
    - sizeZ (sourceConnectionId p)).

Definition writeVersionNegotiationPacket (vs : list QuicVersion) (b : t) : t :=
  writeVersions vs
    (mk (remainingAfterHeader (remainingBytes_ b) (packet_ b)) (packet_ b)
        (data_ b ++ headerBytes (packet_ b))).

(** The constructor. *)
Definition new (sourceConnectionId destinationConnectionId : ConnectionId)
    (vs : list QuicVersion) : t :=
  writeVersionNegotiationPacket vs
    (mk (uint32 kDefaultUDPSendPacketLen)
        (mkVersionNegotiationPacket generateRandomPacketType
           sourceConnectionId destinationConnectionId [])
        []).

Definition remainingSpaceInPkt (b : t) : Z := remainingBytes_ b.

Definition buildPacket (b : t) : VersionNegotiationPacket * list byte :=
  (packet_ b, data_ b).

Definition canBuildPacket (b : t) : bool := negb (remainingBytes_ b =? 0).

End Builder.
End VersionNegotiationPacketBuilder.

(** ** quic/codec/Decode.cpp: long headers and version negotiation *)

(** Modelled from the spec: the other fields of the initial byte in
    quic/codec/Types.h, which is not part of the sources at hand: the packet
    type of a long header is bits 4-5, the packet-number length is the two
    low bits of either header form (plus one). *)
Definition kPacketTypeMask : Z := 0x30.
Definition kPacketNumLenMask : Z := 0x03.

(** [cursor.readBE<T>()] for an [n]-byte [T]; every caller checks with
    [canAdvance] that the bytes are there. *)
Definition readBE (n : nat) (cursor : Cursor) : Z * Cursor :=
  (be_value (pull n cursor), skip n cursor).

(** Modelled from the spec: [ConnectionId(cursor, len)] (quic/codec/Types.h
    is not part of the sources at hand) takes the next [len] bytes of the
    cursor; its callers check [len <= kMaxConnectionIdSize] and that the
    bytes are there. *)
Definition readConnectionId (len : Z) (cursor : Cursor) : ConnectionId * Cursor :=
  (pull (Z.to_nat len) cursor, skip (Z.to_nat len) cursor).

(** [LongHeaderInvariant(version, srcConnId, dstConnId)]. *)
Record LongHeaderInvariant := mkLongHeaderInvariant {
  invariantVersion : QuicVersion;
  invariantSrcConnId : ConnectionId;
  invariantDstConnId : ConnectionId
}.

Record ParsedLongHeaderInvariant := mkParsedLongHeaderInvariant {
  parsedInitialByte : Z;
  parsedInvariant : LongHeaderInvariant;
  invariantLength : Z
}.

Definition parseLongHeaderInvariant (initialByte : Z) (cursor : Cursor)
  : TransportErrorCode + (ParsedLongHeaderInvariant * Cursor) :=
  let initialLength := totalLength cursor in
  if negb (canAdvance 4 cursor) then inl FRAME_ENCODING_ERROR
  else
    let '(version, c1) := readBE 4 cursor in
    if negb (canAdvance 1 c1) then inl FRAME_ENCODING_ERROR
    else
      let '(destConnIdLen, c2) := readBE 1 c1 in
      if destConnIdLen >? kMaxConnectionIdSize then inl PROTOCOL_VIOLATION
      else if negb (canAdvance destConnIdLen c2) then inl FRAME_ENCODING_ERROR
      else
        let '(destConnId, c3) := readConnectionId destConnIdLen c2 in
        if negb (canAdvance 1 c3) then inl FRAME_ENCODING_ERROR
        else
          let '(srcConnIdLen, c4) := readBE 1 c3 in
          if srcConnIdLen >? kMaxConnectionIdSize then inl PROTOCOL_VIOLATION
          else if negb (canAdvance srcConnIdLen c4) then inl FRAME_ENCODING_ERROR
          else
            let '(srcConnId, c5) := readConnectionId srcConnIdLen c4 in
            let currentLength := totalLength c5 in
            let bytesRead := initialLength - currentLength in
            inr (mkParsedLongHeaderInvariant initialByte
                   (mkLongHeaderInvariant version srcConnId destConnId)
                   bytesRead,
                 c5).

(** [parseLongHeaderType], before the cast to [LongHeader::Types]. *)
Definition parseLongHeaderType (initialByte : Z) : Z :=
  Z.shiftr (Z.land initialByte kPacketTypeMask) LongHeaderMasks.kTypeShift.

(** The enumerator of [LongHeader::Types] with a given value; [None] is the
    [default:] of the [switch] in [parseLongHeader]. *)
Definition longHeaderTypeOfValue (v : Z) : option LongHeaderTypes :=
  if v =? longHeaderTypeValue Initial then Some Initial
  else if v =? longHeaderTypeValue ZeroRtt then Some ZeroRtt
  else if v =? longHeaderTypeValue Handshake then Some Handshake
  else if v =? longHeaderTypeValue Retry then Some Retry
  else None.

Definition parsePacketNumberLength (initialByte : Z) : Z :=
  Z.land initialByte kPacketNumLenMask + 1.

Section ParsePacketNumber.

(** [decodePacketNumber(encodedPacketNum, packetNumBytes, expectedNext)] of
    quic/codec/PacketNumber.cpp, which is not part of the sources at hand. *)
Variable decodePacketNumber : Z -> Z -> PacketNum -> PacketNum.

(** [parsePacketNumber]: the [memcpy] into the tail of a zeroed [uint32_t]
    followed by [folly::Endian::big] reads the first [packetNumLen] bytes of
    the range as a big-endian number. *)
Definition parsePacketNumber (initialByte : Z) (packetNumberRange : list byte)
    (expectedNextPacketNum : PacketNum) : PacketNum * Z :=
  let packetNumLen := parsePacketNumberLength initialByte in
  let bigEncodedPacketNum :=
    be_value (take (Z.to_nat packetNumLen) packetNumberRange) in
  (decodePacketNumber bigEncodedPacketNum packetNumLen expectedNextPacketNum,
   packetNumLen).

End ParsePacketNumber.

Inductive QuicNodeType := Client | Server.

Definition isServer (nodeType : QuicNodeType) : bool :=
  match nodeType with Server => true | Client => false end.

(** [PacketLength(packetLength, lengthLength)]: the decoded packet length and
    the number of bytes its encoding took. *)
Record PacketLength := mkPacketLength {
  packetLength : Z;
  lengthLength : Z
}.

(** [ParsedLongHeader(LongHeader(type, invariant, token), packetLength)]; the
    header is kept as the three arguments its constructor is given. *)
Record ParsedLongHeader := mkParsedLongHeader {
  parsedType : LongHeaderTypes;
  parsedLongInvariant : LongHeaderInvariant;
  parsedToken : list byte;
  parsedPacketLength : PacketLength
}.

(** [ParsedLongHeaderResult]; its constructor [CHECK]s that a result which is
    not a version negotiation carries a header, which both uses below do. *)
Record ParsedLongHeaderResult := mkParsedLongHeaderResult {
  isVersionNegotiation : bool;
  parsedLongHeader : option ParsedLongHeader
}.

Section ParseLongHeader.

(** Constants of quic/QuicConstants.h and the default [nodeType] argument
    declared in quic/codec/Decode.h, none of which is part of the sources at
    hand. *)
Variable kRetryIntegrityTagLen : Z.
Variable kMinInitialDestinationConnIdLength : Z.
Variable defaultNodeType : QuicNodeType.

(** The token of an Initial header: a length varint and that many bytes. *)
Definition parseInitialToken (cursor : Cursor)
  : TransportErrorCode + (list byte * Cursor) :=
  match decodeQuicInteger cursor with
  | None => inl FRAME_ENCODING_ERROR
  | Some (tokenLen, _, c1) =>
      if negb (canAdvance tokenLen c1) then inl FRAME_ENCODING_ERROR
      else if tokenLen >? 0 then
        inr (pull (Z.to_nat tokenLen) c1, skip (Z.to_nat tokenLen) c1)
      else inr ([], c1)
  end.

Definition parseLongHeaderVariants (type : LongHeaderTypes)
    (parsedLongHeaderInvariant : ParsedLongHeaderInvariant) (cursor : Cursor)
    (nodeType : QuicNodeType)
  : TransportErrorCode + (ParsedLongHeader * Cursor) :=
  let invariant := parsedInvariant parsedLongHeaderInvariant in
  if isRetry type then
    if totalLength cursor <=? kRetryIntegrityTagLen then inl FRAME_ENCODING_ERROR
    else
      let tokenLen := Z.to_nat (totalLength cursor - kRetryIntegrityTagLen) in
      inr (mkParsedLongHeader type invariant (pull tokenLen cursor)
             (mkPacketLength 0 0),
           skip tokenLen cursor)
  else if isInitial type && isServer nodeType
          && (sizeZ (invariantDstConnId invariant)
                <? kMinInitialDestinationConnIdLength)
  then inl FRAME_ENCODING_ERROR
  else
    match (if isInitial type then parseInitialToken cursor
           else inr ([], cursor)) with
    | inl e => inl e
    | inr (token, c2) =>
        match decodeQuicInteger c2 with
        | None => inl FRAME_ENCODING_ERROR
        | Some (pktLen, pktLenSize, c3) =>
            if negb (canAdvance pktLen c3) then inl FRAME_ENCODING_ERROR
            else
              let packetNumLen :=
                parsePacketNumberLength
                  (parsedInitialByte parsedLongHeaderInvariant) in
              if negb (canAdvance packetNumLen c3) then inl FRAME_ENCODING_ERROR
              else if packetNumLen >? kMaxPacketNumEncodingSize then
                inl FRAME_ENCODING_ERROR
              else
                inr (mkParsedLongHeader type invariant token
                       (mkPacketLength pktLen pktLenSize),
                     c3)
        end
    end.

Definition parseLongHeader (initialByte : Z) (cursor : Cursor)
  : TransportErrorCode + (ParsedLongHeaderResult * Cursor) :=
  match getHeaderFormOfByte initialByte with
  | Short => inl FRAME_ENCODING_ERROR
  | Long =>
      match longHeaderTypeOfValue (parseLongHeaderType initialByte) with
      | None => inl FRAME_ENCODING_ERROR
      | Some type =>
          match parseLongHeaderInvariant initialByte cursor with
          | inl _ => inl FRAME_ENCODING_ERROR
          | inr (parsedLongHeaderInvariant, c1) =>
              let version :=
                invariantVersion (parsedInvariant parsedLongHeaderInvariant) in
              if version =? VERSION_NEGOTIATION then
                inr (mkParsedLongHeaderResult true None, c1)
              else
                match parseLongHeaderVariants type parsedLongHeaderInvariant
                        c1 defaultNodeType with
                | inl e => inl e
                | inr (parsedHeader, c2) =>
                    inr (mkParsedLongHeaderResult false (Some parsedHeader), c2)
                end
          end
      end
  end.

End ParseLongHeader.

(** The [while (!cursor.isAtEnd())] loop of [decodeVersionNegotiation];
    [None] when a [readBE] would run past the end of the data
    ([std::out_of_range]) or [fuel] iterations were not enough. *)
Fixpoint readVersions (fuel : nat) (cursor : Cursor) (versions : list QuicVersion)
  : option (list QuicVersion) :=
  if totalLength cursor =? 0 then Some versions
  else
    match fuel with
    | O => None
    | S fuel' =>
        if canAdvance 4 cursor then
          let '(version, cursor') := readBE 4 cursor in
          readVersions fuel' cursor' (versions ++ [version])
        else None
    end.

(** [decodeVersionNegotiation]: the inner [option] is the function's
    [folly::Optional]; the outer one is [None] as for [readVersions]. *)
Definition decodeVersionNegotiation
    (longHeaderInvariant : ParsedLongHeaderInvariant) (cursor : Cursor)
  : option (option VersionNegotiationPacket) :=
  let cursorLength := totalLength cursor in
  if (cursorLength <? 4) || negb (cursorLength mod 4 =? 0) then Some None
  else
    versions ← readVersions (Z.to_nat cursorLength) cursor [];
    Some (Some (mkVersionNegotiationPacket
                  (parsedInitialByte longHeaderInvariant)
                  (invariantSrcConnId (parsedInvariant longHeaderInvariant))
                  (invariantDstConnId (parsedInvariant longHeaderInvariant))
                  versions)).

(** ** quic/codec/Decode.cpp: the frame decoders *)

(** What a decoder may throw: a [QuicTransportException], or the
    [std::out_of_range] of a cursor that is asked for more bytes than it
    holds. *)
Inductive Exception :=
| TransportException (e : QuicTransportException)
| OutOfRange.

(** What a call of a decoder may do: return, throw, or violate a [DCHECK]. *)
Inductive decoded (A : Type) :=
| Decoded (a : A)
| Raised (e : Exception)
| Crashed.
Arguments Decoded {A} a.
Arguments Raised {A} e.
Arguments Crashed {A}.

#[global] Instance decoded_ret : MRet decoded := fun A a => Decoded a.

#[global] Instance decoded_bind : MBind decoded := fun A B k m =>
  match m with
  | Decoded a => k a
  | Raised e => Raised e
  | Crashed => Crashed
  end.

Definition ofOutcome {A} (m : outcome A) : decoded A :=
  match m with
  | Ok a => Decoded a
  | Throw e => Raised (TransportException e)
  | Aborted => Crashed
  end.

(** The remaining values of [enum class FrameType : uint8_t], those of
    RFC 9000. *)
Definition RST_STREAM : FrameType := 0x04.
Definition STOP_SENDING : FrameType := 0x05.
Definition CRYPTO_FRAME : FrameType := 0x06.
Definition NEW_TOKEN : FrameType := 0x07.
Definition STREAM : FrameType := 0x08.
Definition STREAM_FIN : FrameType := 0x09.
Definition STREAM_LEN : FrameType := 0x0a.
Definition STREAM_LEN_FIN : FrameType := 0x0b.
Definition STREAM_OFF : FrameType := 0x0c.
Definition STREAM_OFF_FIN : FrameType := 0x0d.
Definition STREAM_OFF_LEN : FrameType := 0x0e.
Definition STREAM_OFF_LEN_FIN : FrameType := 0x0f.
Definition MAX_DATA : FrameType := 0x10.
Definition MAX_STREAM_DATA : FrameType := 0x11.
Definition MAX_STREAMS_BIDI : FrameType := 0x12.
Definition MAX_STREAMS_UNI : FrameType := 0x13.
Definition DATA_BLOCKED : FrameType := 0x14.
Definition STREAM_DATA_BLOCKED : FrameType := 0x15.
Definition STREAMS_BLOCKED_BIDI : FrameType := 0x16.
Definition STREAMS_BLOCKED_UNI : FrameType := 0x17.
Definition NEW_CONNECTION_ID : FrameType := 0x18.
Definition RETIRE_CONNECTION_ID : FrameType := 0x19.
Definition PATH_CHALLENGE : FrameType := 0x1a.
Definition PATH_RESPONSE : FrameType := 0x1b.
Definition CONNECTION_CLOSE : FrameType := 0x1c.
Definition CONNECTION_CLOSE_APP_ERR : FrameType := 0x1d.
Definition HANDSHAKE_DONE : FrameType := 0x1e.

(** Modelled from the spec: [StreamTypeField] (quic/codec/Types.h is not part
    of the sources at hand): the three low bits of a STREAM frame type say
    whether FIN is set and whether a length and an offset are present. *)
Definition hasFin (field : Z) : bool := Z.testbit field 0.
Definition hasDataLength (field : Z) : bool := Z.testbit field 1.
Definition hasOffset (field : Z) : bool := Z.testbit field 2.

Definition StreamId := Z.

(** A [StatelessResetToken] is a [std::array<uint8_t, 16>]. *)
Definition kStatelessResetTokenLength : nat := 16.

Module FrameCodec.
Section Decoders.

(** The casts [static_cast<ApplicationErrorCode>] and
    [static_cast<TransportErrorCode>] of a decoded integer, the largest
    reason phrase and the two frame types of the partial-reliability
    extension: all declared in quic/QuicConstants.h, which is not part of the
    sources at hand. *)
Variable toApplicationErrorCode : Z -> Z.
Variable toTransportErrorCode : Z -> Z.
Variable kMaxReasonPhraseLength : Z.
Variable MIN_STREAM_DATA : FrameType.
Variable EXPIRED_STREAM_DATA : FrameType.

Inductive QuicErrorCode :=
| TransportCode (code : Z)
| ApplicationCode (code : Z).

(** The frames [parseFrame] returns, each with the arguments its decoder
    gives the constructor. Buffers are kept as their bytes. *)
Inductive QuicFrame :=
| PaddingFrame
| PingFrame
| AckFrame (frame : ReadAckFrame)
| RstStreamFrame (streamId : StreamId) (errorCode : Z) (offset : Z)
| StopSendingFrame (streamId : StreamId) (errorCode : Z)
| ReadCryptoFrame (offset : Z) (data : list byte)
| ReadNewTokenFrame (token : list byte)
| ReadStreamFrame (streamId : StreamId) (offset : Z) (data : list byte)
    (fin : bool)
| MaxDataFrame (maximumData : Z)
| MaxStreamDataFrame (streamId : StreamId) (maximumData : Z)
| MaxStreamsFrame (maxStreams : Z) (isForBidirectional : bool)
| DataBlockedFrame (dataLimit : Z)
| StreamDataBlockedFrame (streamId : StreamId) (dataLimit : Z)
| StreamsBlockedFrame (streamLimit : Z) (isForBidirectional : bool)
| NewConnectionIdFrame (sequenceNumber retirePriorTo : Z)
    (connectionId : ConnectionId) (token : StatelessResetToken)
| RetireConnectionIdFrame (sequenceNumber : Z)
| PathChallengeFrame (pathData : Z)
| PathResponseFrame (pathData : Z)
| ConnectionCloseFrame (errorCode : QuicErrorCode) (reasonPhrase : list byte)
    (closingFrameType : option FrameType)
| MinStreamDataFrame (streamId : StreamId) (maximumData : Z)
    (minimumStreamOffset : Z)
| ExpiredStreamDataFrame (streamId : StreamId) (minimumStreamOffset : Z)
| HandshakeDoneFrame.

Definition throwFrame {A} (frameType : FrameType) : decoded A :=
  Raised (TransportException
            (mkException FRAME_ENCODING_ERROR (Some frameType))).

(** [decodeQuicInteger] followed by the [throw] the decoders attach to an
    absent result. *)
Definition decodeInteger (frameType : FrameType) (cursor : Cursor)
  : decoded (Z * Cursor) :=
  match decodeQuicInteger cursor with
  | Some (v, _, cursor') => Decoded (v, cursor')
  | None => throwFrame frameType
  end.

Definition decodePingFrame (cursor : Cursor) : decoded (QuicFrame * Cursor) :=
  Decoded (PingFrame, cursor).

(** The three ECN counts are read and dropped. *)
Definition decodeAckFrameWithECN (cursor : Cursor) (header : PacketHeader)
    (params : CodecParameters) : decoded (QuicFrame * Cursor) :=
  '(readAckFrame, c1) ← ofOutcome (decodeAckFrame cursor header params);
  '(ect_0, c2) ← decodeInteger ACK_ECN c1;
  '(ect_1, c3) ← decodeInteger ACK_ECN c2;
  '(ect_ce, c4) ← decodeInteger ACK_ECN c3;
  Decoded (AckFrame readAckFrame, c4).

Definition decodeRstStreamFrame (cursor : Cursor)
  : decoded (QuicFrame * Cursor) :=
  '(streamId, c1) ← decodeInteger RST_STREAM cursor;
  '(varCode, c2) ← decodeInteger RST_STREAM c1;
  let errorCode := toApplicationErrorCode varCode in
  '(offset, c3) ← decodeInteger RST_STREAM c2;
  Decoded (RstStreamFrame streamId errorCode offset, c3).

Definition decodeStopSendingFrame (cursor : Cursor)
  : decoded (QuicFrame * Cursor) :=
  '(streamId, c1) ← decodeInteger STOP_SENDING cursor;
  '(varCode, c2) ← decodeInteger STOP_SENDING c1;
  let errorCode := toApplicationErrorCode varCode in
  Decoded (StopSendingFrame streamId errorCode, c2).

Definition decodeCryptoFrame (cursor : Cursor)
  : decoded (QuicFrame * Cursor) :=
  '(offset, c1) ← decodeInteger CRYPTO_FRAME cursor;
  '(dataLength, c2) ← decodeInteger CRYPTO_FRAME c1;
  if totalLength c2 <? dataLength then throwFrame CRYPTO_FRAME
  else
    Decoded (ReadCryptoFrame offset (pull (Z.to_nat dataLength) c2),
             skip (Z.to_nat dataLength) c2).

Definition decodeNewTokenFrame (cursor : Cursor)
  : decoded (QuicFrame * Cursor) :=
  '(tokenLength, c1) ← decodeInteger NEW_TOKEN cursor;
  if totalLength c1 <? tokenLength then throwFrame NEW_TOKEN
  else
    Decoded (ReadNewTokenFrame (pull (Z.to_nat tokenLength) c1),
             skip (Z.to_nat tokenLength) c1).

(** [decodeStreamFrame] works on the queue itself: it trims what its cursor
    has read and splits the data off, or, without a length, moves the whole
    rest of the queue into the frame. *)
Definition decodeStreamFrame (queue : BufQueue) (frameTypeField : Z)
  : decoded (QuicFrame * BufQueue) :=
  '(streamId, c1) ← decodeInteger STREAM queue;
  '(offset, c2) ←
    (if hasOffset frameTypeField then decodeInteger STREAM c1
     else Decoded (0, c1));
  let fin := hasFin frameTypeField in
  if hasDataLength frameTypeField then
    '(dataLength, c3) ← decodeInteger STREAM c2;
    if totalLength c3 <? dataLength then throwFrame STREAM
    else
      Decoded (ReadStreamFrame streamId offset
                 (pull (Z.to_nat dataLength) c3) fin,
               skip (Z.to_nat dataLength) c3)
  else
    Decoded (ReadStreamFrame streamId offset (concat c2) fin, []).

Definition decodeMaxDataFrame (cursor : Cursor)
  : decoded (QuicFrame * Cursor) :=
  '(maximumData, c1) ← decodeInteger MAX_DATA cursor;
  Decoded (MaxDataFrame maximumData, c1).

Definition decodeMaxStreamDataFrame (cursor : Cursor)
  : decoded (QuicFrame * Cursor) :=
  '(streamId, c1) ← decodeInteger MAX_STREAM_DATA cursor;
  '(offset, c2) ← decodeInteger MAX_STREAM_DATA c1;
  Decoded (MaxStreamDataFrame streamId offset, c2).

Definition decodeBiDiMaxStreamsFrame (cursor : Cursor)
  : decoded (QuicFrame * Cursor) :=
  '(streamCount, c1) ← decodeInteger MAX_STREAMS_BIDI cursor;
  Decoded (MaxStreamsFrame streamCount true, c1).

Definition decodeUniMaxStreamsFrame (cursor : Cursor)
  : decoded (QuicFrame * Cursor) :=
  '(streamCount, c1) ← decodeInteger MAX_STREAMS_UNI cursor;
  Decoded (MaxStreamsFrame streamCount false, c1).

Definition decodeDataBlockedFrame (cursor : Cursor)
  : decoded (QuicFrame * Cursor) :=
  '(dataLimit, c1) ← decodeInteger DATA_BLOCKED cursor;
  Decoded (DataBlockedFrame dataLimit, c1).

Definition decodeStreamDataBlockedFrame (cursor : Cursor)
  : decoded (QuicFrame * Cursor) :=
  '(streamId, c1) ← decodeInteger STREAM_DATA_BLOCKED cursor;
  '(dataLimit, c2) ← decodeInteger STREAM_DATA_BLOCKED c1;
  Decoded (StreamDataBlockedFrame streamId dataLimit, c2).

Definition decodeBiDiStreamsBlockedFrame (cursor : Cursor)
  : decoded (QuicFrame * Cursor) :=
  '(streamId, c1) ← decodeInteger STREAMS_BLOCKED_BIDI cursor;
  Decoded (StreamsBlockedFrame streamId true, c1).

Definition decodeUniStreamsBlockedFrame (cursor : Cursor)
  : decoded (QuicFrame * Cursor) :=
  '(streamId, c1) ← decodeInteger STREAMS_BLOCKED_UNI cursor;
  Decoded (StreamsBlockedFrame streamId false, c1).

(** The reset token is pulled without a check: a frame cut short inside it
    raises [std::out_of_range]. *)
Definition decodeNewConnectionIdFrame (cursor : Cursor)
  : decoded (QuicFrame * Cursor) :=
  '(sequenceNumber, c1) ← decodeInteger NEW_CONNECTION_ID cursor;
  '(retirePriorTo, c2) ← decodeInteger NEW_CONNECTION_ID c1;
  if negb (canAdvance 1 c2) then throwFrame NEW_CONNECTION_ID
  else
    let '(connIdLen, c3) := readBE 1 c2 in
    if totalLength c3 <? connIdLen then throwFrame NEW_CONNECTION_ID
    else if connIdLen >? kMaxConnectionIdSize then
      throwFrame NEW_CONNECTION_ID
    else
      let '(connId, c4) := readConnectionId connIdLen c3 in
      if canAdvance (Z.of_nat kStatelessResetTokenLength) c4 then
        Decoded (NewConnectionIdFrame sequenceNumber retirePriorTo connId
                   (pull kStatelessResetTokenLength c4),
                 skip kStatelessResetTokenLength c4)
      else Raised OutOfRange.

Definition decodeRetireConnectionIdFrame (cursor : Cursor)
  : decoded (QuicFrame * Cursor) :=
  '(sequenceNum, c1) ← decodeInteger RETIRE_CONNECTION_ID cursor;
  Decoded (RetireConnectionIdFrame sequenceNum, c1).

Definition decodePathChallengeFrame (cursor : Cursor)
  : decoded (QuicFrame * Cursor) :=
  if negb (canAdvance 8 cursor) then throwFrame PATH_CHALLENGE
  else
    let '(pathData, c1) := readBE 8 cursor in
    Decoded (PathChallengeFrame pathData, c1).

Definition decodePathResponseFrame (cursor : Cursor)
  : decoded (QuicFrame * Cursor) :=
  if negb (canAdvance 8 cursor) then throwFrame PATH_RESPONSE
  else
    let '(pathData, c1) := readBE 8 cursor in
    Decoded (PathResponseFrame pathData, c1).

(** [cursor.readFixedString(len)]: raises [std::out_of_range] when fewer
    than [len] bytes are left. *)
Definition readFixedString (len : Z) (cursor : Cursor)
  : decoded (list byte * Cursor) :=
  if canAdvance len cursor then
    Decoded (pull (Z.to_nat len) cursor, skip (Z.to_nat len) cursor)
  else Raised OutOfRange.

Definition decodeConnectionCloseFrame (cursor : Cursor)
  : decoded (QuicFrame * Cursor) :=
  '(varCode, c1) ← decodeInteger CONNECTION_CLOSE cursor;
  let errorCode := toTransportErrorCode varCode in
  match decodeQuicInteger c1 with
  | None => throwFrame CONNECTION_CLOSE
  | Some (frameTypeField, frameTypeSize, c2) =>
      if negb (frameTypeSize =? 1) then throwFrame CONNECTION_CLOSE
      else
        let triggeringFrameType : FrameType := uint8 frameTypeField in
        match decodeQuicInteger c2 with
        | None => throwFrame CONNECTION_CLOSE
        | Some (reasonPhraseLength, _, c3) =>
            if reasonPhraseLength >? kMaxReasonPhraseLength then
              throwFrame CONNECTION_CLOSE
            else
              '(reasonPhrase, c4) ← readFixedString reasonPhraseLength c3;
              Decoded (ConnectionCloseFrame (TransportCode errorCode)
                         reasonPhrase (Some triggeringFrameType),
                       c4)
        end
  end.

(** The two-argument [ConnectionCloseFrame] constructor leaves the closing
    frame type at its default, which is [None] here. *)
Definition decodeApplicationClose (cursor : Cursor)
  : decoded (QuicFrame * Cursor) :=
  '(varCode, c1) ← decodeInteger CONNECTION_CLOSE_APP_ERR cursor;
  let errorCode := toApplicationErrorCode varCode in
  match decodeQuicInteger c1 with
  | None => throwFrame CONNECTION_CLOSE_APP_ERR
  | Some (reasonPhraseLength, _, c2) =>
      if reasonPhraseLength >? kMaxReasonPhraseLength then
        throwFrame CONNECTION_CLOSE_APP_ERR
      else
        '(reasonPhrase, c3) ← readFixedString reasonPhraseLength c2;
        Decoded (ConnectionCloseFrame (ApplicationCode errorCode)
                   reasonPhrase None,
                 c3)
  end.

Definition decodeMinStreamDataFrame (cursor : Cursor)
  : decoded (QuicFrame * Cursor) :=
  '(streamId, c1) ← decodeInteger MIN_STREAM_DATA cursor;
  '(maximumData, c2) ← decodeInteger MIN_STREAM_DATA c1;
  '(minimumStreamOffset, c3) ← decodeInteger MIN_STREAM_DATA c2;
  Decoded (MinStreamDataFrame streamId maximumData minimumStreamOffset, c3).

Definition decodeExpiredStreamDataFrame (cursor : Cursor)
  : decoded (QuicFrame * Cursor) :=
  '(streamId, c1) ← decodeInteger EXPIRED_STREAM_DATA cursor;
  '(minimumStreamOffset, c2) ← decodeInteger EXPIRED_STREAM_DATA c1;
  Decoded (ExpiredStreamDataFrame streamId minimumStreamOffset, c2).

Definition decodeHandshakeDoneFrame (cursor : Cursor)
  : decoded (QuicFrame * Cursor) :=
  Decoded (HandshakeDoneFrame, cursor).

(** The [switch] of [parseFrame], in the order of its [case]s; [None] when
    no [case] matches. [queue] is the queue behind the frame type, where the
    cursor is reset to. *)
Definition decodeFrameOfType (frameType : FrameType) (initialByte : Z)
    (queue : BufQueue) (header : PacketHeader) (params : CodecParameters)
  : option (decoded (QuicFrame * BufQueue)) :=
  if frameType =? PADDING then
    Some (Decoded (PaddingFrame, decodePaddingFrame queue))
  else if frameType =? PING then Some (decodePingFrame queue)
  else if frameType =? ACK then
    Some ('(frame, c) ← ofOutcome (decodeAckFrame queue header params);
          Decoded (AckFrame frame, c))
  else if frameType =? ACK_ECN then
    Some (decodeAckFrameWithECN queue header params)
  else if frameType =? RST_STREAM then Some (decodeRstStreamFrame queue)
  else if frameType =? STOP_SENDING then Some (decodeStopSendingFrame queue)
  else if frameType =? CRYPTO_FRAME then Some (decodeCryptoFrame queue)
  else if frameType =? NEW_TOKEN then Some (decodeNewTokenFrame queue)
  else if (STREAM <=? frameType) && (frameType <=? STREAM_OFF_LEN_FIN) then
    Some (decodeStreamFrame queue (uint8 initialByte))
  else if frameType =? MAX_DATA then Some (decodeMaxDataFrame queue)
  else if frameType =? MAX_STREAM_DATA then
    Some (decodeMaxStreamDataFrame queue)
  else if frameType =? MAX_STREAMS_BIDI then
    Some (decodeBiDiMaxStreamsFrame queue)
  else if frameType =? MAX_STREAMS_UNI then
    Some (decodeUniMaxStreamsFrame queue)
  else if frameType =? DATA_BLOCKED then Some (decodeDataBlockedFrame queue)
  else if frameType =? STREAM_DATA_BLOCKED then
    Some (decodeStreamDataBlockedFrame queue)
  else if frameType =? STREAMS_BLOCKED_BIDI then
    Some (decodeBiDiStreamsBlockedFrame queue)
  else if frameType =? STREAMS_BLOCKED_UNI then
    Some (decodeUniStreamsBlockedFrame queue)
  else if frameType =? NEW_CONNECTION_ID then
    Some (decodeNewConnectionIdFrame queue)
  else if frameType =? RETIRE_CONNECTION_ID then
    Some (decodeRetireConnectionIdFrame queue)
  else if frameType =? PATH_CHALLENGE then
    Some (decodePathChallengeFrame queue)
  else if frameType =? PATH_RESPONSE then Some (decodePathResponseFrame queue)
  else if frameType =? CONNECTION_CLOSE then
    Some (decodeConnectionCloseFrame queue)
  else if frameType =? CONNECTION_CLOSE_APP_ERR then
    Some (decodeApplicationClose queue)
  else if frameType =? MIN_STREAM_DATA then
    Some (decodeMinStreamDataFrame queue)
  else if frameType =? EXPIRED_STREAM_DATA then
    Some (decodeExpiredStreamDataFrame queue)
  else if frameType =? HANDSHAKE_DONE then
    Some (decodeHandshakeDoneFrame queue)
  else None.

(** [parseFrame] with its whole [switch]: the frame and the queue it leaves.
    The [catch] turns whatever a decoder throws into
    [QuicTransportException(FRAME_ENCODING_ERROR, frameType)]; so does a
    frame type outside the [switch]. [sizeof(FrameType)] is 1. *)
Definition parseFrame (queue : BufQueue) (header : PacketHeader)
    (params : CodecParameters) : outcome (QuicFrame * BufQueue) :=
  if negb (canAdvance 1 queue) then
    Throw (mkException FRAME_ENCODING_ERROR None)
  else
    match decodeQuicInteger queue with
    | None => Throw (mkException FRAME_ENCODING_ERROR None)
    | Some (initialByte, _, queue1) =>
        let frameType : FrameType := uint8 initialByte in
        match decodeFrameOfType frameType initialByte queue1 header params with
        | Some (Decoded result) => Ok result
        | Some (Raised _) =>
            Throw (mkException FRAME_ENCODING_ERROR (Some frameType))
        | Some Crashed => Aborted
        | None => Throw (mkException FRAME_ENCODING_ERROR (Some frameType))
        end
    end.

Record RegularQuicPacket := mkRegularQuicPacket {
  packetHeader : PacketHeader;
  packetFrames : list QuicFrame
}.

(** The [while (queue.chainLength() > 0)] loop of [decodeRegularPacket];
    [None] when [fuel] iterations were not enough. *)
Fixpoint decodeFrames (fuel : nat) (queue : BufQueue) (header : PacketHeader)
    (params : CodecParameters) (frames : list QuicFrame)
  : option (outcome (list QuicFrame)) :=
  if chainLength queue >? 0 then
    match fuel with
    | O => None
    | S fuel' =>
        match parseFrame queue header params with
        | Ok (f, queue') => decodeFrames fuel' queue' header params (frames ++ [f])
        | Throw e => Some (Throw e)
        | Aborted => Some Aborted
        end
    end
  else Some (Ok frames).

(** [decodeRegularPacket], given one unit of fuel per byte of the packet. *)
Definition decodeRegularPacket (header : PacketHeader)
    (params : CodecParameters) (packetData : IOBufChain)
  : option (outcome RegularQuicPacket) :=
  match decodeFrames (length (concat packetData)) packetData header params [] with
  | Some (Ok frames) => Some (Ok (mkRegularQuicPacket header frames))
  | Some (Throw e) => Some (Throw e)
  | Some Aborted => Some Aborted
  | None => None
  end.

End Decoders.
End FrameCodec.

(** ** The server worker's routing tables *)

#[global] Instance byte_eq_dec : EqDecision byte.
Proof. solve_decision. Defined.

#[global] Instance byte_countable : Countable byte.
Proof.
  refine (inj_countable' Byte.to_N
            (fun n => match Byte.of_N n with Some b => b | None => x00 end) _).
  intros b. rewrite Byte.of_to_N. reflexivity.
Defined.

(** A peer address, as the bytes of its [sockaddr]. *)
Definition SocketAddress := list byte.

(** A transport, by identity (the C++ code holds pointers). *)
Definition Transport := nat.

Inductive ProcessId := ProcessZero | ProcessOne.

Record ServerConnectionIdParams := mkServerConnectionIdParams {
  hostId : Z;
  processId : ProcessId;
  workerId : Z
}.

Inductive PacketDropReason :=
| ROUTING_ERROR_WRONG_HOST
| CONNECTION_NOT_FOUND
| CANNOT_MAKE_TRANSPORT
| SERVER_SHUTDOWN
| INVALID_PACKET_SIZE_INITIAL_TOO_SMALL
| INVALID_PACKET_HEADER
| PARSE_ERROR
| PEER_ADDRESS_CHANGE.

Record RoutingData := mkRoutingData {
  routingHeaderForm : HeaderForm;
  routingIsInitial : bool;
  routingIsUsingClientCid : bool;
  routingDestinationConnId : ConnectionId;
  routingSourceConnId : option ConnectionId
}.

(** What the worker does with one datagram. *)
Inductive RoutingAction :=
| DeliverTo (t : Transport)
| AcceptNewTransport (t : Transport)
| SendStatelessReset (reason : PacketDropReason)
| ResetRejectedCid
| ForwardToPeerServer
| DropPacket (reason : PacketDropReason).

Definition ProcessId_eqb (a b : ProcessId) : bool :=
  match a, b with
  | ProcessZero, ProcessZero | ProcessOne, ProcessOne => true
  | _, _ => false
  end.

Module QuicServerWorker.

(** Modelled from the spec: the worker of quic/server/QuicServerWorker.cpp,
    of which only the tests (quic/server/test/QuicServerTest.cpp) are part
    of the sources at hand. The tables are those of the spec's data model:
    ConnIdMap, SrcToTransportMap and RejectedCidSet; [boundTransports] are
    the transports whose routing callback is this worker. *)
Record t := mk {
  connectionIdMap : gmap ConnectionId Transport;
  sourceAddressMap : gmap (SocketAddress * ConnectionId) Transport;
  rejectedCidSet : gset ConnectionId;
  boundTransports : gset Transport;
  hostId_ : Z;
  processId_ : ProcessId;
  workerId_ : Z;
  packetForwardingEnabled_ : bool
}.

(** Modelled from the spec: a worker before any configuration, and the
    programmatic setters [setHostId], [setProcessId], [startPacketForwarding]
    and [stopPacketForwarding] of the spec's configuration surface. *)
Definition new : t := mk ∅ ∅ ∅ ∅ 0 ProcessZero 0 false.

Definition setHostId (h : Z) (w : t) : t :=
  mk (connectionIdMap w) (sourceAddressMap w) (rejectedCidSet w)
     (boundTransports w) (uint16 h) (processId_ w) (workerId_ w)
     (packetForwardingEnabled_ w).

Definition setProcessId (p : ProcessId) (w : t) : t :=
  mk (connectionIdMap w) (sourceAddressMap w) (rejectedCidSet w)
     (boundTransports w) (hostId_ w) p (workerId_ w)
     (packetForwardingEnabled_ w).

Definition startPacketForwarding (w : t) : t :=
  mk (connectionIdMap w) (sourceAddressMap w) (rejectedCidSet w)
     (boundTransports w) (hostId_ w) (processId_ w) (workerId_ w) true.

Definition stopPacketForwarding (w : t) : t :=
  mk (connectionIdMap w) (sourceAddressMap w) (rejectedCidSet w)
     (boundTransports w) (hostId_ w) (processId_ w) (workerId_ w) false.

(** Modelled from the spec: [onConnectionIdAvailable(transport, newCid)]
    registers an additional CID; the worker adds it to ConnIdMap. *)
Definition onConnectionIdAvailable (transport : Transport) (cid : ConnectionId)
    (w : t) : t :=
  mk (<[cid := transport]> (connectionIdMap w)) (sourceAddressMap w)
     (rejectedCidSet w) (boundTransports w) (hostId_ w) (processId_ w)
     (workerId_ w) (packetForwardingEnabled_ w).

(** Modelled from the spec: [onConnectionUnbound(transport, sourceIdentity,
    cids)] clears the routing callback on the transport, removes all cids
    from ConnIdMap, moves them into RejectedCidSet, and removes
    [sourceIdentity] from SrcToTransportMap. *)
Definition onConnectionUnbound (transport : Transport)
    (sourceIdentity : SocketAddress * ConnectionId) (cids : list ConnectionId)
    (w : t) : t :=
  mk (foldr delete (connectionIdMap w) cids)
     (delete sourceIdentity (sourceAddressMap w))
     (rejectedCidSet w ∪ list_to_set cids)
     (boundTransports w ∖ {[transport]})
     (hostId_ w) (processId_ w) (workerId_ w) (packetForwardingEnabled_ w).

(** Modelled from the spec: [rejectConnectionId] (QuicServerWorker.cpp is
    missing). The spec names it without defining it; its behaviour is fixed
    by the assertions of [SimpleQuicServerWorkerTest.RejectCid] in
    quic/server/test/QuicServerTest.cpp: false on a fresh worker, true for a
    CID once [onConnectionIdAvailable] has registered it, false for every
    other CID, and false again after [onConnectionUnbound]. That is
    membership in ConnIdMap: a candidate CID is rejected while it is in
    use. *)
Definition rejectConnectionId (candidate : ConnectionId) (w : t) : bool :=
  bool_decide (is_Some (connectionIdMap w !! candidate)).

(** Modelled from the spec: [kMinInitialPacketSize] is 1200, and the
    destination connection id of a client Initial has at least 8 bytes. *)
Definition kMinInitialPacketSize : Z := 1200.
Definition kMinInitialDestinationConnIdLength : Z := 8.

Section Dispatch.

(** The external collaborators of the spec: [ConnIdAlgo::parse] and
    [TransportFactory::make]. *)
Variable parseConnectionId : ConnectionId -> option ServerConnectionIdParams.
Variable makeTransport : SocketAddress -> option Transport.

Definition isClientInitial (rd : RoutingData) : bool :=
  match routingHeaderForm rd with
  | Long => routingIsInitial rd
  | Short => false
  end.

(** A packet no table claims: short headers are answered with a stateless
    reset, long headers are dropped silently. *)
Definition connectionNotFound (rd : RoutingData) : RoutingAction :=
  match routingHeaderForm rd with
  | Short => SendStatelessReset CONNECTION_NOT_FOUND
  | Long => DropPacket CONNECTION_NOT_FOUND
  end.

(** Modelled from the spec: the routing decision of [dispatchPacketData]
    (data model, ingress classification steps 4 to 9, and the takeover
    rule), in the order the spec gives. ConnIdMap is authoritative. A
    packet matching RejectedCidSet is answered with a stateless reset and
    dropped ([ResetRejectedCid]; the spec names no drop reason for it).
    SrcToTransportMap routes long-header packets only: in
    [QuicServerWorkerTest.QuicServerNewConnection] a short-header packet
    from the address and with the connection id of a SrcToTransportMap
    entry is dropped, and delivered only once the id is in ConnIdMap,
    while the 0-RTT packet of [QuicServerTest.ZeroRttPacketRoute] is
    delivered through it. A client Initial of at least
    [kMinInitialPacketSize] bytes with a destination CID of at least 8
    bytes asks the factory for a transport. For every other packet the
    CID is parsed ([QuicServerWorkerTest.FailToParseConnectionId]: a
    failure drops the packet); a short-header packet whose CID parses to
    another host id is answered with a stateless reset; a packet marked as
    forwarded is not forwarded again; with forwarding enabled, a packet
    whose CID decodes to a foreign process id is forwarded; everything
    else is dropped. *)
Definition dispatchPacketData (client : SocketAddress) (rd : RoutingData)
    (dataLength : Z) (isForwardedData : bool) (w : t) : RoutingAction :=
  let dst := routingDestinationConnId rd in
  match connectionIdMap w !! dst with
  | Some transport => DeliverTo transport
  | None =>
      if bool_decide (dst ∈ rejectedCidSet w) then ResetRejectedCid
      else
        match routingHeaderForm rd, sourceAddressMap w !! (client, dst) with
        | Long, Some transport => DeliverTo transport
        | _, _ =>
            if isClientInitial rd then
              if dataLength <? kMinInitialPacketSize then
                DropPacket INVALID_PACKET_SIZE_INITIAL_TOO_SMALL
              else if sizeZ dst <? kMinInitialDestinationConnIdLength then
                DropPacket INVALID_PACKET_HEADER
              else
                match makeTransport client with
                | Some transport => AcceptNewTransport transport
                | None => DropPacket CANNOT_MAKE_TRANSPORT
                end
            else
              match parseConnectionId dst with
              | None => DropPacket PARSE_ERROR
              | Some params =>
                  match routingHeaderForm rd, hostId params =? hostId_ w with
                  | Short, false => SendStatelessReset ROUTING_ERROR_WRONG_HOST
                  | _, _ =>
                      if isForwardedData then connectionNotFound rd
                      else if packetForwardingEnabled_ w
                              && negb (ProcessId_eqb (processId params)
                                         (processId_ w))
                      then ForwardToPeerServer
                      else connectionNotFound rd
                  end
              end
        end
  end.

End Dispatch.

End QuicServerWorker.

(** ** The takeover envelope *)

Record NetworkData := mkNetworkData {
  datagram : list byte;
  receiveTimePoint : Z;
  isForwardedData : bool
}.

Module TakeoverPacketHandler.

(** Modelled from the spec: the version field of the envelope is 1. *)
Definition kTakeoverProtocolVersion : Z := 1.

(** Modelled from the spec: the writer of the takeover envelope
    (quic/server/QuicServerPacketRouter.cpp is not part of the sources at
    hand): a 32-bit version equal to 1, the 16-bit length of the peer
    [sockaddr] and its bytes, the 64-bit receive epoch, then the original
    datagram. All integers are big-endian, as the test reads them. *)
Definition forwardPacketToAnotherServer (peerAddress : SocketAddress)
    (receiveEpoch : Z) (data : list byte) : list byte :=
  be_bytes 4 kTakeoverProtocolVersion ++
  be_bytes 2 (sizeZ peerAddress) ++ peerAddress ++
  be_bytes 8 receiveEpoch ++
  data.

(** Modelled from the spec: the takeover reader strips the envelope and
    marks the resulting NetworkData as forwarded; [None] when the datagram
    is too short to hold the envelope it announces. *)
Definition processForwardedPacket (bytes : list byte)
  : option (SocketAddress * NetworkData) :=
  if (length bytes <? 4 + 2)%nat then None
  else
    let addrLen := Z.to_nat (be_value (take 2 (drop 4 bytes))) in
    let afterLen := drop (4 + 2) bytes in
    if (length afterLen <? addrLen + 8)%nat then None
    else
      let peerAddress := take addrLen afterLen in
      let receiveEpoch := be_value (take 8 (drop addrLen afterLen)) in
      Some (peerAddress,
            mkNetworkData (drop (addrLen + 8) afterLen) receiveEpoch true).

End TakeoverPacketHandler.

(** ** Reference definitions, written after the spec's words *)





(** The exponent [decodeAckFrame] scales the ack delay with. *)
Definition ackDelayExponentToUse (header : PacketHeader) (params : CodecParameters) : Z :=
  match getHeaderForm header with
  | Long => kDefaultAckDelayExponent
  | Short => uint8 (peerAckDelayExponent params)
  end.




(** How many times the padding loop of [buildPacket] runs: not at all without
    frames, and otherwise until the deficit is made up or only
    [kMaxPacketLenSize] bytes remain. *)
Definition padCount {F} (fuel : nat) (deficit remainingBytes : Z)
    (frames : list F) : nat :=
  match frames with
  | [] => O
  | _ :: _ =>
      Z.to_nat (Z.min (Z.of_nat fuel)
                  (Z.min deficit (remainingBytes - kMaxPacketLenSize)))
  end.

(** The bytes the body still lacks for header-protection sampling. *)
Definition paddingDeficit (minBodySize bodyLength cipherOverhead : Z) : Z :=
  Z.max 0 (minBodySize - (bodyLength + cipherOverhead)).

(** The offsets an in-place builder records in its constructor: the reserved
    packet-length slot, the packet-number slot right after it, and the body
    right after that. *)
Definition inplaceOffsetsOk {F} (b : InplaceQuicPacketBuilder.t F)
    (enc : PacketNumEncodingResult) : Prop :=
  0 <= InplaceQuicPacketBuilder.packetLenOffset_ F b
  /\ InplaceQuicPacketBuilder.packetNumOffset_ F b =
       InplaceQuicPacketBuilder.packetLenOffset_ F b + kMaxPacketLenSize
  /\ InplaceQuicPacketBuilder.bodyStart_ F b =
       InplaceQuicPacketBuilder.packetNumOffset_ F b + pnLength enc
  /\ InplaceQuicPacketBuilder.bodyStart_ F b
       <= sizeZ (InplaceQuicPacketBuilder.iobuf_ F b).

(** ** Sample inputs *)


Definition sampleAckHeader : PacketHeader :=
  HShort (mkShortHeader KeyPhaseZero [] 0).


Definition sampleShortHeaderCursor : Cursor :=
  [[x01; x02; x03; x04; x05; x06; x07; x08; x09]].

(** Four zero bytes of payload, chained over two buffers. *)
Definition chainedPadding : IOBufChain := [[x00; x00]; [x00; x00]].

Definition sampleResetToken : StatelessResetToken := repeat xab 16.

Definition sampleRandom : nat -> byte := fun _ => x5a.

Definition sampleHandshakeHeader : LongHeader :=
  mkLongHeader Handshake 0xfaceb001 [x01; x02] [x03; x04; x05] 1 [] None.

Definition sampleShortHeader : ShortHeader :=
  mkShortHeader KeyPhaseZero [x03; x04; x05] 1.

(** One frame was appended and one byte of body written. *)
Definition sampleRegularBuilder : option (RegularQuicPacketBuilder.t unit) :=
  b ← RegularQuicPacketBuilder.new unit 1200 (HLong sampleHandshakeHeader) 0;
  Some (RegularQuicPacketBuilder.appendFrame unit tt
          (RegularQuicPacketBuilder.push unit [x01] b)).

Definition sampleInplaceBuilder : option (InplaceQuicPacketBuilder.t unit) :=
  b ← InplaceQuicPacketBuilder.new unit [] 1200 (HLong sampleHandshakeHeader) 0;
  Some (InplaceQuicPacketBuilder.appendFrame unit tt
          (InplaceQuicPacketBuilder.push unit [x01] b)).

(** A builder on which no frame was appended. *)
Definition emptyRegularBuilder : option (RegularQuicPacketBuilder.t unit) :=
  RegularQuicPacketBuilder.new unit 1200 (HShort sampleShortHeader) 0.

(** The builders above, taken out of their [option]. *)
Definition regularBuilderState (o : option (RegularQuicPacketBuilder.t unit))
  : RegularQuicPacketBuilder.t unit :=
  match o with
  | Some b => b
  | None =>
      RegularQuicPacketBuilder.mk unit 0
        (mkRegularQuicWritePacket (HShort sampleShortHeader) []) [] [] None 0
  end.

Definition inplaceBuilderState (o : option (InplaceQuicPacketBuilder.t unit))
  : InplaceQuicPacketBuilder.t unit :=
  match o with
  | Some b => b
  | None =>
      InplaceQuicPacketBuilder.mk unit [] 0
        (mkRegularQuicWritePacket (HShort sampleShortHeader) []) None 0 0 0 0
  end.

Definition sampleEncoding : PacketNumEncodingResult :=
  mkPacketNumEncodingResult 1 1.

(** The connection ids and addresses of the worker tests. *)
Definition includeCid : ConnectionId := [x00; x00; x00; x00; x00; x00; x00; x00].
Definition excludeCid : ConnectionId := [x00; x01; x00; x00; x00; x00; x00; x00].
Definition testAddr : SocketAddress := [x0a; x00; x00; x00; x00; x00; x00; x01].

(** The steps of [SimpleQuicServerWorkerTest.RejectCid]. *)
Definition rejectCidAvailable : QuicServerWorker.t :=
  QuicServerWorker.onConnectionIdAvailable 1%nat includeCid QuicServerWorker.new.

Definition rejectCidUnbound : QuicServerWorker.t :=
  QuicServerWorker.onConnectionUnbound 1%nat (testAddr, includeCid) [includeCid]
    rejectCidAvailable.

(** A worker with host id 49 and process id one that forwards packets, and a
    [ConnIdAlgo] that parses every CID to host 50, process zero. *)
Definition forwardingWorker : QuicServerWorker.t :=
  QuicServerWorker.startPacketForwarding
    (QuicServerWorker.setProcessId ProcessOne
       (QuicServerWorker.setHostId 49 QuicServerWorker.new)).

Definition otherHostAlgo : ConnectionId -> option ServerConnectionIdParams :=
  fun _ => Some (mkServerConnectionIdParams 50 ProcessZero 0).

Definition sameHostAlgo : ConnectionId -> option ServerConnectionIdParams :=
  fun _ => Some (mkServerConnectionIdParams 49 ProcessZero 0).

Definition noTransport : SocketAddress -> option Transport := fun _ => None.

Definition shortRoutingData : RoutingData :=
  mkRoutingData Short false false includeCid None.

Definition handshakeRoutingData : RoutingData :=
  mkRoutingData Long false false includeCid (Some excludeCid).

(** The forwarding worker with one more table entry: the connection id in
    ConnIdMap; the connection id of a transport that was unbound, so in
    RejectedCidSet; and the address and connection id of a first packet in
    SrcToTransportMap, as the worker records them on accepting a transport. *)
Definition forwardingWorkerWithCid : QuicServerWorker.t :=
  QuicServerWorker.onConnectionIdAvailable 7%nat includeCid forwardingWorker.

Definition forwardingWorkerUnbound : QuicServerWorker.t :=
  QuicServerWorker.onConnectionUnbound 7%nat (testAddr, includeCid) [includeCid]
    forwardingWorkerWithCid.

Definition forwardingWorkerWithSource : QuicServerWorker.t :=
  QuicServerWorker.mk ∅ {[ (testAddr, includeCid) := 7%nat ]} ∅ {[ 7%nat ]}
    49 ProcessOne 0 true.

(** ** Initial bytes *)

(** The initial byte of a short header as [encodeShortHeaderHelper] computes
    it, and what the parser reads from it. *)
Definition shortInitialByte (protectionType : ProtectionType) (pnLen : Z) : Z :=
  let initialByte1 :=
    uint8 (Z.land (uint8 (Z.lor ShortHeaderMasks.kFixedBitMask (pnLen - 1)))
                  (Z.lnot ShortHeaderMasks.kReservedBitsMask)) in
  match protectionType with
  | KeyPhaseOne => uint8 (Z.lor initialByte1 ShortHeaderMasks.kKeyPhaseMask)
  | KeyPhaseZero => initialByte1
  end.

(** The initial byte of a long header that is not a Retry. *)
Definition longInitialByte (type : LongHeaderTypes) (pnLen : Z) : Z :=
  uint8 (Z.lor
           (Z.land
              (uint8 (Z.lor (Z.lor kHeaderFormMask LongHeaderMasks.kFixedBitMask)
                        (Z.shiftl (longHeaderTypeValue type)
                           LongHeaderMasks.kTypeShift)))
              (Z.lnot LongHeaderMasks.kReservedBitsMask))
           (pnLen - 1)).

(** ** Variable-length integers on plain bytes *)

(** The variable-length integer at the head of [bytes], as
    [decodeQuicInteger] reads it off a cursor over them: its value, the
    number of bytes it takes, and the bytes behind it; [None] when [bytes]
    end before the integer does. *)
Definition varintAtHead (bytes : list byte) : option (Z * Z * list byte) :=
  '(value, size, cursor) ← decodeQuicInteger [bytes];
  Some (value, size, concat cursor).

(** The initial byte of a Retry header, whose low four bits the helper
    replaces by a function of the length of the original destination
    connection id. *)
Definition retryInitialByte (pnLen odcidSize : Z) : Z :=
  uint8 (Z.lor (Z.land (longInitialByte Retry pnLen) 0xF0)
               (if odcidSize =? 0 then 0 else odcidSize - 3)).

(** ** The two packet builders side by side *)

(** The two builders hold the same packet: the in-place buffer is [pre]
    (what the buffer held before, and the header) followed by the body of
    the growable builder, and all counters agree. *)
Definition sameBuilderState {F} (pre : list byte)
    (b1 : RegularQuicPacketBuilder.t F) (b2 : InplaceQuicPacketBuilder.t F)
  : Prop :=
  InplaceQuicPacketBuilder.iobuf_ F b2 =
    pre ++ RegularQuicPacketBuilder.body_ F b1
  /\ InplaceQuicPacketBuilder.bodyStart_ F b2 = sizeZ pre
  /\ InplaceQuicPacketBuilder.remainingBytes_ F b2 =
       RegularQuicPacketBuilder.remainingBytes_ F b1
  /\ InplaceQuicPacketBuilder.packet_ F b2 = RegularQuicPacketBuilder.packet_ F b1
  /\ InplaceQuicPacketBuilder.packetNumberEncoding_ F b2 =
       RegularQuicPacketBuilder.packetNumberEncoding_ F b1
  /\ InplaceQuicPacketBuilder.cipherOverhead_ F b2 =
       RegularQuicPacketBuilder.cipherOverhead_ F b1.

(** What the comparison of the two builders needs to know of [BufWriter]:
    for the limited inserts among the calls [cs], and as long as the bytes
    written stay within [capacity], [BufWriter::insert] copies the first
    [limit] bytes of a chain that has them, as [Cursor::clone] does for the
    growable builder. *)
Definition bufWriterCopies {F}
    (bufWriterInsert : list byte -> IOBufChain -> Z -> option (list byte))
    (capacity : Z) (cs : list (BuilderCall F)) : Prop :=
  forall (written : list byte) (buf : IOBufChain) (limit : Z),
    In (CallInsertLimit buf limit) cs ->
    uint64 limit <= totalLength buf ->
    sizeZ written + uint64 limit <= capacity ->
    bufWriterInsert written buf (uint64 limit) =
      Some (pull (Z.to_nat (uint64 limit)) buf).

(** ** Sample inputs for the builders and the decoders *)

(** The calls behind [sampleRegularBuilder] and [sampleInplaceBuilder]. *)
Definition sampleCalls : list (BuilderCall unit) :=
  [CallPush [x01]; CallAppendFrame tt].

(** A packet taken out of the [option] of [buildPacket]. *)
Definition packetOfBuild (o : option (Packet unit)) : Packet unit :=
  match o with
  | Some p => p
  | None =>
      mkPacket (mkRegularQuicWritePacket (HShort sampleShortHeader) []) [] []
  end.

(** The builders of [sampleRegularBuilder] and [sampleInplaceBuilder] as
    their constructors leave them. *)
Definition sampleRegularStart : RegularQuicPacketBuilder.t unit :=
  regularBuilderState
    (RegularQuicPacketBuilder.new unit 1200 (HLong sampleHandshakeHeader) 0).

Definition sampleInplaceStart : InplaceQuicPacketBuilder.t unit :=
  inplaceBuilderState
    (InplaceQuicPacketBuilder.new unit [] 1200 (HLong sampleHandshakeHeader) 0).

Definition sampleRegularPacket : Packet unit :=
  packetOfBuild
    (RegularQuicPacketBuilder.buildPacket unit 16
       (regularBuilderState sampleRegularBuilder)).

Definition sampleInplacePacket : Packet unit :=
  packetOfBuild
    (InplaceQuicPacketBuilder.buildPacket unit 16
       (inplaceBuilderState sampleInplaceBuilder)).

(** A [BufWriter::insert] that copies the first [limit] bytes of the chain,
    whatever the buffer holds. *)
Definition sampleBufWriterInsert (written : list byte) (buf : IOBufChain)
    (limit : Z) : option (list byte) :=
  Some (pull (Z.to_nat limit) buf).

(** Calls on a builder with a short header: two bytes of a chained buffer of
    three, then one frame. *)
Definition sampleShortCalls : list (BuilderCall unit) :=
  [CallInsertLimit [[x01; x02]; [x03]] 2; CallAppendFrame tt].

Definition sampleShortBuilt : RegularQuicPacketBuilder.t unit :=
  regularBuilderState
    (RegularQuicPacketBuilder.calls unit sampleShortCalls
       (regularBuilderState emptyRegularBuilder)).

Definition sampleShortPacket : Packet unit :=
  packetOfBuild (RegularQuicPacketBuilder.buildPacket unit 16 sampleShortBuilt).

(** A long-header invariant whose destination connection id claims 21
    bytes. *)
Definition longCidCursor : Cursor := [[x00; x00; x00; x01; x15]].

(** The invariant of a Handshake packet, and the rest of such a packet: a
    length of 2, a one-byte packet number and one more byte. *)
Definition sampleInvariant : ParsedLongHeaderInvariant :=
  mkParsedLongHeaderInvariant 0xe0
    (mkLongHeaderInvariant 0xfaceb001 [x01; x02] [x03; x04; x05]) 12.

Definition sampleVariantCursor : Cursor := [[x02; x01; xff]].

(** An ACK frame in a short-header packet. *)
Definition sampleAckQueue : BufQueue := [[x02; x0a; x01; x00; x00]].

(** A STREAM frame with offset and length (type 0x0e): stream 4, offset 2,
    three bytes of data, and a PING after it. *)
Definition sampleStreamQueue : BufQueue :=
  [[x0e; x04; x02; x03; x61; x62; x63; x01]].

(** The frame type 0x101 in two bytes, and a PADDING byte. *)
Definition samplePingQueue : BufQueue := [[x41; x01; x00]].

(** A CONNECTION_CLOSE frame: error code 10, offending frame type 6, and the
    reason phrase "no". *)
Definition sampleCloseQueue : BufQueue :=
  [[x1c; x0a; x06; x02; x6e; x6f]].

(** The same frame cut short inside its length field, which announces two
    bytes and has one. *)
Definition cutCloseQueue : BufQueue := [[x1c; x0a; x06; x40]].

(** Stand-ins for the two frame types of the partial-reliability extension
    and for [kMaxReasonPhraseLength], whose values are not in the sources at
    hand. *)
Definition sampleMinStreamData : FrameType := 0xfe.
Definition sampleExpiredStreamData : FrameType := 0xff.
Definition sampleMaxReasonPhraseLength : Z := 1024.

(** [FrameCodec.parseFrame] with those and with error codes kept as the
    integers read. *)
Definition sampleParseFrame :=
  FrameCodec.parseFrame (fun code : Z => code) (fun code : Z => code)
    sampleMaxReasonPhraseLength sampleMinStreamData sampleExpiredStreamData.

(** A Retry header with a four-byte original destination connection id and
    the token "tok", and the bytes [encodeLongHeaderHelper] writes for it. *)
Definition sampleRetryHeader : LongHeader :=
  mkLongHeader Retry 0xfaceb001 [x01; x02] [x03; x04; x05] 1 [x74; x6f; x6b]
    (Some [x09; x09; x09; x09]).

Definition sampleRetryBytes : list byte :=
  [xf1; xfa; xce; xb0; x01; x03; x03; x04; x05; x02; x01; x02; x04; x09; x09;
   x09; x09; x74; x6f; x6b].

(** * Properties *)

(** ** Bytes and big-endian integers *)

Lemma Z_of_byte_range (b : byte) : 0 <= Z_of_byte b < 256.
Proof.
  unfold Z_of_byte. pose proof (Byte.to_N_bounded b) as H. lia.
Qed.

Lemma byte_of_Z_of_byte (b : byte) : byte_of_Z (Z_of_byte b) = b.
Proof.
  unfold byte_of_Z. pose proof (Z_of_byte_range b) as H.
  rewrite Z.mod_small by lia. unfold Z_of_byte. rewrite N2Z.id.
  rewrite Byte.of_to_N. reflexivity.
Qed.

Lemma Z_of_byte_of_Z (z : Z) : Z_of_byte (byte_of_Z z) = z mod 256.
Proof.
  unfold byte_of_Z, Z_of_byte.
  pose proof (Z.mod_pos_bound z 256 ltac:(lia)) as Hz.
  destruct (Byte.of_N (Z.to_N (z mod 256))) as [b|] eqn:E.
  - apply Byte.to_of_N in E. rewrite E. lia.
  - exfalso. pose proof (Byte.of_N_None_iff (Z.to_N (z mod 256))) as Hn.
    apply Hn in E. lia.
Qed.

Lemma be_bytes_length (n : nat) (v : Z) : length (be_bytes n v) = n.
Proof.
  revert v. induction n as [|n IH]; intros v; simpl; [reflexivity|].
  rewrite length_app, IH. simpl. lia.
Qed.

Lemma be_value_app (xs ys : list byte) :
  be_value (xs ++ ys) = be_value xs * 256 ^ Z.of_nat (length ys) + be_value ys.
Proof.
  unfold be_value. rewrite fold_left_app.
  generalize (fold_left (fun acc b => acc * 256 + Z_of_byte b) xs 0) as a.
  induction ys as [|y ys IH] using rev_ind; intros a.
  - simpl. lia.
  - rewrite !fold_left_app. simpl. rewrite IH.
    rewrite length_app. simpl length.
    replace (Z.of_nat (length ys + 1)) with (Z.of_nat (length ys) + 1) by lia.
    rewrite Z.pow_add_r by lia.
    rewrite (IH 0). lia.
Qed.

Lemma be_value_cons (b : byte) (bs : list byte) :
  be_value (b :: bs) = Z_of_byte b * 256 ^ Z.of_nat (length bs) + be_value bs.
Proof.
  change (b :: bs) with ([b] ++ bs). rewrite be_value_app.
  unfold be_value at 1. simpl. lia.
Qed.

Lemma be_value_range (bs : list byte) :
  0 <= be_value bs < 256 ^ Z.of_nat (length bs).
Proof.
  induction bs as [|b bs IH].
  - unfold be_value. simpl. lia.
  - rewrite be_value_cons. pose proof (Z_of_byte_range b) as Hb.
    simpl length. rewrite Nat2Z.inj_succ, Z.pow_succ_r by lia. nia.
Qed.

Lemma be_value_be_bytes (n : nat) (v : Z) :
  be_value (be_bytes n v) = v mod 256 ^ Z.of_nat n.
Proof.
  revert v. induction n as [|n IH]; intros v.
  - simpl. unfold be_value. simpl. rewrite Z.mod_1_r. reflexivity.
  - simpl be_bytes. rewrite be_value_app, IH. simpl length.
    replace (be_value [byte_of_Z v]) with (v mod 256)
      by (unfold be_value; simpl; rewrite Z_of_byte_of_Z; reflexivity).
    change (256 ^ Z.of_nat 1) with 256.
    rewrite (Nat2Z.inj_succ n), Z.pow_succ_r by lia.
    rewrite Z.rem_mul_r by lia. lia.
Qed.

(** ** Cursors and variable-length integers *)

Lemma concat_skip (n : nat) (c : Cursor) : concat (skip n c) = drop n (concat c).
Proof.
  revert n. induction c as [|b c IH]; intros n; simpl.
  - destruct n; reflexivity.
  - destruct (Nat.ltb_spec n (length b)) as [Hlt|Hge]; simpl.
    + rewrite drop_app_le by lia. reflexivity.
    + rewrite IH, drop_app_ge by lia. reflexivity.
Qed.




(** ** ACK frames *)

Lemma uint64_small (z : Z) : 0 <= z < 2 ^ 64 -> uint64 z = z.
Proof. intros H. unfold uint64, wrap. apply Z.mod_small. exact H. Qed.
















(** The steps of an ACK decoding never fail a [DCHECK] once the ack-delay
    exponent has passed the two at the head of the scaling. *)
Lemma decodeAckBlocks_not_Aborted (n : nat) :
  forall (c : Cursor) (p : PacketNum) (acc : list AckBlock),
    decodeAckBlocks n c p acc <> Aborted.
Proof.
  induction n as [|n IH]; intros c p acc; cbn [decodeAckBlocks];
    [discriminate|].
  unfold decodeAckInteger, nextAckedPacketGap, nextAckedPacketLen, throwAck.
  destruct (decodeQuicInteger c) as [[[g n1] c1]|];
    cbn [mbind outcome_bind]; [|discriminate].
  destruct (decodeQuicInteger c1) as [[[l n2] c2]|];
    cbn [mbind outcome_bind]; [|discriminate].
  destruct (p <? uint64 (g + 2)); cbn [mbind outcome_bind]; [discriminate|].
  destruct (p - uint64 (g + 2) <? l); cbn [mbind outcome_bind];
    [discriminate|].
  apply IH.
Qed.





(** ** Short headers *)

Lemma land_pow2_eqb (b k : Z) :
  0 <= k -> (Z.land b (2 ^ k) =? 0) = negb (Z.testbit b k).
Proof.
  intros Hk.
  assert (H : Z.land b (2 ^ k) = if Z.testbit b k then 2 ^ k else 0).
  { apply Z.bits_inj'. intros n Hn. rewrite Z.land_spec, Z.pow2_bits_eqb by lia.
    destruct (Z.eqb_spec k n) as [->|Hne].
    - rewrite andb_true_r. destruct (Z.testbit b n).
      + rewrite Z.pow2_bits_true by lia. reflexivity.
      + rewrite Z.bits_0. reflexivity.
    - rewrite andb_false_r. destruct (Z.testbit b k).
      + rewrite Z.pow2_bits_false by lia. reflexivity.
      + rewrite Z.bits_0. reflexivity. }
  rewrite H. destruct (Z.testbit b k); simpl.
  - apply Z.eqb_neq. assert (0 < 2 ^ k) by (apply Z.pow_pos_nonneg; lia). lia.
  - reflexivity.
Qed.

Lemma reserved_bits_eqb (b : Z) :
  (Z.land b ShortHeaderMasks.kReservedBitsMask =? 0) =
  negb (Z.testbit b 4) && negb (Z.testbit b 5).
Proof.
  change ShortHeaderMasks.kReservedBitsMask with (Z.lor (2 ^ 4) (2 ^ 5)).
  rewrite Z.land_lor_distr_r.
  rewrite <- (land_pow2_eqb b 4), <- (land_pow2_eqb b 5) by lia.
  destruct (Z.eqb_spec (Z.land b (2 ^ 4)) 0) as [H4|H4],
           (Z.eqb_spec (Z.land b (2 ^ 5)) 0) as [H5|H5]; simpl.
  - apply Z.eqb_eq. rewrite H4, H5. reflexivity.
  - apply Z.eqb_neq. intros H. apply Z.lor_eq_0_iff in H. tauto.
  - apply Z.eqb_neq. intros H. apply Z.lor_eq_0_iff in H. tauto.
  - apply Z.eqb_neq. intros H. apply Z.lor_eq_0_iff in H. tauto.
Qed.

(** C4, as the code has it. For an initial byte of short header form,
    [parseShortHeader] fails with FRAME_ENCODING_ERROR when the fixed bit
    (bit 6) is 0, and with PROTOCOL_VIOLATION when the fixed bit is 1 and the
    reserved bits (bits 4-5) are not both zero; when it succeeds, the fixed
    bit is 1, the reserved bits are zero, and the key phase of the returned
    header is KeyPhaseOne exactly when bit 2 of the initial byte is set. *)
Theorem parseShortHeader_initial_byte (initialByte : Z) (cursor : Cursor)
    (dstConnIdSize : Z) :
  getHeaderFormOfByte initialByte = Short ->
  (Z.testbit initialByte 6 = false ->
     parseShortHeader initialByte cursor dstConnIdSize = inl FRAME_ENCODING_ERROR)
  /\ (Z.testbit initialByte 6 = true ->
      Z.testbit initialByte 4 = true \/ Z.testbit initialByte 5 = true ->
      parseShortHeader initialByte cursor dstConnIdSize = inl PROTOCOL_VIOLATION)
  /\ (forall header cursor',
        parseShortHeader initialByte cursor dstConnIdSize = inr (header, cursor') ->
        Z.testbit initialByte 6 = true
        /\ Z.testbit initialByte 4 = false
        /\ Z.testbit initialByte 5 = false
        /\ (shortProtectionType header = KeyPhaseOne <->
            Z.testbit initialByte 2 = true)).
Proof.
  intros Hform. unfold parseShortHeader. rewrite Hform.
  change ShortHeaderMasks.kFixedBitMask with (2 ^ 6).
  change ShortHeaderMasks.kKeyPhaseMask with (2 ^ 2).
  rewrite !land_pow2_eqb by lia. rewrite reserved_bits_eqb.
  remember (Z.testbit initialByte 2) as keyPhaseBit eqn:Hkp. clear Hkp.
  remember (Z.testbit initialByte 4) as r4 eqn:H4. clear H4.
  remember (Z.testbit initialByte 5) as r5 eqn:H5. clear H5.
  remember (Z.testbit initialByte 6) as fixedBit eqn:H6. clear H6.
  split; [|split].
  - intros ->. reflexivity.
  - intros -> [-> | ->]; [reflexivity|]. destruct r4; reflexivity.
  - intros header cursor'.
    destruct fixedBit; cbn [negb]; [|discriminate].
    destruct r4; cbn [negb andb]; [discriminate|].
    destruct r5; cbn [negb andb]; [discriminate|].
    destruct (parseShortHeaderInvariants initialByte cursor dstConnIdSize)
      as [|[connId c]]; [discriminate|].
    intros H. injection H as <- _. cbn [shortProtectionType].
    split; [reflexivity|]. split; [reflexivity|]. split; [reflexivity|].
    destruct keyPhaseBit; cbn [negb]; split; intros Hk;
      first [reflexivity | discriminate Hk].
Qed.

Lemma parseShortHeader_initial_byte_witness :
  getHeaderFormOfByte 0x44 = Short
  /\ parseShortHeader 0x44 sampleShortHeaderCursor 8 =
       inr (mkShortHeader KeyPhaseOne [x01; x02; x03; x04; x05; x06; x07; x08] 0,
            [[x09]])
  /\ Z.testbit 0x44 2 = true.
Proof.
  split; [reflexivity|]. split; [reflexivity|].
  exact (proj1 (proj2 (proj2 (proj2 (proj2 (proj2
           (parseShortHeader_initial_byte 0x44 sampleShortHeaderCursor 8 eq_refl))
           _ _ eq_refl)))) eq_refl).
Defined.

(** With the fixed bit clear the error is FRAME_ENCODING_ERROR, not
    PROTOCOL_VIOLATION. *)
Lemma parseShortHeader_fixed_bit_clear :
  getHeaderFormOfByte 0x00 = Short
  /\ Z.testbit 0x00 6 = false
  /\ parseShortHeader 0x00 sampleShortHeaderCursor 8 = inl FRAME_ENCODING_ERROR
  /\ parseShortHeader 0x00 sampleShortHeaderCursor 8 <> inl PROTOCOL_VIOLATION.
Proof. repeat split; [reflexivity..|discriminate]. Qed.

(** ** Padding *)

Lemma bytes_eqb_refl (bs : list byte) : bytes_eqb bs bs = true.
Proof.
  induction bs as [|b bs IH]; simpl; [reflexivity|].
  unfold byte_eqb. rewrite Z.eqb_refl, IH. reflexivity.
Qed.

Lemma take_repeat_pred {A} (x : A) (m : nat) :
  take m (repeat x (S m)) = repeat x m.
Proof. induction m as [|m IH]; simpl in *; [reflexivity|]. rewrite IH. reflexivity. Qed.

Lemma totalLength_single (l : list byte) : totalLength [l] = Z.of_nat (length l).
Proof. unfold totalLength. simpl. rewrite app_nil_r. reflexivity. Qed.

Section Padding.

Variable OtherFrame : Type.
Variable decodeOtherFrame :
  FrameType -> Z -> PacketHeader -> CodecParameters -> BufQueue ->
  option (OtherFrame * BufQueue).

Lemma decodeQuicInteger_zero (n : nat) :
  decodeQuicInteger [repeat x00 (S n)] =
    Some (0, 1, match n with O => [] | S _ => [repeat x00 n] end).
Proof.
  unfold decodeQuicInteger, canAdvance, totalLength, pull. simpl concat.
  rewrite app_nil_r. simpl repeat.
  change (Z.to_nat (2 ^ (Z_of_byte "000" / 64))) with 1%nat.
  destruct (Z.leb_spec (Z.of_nat 1) (Z.of_nat (length (x00 :: repeat x00 n))))
    as [_|H]; [|simpl in H; lia].
  simpl take. rewrite take_0. destruct n; reflexivity.
Qed.

Lemma decodePaddingFrame_zeros (m : nat) :
  decodePaddingFrame [repeat x00 (S m)] = [].
Proof.
  unfold decodePaddingFrame, peekBytes. simpl skip.
  change (drop 0 (x00 :: repeat x00 m)) with (repeat x00 (S m)).
  simpl repeat. cbv iota beta.
  change (Z_of_byte "000" =? PADDING) with true. simpl negb. cbv iota.
  change (x00 :: repeat x00 m) with (repeat x00 (S m)).
  rewrite repeat_length. replace (S m - 1)%nat with m by lia.
  rewrite take_repeat_pred. simpl drop. rewrite drop_0, bytes_eqb_refl.
  rewrite Nat.ltb_irrefl. reflexivity.
Qed.

(** A payload of one or more zero bytes held in a single contiguous buffer
    is consumed whole by one call of [parseFrame], which returns one Padding
    frame; [decodeRegularPacket] therefore yields exactly one Padding frame
    for the whole run, as the comment at the head of [decodePaddingFrame]
    says. *)
Theorem padding_run_is_one_frame (header : PacketHeader)
    (params : CodecParameters) (n : nat) :
  parseFrame OtherFrame decodeOtherFrame [repeat x00 (S n)] header params =
    Ok (QuicPaddingFrame, [])
  /\ decodeRegularPacket OtherFrame decodeOtherFrame header params
       [repeat x00 (S n)] =
     Some (Ok (mkRegularQuicPacket header [QuicPaddingFrame])).
Proof.
  assert (Hp : parseFrame OtherFrame decodeOtherFrame [repeat x00 (S n)]
                 header params = Ok (QuicPaddingFrame, [])).
  { unfold parseFrame.
    assert (Hc : canAdvance 1 [repeat x00 (S n)] = true).
    { unfold canAdvance. rewrite totalLength_single, repeat_length.
      apply Z.leb_le. lia. }
    rewrite Hc. simpl negb. cbv iota.
    rewrite decodeQuicInteger_zero.
    change (uint8 0 =? PADDING) with true. cbv iota.
    destruct n as [|m]; [reflexivity|].
    rewrite decodePaddingFrame_zeros. reflexivity. }
  split; [exact Hp|].
  assert (Hl : (chainLength [repeat x00 (S n)] >? 0) = true).
  { unfold chainLength. rewrite totalLength_single, repeat_length.
    apply Z.gtb_lt. lia. }
  unfold decodeRegularPacket.
  replace (length (concat [repeat x00 (S n)])) with (S n)
    by (cbn [concat]; rewrite app_nil_r, repeat_length; reflexivity).
  cbn [decodeFrames]. rewrite Hl, Hp. destruct n; reflexivity.
Qed.

End Padding.

(** C9, at a payload chained over two buffers. [decodePaddingFrame] is to
    "consume all the padding and return 1 padding frame for everything", as
    its own comment has it, but it compares and skips [cursor.peekBytes()],
    the bytes left in the current buffer: four zero bytes chained two and
    two come out as two Padding frames. *)
Lemma padding_chained_two_frames :
  concat chainedPadding = repeat x00 4
  /\ decodeRegularPacket unit (fun _ _ _ _ _ => None) sampleAckHeader
       (mkCodecParameters 3) chainedPadding =
     Some (Ok (mkRegularQuicPacket sampleAckHeader
                 [QuicPaddingFrame; QuicPaddingFrame])).
Proof. split; reflexivity. Qed.

(** ** Stateless reset packets *)

Lemma uint16_small (z : Z) : 0 <= z < 2 ^ 16 -> uint16 z = z.
Proof. intros H. unfold uint16, wrap. apply Z.mod_small. exact H. Qed.

Lemma statelessReset_length (secureRandom : nat -> byte) (maxPacketSize : Z)
    (resetToken : StatelessResetToken) :
  length (StatelessResetPacketBuilder.new secureRandom maxPacketSize resetToken) =
  (1 + Z.to_nat (uint16 (maxPacketSize - sizeZ resetToken - 1)) + length resetToken)%nat.
Proof.
  unfold StatelessResetPacketBuilder.new.
  rewrite !length_app, length_map, length_seq. simpl. lia.
Qed.

(** C8, for a packet size that leaves room for the token. For every
    [maxPacketSize] of at least 17 (and below 2^16, its type) and every
    16-byte reset token, the builder emits one initial byte with only the
    fixed bit set, [maxPacketSize - 16 - 1] random bytes, then the token: the
    datagram is [maxPacketSize] bytes long and its last 16 bytes are the
    token. *)
Theorem statelessReset_layout (secureRandom : nat -> byte) (maxPacketSize : Z)
    (resetToken : StatelessResetToken) :
  length resetToken = 16%nat ->
  17 <= maxPacketSize < 2 ^ 16 ->
  let data :=
    StatelessResetPacketBuilder.buildPacket
      (StatelessResetPacketBuilder.new secureRandom maxPacketSize resetToken) in
  data = [x40] ++
         map secureRandom (seq 0 (Z.to_nat (maxPacketSize - 16 - 1))) ++
         resetToken
  /\ Z.of_nat (length data) = maxPacketSize
  /\ drop (length data - 16) data = resetToken.
Proof.
  intros Htok Hmax data.
  assert (Hd : data = [x40] ++
            map secureRandom (seq 0 (Z.to_nat (maxPacketSize - 16 - 1))) ++
            resetToken).
  { unfold data, StatelessResetPacketBuilder.buildPacket,
      StatelessResetPacketBuilder.new, sizeZ.
    rewrite Htok. change (Z.of_nat 16) with 16.
    rewrite uint16_small by lia. reflexivity. }
  split; [exact Hd|].
  assert (Hl : length data = Z.to_nat maxPacketSize).
  { rewrite Hd, !length_app, length_map, length_seq, Htok. simpl. lia. }
  split; [lia|].
  rewrite Hd, app_assoc. apply drop_app_length'.
  rewrite <- app_assoc, <- Hd, Hl, length_app, length_map, length_seq. simpl. lia.
Qed.

Lemma statelessReset_layout_witness :
  length sampleResetToken = 16%nat
  /\ 17 <= 20 < 2 ^ 16
  /\ StatelessResetPacketBuilder.buildPacket
       (StatelessResetPacketBuilder.new sampleRandom 20 sampleResetToken) =
     [x40; x5a; x5a; x5a] ++ sampleResetToken.
Proof.
  split; [reflexivity|]. split; [lia|].
  exact (proj1 (statelessReset_layout sampleRandom 20 sampleResetToken
                  eq_refl ltac:(lia))).
Defined.

(** With [maxPacketSize = 16] the subtraction wraps in [uint16_t]: the builder
    draws 65535 random bytes and the datagram is 65552 bytes long. *)
Lemma statelessReset_small_packet_size :
  length sampleResetToken = 16%nat
  /\ Z.of_nat (length (StatelessResetPacketBuilder.buildPacket
               (StatelessResetPacketBuilder.new sampleRandom 16 sampleResetToken)))
     = 65552
  /\ Z.of_nat (length (StatelessResetPacketBuilder.buildPacket
               (StatelessResetPacketBuilder.new sampleRandom 16 sampleResetToken)))
     <> 16.
Proof.
  split; [reflexivity|].
  unfold StatelessResetPacketBuilder.buildPacket.
  rewrite statelessReset_length.
  change (length sampleResetToken) with 16%nat.
  change (sizeZ sampleResetToken) with 16.
  change (uint16 (16 - 16 - 1)) with 65535.
  split; lia.
Qed.

(** ** Version negotiation packets *)

Lemma uint32_small (z : Z) : 0 <= z < 2 ^ 32 -> uint32 z = z.
Proof. intros H. unfold uint32, wrap. apply Z.mod_small. exact H. Qed.

Section VersionNegotiation.

Variable kDefaultUDPSendPacketLen : Z.

(** The version loop writes the first [min (length vs) (remaining / 4)]
    versions and stops. *)
Lemma writeVersions_spec (vs : list QuicVersion) :
  forall (r : Z) (p : VersionNegotiationPacket) (dat : list byte),
    0 <= r < 2 ^ 32 ->
    let k := Nat.min (length vs) (Z.to_nat (r / 4)) in
    VersionNegotiationPacketBuilder.writeVersions vs
      (VersionNegotiationPacketBuilder.mk r p dat) =
      VersionNegotiationPacketBuilder.mk (r - 4 * Z.of_nat k)
        (mkVersionNegotiationPacket (packetType p) (sourceConnectionId p)
           (destinationConnectionId p) (versions p ++ take k vs))
        (dat ++ concat (map (be_bytes 4) (take k vs))).
Proof.
  induction vs as [|v vs IH]; intros r p dat Hr k.
  - subst k. simpl. rewrite !app_nil_r, Z.sub_0_r.
    destruct p as [pt s d vs0]. reflexivity.
  - cbn [VersionNegotiationPacketBuilder.writeVersions
         VersionNegotiationPacketBuilder.remainingBytes_
         VersionNegotiationPacketBuilder.packet_
         VersionNegotiationPacketBuilder.data_].
    destruct (Z.ltb_spec r 4) as [Hlt|Hge].
    + assert (Hk : k = 0%nat).
      { subst k. rewrite Z.div_small by lia. simpl. lia. }
      rewrite Hk. simpl. rewrite !app_nil_r, Z.sub_0_r.
      destruct p as [pt s d vs0]. reflexivity.
    + assert (Hq : r / 4 = (r - 4) / 4 + 1).
      { replace r with ((r - 4) + 1 * 4) at 1 by lia.
        rewrite Z.div_add by lia. reflexivity. }
      assert (Hq0 : 0 <= (r - 4) / 4) by (apply Z.div_pos; lia).
      rewrite uint32_small by lia.
      rewrite IH by lia.
      cbn [packetType sourceConnectionId destinationConnectionId versions].
      assert (Hk : k = S (Nat.min (length vs) (Z.to_nat ((r - 4) / 4)))).
      { subst k. rewrite Hq. simpl length.
        rewrite Z2Nat.inj_add by lia. change (Z.to_nat 1) with 1%nat.
        rewrite Nat.add_1_r. reflexivity. }
      rewrite Hk. cbn [take map concat]. rewrite <- !app_assoc. cbn [app].
      f_equal. lia.
Qed.

(** C10. The version-negotiation builder starts from a budget of
    [kDefaultUDPSendPacketLen] bytes, spends [7 + |dcid| + |scid|] on the
    header, and writes a version only while at least 4 bytes remain. The
    versions written are the first [k] of the supplied list, where [k] is the
    largest number of versions that fit the remaining budget; the versions
    after them appear neither in the wire bytes nor in the returned packet. *)
Theorem versionNegotiation_longest_prefix (srcConnId dstConnId : ConnectionId)
    (vs : list QuicVersion) :
  0 <= kDefaultUDPSendPacketLen < 2 ^ 32 ->
  7 + sizeZ dstConnId + sizeZ srcConnId <= kDefaultUDPSendPacketLen ->
  let budget := kDefaultUDPSendPacketLen - (7 + sizeZ dstConnId + sizeZ srcConnId) in
  let k := Nat.min (length vs) (Z.to_nat (budget / 4)) in
  let '(packet, data) :=
    VersionNegotiationPacketBuilder.buildPacket
      (VersionNegotiationPacketBuilder.new kDefaultUDPSendPacketLen
         srcConnId dstConnId vs) in
  versions packet = take k vs
  /\ data =
       VersionNegotiationPacketBuilder.headerBytes
         (mkVersionNegotiationPacket kHeaderFormMask srcConnId dstConnId [])
       ++ concat (map (be_bytes 4) (take k vs))
  /\ 4 * Z.of_nat k <= budget
  /\ ((k < length vs)%nat -> budget - 4 * Z.of_nat k < 4)
  /\ VersionNegotiationPacketBuilder.remainingSpaceInPkt
       (VersionNegotiationPacketBuilder.new kDefaultUDPSendPacketLen
          srcConnId dstConnId vs) = budget - 4 * Z.of_nat k.
Proof.
  intros HK Hfit budget k.
  unfold VersionNegotiationPacketBuilder.buildPacket,
    VersionNegotiationPacketBuilder.remainingSpaceInPkt,
    VersionNegotiationPacketBuilder.new,
    VersionNegotiationPacketBuilder.writeVersionNegotiationPacket.
  cbn [VersionNegotiationPacketBuilder.remainingBytes_
       VersionNegotiationPacketBuilder.packet_
       VersionNegotiationPacketBuilder.data_].
  assert (Hs : 0 <= sizeZ srcConnId) by (unfold sizeZ; lia).
  assert (Hd : 0 <= sizeZ dstConnId) by (unfold sizeZ; lia).
  assert (Hrem : VersionNegotiationPacketBuilder.remainingAfterHeader
                   (uint32 kDefaultUDPSendPacketLen)
                   (mkVersionNegotiationPacket
                      VersionNegotiationPacketBuilder.generateRandomPacketType
                      srcConnId dstConnId []) = budget).
  { unfold VersionNegotiationPacketBuilder.remainingAfterHeader.
    cbn [sourceConnectionId destinationConnectionId].
    rewrite (uint32_small kDefaultUDPSendPacketLen) by lia.
    rewrite (uint32_small (kDefaultUDPSendPacketLen - 1)) by lia.
    rewrite (uint32_small (kDefaultUDPSendPacketLen - 1 - 4)) by lia.
    rewrite (uint32_small (kDefaultUDPSendPacketLen - 1 - 4 - 1)) by lia.
    rewrite (uint32_small (kDefaultUDPSendPacketLen - 1 - 4 - 1 - sizeZ dstConnId))
      by lia.
    rewrite (uint32_small (kDefaultUDPSendPacketLen - 1 - 4 - 1 - sizeZ dstConnId - 1))
      by lia.
    rewrite uint32_small by lia. unfold budget. lia. }
  rewrite Hrem.
  rewrite writeVersions_spec by (unfold budget; lia).
  cbn [VersionNegotiationPacketBuilder.remainingBytes_
       VersionNegotiationPacketBuilder.packet_
       VersionNegotiationPacketBuilder.data_
       packetType sourceConnectionId destinationConnectionId versions].
  fold k.
  assert (Hb : 0 <= budget) by (unfold budget; lia).
  assert (Hk : Z.of_nat k <= budget / 4).
  { subst k. pose proof (Z.div_pos budget 4 Hb ltac:(lia)). lia. }
  pose proof (Z.mul_div_le budget 4 ltac:(lia)) as Hm.
  split; [reflexivity|]. split; [reflexivity|]. split; [lia|].
  split; [|reflexivity].
  intros Hlt.
  assert (Hk' : Z.of_nat k = budget / 4).
  { subst k. pose proof (Z.div_pos budget 4 Hb ltac:(lia)). lia. }
  rewrite Hk'. pose proof (Z.mod_pos_bound budget 4 ltac:(lia)) as Hmod.
  rewrite Z.mod_eq in Hmod by lia. lia.
Qed.

End VersionNegotiation.

Lemma versionNegotiation_longest_prefix_witness :
  0 <= 20 < 2 ^ 32
  /\ 7 + sizeZ [x02; x03] + sizeZ [x01] <= 20
  /\ (let budget := 20 - (7 + sizeZ [x02; x03] + sizeZ [x01]) in
      let k := Nat.min (length [1; 2; 3; 4; 5]) (Z.to_nat (budget / 4)) in
      let '(packet, data) :=
        VersionNegotiationPacketBuilder.buildPacket
          (VersionNegotiationPacketBuilder.new 20 [x01] [x02; x03] [1; 2; 3; 4; 5]) in
      versions packet = take k [1; 2; 3; 4; 5]
      /\ data =
           VersionNegotiationPacketBuilder.headerBytes
             (mkVersionNegotiationPacket kHeaderFormMask [x01] [x02; x03] [])
           ++ concat (map (be_bytes 4) (take k [1; 2; 3; 4; 5]))
      /\ 4 * Z.of_nat k <= budget
      /\ ((k < length [1; 2; 3; 4; 5])%nat -> budget - 4 * Z.of_nat k < 4)
      /\ VersionNegotiationPacketBuilder.remainingSpaceInPkt
           (VersionNegotiationPacketBuilder.new 20 [x01] [x02; x03] [1; 2; 3; 4; 5])
         = budget - 4 * Z.of_nat k).
Proof.
  split; [lia|]. split; [vm_compute; discriminate|].
  exact (versionNegotiation_longest_prefix 20 [x01] [x02; x03] [1; 2; 3; 4; 5]
           ltac:(lia) ltac:(vm_compute; discriminate)).
Defined.

(** With a budget of 20 bytes and a 10-byte header, two of five versions are
    written and three are left out. *)
Lemma versionNegotiation_example :
  VersionNegotiationPacketBuilder.buildPacket
    (VersionNegotiationPacketBuilder.new 20 [x01] [x02; x03] [1; 2; 3; 4; 5]) =
  (mkVersionNegotiationPacket kHeaderFormMask [x01] [x02; x03] [1; 2],
   [x80; x00; x00; x00; x00; x02; x02; x03; x01; x01;
    x00; x00; x00; x01; x00; x00; x00; x02]).
Proof. reflexivity. Qed.

(** ** Packet builders: the padding loop *)

Lemma encode_padding : encodeQuicInteger PADDING None = Some [x00].
Proof. reflexivity. Qed.

Lemma padCount_step {F} (fuel : nat) (deficit r : Z) (f : F) (fs : list F) :
  0 < deficit -> kMaxPacketLenSize < r ->
  padCount (S fuel) deficit r (f :: fs) =
  S (padCount fuel (deficit - 1) (r - 1) (f :: fs)).
Proof. unfold padCount, kMaxPacketLenSize. lia. Qed.

Lemma padCount_stop {F} (fuel : nat) (deficit r : Z) (fs : list F) :
  deficit <= 0 \/ r <= kMaxPacketLenSize \/ fs = [] ->
  padCount fuel deficit r fs = O.
Proof.
  unfold padCount, kMaxPacketLenSize. intros H.
  destruct fs as [|f fs]; [reflexivity|].
  destruct H as [H|[H|H]]; [lia|lia|discriminate].
Qed.

Lemma repeat_snoc_app {A} (x : A) (l : list A) (k : nat) :
  (l ++ [x]) ++ repeat x k = l ++ repeat x (S k).
Proof. rewrite <- app_assoc. reflexivity. Qed.

Section RegularBuilder.

Variable QuicWriteFrame : Type.

Lemma regular_padLoop_spec (fuel : nat) :
  forall (bodyLength minBodySize extra r : Z)
         (pkt : RegularQuicWritePacket QuicWriteFrame)
         (hdr body : list byte) (pne : option PacketNumEncodingResult) (oh : Z),
    0 <= r < 2 ^ 32 ->
    0 <= bodyLength + extra + oh ->
    bodyLength + extra + oh + Z.of_nat fuel < 2 ^ 64 ->
    RegularQuicPacketBuilder.padLoop QuicWriteFrame fuel bodyLength minBodySize
      extra (RegularQuicPacketBuilder.mk QuicWriteFrame r pkt hdr body pne oh) =
    let k := padCount fuel (minBodySize - (bodyLength + extra + oh)) r
               (writeFrames pkt) in
    RegularQuicPacketBuilder.mk QuicWriteFrame (r - Z.of_nat k) pkt hdr
      (body ++ repeat x00 k) pne oh.
Proof.
  induction fuel as [|fuel IH];
    intros bodyLength minBodySize extra r pkt hdr body pne oh Hr Hs Hf.
  - cbn [RegularQuicPacketBuilder.padLoop]. cbv zeta.
    replace (padCount 0 _ r (writeFrames pkt)) with O
      by (unfold padCount; destruct (writeFrames pkt); [reflexivity|lia]).
    simpl repeat. rewrite app_nil_r, Z.sub_0_r. reflexivity.
  - cbn [RegularQuicPacketBuilder.padLoop
         RegularQuicPacketBuilder.cipherOverhead_
         RegularQuicPacketBuilder.packet_
         RegularQuicPacketBuilder.remainingBytes_]. cbv zeta.
    unfold needsPadding. rewrite uint64_small by lia.
    destruct (writeFrames pkt) as [|f fs] eqn:Efr.
    { change (sizeZ (@nil QuicWriteFrame) =? 0) with true.
      rewrite andb_false_r. cbn [andb].
      rewrite padCount_stop by auto. simpl repeat.
      rewrite app_nil_r, Z.sub_0_r. reflexivity. }
    assert (Hne : (sizeZ (f :: fs) =? 0) = false)
      by (apply Z.eqb_neq; unfold sizeZ; simpl length; lia).
    rewrite Hne. cbn [negb]. rewrite andb_true_r.
    destruct (Z.ltb_spec (bodyLength + extra + oh) minBodySize) as [Hlt|Hge];
      cbn [andb].
    2:{ rewrite padCount_stop by lia. simpl repeat.
        rewrite app_nil_r, Z.sub_0_r. reflexivity. }
    destruct (Z.gtb_spec r kMaxPacketLenSize) as [Hgt|Hle].
    2:{ rewrite padCount_stop by lia. simpl repeat.
        rewrite app_nil_r, Z.sub_0_r. reflexivity. }
    unfold RegularQuicPacketBuilder.write, RegularQuicPacketBuilder.push.
    rewrite encode_padding.
    cbn [mbind option_bind
         RegularQuicPacketBuilder.cipherOverhead_
         RegularQuicPacketBuilder.packet_
         RegularQuicPacketBuilder.remainingBytes_
         RegularQuicPacketBuilder.header_
         RegularQuicPacketBuilder.body_
         RegularQuicPacketBuilder.packetNumberEncoding_].
    change (sizeZ [x00]) with 1. unfold kMaxPacketLenSize in Hgt.
    rewrite uint32_small by lia.
    rewrite IH by lia. cbv zeta. rewrite Efr.
    rewrite padCount_step by (unfold kMaxPacketLenSize; lia).
    replace (minBodySize - (bodyLength + (extra + 1) + oh))
      with (minBodySize - (bodyLength + extra + oh) - 1) by lia.
    rewrite repeat_snoc_app. f_equal. lia.
Qed.

End RegularBuilder.

Section InplaceBuilder.

Variable QuicWriteFrame : Type.

Lemma inplace_padLoop_spec (fuel : nat) :
  forall (bodyLength minBodySize extra r : Z) (buf : list byte)
         (pkt : RegularQuicWritePacket QuicWriteFrame)
         (pne : option PacketNumEncodingResult) (oh lenOff numOff start : Z),
    0 <= r < 2 ^ 32 ->
    0 <= bodyLength + extra + oh ->
    bodyLength + extra + oh + Z.of_nat fuel < 2 ^ 64 ->
    InplaceQuicPacketBuilder.padLoop QuicWriteFrame fuel bodyLength minBodySize
      extra (InplaceQuicPacketBuilder.mk QuicWriteFrame buf r pkt pne oh
               lenOff numOff start) =
    let k := padCount fuel (minBodySize - (bodyLength + extra + oh)) r
               (writeFrames pkt) in
    InplaceQuicPacketBuilder.mk QuicWriteFrame (buf ++ repeat x00 k)
      (r - Z.of_nat k) pkt pne oh lenOff numOff start.
Proof.
  induction fuel as [|fuel IH];
    intros bodyLength minBodySize extra r buf pkt pne oh lenOff numOff start
           Hr Hs Hf.
  - cbn [InplaceQuicPacketBuilder.padLoop]. cbv zeta.
    replace (padCount 0 _ r (writeFrames pkt)) with O
      by (unfold padCount; destruct (writeFrames pkt); [reflexivity|lia]).
    simpl repeat. rewrite app_nil_r, Z.sub_0_r. reflexivity.
  - cbn [InplaceQuicPacketBuilder.padLoop
         InplaceQuicPacketBuilder.cipherOverhead_
         InplaceQuicPacketBuilder.packet_
         InplaceQuicPacketBuilder.remainingBytes_]. cbv zeta.
    unfold needsPadding. rewrite uint64_small by lia.
    destruct (writeFrames pkt) as [|f fs] eqn:Efr.
    { change (sizeZ (@nil QuicWriteFrame) =? 0) with true.
      rewrite andb_false_r. cbn [andb].
      rewrite padCount_stop by auto. simpl repeat.
      rewrite app_nil_r, Z.sub_0_r. reflexivity. }
    assert (Hne : (sizeZ (f :: fs) =? 0) = false)
      by (apply Z.eqb_neq; unfold sizeZ; simpl length; lia).
    rewrite Hne. cbn [negb]. rewrite andb_true_r.
    destruct (Z.ltb_spec (bodyLength + extra + oh) minBodySize) as [Hlt|Hge];
      cbn [andb].
    2:{ rewrite padCount_stop by lia. simpl repeat.
        rewrite app_nil_r, Z.sub_0_r. reflexivity. }
    destruct (Z.gtb_spec r kMaxPacketLenSize) as [Hgt|Hle].
    2:{ rewrite padCount_stop by lia. simpl repeat.
        rewrite app_nil_r, Z.sub_0_r. reflexivity. }
    unfold InplaceQuicPacketBuilder.write, InplaceQuicPacketBuilder.push.
    rewrite encode_padding.
    cbn [mbind option_bind
         InplaceQuicPacketBuilder.cipherOverhead_
         InplaceQuicPacketBuilder.packet_
         InplaceQuicPacketBuilder.remainingBytes_
         InplaceQuicPacketBuilder.iobuf_
         InplaceQuicPacketBuilder.packetLenOffset_
         InplaceQuicPacketBuilder.packetNumOffset_
         InplaceQuicPacketBuilder.bodyStart_
         InplaceQuicPacketBuilder.packetNumberEncoding_].
    change (sizeZ [x00]) with 1. unfold kMaxPacketLenSize in Hgt.
    rewrite uint32_small by lia.
    rewrite IH by lia. cbv zeta. rewrite Efr.
    rewrite padCount_step by (unfold kMaxPacketLenSize; lia).
    replace (minBodySize - (bodyLength + (extra + 1) + oh))
      with (minBodySize - (bodyLength + extra + oh) - 1) by lia.
    rewrite repeat_snoc_app. f_equal. lia.
Qed.

End InplaceBuilder.

(** ** Packet builders: [buildPacket] *)

Lemma padCount_bounds {F} (fuel : nat) (deficit r : Z) (fs : list F) :
  Z.of_nat (padCount fuel deficit r fs) <= Z.max 0 deficit
  /\ (fs = [] -> padCount fuel deficit r fs = O)
  /\ (r <= kMaxPacketLenSize -> padCount fuel deficit r fs = O).
Proof.
  unfold padCount, kMaxPacketLenSize. destruct fs as [|f fs].
  - repeat split; lia.
  - split; [lia|]. split; [discriminate|lia].
Qed.

Lemma encodeWithSize_length (size value : Z) :
  0 < size -> length (encodeWithSize size value) = Z.to_nat size.
Proof.
  intros Hs. unfold encodeWithSize.
  pose proof (be_bytes_length (Z.to_nat size) value) as Hl.
  destruct (be_bytes (Z.to_nat size) value) as [|b0 rest]; simpl in *; lia.
Qed.

(** A fixed-width encoding of [kMaxPacketLenSize] bytes has exactly that
    width, and exists when the value fits in 30 bits. *)
Lemma encodeQuicInteger_fixed_length (value : Z) (bytes : list byte) :
  encodeQuicInteger value (Some kMaxPacketLenSize) = Some bytes ->
  sizeZ bytes = kMaxPacketLenSize.
Proof.
  unfold kMaxPacketLenSize, encodeQuicInteger, sizeZ.
  destruct (value <=? kFourByteLimit); [|discriminate].
  intros H. injection H as <-. rewrite encodeWithSize_length by lia.
  reflexivity.
Qed.

Lemma encodeQuicInteger_fixed_fits (value : Z) :
  value <= kFourByteLimit ->
  encodeQuicInteger value (Some kMaxPacketLenSize) =
  Some (encodeWithSize kMaxPacketLenSize value).
Proof.
  intros H. unfold kMaxPacketLenSize, encodeQuicInteger.
  destruct (Z.leb_spec value kFourByteLimit); [reflexivity|lia].
Qed.

Lemma encodeQuicInteger_shortest_fits (value : Z) :
  value <= kEightByteLimit ->
  exists bytes, encodeQuicInteger value None = Some bytes.
Proof.
  intros H. unfold encodeQuicInteger.
  repeat match goal with
         | |- context [if ?c then _ else _] => destruct c eqn:?
         end; eauto.
  apply Z.leb_gt in Heqb2. lia.
Qed.

(** The shortest encoding has the canonical length of its value. *)
Lemma encodeQuicInteger_shortest_length (value : Z) (bytes : list byte) :
  encodeQuicInteger value None = Some bytes ->
  sizeZ bytes =
    if value <=? kOneByteLimit then 1
    else if value <=? kTwoByteLimit then 2
    else if value <=? kFourByteLimit then 4
    else 8.
Proof.
  unfold encodeQuicInteger, sizeZ.
  repeat match goal with
         | |- context [if ?c then _ else _] => destruct c
         end; try discriminate;
    intros H; injection H as <-; rewrite encodeWithSize_length by lia;
    reflexivity.
Qed.

Lemma packetNumBytes_length (value len : Z) :
  length (packetNumBytes value len) = Z.to_nat len.
Proof. apply be_bytes_length. Qed.

(** [backFill] overwrites a slot and nothing else. *)
Lemma backFill_take (data buf : list byte) (off : Z) :
  (Z.to_nat off + length data <= length buf)%nat ->
  take (Z.to_nat off + length data) (backFill data off buf) =
  take (Z.to_nat off) buf ++ data.
Proof.
  intros H. unfold backFill. rewrite app_assoc.
  rewrite take_app_length'; [reflexivity|].
  rewrite length_app, length_take. lia.
Qed.

Lemma backFill_drop (data buf : list byte) (off : Z) (n : nat) :
  (Z.to_nat off + length data <= n)%nat ->
  (Z.to_nat off + length data <= length buf)%nat ->
  drop n (backFill data off buf) = drop n buf.
Proof.
  intros Hn H. unfold backFill.
  rewrite app_assoc, drop_app_ge by (rewrite length_app, length_take; lia).
  rewrite length_app, length_take, drop_drop. f_equal. lia.
Qed.

Lemma backFill_length (data buf : list byte) (off : Z) :
  (Z.to_nat off + length data <= length buf)%nat ->
  length (backFill data off buf) = length buf.
Proof.
  intros H. unfold backFill.
  rewrite !length_app, length_take, length_drop. lia.
Qed.

Section RegularBuild.

Variable QuicWriteFrame : Type.
Variable sampleSize : Z.

(** [buildPacket] of the growable builder, with the padding loop solved. *)
Lemma regular_buildPacket_spec (b : RegularQuicPacketBuilder.t QuicWriteFrame)
    (enc : PacketNumEncodingResult) :
  RegularQuicPacketBuilder.packetNumberEncoding_ _ b = Some enc ->
  1 <= pnLength enc <= 4 ->
  0 <= sampleSize < 2 ^ 32 ->
  0 <= RegularQuicPacketBuilder.cipherOverhead_ _ b < 2 ^ 8 ->
  0 <= RegularQuicPacketBuilder.remainingBytes_ _ b < 2 ^ 32 ->
  sizeZ (RegularQuicPacketBuilder.body_ _ b) < 2 ^ 16 ->
  let oh := RegularQuicPacketBuilder.cipherOverhead_ _ b in
  let body := RegularQuicPacketBuilder.body_ _ b in
  let minBodySize := kMaxPacketNumEncodingSize - pnLength enc + sampleSize in
  let deficit := paddingDeficit minBodySize (sizeZ body) oh in
  let k := padCount (Z.to_nat deficit) deficit
             (RegularQuicPacketBuilder.remainingBytes_ _ b)
             (writeFrames (RegularQuicPacketBuilder.packet_ _ b)) in
  RegularQuicPacketBuilder.buildPacket _ sampleSize b =
    if lengthPatched (writeHeader (RegularQuicPacketBuilder.packet_ _ b)) then
      pktLen ← encodeQuicInteger
                  (pnLength enc + sizeZ (body ++ repeat x00 k) + oh) None;
      Some (mkPacket (RegularQuicPacketBuilder.packet_ _ b)
              (RegularQuicPacketBuilder.header_ _ b ++ pktLen ++
               packetNumBytes (pnResult enc) (pnLength enc))
              (body ++ repeat x00 k))
    else
      Some (mkPacket (RegularQuicPacketBuilder.packet_ _ b)
              (RegularQuicPacketBuilder.header_ _ b) (body ++ repeat x00 k)).
Proof.
  intros Hpne Hpn Hss Hoh Hr Hbody oh body minBodySize deficit k.
  destruct b as [r pkt hdr body0 pne oh0].
  cbn [RegularQuicPacketBuilder.packetNumberEncoding_
       RegularQuicPacketBuilder.cipherOverhead_
       RegularQuicPacketBuilder.remainingBytes_
       RegularQuicPacketBuilder.body_ RegularQuicPacketBuilder.packet_
       RegularQuicPacketBuilder.header_] in *.
  subst pne.
  assert (Hb0 : 0 <= sizeZ body0) by (unfold sizeZ; lia).
  unfold RegularQuicPacketBuilder.buildPacket.
  cbn [RegularQuicPacketBuilder.packetNumberEncoding_ mbind option_bind
       RegularQuicPacketBuilder.body_].
  unfold RegularQuicPacketBuilder.minBodySizeOf.
  unfold kMaxPacketNumEncodingSize in *.
  rewrite (uint64_small (4 - pnLength enc + sampleSize)) by lia.
  fold minBodySize.
  rewrite regular_padLoop_spec by (subst minBodySize; lia).
  cbv zeta.
  cbn [RegularQuicPacketBuilder.packet_ RegularQuicPacketBuilder.body_
       RegularQuicPacketBuilder.header_ RegularQuicPacketBuilder.cipherOverhead_].
  rewrite Z.add_0_r.
  assert (Hk : padCount (Z.to_nat minBodySize)
                 (minBodySize - (sizeZ body0 + oh0)) r (writeFrames pkt) = k).
  { subst k deficit. unfold paddingDeficit, padCount. subst oh body.
    destruct (writeFrames pkt); [reflexivity|lia]. }
  rewrite Hk. reflexivity.
Qed.

End RegularBuild.

Section InplaceBuild.

Variable QuicWriteFrame : Type.
Variable sampleSize : Z.

(** [buildPacket] of the in-place builder, with the padding loop solved. *)
Lemma inplace_buildPacket_spec (b : InplaceQuicPacketBuilder.t QuicWriteFrame)
    (enc : PacketNumEncodingResult) :
  InplaceQuicPacketBuilder.packetNumberEncoding_ _ b = Some enc ->
  1 <= pnLength enc <= 4 ->
  0 <= sampleSize < 2 ^ 32 ->
  0 <= InplaceQuicPacketBuilder.cipherOverhead_ _ b < 2 ^ 8 ->
  0 <= InplaceQuicPacketBuilder.remainingBytes_ _ b < 2 ^ 32 ->
  0 <= sizeZ (InplaceQuicPacketBuilder.iobuf_ _ b)
       - InplaceQuicPacketBuilder.bodyStart_ _ b < 2 ^ 16 ->
  let oh := InplaceQuicPacketBuilder.cipherOverhead_ _ b in
  let bodyLength := sizeZ (InplaceQuicPacketBuilder.iobuf_ _ b)
                    - InplaceQuicPacketBuilder.bodyStart_ _ b in
  let minBodySize := kMaxPacketNumEncodingSize - pnLength enc + sampleSize in
  let deficit := paddingDeficit minBodySize bodyLength oh in
  let k := padCount (Z.to_nat deficit) deficit
             (InplaceQuicPacketBuilder.remainingBytes_ _ b)
             (writeFrames (InplaceQuicPacketBuilder.packet_ _ b)) in
  let iobuf' := InplaceQuicPacketBuilder.iobuf_ _ b ++ repeat x00 k in
  InplaceQuicPacketBuilder.buildPacket _ sampleSize b =
    buf ←
      (if lengthPatched (writeHeader (InplaceQuicPacketBuilder.packet_ _ b)) then
         pktLen ← encodeQuicInteger (pnLength enc + bodyLength + oh)
                     (Some kMaxPacketLenSize);
         Some (backFill (packetNumBytes (pnResult enc) (pnLength enc))
                 (InplaceQuicPacketBuilder.packetNumOffset_ _ b)
                 (backFill pktLen (InplaceQuicPacketBuilder.packetLenOffset_ _ b)
                    iobuf'))
       else Some iobuf');
    Some (mkPacket (InplaceQuicPacketBuilder.packet_ _ b)
            (take (Z.to_nat (InplaceQuicPacketBuilder.bodyStart_ _ b)) buf)
            (drop (Z.to_nat (InplaceQuicPacketBuilder.bodyStart_ _ b)) buf)).
Proof.
  intros Hpne Hpn Hss Hoh Hr Hbody oh bodyLength minBodySize deficit k iobuf'.
  destruct b as [buf0 r pkt pne oh0 lenOff numOff start].
  cbn [InplaceQuicPacketBuilder.packetNumberEncoding_
       InplaceQuicPacketBuilder.cipherOverhead_
       InplaceQuicPacketBuilder.remainingBytes_
       InplaceQuicPacketBuilder.iobuf_ InplaceQuicPacketBuilder.packet_
       InplaceQuicPacketBuilder.bodyStart_
       InplaceQuicPacketBuilder.packetLenOffset_
       InplaceQuicPacketBuilder.packetNumOffset_] in *.
  subst pne.
  unfold InplaceQuicPacketBuilder.buildPacket.
  cbn [InplaceQuicPacketBuilder.packetNumberEncoding_ mbind option_bind
       InplaceQuicPacketBuilder.iobuf_ InplaceQuicPacketBuilder.bodyStart_].
  unfold InplaceQuicPacketBuilder.minBodySizeOf.
  unfold kMaxPacketNumEncodingSize in *.
  rewrite (uint64_small (4 - pnLength enc + sampleSize)) by lia.
  fold minBodySize. fold bodyLength.
  rewrite inplace_padLoop_spec by (subst minBodySize bodyLength; lia).
  cbv zeta.
  cbn [InplaceQuicPacketBuilder.packet_ InplaceQuicPacketBuilder.iobuf_
       InplaceQuicPacketBuilder.bodyStart_
       InplaceQuicPacketBuilder.cipherOverhead_
       InplaceQuicPacketBuilder.packetLenOffset_
       InplaceQuicPacketBuilder.packetNumOffset_].
  rewrite Z.add_0_r.
  assert (Hk : padCount (Z.to_nat minBodySize)
                 (minBodySize - (bodyLength + oh0)) r (writeFrames pkt) = k).
  { subst k deficit. unfold paddingDeficit, padCount. subst oh.
    destruct (writeFrames pkt); [reflexivity|lia]. }
  rewrite Hk. reflexivity.
Qed.

End InplaceBuild.

(** Back-filling the length slot and the packet-number slot of a header that
    lies before [start] leaves the rest of the buffer as it was. *)
Lemma patched_layout (iobuf pad len pn : list byte) (lenOff numOff start : Z) :
  0 <= lenOff ->
  numOff = lenOff + sizeZ len ->
  start = numOff + sizeZ pn ->
  start <= sizeZ iobuf ->
  let buf := backFill pn numOff (backFill len lenOff (iobuf ++ pad)) in
  take (Z.to_nat start) buf = take (Z.to_nat lenOff) iobuf ++ len ++ pn
  /\ drop (Z.to_nat start) buf = drop (Z.to_nat start) iobuf ++ pad.
Proof.
  intros H0 Hnum Hstart Hle buf. unfold sizeZ in *.
  assert (Hn : Z.to_nat numOff = (Z.to_nat lenOff + length len)%nat) by lia.
  assert (Hs : Z.to_nat start = (Z.to_nat numOff + length pn)%nat) by lia.
  assert (Hl1 : (Z.to_nat lenOff + length len <= length (iobuf ++ pad))%nat)
    by (rewrite length_app; lia).
  assert (Hl2 : length (backFill len lenOff (iobuf ++ pad)) = length (iobuf ++ pad))
    by (apply backFill_length; exact Hl1).
  assert (Hl3 : (Z.to_nat numOff + length pn <=
                 length (backFill len lenOff (iobuf ++ pad)))%nat)
    by (rewrite Hl2, length_app; lia).
  subst buf. split.
  - rewrite Hs, backFill_take by exact Hl3.
    rewrite Hn, backFill_take by exact Hl1.
    rewrite take_app_le by lia. rewrite <- app_assoc. reflexivity.
  - rewrite backFill_drop by lia.
    rewrite backFill_drop by lia.
    rewrite drop_app_le by lia. reflexivity.
Qed.

Lemma padCount_full_or_none {F} (deficit r : Z) (fs : list F) :
  fs <> [] -> 0 <= deficit ->
  deficit = 0 \/ deficit <= r - kMaxPacketLenSize ->
  Z.of_nat (padCount (Z.to_nat deficit) deficit r fs) = deficit.
Proof.
  unfold padCount, kMaxPacketLenSize. intros Hne H0 Hr.
  destruct fs as [|f fs]; [contradiction|lia].
Qed.

Lemma paddingDeficit_nonneg (m b o : Z) : 0 <= paddingDeficit m b o.
Proof. unfold paddingDeficit. lia. Qed.

Lemma sizeZ_app {A} (l1 l2 : list A) : sizeZ (l1 ++ l2) = sizeZ l1 + sizeZ l2.
Proof. unfold sizeZ. rewrite length_app. lia. Qed.

Lemma sizeZ_repeat {A} (x : A) (n : nat) : sizeZ (repeat x n) = Z.of_nat n.
Proof. unfold sizeZ. rewrite repeat_length. reflexivity. Qed.

Lemma sizeZ_nonneg {A} (l : list A) : 0 <= sizeZ l.
Proof. unfold sizeZ. lia. Qed.

Lemma sizeZ_drop {A} (l : list A) (n : Z) :
  0 <= n <= sizeZ l -> sizeZ (drop (Z.to_nat n) l) = sizeZ l - n.
Proof. unfold sizeZ. intros H. rewrite length_drop. lia. Qed.

(** C5, as the code has it. When [buildPacket] finds
    [bodyLength + cipherOverhead] below
    [kMaxPacketNumEncodingSize - packetNumberLength + sampleSize], either
    builder appends PADDING bytes (zero bytes) to the body, but only while the
    packet has at least one frame and more than [kMaxPacketLenSize] bytes
    remain. Without a frame, or with at most [kMaxPacketLenSize] bytes left,
    nothing is appended; with a frame and enough room, exactly the missing
    bytes are appended and the body plus cipher overhead then meets the
    bound. *)
Theorem buildPacket_pads_body (QuicWriteFrame : Type) (sampleSize : Z) :
  0 <= sampleSize < 2 ^ 32 ->
  (forall (b : RegularQuicPacketBuilder.t QuicWriteFrame)
          (enc : PacketNumEncodingResult),
     RegularQuicPacketBuilder.packetNumberEncoding_ _ b = Some enc ->
     1 <= pnLength enc <= 4 ->
     0 <= RegularQuicPacketBuilder.cipherOverhead_ _ b < 2 ^ 8 ->
     0 <= RegularQuicPacketBuilder.remainingBytes_ _ b < 2 ^ 32 ->
     sizeZ (RegularQuicPacketBuilder.body_ _ b) < 2 ^ 16 ->
     let oh := RegularQuicPacketBuilder.cipherOverhead_ _ b in
     let body := RegularQuicPacketBuilder.body_ _ b in
     let r := RegularQuicPacketBuilder.remainingBytes_ _ b in
     let frames := writeFrames (RegularQuicPacketBuilder.packet_ _ b) in
     let minBodySize := kMaxPacketNumEncodingSize - pnLength enc + sampleSize in
     let deficit := paddingDeficit minBodySize (sizeZ body) oh in
     exists (pkt : Packet QuicWriteFrame) (k : nat),
       RegularQuicPacketBuilder.buildPacket _ sampleSize b = Some pkt
       /\ builtBody pkt = body ++ repeat x00 k
       /\ Z.of_nat k <= deficit
       /\ (frames = [] -> k = O)
       /\ (r <= kMaxPacketLenSize -> k = O)
       /\ (frames <> [] -> deficit = 0 \/ deficit <= r - kMaxPacketLenSize ->
           Z.of_nat k = deficit /\ minBodySize <= sizeZ (builtBody pkt) + oh))
  /\
  (forall (b : InplaceQuicPacketBuilder.t QuicWriteFrame)
          (enc : PacketNumEncodingResult),
     InplaceQuicPacketBuilder.packetNumberEncoding_ _ b = Some enc ->
     1 <= pnLength enc <= 4 ->
     0 <= InplaceQuicPacketBuilder.cipherOverhead_ _ b < 2 ^ 8 ->
     0 <= InplaceQuicPacketBuilder.remainingBytes_ _ b < 2 ^ 32 ->
     0 <= InplaceQuicPacketBuilder.bodyStart_ _ b
       <= sizeZ (InplaceQuicPacketBuilder.iobuf_ _ b) ->
     sizeZ (InplaceQuicPacketBuilder.iobuf_ _ b)
       - InplaceQuicPacketBuilder.bodyStart_ _ b < 2 ^ 16 ->
     (lengthPatched (writeHeader (InplaceQuicPacketBuilder.packet_ _ b)) = true ->
      inplaceOffsetsOk b enc) ->
     let oh := InplaceQuicPacketBuilder.cipherOverhead_ _ b in
     let body := drop (Z.to_nat (InplaceQuicPacketBuilder.bodyStart_ _ b))
                   (InplaceQuicPacketBuilder.iobuf_ _ b) in
     let r := InplaceQuicPacketBuilder.remainingBytes_ _ b in
     let frames := writeFrames (InplaceQuicPacketBuilder.packet_ _ b) in
     let minBodySize := kMaxPacketNumEncodingSize - pnLength enc + sampleSize in
     let deficit := paddingDeficit minBodySize (sizeZ body) oh in
     exists (pkt : Packet QuicWriteFrame) (k : nat),
       InplaceQuicPacketBuilder.buildPacket _ sampleSize b = Some pkt
       /\ builtBody pkt = body ++ repeat x00 k
       /\ Z.of_nat k <= deficit
       /\ (frames = [] -> k = O)
       /\ (r <= kMaxPacketLenSize -> k = O)
       /\ (frames <> [] -> deficit = 0 \/ deficit <= r - kMaxPacketLenSize ->
           Z.of_nat k = deficit /\ minBodySize <= sizeZ (builtBody pkt) + oh)).
Proof.
  intros Hss. split.
  - intros b enc Hpne Hpn Hoh Hr Hbody oh body r frames minBodySize deficit.
    pose proof (regular_buildPacket_spec QuicWriteFrame sampleSize b enc
                  Hpne Hpn Hss Hoh Hr Hbody) as Hspec.
    cbv zeta in Hspec. fold oh body r frames minBodySize deficit in Hspec.
    set (k := padCount (Z.to_nat deficit) deficit r frames) in *.
    pose proof (padCount_bounds (Z.to_nat deficit) deficit r frames)
      as (Hk1 & Hk2 & Hk3). fold k in Hk1, Hk2, Hk3.
    pose proof (paddingDeficit_nonneg minBodySize (sizeZ body) oh) as Hd0.
    fold deficit in Hd0.
    pose proof (sizeZ_nonneg body) as Hb0.
    assert (Hfull : frames <> [] ->
                    deficit = 0 \/ deficit <= r - kMaxPacketLenSize ->
                    Z.of_nat k = deficit /\
                    minBodySize <= sizeZ (body ++ repeat x00 k) + oh).
    { intros Hne Hroom.
      pose proof (padCount_full_or_none deficit r frames Hne Hd0 Hroom) as Hk.
      fold k in Hk. split; [exact Hk|].
      rewrite sizeZ_app, sizeZ_repeat, Hk. unfold deficit, paddingDeficit. lia. }
    destruct (lengthPatched (writeHeader (RegularQuicPacketBuilder.packet_ _ b))).
    + destruct (encodeQuicInteger_shortest_fits
                  (pnLength enc + sizeZ (body ++ repeat x00 k) + oh))
        as [pktLen Hlen].
      { rewrite sizeZ_app, sizeZ_repeat.
        assert (Hbody' : sizeZ body < 2 ^ 16) by exact Hbody.
        assert (Hoh' : 0 <= oh < 2 ^ 8) by exact Hoh.
        assert (Hm : deficit <= 3 + 2 ^ 32).
        { unfold deficit, paddingDeficit, minBodySize,
            kMaxPacketNumEncodingSize. lia. }
        unfold kEightByteLimit. lia. }
      rewrite Hlen in Hspec. cbn [mbind option_bind] in Hspec.
      eexists _, k. split; [exact Hspec|]. cbn [builtBody].
      split; [reflexivity|].
      split; [lia|]. split; [exact Hk2|]. split; [exact Hk3|]. exact Hfull.
    + eexists _, k. split; [exact Hspec|]. cbn [builtBody].
      split; [reflexivity|].
      split; [lia|]. split; [exact Hk2|]. split; [exact Hk3|]. exact Hfull.
  - intros b enc Hpne Hpn Hoh Hr Hstart Hbody Hoff
           oh body r frames minBodySize deficit.
    assert (Hbl : sizeZ body = sizeZ (InplaceQuicPacketBuilder.iobuf_ _ b)
                               - InplaceQuicPacketBuilder.bodyStart_ _ b).
    { unfold body. apply sizeZ_drop. lia. }
    pose proof (inplace_buildPacket_spec QuicWriteFrame sampleSize b enc
                  Hpne Hpn Hss Hoh Hr ltac:(lia)) as Hspec.
    cbv zeta in Hspec. rewrite <- Hbl in Hspec.
    fold oh r frames minBodySize deficit in Hspec.
    set (k := padCount (Z.to_nat deficit) deficit r frames) in *.
    pose proof (padCount_bounds (Z.to_nat deficit) deficit r frames)
      as (Hk1 & Hk2 & Hk3). fold k in Hk1, Hk2, Hk3.
    pose proof (paddingDeficit_nonneg minBodySize (sizeZ body) oh) as Hd0.
    fold deficit in Hd0.
    pose proof (sizeZ_nonneg body) as Hb0.
    assert (Hfull : frames <> [] ->
                    deficit = 0 \/ deficit <= r - kMaxPacketLenSize ->
                    Z.of_nat k = deficit /\
                    minBodySize <= sizeZ (body ++ repeat x00 k) + oh).
    { intros Hne Hroom.
      pose proof (padCount_full_or_none deficit r frames Hne Hd0 Hroom) as Hk.
      fold k in Hk. split; [exact Hk|].
      rewrite sizeZ_app, sizeZ_repeat, Hk. unfold deficit, paddingDeficit. lia. }
    destruct (lengthPatched (writeHeader (InplaceQuicPacketBuilder.packet_ _ b)))
      eqn:Hpatched.
    + destruct (Hoff eq_refl) as (Ho1 & Ho2 & Ho3 & Ho4).
      assert (Hoh' : 0 <= oh < 2 ^ 8) by exact Hoh.
      rewrite encodeQuicInteger_fixed_fits in Hspec
        by (unfold kFourByteLimit; lia).
      cbn [mbind option_bind] in Hspec.
      assert (Hl4 : sizeZ (encodeWithSize kMaxPacketLenSize
                             (pnLength enc + sizeZ body + oh)) = kMaxPacketLenSize).
      { unfold sizeZ. rewrite encodeWithSize_length; unfold kMaxPacketLenSize; lia. }
      assert (Hlpn : sizeZ (packetNumBytes (pnResult enc) (pnLength enc)) =
                     pnLength enc).
      { unfold sizeZ. rewrite packetNumBytes_length. lia. }
      destruct (patched_layout (InplaceQuicPacketBuilder.iobuf_ _ b)
                  (repeat x00 k)
                  (encodeWithSize kMaxPacketLenSize (pnLength enc + sizeZ body + oh))
                  (packetNumBytes (pnResult enc) (pnLength enc))
                  (InplaceQuicPacketBuilder.packetLenOffset_ _ b)
                  (InplaceQuicPacketBuilder.packetNumOffset_ _ b)
                  (InplaceQuicPacketBuilder.bodyStart_ _ b) Ho1
                  ltac:(rewrite Hl4; exact Ho2) ltac:(rewrite Hlpn; exact Ho3) Ho4)
        as [_ Hdrop].
      eexists _, k. split; [exact Hspec|]. cbn [builtBody].
      rewrite Hdrop. fold body.
      split; [reflexivity|].
      split; [lia|]. split; [exact Hk2|]. split; [exact Hk3|]. exact Hfull.
    + cbn [mbind option_bind] in Hspec.
      eexists _, k. split; [exact Hspec|]. cbn [builtBody].
      rewrite drop_app_le by (unfold sizeZ in *; lia). fold body.
      split; [reflexivity|].
      split; [lia|]. split; [exact Hk2|]. split; [exact Hk3|]. exact Hfull.
Qed.

Lemma buildPacket_pads_body_witness :
  0 <= 16 < 2 ^ 32
  /\ RegularQuicPacketBuilder.packetNumberEncoding_ _
       (regularBuilderState sampleRegularBuilder) = Some sampleEncoding
  /\ writeFrames (RegularQuicPacketBuilder.packet_ _
                    (regularBuilderState sampleRegularBuilder)) <> []
  /\ exists pkt,
       RegularQuicPacketBuilder.buildPacket unit 16
         (regularBuilderState sampleRegularBuilder) = Some pkt
       /\ builtBody pkt = [x01] ++ repeat x00 18
       /\ kMaxPacketNumEncodingSize - 1 + 16 <= sizeZ (builtBody pkt) + 0.
Proof.
  split; [lia|]. split; [reflexivity|]. split; [discriminate|].
  destruct (proj1 (buildPacket_pads_body unit 16 ltac:(lia))
              (regularBuilderState sampleRegularBuilder) sampleEncoding
              eq_refl ltac:(simpl; lia) ltac:(simpl; lia)
              ltac:(vm_compute; split; [discriminate|reflexivity])
              ltac:(vm_compute; reflexivity))
    as (pkt & k & Hb & Hbody & _ & _ & _ & Hfull).
  destruct (Hfull ltac:(discriminate)
              ltac:(right; vm_compute; discriminate)) as [Hk Hmin].
  exists pkt. split; [exact Hb|].
  assert (Hk18 : k = 18%nat).
  { vm_compute in Hk. apply Nat2Z.inj. exact Hk. }
  subst k. split; [exact Hbody|exact Hmin].
Defined.

(** A builder on which no frame was appended pads nothing: the built body
    plus cipher overhead stays below the sampling bound. *)
Lemma buildPacket_without_frames_stays_short :
  exists b pkt,
    emptyRegularBuilder = Some b
    /\ RegularQuicPacketBuilder.packetNumberEncoding_ _ b = Some sampleEncoding
    /\ sizeZ (RegularQuicPacketBuilder.body_ _ b) + 0
         + RegularQuicPacketBuilder.cipherOverhead_ _ b
       < kMaxPacketNumEncodingSize - pnLength sampleEncoding + 16
    /\ RegularQuicPacketBuilder.buildPacket unit 16 b = Some pkt
    /\ builtBody pkt = []
    /\ sizeZ (builtBody pkt) + RegularQuicPacketBuilder.cipherOverhead_ _ b
       < kMaxPacketNumEncodingSize - pnLength sampleEncoding + 16.
Proof.
  eexists _, _. split; [reflexivity|]. split; [reflexivity|].
  split; [reflexivity|]. split; [reflexivity|]. split; reflexivity.
Qed.

(** C3, as the code has it. For a long header that is not a Retry, the
    in-place builder back-fills the packet-length slot its constructor
    reserved with a varint of exactly [kMaxPacketLenSize] (4) bytes, whatever
    the length value; the growable builder appends the packet length to the
    header at build time in its shortest varint form, so the field is 1, 2, 4
    or 8 bytes wide depending on the value. In both, the packet number
    follows the length field. *)
Theorem packet_length_field_width (QuicWriteFrame : Type) (sampleSize : Z) :
  0 <= sampleSize < 2 ^ 32 ->
  (forall (b : InplaceQuicPacketBuilder.t QuicWriteFrame)
          (enc : PacketNumEncodingResult),
     InplaceQuicPacketBuilder.packetNumberEncoding_ _ b = Some enc ->
     1 <= pnLength enc <= 4 ->
     0 <= InplaceQuicPacketBuilder.cipherOverhead_ _ b < 2 ^ 8 ->
     0 <= InplaceQuicPacketBuilder.remainingBytes_ _ b < 2 ^ 32 ->
     sizeZ (InplaceQuicPacketBuilder.iobuf_ _ b)
       - InplaceQuicPacketBuilder.bodyStart_ _ b < 2 ^ 16 ->
     lengthPatched (writeHeader (InplaceQuicPacketBuilder.packet_ _ b)) = true ->
     inplaceOffsetsOk b enc ->
     let bodyLength := sizeZ (InplaceQuicPacketBuilder.iobuf_ _ b)
                       - InplaceQuicPacketBuilder.bodyStart_ _ b in
     exists (pkt : Packet QuicWriteFrame) (lenField : list byte),
       InplaceQuicPacketBuilder.buildPacket _ sampleSize b = Some pkt
       /\ builtHeader pkt =
            take (Z.to_nat (InplaceQuicPacketBuilder.packetLenOffset_ _ b))
              (InplaceQuicPacketBuilder.iobuf_ _ b)
            ++ lenField ++ packetNumBytes (pnResult enc) (pnLength enc)
       /\ sizeZ lenField = kMaxPacketLenSize
       /\ encodeQuicInteger
            (pnLength enc + bodyLength + InplaceQuicPacketBuilder.cipherOverhead_ _ b)
            (Some kMaxPacketLenSize) = Some lenField)
  /\
  (forall (b : RegularQuicPacketBuilder.t QuicWriteFrame)
          (enc : PacketNumEncodingResult),
     RegularQuicPacketBuilder.packetNumberEncoding_ _ b = Some enc ->
     1 <= pnLength enc <= 4 ->
     0 <= RegularQuicPacketBuilder.cipherOverhead_ _ b < 2 ^ 8 ->
     0 <= RegularQuicPacketBuilder.remainingBytes_ _ b < 2 ^ 32 ->
     sizeZ (RegularQuicPacketBuilder.body_ _ b) < 2 ^ 16 ->
     lengthPatched (writeHeader (RegularQuicPacketBuilder.packet_ _ b)) = true ->
     exists (pkt : Packet QuicWriteFrame) (lenField : list byte),
       RegularQuicPacketBuilder.buildPacket _ sampleSize b = Some pkt
       /\ builtHeader pkt =
            RegularQuicPacketBuilder.header_ _ b
            ++ lenField ++ packetNumBytes (pnResult enc) (pnLength enc)
       /\ (let value := pnLength enc + sizeZ (builtBody pkt)
                        + RegularQuicPacketBuilder.cipherOverhead_ _ b in
           encodeQuicInteger value None = Some lenField
           /\ sizeZ lenField =
                if value <=? kOneByteLimit then 1
                else if value <=? kTwoByteLimit then 2
                else if value <=? kFourByteLimit then 4
                else 8)).
Proof.
  intros Hss. split.
  - intros b enc Hpne Hpn Hoh Hr Hbody Hpatched (Ho1 & Ho2 & Ho3 & Ho4) bodyLength.
    assert (Hb0 : 0 <= bodyLength) by (unfold bodyLength; lia).
    pose proof (inplace_buildPacket_spec QuicWriteFrame sampleSize b enc
                  Hpne Hpn Hss Hoh Hr ltac:(fold bodyLength; lia)) as Hspec.
    cbv zeta in Hspec. rewrite Hpatched in Hspec. fold bodyLength in Hspec.
    set (oh := InplaceQuicPacketBuilder.cipherOverhead_ _ b) in *.
    rewrite encodeQuicInteger_fixed_fits in Hspec
      by (unfold kFourByteLimit; lia).
    cbn [mbind option_bind] in Hspec.
    set (lenField := encodeWithSize kMaxPacketLenSize (pnLength enc + bodyLength + oh))
      in *.
    assert (Hl4 : sizeZ lenField = kMaxPacketLenSize).
    { unfold sizeZ, lenField.
      rewrite encodeWithSize_length; unfold kMaxPacketLenSize; lia. }
    assert (Hlpn : sizeZ (packetNumBytes (pnResult enc) (pnLength enc)) =
                   pnLength enc).
    { unfold sizeZ. rewrite packetNumBytes_length. lia. }
    match type of Hspec with
    | context [backFill _ _ (backFill _ _ (_ ++ ?pad))] =>
        destruct (patched_layout (InplaceQuicPacketBuilder.iobuf_ _ b) pad
                    lenField (packetNumBytes (pnResult enc) (pnLength enc))
                    (InplaceQuicPacketBuilder.packetLenOffset_ _ b)
                    (InplaceQuicPacketBuilder.packetNumOffset_ _ b)
                    (InplaceQuicPacketBuilder.bodyStart_ _ b) Ho1
                    ltac:(rewrite Hl4; exact Ho2)
                    ltac:(rewrite Hlpn; exact Ho3) Ho4) as [Htake _]
    end.
    eexists _, lenField. split; [exact Hspec|]. cbn [builtHeader].
    split; [exact Htake|]. split; [exact Hl4|].
    apply encodeQuicInteger_fixed_fits. unfold kFourByteLimit. lia.
  - intros b enc Hpne Hpn Hoh Hr Hbody Hpatched.
    pose proof (regular_buildPacket_spec QuicWriteFrame sampleSize b enc
                  Hpne Hpn Hss Hoh Hr Hbody) as Hspec.
    cbv zeta in Hspec. rewrite Hpatched in Hspec.
    set (oh := RegularQuicPacketBuilder.cipherOverhead_ _ b) in *.
    set (body := RegularQuicPacketBuilder.body_ _ b) in *.
    set (deficit := paddingDeficit _ _ _) in *.
    set (k := padCount _ _ _ _) in *.
    pose proof (padCount_bounds (Z.to_nat deficit) deficit
                  (RegularQuicPacketBuilder.remainingBytes_ _ b)
                  (writeFrames (RegularQuicPacketBuilder.packet_ _ b)))
      as (Hk1 & _ & _). fold k in Hk1.
    destruct (encodeQuicInteger_shortest_fits
                (pnLength enc + sizeZ (body ++ repeat x00 k) + oh))
      as [lenField Hlen].
    { rewrite sizeZ_app, sizeZ_repeat.
      assert (Hm : deficit <= 3 + 2 ^ 32).
      { unfold deficit, paddingDeficit, kMaxPacketNumEncodingSize.
        pose proof (sizeZ_nonneg body). lia. }
      unfold kEightByteLimit. lia. }
    rewrite Hlen in Hspec. cbn [mbind option_bind] in Hspec.
    eexists _, lenField. split; [exact Hspec|]. cbn [builtHeader builtBody].
    split; [reflexivity|]. cbv zeta. split; [exact Hlen|].
    apply encodeQuicInteger_shortest_length. exact Hlen.
Qed.

Lemma packet_length_field_width_witness :
  0 <= 16 < 2 ^ 32
  /\ InplaceQuicPacketBuilder.packetNumberEncoding_ _
       (inplaceBuilderState sampleInplaceBuilder) = Some sampleEncoding
  /\ lengthPatched (writeHeader (InplaceQuicPacketBuilder.packet_ _
                      (inplaceBuilderState sampleInplaceBuilder))) = true
  /\ inplaceOffsetsOk (inplaceBuilderState sampleInplaceBuilder) sampleEncoding
  /\ exists pkt lenField,
       InplaceQuicPacketBuilder.buildPacket unit 16
         (inplaceBuilderState sampleInplaceBuilder) = Some pkt
       /\ builtHeader pkt =
            [xe0; xfa; xce; xb0; x01; x03; x03; x04; x05; x02; x01; x02]
            ++ lenField ++ [x01]
       /\ sizeZ lenField = kMaxPacketLenSize.
Proof.
  assert (Hoff : inplaceOffsetsOk (inplaceBuilderState sampleInplaceBuilder)
                   sampleEncoding).
  { unfold inplaceOffsetsOk. vm_compute. repeat split; congruence. }
  split; [lia|]. split; [reflexivity|]. split; [reflexivity|].
  split; [exact Hoff|].
  destruct (proj1 (packet_length_field_width unit 16 ltac:(lia))
              (inplaceBuilderState sampleInplaceBuilder) sampleEncoding
              eq_refl ltac:(simpl; lia)
              ltac:(vm_compute; split; [discriminate|reflexivity])
              ltac:(vm_compute; split; [discriminate|reflexivity])
              ltac:(vm_compute; reflexivity) eq_refl Hoff)
    as (pkt & lenField & Hb & Hh & Hl & _).
  exists pkt, lenField. split; [exact Hb|]. split; [exact Hh|exact Hl].
Defined.

(** The growable builder writes the packet length 20 as the single byte 0x14:
    the length field makes the header one byte longer, not four. *)
Lemma regular_length_field_is_shortest :
  exists b pkt,
    sampleRegularBuilder = Some b
    /\ lengthPatched (writeHeader (RegularQuicPacketBuilder.packet_ _ b)) = true
    /\ RegularQuicPacketBuilder.buildPacket unit 16 b = Some pkt
    /\ builtHeader pkt =
         RegularQuicPacketBuilder.header_ _ b ++ [x14] ++ packetNumBytes 1 1
    /\ sizeZ (builtHeader pkt) =
         sizeZ (RegularQuicPacketBuilder.header_ _ b) + 1 + 1
    /\ sizeZ (builtHeader pkt) <>
         sizeZ (RegularQuicPacketBuilder.header_ _ b) + kMaxPacketLenSize + 1.
Proof.
  eexists _, _. split; [reflexivity|]. split; [reflexivity|].
  split; [reflexivity|]. split; [reflexivity|]. split; [reflexivity|].
  vm_compute. discriminate.
Qed.

(** ** What the constructors establish *)

Lemma encodePacketNumber_length (pn la : PacketNum) (enc : PacketNumEncodingResult) :
  encodePacketNumber pn la = Some enc -> 1 <= pnLength enc <= 4.
Proof.
  unfold encodePacketNumber.
  repeat match goal with
         | |- context [if ?c then _ else _] => destruct c
         end; try discriminate;
    intros H; injection H as <-; simpl; lia.
Qed.

Lemma encodeLongHeaderHelper_length (lh : LongHeader) (space : Z) (la : PacketNum)
    (enc : PacketNumEncodingResult) (bytes : list byte) (space' : Z) :
  encodeLongHeaderHelper lh space la = Some (enc, bytes, space') ->
  1 <= pnLength enc <= 4.
Proof.
  unfold encodeLongHeaderHelper. intros H.
  apply bind_Some in H as (e & E & H).
  apply encodePacketNumber_length in E.
  repeat (apply bind_Some in H; destruct H as (? & _ & H)).
  injection H as <- _ _. exact E.
Qed.

(** The in-place constructor records the offsets [buildPacket] relies on. *)
Lemma inplace_new_offsets (F : Type) (iobuf : list byte) (r : Z) (lh : LongHeader)
    (la : PacketNum) (b : InplaceQuicPacketBuilder.t F) :
  InplaceQuicPacketBuilder.new F iobuf r (HLong lh) la = Some b ->
  isRetry (longHeaderType lh) = false ->
  exists enc,
    InplaceQuicPacketBuilder.packetNumberEncoding_ F b = Some enc
    /\ 1 <= pnLength enc <= 4
    /\ lengthPatched (writeHeader (InplaceQuicPacketBuilder.packet_ F b)) = true
    /\ inplaceOffsetsOk b enc
    /\ InplaceQuicPacketBuilder.remainingBytes_ F b = r.
Proof.
  unfold InplaceQuicPacketBuilder.new. intros H Hretry.
  destruct (encodeLongHeaderHelper lh r la) as [[[enc bytes] space]|] eqn:E;
    [|discriminate].
  cbn [mbind option_bind] in H. rewrite Hretry in H. cbn [negb] in H.
  injection H as <-.
  pose proof (encodeLongHeaderHelper_length _ _ _ _ _ _ E) as Hpn.
  exists enc. cbn [InplaceQuicPacketBuilder.packetNumberEncoding_
                   InplaceQuicPacketBuilder.packet_ writeHeader
                   InplaceQuicPacketBuilder.remainingBytes_].
  split; [reflexivity|]. split; [exact Hpn|].
  split; [unfold lengthPatched; simpl; rewrite Hretry; reflexivity|].
  split; [|reflexivity].
  unfold inplaceOffsetsOk.
  cbn [InplaceQuicPacketBuilder.packetLenOffset_
       InplaceQuicPacketBuilder.packetNumOffset_
       InplaceQuicPacketBuilder.bodyStart_ InplaceQuicPacketBuilder.iobuf_].
  rewrite !sizeZ_app, sizeZ_repeat. unfold kMaxPacketLenSize.
  pose proof (sizeZ_nonneg iobuf). pose proof (sizeZ_nonneg bytes).
  repeat split; lia.
Qed.

(** Writing to the body and recording frames keep them. *)
Lemma inplace_push_offsets (F : Type) (data : list byte)
    (b : InplaceQuicPacketBuilder.t F) (enc : PacketNumEncodingResult) :
  inplaceOffsetsOk b enc ->
  inplaceOffsetsOk (InplaceQuicPacketBuilder.push F data b) enc.
Proof.
  unfold inplaceOffsetsOk, InplaceQuicPacketBuilder.push.
  cbn [InplaceQuicPacketBuilder.packetLenOffset_
       InplaceQuicPacketBuilder.packetNumOffset_
       InplaceQuicPacketBuilder.bodyStart_ InplaceQuicPacketBuilder.iobuf_].
  rewrite sizeZ_app. pose proof (sizeZ_nonneg data). intuition lia.
Qed.

Lemma inplace_appendFrame_offsets (F : Type) (frame : F)
    (b : InplaceQuicPacketBuilder.t F) (enc : PacketNumEncodingResult) :
  inplaceOffsetsOk b enc ->
  inplaceOffsetsOk (InplaceQuicPacketBuilder.appendFrame F frame b) enc.
Proof. unfold inplaceOffsetsOk, InplaceQuicPacketBuilder.appendFrame. trivial. Qed.

Lemma regular_new_encoding (F : Type) (r : Z) (h : PacketHeader) (la : PacketNum)
    (b : RegularQuicPacketBuilder.t F) (enc : PacketNumEncodingResult) :
  RegularQuicPacketBuilder.new F r h la = Some b ->
  RegularQuicPacketBuilder.packetNumberEncoding_ F b = Some enc ->
  1 <= pnLength enc <= 4.
Proof.
  unfold RegularQuicPacketBuilder.new. destruct h as [lh|sh].
  - destruct (encodeLongHeaderHelper lh r la) as [[[e bytes] space]|] eqn:E;
      [|discriminate].
    cbn [mbind option_bind]. intros H. injection H as <-.
    cbn [RegularQuicPacketBuilder.packetNumberEncoding_].
    intros H. injection H as <-.
    eapply encodeLongHeaderHelper_length. exact E.
  - unfold encodeShortHeaderHelper.
    destruct (encodePacketNumber (shortPacketSequenceNum sh) la) as [e|] eqn:E;
      [|discriminate].
    cbn [mbind option_bind]. apply encodePacketNumber_length in E.
    destruct (_ <? _); cbn [mbind option_bind]; intros H; injection H as <-;
      cbn [RegularQuicPacketBuilder.packetNumberEncoding_]; intros H;
      [discriminate|]. injection H as <-. exact E.
Qed.

(** ** The worker's routing tables *)

Lemma lookup_foldr_delete (cids : list ConnectionId) (c : ConnectionId)
    (m : gmap ConnectionId Transport) :
  In c cids -> foldr delete m cids !! c = None.
Proof.
  induction cids as [|c' cids IH]; intros Hin; [destruct Hin|].
  simpl. destruct (decide (c' = c)) as [->|Hne].
  - apply lookup_delete_eq.
  - rewrite lookup_delete_ne by exact Hne.
    destruct Hin as [Heq|Hin]; [contradiction|]. apply IH. exact Hin.
Qed.

(** C2, as the test has it. After [onConnectionUnbound(transport,
    sourceIdentity, cids)], for every connection id [c] in [cids] the worker's
    ConnIdMap has no entry for [c], and [rejectConnectionId(c)] returns false:
    the id is no longer in use. The source identity is gone from
    SrcToTransportMap as well. *)
Theorem onConnectionUnbound_removes_cids (w : QuicServerWorker.t)
    (transport : Transport) (sourceIdentity : SocketAddress * ConnectionId)
    (cids : list ConnectionId) (c : ConnectionId) :
  In c cids ->
  let w' := QuicServerWorker.onConnectionUnbound transport sourceIdentity cids w in
  QuicServerWorker.connectionIdMap w' !! c = None
  /\ QuicServerWorker.rejectConnectionId c w' = false
  /\ QuicServerWorker.sourceAddressMap w' !! sourceIdentity = None.
Proof.
  intros Hin w'.
  assert (Hnone : QuicServerWorker.connectionIdMap w' !! c = None).
  { unfold w', QuicServerWorker.onConnectionUnbound.
    cbn [QuicServerWorker.connectionIdMap].
    apply lookup_foldr_delete. exact Hin. }
  split; [exact Hnone|]. split.
  - unfold QuicServerWorker.rejectConnectionId. rewrite Hnone.
    apply bool_decide_eq_false. intros [x Hx]. discriminate.
  - unfold w', QuicServerWorker.onConnectionUnbound.
    cbn [QuicServerWorker.sourceAddressMap]. apply lookup_delete_eq.
Qed.

Lemma onConnectionUnbound_removes_cids_witness :
  In includeCid [includeCid]
  /\ QuicServerWorker.connectionIdMap rejectCidAvailable !! includeCid = Some 1%nat
  /\ QuicServerWorker.connectionIdMap rejectCidUnbound !! includeCid = None
  /\ QuicServerWorker.rejectConnectionId includeCid rejectCidUnbound = false.
Proof.
  split; [left; reflexivity|].
  split; [apply lookup_insert_eq|].
  pose proof (onConnectionUnbound_removes_cids rejectCidAvailable 1%nat
                (testAddr, includeCid) [includeCid] includeCid
                (or_introl eq_refl)) as H.
  split; [exact (proj1 H)|exact (proj1 (proj2 H))].
Defined.

Lemma rejectConnectionId_available (t : Transport) (c c' : ConnectionId)
    (w : QuicServerWorker.t) :
  QuicServerWorker.rejectConnectionId c'
    (QuicServerWorker.onConnectionIdAvailable t c w) =
  if decide (c = c') then true else QuicServerWorker.rejectConnectionId c' w.
Proof.
  unfold QuicServerWorker.rejectConnectionId,
    QuicServerWorker.onConnectionIdAvailable.
  cbn [QuicServerWorker.connectionIdMap]. rewrite lookup_insert.
  destruct (decide (c = c')); [|reflexivity].
  apply bool_decide_eq_true. eexists. reflexivity.
Qed.

Lemma rejectConnectionId_new (c : ConnectionId) :
  QuicServerWorker.rejectConnectionId c QuicServerWorker.new = false.
Proof.
  unfold QuicServerWorker.rejectConnectionId, QuicServerWorker.new.
  cbn [QuicServerWorker.connectionIdMap]. rewrite lookup_empty.
  apply bool_decide_eq_false. intros [x Hx]. discriminate.
Qed.

(** The six assertions of [SimpleQuicServerWorkerTest.RejectCid], in order:
    after [onConnectionUnbound] the test expects [rejectConnectionId] to be
    false for the unbound connection id. *)
Lemma rejectCid_test_assertions :
  QuicServerWorker.rejectConnectionId includeCid QuicServerWorker.new = false
  /\ QuicServerWorker.rejectConnectionId excludeCid QuicServerWorker.new = false
  /\ QuicServerWorker.rejectConnectionId includeCid rejectCidAvailable = true
  /\ QuicServerWorker.rejectConnectionId excludeCid rejectCidAvailable = false
  /\ QuicServerWorker.rejectConnectionId includeCid rejectCidUnbound = false
  /\ QuicServerWorker.rejectConnectionId excludeCid rejectCidUnbound = false
  /\ In includeCid [includeCid]
  /\ QuicServerWorker.rejectConnectionId includeCid rejectCidUnbound <> true.
Proof.
  assert (Hne : includeCid <> excludeCid) by discriminate.
  assert (Hu : forall c, QuicServerWorker.rejectConnectionId c rejectCidUnbound = false).
  { intros c. unfold QuicServerWorker.rejectConnectionId, rejectCidUnbound,
      QuicServerWorker.onConnectionUnbound, rejectCidAvailable,
      QuicServerWorker.onConnectionIdAvailable, QuicServerWorker.new.
    cbn [QuicServerWorker.connectionIdMap foldr].
    rewrite delete_insert_eq, delete_empty, lookup_empty.
    apply bool_decide_eq_false. intros [x Hx]. discriminate. }
  split; [apply rejectConnectionId_new|].
  split; [apply rejectConnectionId_new|].
  unfold rejectCidAvailable.
  split; [rewrite rejectConnectionId_available, decide_True by reflexivity;
          reflexivity|].
  split; [rewrite rejectConnectionId_available, decide_False by exact Hne;
          apply rejectConnectionId_new|].
  split; [apply Hu|]. split; [apply Hu|].
  split; [left; reflexivity|]. rewrite Hu. discriminate.
Qed.

(** ** Forwarding during takeover *)

(** C6, with the conditions of the routing order. A client Initial is never
    forwarded, whatever process id its destination connection id encodes and
    whether or not forwarding is enabled. A packet that is not a client
    Initial and whose destination connection id decodes to a foreign process
    id, on a worker that forwards, is forwarded exactly when no table claims
    it (its connection id is neither in ConnIdMap nor in RejectedCidSet and,
    for a long header, SrcToTransportMap has no entry for its peer address
    and connection id), a short header's connection id decodes to this
    worker's host id, and the packet did not itself arrive as forwarded. *)
Theorem takeover_forwarding_rule
    (parseConnectionId : ConnectionId -> option ServerConnectionIdParams)
    (makeTransport : SocketAddress -> option Transport)
    (client : SocketAddress) (rd : RoutingData) (dataLength : Z)
    (isForwarded : bool) (w : QuicServerWorker.t) :
  (QuicServerWorker.isClientInitial rd = true ->
   QuicServerWorker.dispatchPacketData parseConnectionId makeTransport
     client rd dataLength isForwarded w <> ForwardToPeerServer)
  /\
  (forall params,
     QuicServerWorker.isClientInitial rd = false ->
     parseConnectionId (routingDestinationConnId rd) = Some params ->
     processId params <> QuicServerWorker.processId_ w ->
     QuicServerWorker.packetForwardingEnabled_ w = true ->
     (QuicServerWorker.dispatchPacketData parseConnectionId makeTransport
        client rd dataLength isForwarded w = ForwardToPeerServer
      <->
      QuicServerWorker.connectionIdMap w !! routingDestinationConnId rd = None
      /\ (routingDestinationConnId rd ∉ QuicServerWorker.rejectedCidSet w)
      /\ (routingHeaderForm rd = Long ->
          QuicServerWorker.sourceAddressMap w
            !! (client, routingDestinationConnId rd) = None)
      /\ (routingHeaderForm rd = Short ->
          hostId params = QuicServerWorker.hostId_ w)
      /\ isForwarded = false)).
Proof.
  unfold QuicServerWorker.dispatchPacketData. split.
  - intros Hinit. rewrite Hinit.
    repeat match goal with
           | |- context [match ?x with _ => _ end] => destruct x
           end; discriminate.
  - intros params Hinit Hparse Hproc Hfwd.
    assert (Hp : ProcessId_eqb (processId params) (QuicServerWorker.processId_ w)
                 = false).
    { destruct (processId params), (QuicServerWorker.processId_ w);
        try reflexivity; contradiction. }
    rewrite Hinit, Hparse, Hfwd, Hp. unfold QuicServerWorker.connectionNotFound.
    destruct (QuicServerWorker.connectionIdMap w !! routingDestinationConnId rd)
      as [t1|] eqn:Hmap.
    { split; [discriminate|]. intros (H & _). discriminate. }
    case_bool_decide as Hrej.
    { split; [discriminate|]. intros (_ & H & _). contradiction. }
    destruct (routingHeaderForm rd) eqn:Hform;
      destruct (QuicServerWorker.sourceAddressMap w
                  !! (client, routingDestinationConnId rd)) as [t2|] eqn:Hsrc;
      destruct (Z.eqb_spec (hostId params) (QuicServerWorker.hostId_ w))
        as [Hhost|Hhost];
      destruct isForwarded; cbn [andb negb];
      (split;
       [first
          [discriminate
          |intros _;
           split; [reflexivity|]; split; [assumption|];
           split; [intros Hl; first [reflexivity|discriminate Hl]|];
           split; [intros Hs; first [assumption|discriminate Hs]|reflexivity]]
       |intros (_ & _ & H3 & H4 & H5);
        first
          [discriminate H5
          |specialize (H3 eq_refl); discriminate H3
          |specialize (H4 eq_refl); contradiction
          |reflexivity]]).
Qed.

Lemma takeover_forwarding_rule_witness :
  QuicServerWorker.isClientInitial handshakeRoutingData = false
  /\ sameHostAlgo (routingDestinationConnId handshakeRoutingData) =
       Some (mkServerConnectionIdParams 49 ProcessZero 0)
  /\ QuicServerWorker.packetForwardingEnabled_ forwardingWorker = true
  /\ QuicServerWorker.dispatchPacketData sameHostAlgo noTransport testAddr
       handshakeRoutingData 1252 false forwardingWorker = ForwardToPeerServer.
Proof.
  split; [reflexivity|]. split; [reflexivity|]. split; [reflexivity|].
  apply (proj2 (takeover_forwarding_rule sameHostAlgo noTransport testAddr
                  handshakeRoutingData 1252 false forwardingWorker)
           (mkServerConnectionIdParams 49 ProcessZero 0)
           eq_refl eq_refl ltac:(discriminate) eq_refl).
  split; [apply lookup_empty|]. split; [apply not_elem_of_empty|].
  split; [intros _; apply lookup_empty|]. split; [discriminate|reflexivity].
Defined.

(** Packets that are not client Initials and whose connection id decodes to a
    foreign process id, on a worker that forwards, and yet are not forwarded:
    one whose connection id is in ConnIdMap (delivered to its transport), one
    whose connection id is in RejectedCidSet (answered with a stateless
    reset), one with a long header whose address and connection id are in
    SrcToTransportMap (delivered), one with a short header whose connection
    id decodes to another host (answered with a stateless reset), and one
    that arrived as forwarded (dropped). *)
Lemma foreign_process_packets_not_forwarded :
  (QuicServerWorker.isClientInitial shortRoutingData = false
   /\ QuicServerWorker.isClientInitial handshakeRoutingData = false)
  /\ (forall w,
        In w [forwardingWorker; forwardingWorkerWithCid;
              forwardingWorkerUnbound; forwardingWorkerWithSource] ->
        QuicServerWorker.packetForwardingEnabled_ w = true
        /\ forall params,
             otherHostAlgo includeCid = Some params
             \/ sameHostAlgo includeCid = Some params ->
             processId params <> QuicServerWorker.processId_ w)
  /\ QuicServerWorker.dispatchPacketData sameHostAlgo noTransport testAddr
       handshakeRoutingData 1252 false forwardingWorkerWithCid =
     DeliverTo 7%nat
  /\ QuicServerWorker.dispatchPacketData sameHostAlgo noTransport testAddr
       handshakeRoutingData 1252 false forwardingWorkerUnbound =
     ResetRejectedCid
  /\ QuicServerWorker.dispatchPacketData sameHostAlgo noTransport testAddr
       handshakeRoutingData 1252 false forwardingWorkerWithSource =
     DeliverTo 7%nat
  /\ QuicServerWorker.dispatchPacketData otherHostAlgo noTransport testAddr
       shortRoutingData 100 false forwardingWorker =
     SendStatelessReset ROUTING_ERROR_WRONG_HOST
  /\ QuicServerWorker.dispatchPacketData sameHostAlgo noTransport testAddr
       handshakeRoutingData 1252 true forwardingWorker =
     DropPacket CONNECTION_NOT_FOUND.
Proof.
  split; [split; reflexivity|].
  split.
  { intros w Hw. cbn [In] in Hw.
    destruct Hw as [<-|[<-|[<-|[<-|[]]]]];
      (split; [reflexivity|]);
      intros params [H|H]; injection H as <-; discriminate. }
  unfold QuicServerWorker.dispatchPacketData, forwardingWorkerWithCid,
    forwardingWorkerUnbound, forwardingWorkerWithCid,
    forwardingWorkerWithSource, forwardingWorker.
  cbn [QuicServerWorker.connectionIdMap QuicServerWorker.sourceAddressMap
       QuicServerWorker.rejectedCidSet
       QuicServerWorker.startPacketForwarding QuicServerWorker.setProcessId
       QuicServerWorker.setHostId QuicServerWorker.new
       QuicServerWorker.onConnectionIdAvailable
       QuicServerWorker.onConnectionUnbound
       routingDestinationConnId routingHeaderForm
       shortRoutingData handshakeRoutingData foldr].
  rewrite lookup_insert_eq, lookup_delete_eq, lookup_singleton_eq,
    !lookup_empty.
  rewrite (bool_decide_eq_true_2 (includeCid ∈ ∅ ∪ list_to_set [includeCid]))
    by set_solver.
  rewrite (bool_decide_eq_false_2 (includeCid ∈ (∅ : gset ConnectionId)))
    by set_solver.
  repeat split; reflexivity.
Qed.

(** ** The takeover envelope *)

Lemma be_value_be_bytes_small (n : nat) (v : Z) :
  0 <= v < 256 ^ Z.of_nat n -> be_value (be_bytes n v) = v.
Proof. intros H. rewrite be_value_be_bytes. apply Z.mod_small. exact H. Qed.

(** C7. The envelope written when forwarding starts with the 32-bit version
    1, then the 16-bit length of the peer sockaddr and its bytes, then the
    64-bit receive epoch, then the datagram unchanged; the takeover reader
    recovers from it exactly the peer address, the epoch and the datagram,
    and marks the NetworkData as forwarded. *)
Theorem takeover_envelope_roundtrip (peerAddress : SocketAddress) (receiveEpoch : Z)
    (data : list byte) :
  sizeZ peerAddress < 2 ^ 16 ->
  0 <= receiveEpoch < 2 ^ 64 ->
  let envelope :=
    TakeoverPacketHandler.forwardPacketToAnotherServer peerAddress receiveEpoch data in
  envelope = [x00; x00; x00; x01] ++ be_bytes 2 (sizeZ peerAddress) ++ peerAddress
             ++ be_bytes 8 receiveEpoch ++ data
  /\ be_value (take 4 envelope) = 1
  /\ be_value (take 2 (drop 4 envelope)) = sizeZ peerAddress
  /\ TakeoverPacketHandler.processForwardedPacket envelope =
       Some (peerAddress, mkNetworkData data receiveEpoch true).
Proof.
  intros Hlen Hepoch envelope.
  pose proof (sizeZ_nonneg peerAddress) as Hp0.
  assert (He : envelope =
               [x00; x00; x00; x01] ++ be_bytes 2 (sizeZ peerAddress) ++ peerAddress
               ++ be_bytes 8 receiveEpoch ++ data) by reflexivity.
  assert (Hl2 : length (be_bytes 2 (sizeZ peerAddress)) = 2%nat)
    by apply be_bytes_length.
  assert (Hl8 : length (be_bytes 8 receiveEpoch) = 8%nat)
    by apply be_bytes_length.
  assert (Hd4 : drop 4 envelope =
                be_bytes 2 (sizeZ peerAddress) ++ peerAddress
                ++ be_bytes 8 receiveEpoch ++ data) by (rewrite He; reflexivity).
  assert (Hv : be_value (take 2 (drop 4 envelope)) = sizeZ peerAddress).
  { rewrite Hd4, take_app_length' by exact Hl2.
    apply be_value_be_bytes_small. change (256 ^ Z.of_nat 2) with (2 ^ 16). lia. }
  split; [exact He|]. split; [rewrite He; reflexivity|]. split; [exact Hv|].
  unfold TakeoverPacketHandler.processForwardedPacket.
  assert (Hd6 : drop (4 + 2) envelope =
                peerAddress ++ be_bytes 8 receiveEpoch ++ data).
  { rewrite <- drop_drop, Hd4, drop_app_length' by exact Hl2. reflexivity. }
  rewrite Hv, Hd6.
  assert (Hge : (length envelope <? 4 + 2)%nat = false).
  { apply Nat.ltb_ge. rewrite He, !length_app, Hl2. simpl. lia. }
  rewrite Hge.
  assert (Hn : Z.to_nat (sizeZ peerAddress) = length peerAddress)
    by (unfold sizeZ; lia).
  rewrite Hn.
  assert (Hge2 : (length (peerAddress ++ be_bytes 8 receiveEpoch ++ data)
                  <? length peerAddress + 8)%nat = false).
  { apply Nat.ltb_ge. rewrite !length_app, Hl8. lia. }
  rewrite Hge2.
  rewrite take_app_length, drop_app_length.
  rewrite take_app_length' by exact Hl8.
  rewrite be_value_be_bytes_small
    by (change (256 ^ Z.of_nat 8) with (2 ^ 64); lia).
  rewrite <- drop_drop, drop_app_length, drop_app_length' by exact Hl8.
  reflexivity.
Qed.

Lemma takeover_envelope_roundtrip_witness :
  sizeZ testAddr < 2 ^ 16
  /\ 0 <= 1234567 < 2 ^ 64
  /\ TakeoverPacketHandler.processForwardedPacket
       (TakeoverPacketHandler.forwardPacketToAnotherServer testAddr 1234567
          [xc3; x01; x02]) =
     Some (testAddr, mkNetworkData [xc3; x01; x02] 1234567 true).
Proof.
  split; [vm_compute; reflexivity|]. split; [lia|].
  exact (proj2 (proj2 (proj2
           (takeover_envelope_roundtrip testAddr 1234567 [xc3; x01; x02]
              ltac:(vm_compute; reflexivity) ltac:(lia))))).
Defined.

(** ** Cursors over encoded bytes *)

(** What a cursor sees of a chain is its bytes in order: the following
    lemmas read a cursor that stands before [bs ++ rest]. *)

Lemma canAdvance_app (c : Cursor) (bs rest : list byte) (n : Z) :
  concat c = bs ++ rest -> n <= sizeZ bs -> canAdvance n c = true.
Proof.
  intros Hc Hn. unfold canAdvance, totalLength. rewrite Hc, length_app.
  unfold sizeZ in Hn. apply Z.leb_le. lia.
Qed.

Lemma pull_app (c : Cursor) (bs rest : list byte) (n : nat) :
  concat c = bs ++ rest -> n = length bs -> pull n c = bs.
Proof.
  intros Hc ->. unfold pull. rewrite Hc. apply take_app_length.
Qed.

Lemma skip_app (c : Cursor) (bs rest : list byte) (n : nat) :
  concat c = bs ++ rest -> n = length bs -> concat (skip n c) = rest.
Proof.
  intros Hc ->. rewrite concat_skip, Hc. apply drop_app_length.
Qed.

Lemma totalLength_skip (n : nat) (c : Cursor) :
  canAdvance (Z.of_nat n) c = true ->
  totalLength (skip n c) = totalLength c - Z.of_nat n.
Proof.
  unfold canAdvance, totalLength. intros H. apply Z.leb_le in H.
  rewrite concat_skip, length_drop. lia.
Qed.

Lemma totalLength_nonneg (c : Cursor) : 0 <= totalLength c.
Proof. unfold totalLength. lia. Qed.

Lemma pull_length (n : nat) (c : Cursor) :
  canAdvance (Z.of_nat n) c = true -> length (pull n c) = n.
Proof.
  unfold canAdvance, totalLength, pull. intros H. apply Z.leb_le in H.
  rewrite length_take. lia.
Qed.

(** Pulling and then skipping splits the bytes of the cursor. *)
Lemma pull_skip_concat (n : nat) (c : Cursor) :
  concat c = pull n c ++ concat (skip n c).
Proof. unfold pull. rewrite concat_skip, take_drop. reflexivity. Qed.

(** ** Variable-length integers: decoding what was encoded *)

Lemma lor_low6 (b k : Z) :
  0 <= b < 64 -> 0 <= k -> Z.lor b (k * 64) = b + k * 64.
Proof.
  intros Hb Hk.
  assert (Hl : Z.land b (k * 64) = 0).
  { apply Z.bits_inj'. intros n Hn. rewrite Z.land_spec, Z.bits_0.
    change 64 with (2 ^ 6). destruct (Z.ltb_spec n 6) as [Hlt|Hge].
    - rewrite (Z.mul_pow2_bits_low k 6 n) by lia. apply andb_false_r.
    - rewrite (Z.bits_above_log2 b n); [reflexivity|lia|].
      destruct (Z.eq_dec b 0) as [->|Hne]; [simpl; lia|].
      assert (Z.log2 b < 6) by (apply Z.log2_lt_pow2; lia). lia. }
  pose proof (Z.add_lor_land b (k * 64)) as H. rewrite Hl in H. lia.
Qed.

Lemma encodeWithSize_decode (k v : Z) (c : Cursor) (rest : list byte) :
  0 <= k <= 3 -> 0 <= v < 2 ^ (8 * 2 ^ k - 2) ->
  concat c = encodeWithSize (2 ^ k) v ++ rest ->
  decodeQuicInteger c =
    Some (v, 2 ^ k, skip (Z.to_nat (2 ^ k)) c).
Proof.
  intros Hk Hv Hc.
  assert (Hpow : 1 <= 2 ^ k <= 8).
  { assert (2 ^ 0 <= 2 ^ k) by (apply Z.pow_le_mono_r; lia).
    assert (2 ^ k <= 2 ^ 3) by (apply Z.pow_le_mono_r; lia).
    change (2 ^ 0) with 1 in *. change (2 ^ 3) with 8 in *. lia. }
  set (n := Z.to_nat (2 ^ k)) in *.
  assert (Hn : (1 <= n)%nat) by (unfold n; lia).
  revert Hc. unfold encodeWithSize. fold n.
  pose proof (be_bytes_length n v) as Hlen.
  pose proof (be_value_be_bytes n v) as Hval.
  destruct (be_bytes n v) as [|b0 rest0] eqn:Eb; [simpl in Hlen; lia|].
  simpl length in Hlen.
  assert (H256 : 256 ^ Z.of_nat n = 4 * 2 ^ (8 * 2 ^ k - 2)).
  { replace (Z.of_nat n) with (2 ^ k) by (unfold n; lia).
    change 256 with (2 ^ 8). rewrite <- Z.pow_mul_r by lia.
    change 4 with (2 ^ 2). rewrite <- Z.pow_add_r by lia.
    f_equal. lia. }
  assert (H256' : 256 ^ Z.of_nat n = 256 * 256 ^ Z.of_nat (length rest0)).
  { replace (Z.of_nat n) with (Z.succ (Z.of_nat (length rest0))) by lia.
    rewrite Z.pow_succ_r by lia. reflexivity. }
  assert (Hpos : 0 < 256 ^ Z.of_nat (length rest0))
    by (apply Z.pow_pos_nonneg; lia).
  rewrite Z.mod_small in Hval by lia.
  rewrite be_value_cons in Hval.
  pose proof (Z_of_byte_range b0) as Hb0.
  pose proof (be_value_range rest0) as Hr0.
  assert (Hb64 : Z_of_byte b0 < 64) by nia.
  rewrite Z.log2_pow2 by lia.
  rewrite lor_low6 by lia.
  intros Hc. unfold decodeQuicInteger. rewrite Hc. cbn [app].
  rewrite Z_of_byte_of_Z.
  rewrite (Z.mod_small (Z_of_byte b0 + k * 64)) by lia.
  rewrite Z.div_add by lia. rewrite (Z.div_small (Z_of_byte b0)) by lia.
  rewrite Z.add_0_l. fold n.
  erewrite canAdvance_app; [|exact Hc|unfold sizeZ; simpl length; lia].
  erewrite pull_app; [|exact Hc|simpl length; lia].
  cbv beta iota. rewrite Z_of_byte_of_Z.
  rewrite (Z.mod_small (Z_of_byte b0 + k * 64)) by lia.
  change 0x3F with (Z.ones 6). rewrite Z.land_ones by lia.
  change (2 ^ 6) with 64. rewrite Z.mod_add by lia.
  rewrite (Z.mod_small (Z_of_byte b0)) by lia.
  rewrite byte_of_Z_of_byte, be_value_cons, Hval.
  replace (Z.of_nat n) with (2 ^ k) by (unfold n; lia). reflexivity.
Qed.

(** Decoding recovers an encoded value and stops right after its bytes,
    whichever width the encoder was asked for. *)
Lemma decodeQuicInteger_encode (v : Z) (byteSize : option Z)
    (bytes rest : list byte) (c : Cursor) :
  0 <= v -> encodeQuicInteger v byteSize = Some bytes ->
  concat c = bytes ++ rest ->
  decodeQuicInteger c = Some (v, sizeZ bytes, skip (length bytes) c).
Proof.
  intros Hv He Hc.
  assert (Hcase : exists k, 0 <= k <= 3 /\ v < 2 ^ (8 * 2 ^ k - 2)
                            /\ bytes = encodeWithSize (2 ^ k) v).
  { revert He. unfold encodeQuicInteger, kOneByteLimit, kTwoByteLimit,
      kFourByteLimit, kEightByteLimit.
    destruct byteSize as [[|p|p]|]; try discriminate.
    1: do 4 (try (destruct p as [p|p|]; try discriminate)).
    all: repeat match goal with
           | |- context [if ?x <=? ?y then _ else _] =>
               destruct (Z.leb_spec x y)
           end; try discriminate.
    all: intros Henc; injection Henc as <-.
    all: first [ exists 0; split; [lia|]; split; [simpl; lia|reflexivity]
               | exists 1; split; [lia|]; split; [simpl; lia|reflexivity]
               | exists 2; split; [lia|]; split; [simpl; lia|reflexivity]
               | exists 3; split; [lia|]; split; [simpl; lia|reflexivity] ]. }
  destruct Hcase as (k & Hk & Hlt & ->).
  assert (Hpow : 1 <= 2 ^ k).
  { assert (2 ^ 0 <= 2 ^ k) by (apply Z.pow_le_mono_r; lia).
    change (2 ^ 0) with 1 in *. lia. }
  rewrite (encodeWithSize_decode k v c rest Hk (conj Hv Hlt) Hc).
  unfold sizeZ. rewrite encodeWithSize_length by lia.
  rewrite Z2Nat.id by lia. reflexivity.
Qed.

(** ** Long-header invariants *)

Lemma be_bytes_be_value (bs : list byte) :
  be_bytes (length bs) (be_value bs) = bs.
Proof.
  induction bs as [|b bs IH] using rev_ind; [reflexivity|].
  rewrite length_app. simpl length. rewrite Nat.add_1_r. simpl be_bytes.
  rewrite be_value_app. simpl length. change (256 ^ Z.of_nat 1) with 256.
  pose proof (Z_of_byte_range b) as Hb.
  replace (be_value [b]) with (Z_of_byte b) by (unfold be_value; simpl; lia).
  rewrite Z.div_add_l by lia. rewrite (Z.div_small (Z_of_byte b)) by lia.
  rewrite Z.add_0_r, IH. f_equal.
  unfold byte_of_Z.
  rewrite Z.add_comm, Z.mod_add by lia. rewrite Z.mod_small by lia.
  fold (byte_of_Z (Z_of_byte b)).
  replace (match Byte.of_N (Z.to_N (Z_of_byte b)) with
           | Some b0 => b0 | None => x00 end) with (byte_of_Z (Z_of_byte b)).
  - rewrite byte_of_Z_of_byte. reflexivity.
  - unfold byte_of_Z. rewrite Z.mod_small by lia. reflexivity.
Qed.

Lemma be_value_single (b : byte) : be_value [b] = Z_of_byte b.
Proof. unfold be_value. simpl. lia. Qed.

Lemma length_one {A} (l : list A) : length l = 1%nat -> exists x, l = [x].
Proof.
  destruct l as [|x [|y l]]; simpl; intros H; try discriminate. eauto.
Qed.

(** The bytes a successful [parseLongHeaderInvariant] has consumed. *)
Lemma parseLongHeaderInvariant_inr (initialByte : Z) (c c' : Cursor)
    (p : ParsedLongHeaderInvariant) :
  parseLongHeaderInvariant initialByte c = inr (p, c') ->
  let dst := invariantDstConnId (parsedInvariant p) in
  let src := invariantSrcConnId (parsedInvariant p) in
  parsedInitialByte p = initialByte
  /\ sizeZ dst <= kMaxConnectionIdSize
  /\ sizeZ src <= kMaxConnectionIdSize
  /\ invariantLength p = 4 + 1 + sizeZ dst + 1 + sizeZ src
  /\ totalLength c' = totalLength c - invariantLength p
  /\ 0 <= invariantVersion (parsedInvariant p) < 2 ^ 32
  /\ concat c =
       be_bytes 4 (invariantVersion (parsedInvariant p)) ++
       [byte_of_Z (sizeZ dst)] ++ dst ++ [byte_of_Z (sizeZ src)] ++ src ++
       concat c'.
Proof.
  unfold parseLongHeaderInvariant, readBE, readConnectionId.
  destruct (canAdvance 4 c) eqn:E1; [|discriminate]. cbn [negb].
  destruct (canAdvance 1 (skip 4 c)) eqn:E2; [|discriminate]. cbn [negb].
  set (c2 := skip 1 (skip 4 c)).
  set (dl := be_value (pull 1 (skip 4 c))).
  destruct (Z.gtb_spec dl kMaxConnectionIdSize) as [|Hdl]; [discriminate|].
  destruct (canAdvance dl c2) eqn:E3; [|discriminate]. cbn [negb].
  set (c3 := skip (Z.to_nat dl) c2).
  destruct (canAdvance 1 c3) eqn:E4; [|discriminate]. cbn [negb].
  set (c4 := skip 1 c3).
  set (sl := be_value (pull 1 c3)).
  destruct (Z.gtb_spec sl kMaxConnectionIdSize) as [|Hsl]; [discriminate|].
  destruct (canAdvance sl c4) eqn:E5; [|discriminate]. cbn [negb].
  intros H. injection H as <- <-.
  cbn [parsedInitialByte parsedInvariant invariantLength invariantVersion
       invariantSrcConnId invariantDstConnId].
  pose proof (pull_length 4 c E1) as L1.
  pose proof (pull_length 1 (skip 4 c) E2) as L2.
  pose proof (be_value_range (pull 1 (skip 4 c))) as Rdl.
  pose proof (be_value_range (pull 1 c3)) as Rsl.
  pose proof (pull_length 1 c3 E4) as L4.
  rewrite L2 in Rdl. rewrite L4 in Rsl. fold dl in Rdl. fold sl in Rsl.
  assert (L3 : length (pull (Z.to_nat dl) c2) = Z.to_nat dl).
  { apply pull_length. rewrite Z2Nat.id by lia. exact E3. }
  assert (L5 : length (pull (Z.to_nat sl) c4) = Z.to_nat sl).
  { apply pull_length. rewrite Z2Nat.id by lia. exact E5. }
  assert (Sd : sizeZ (pull (Z.to_nat dl) c2) = dl) by (unfold sizeZ; lia).
  assert (Ss : sizeZ (pull (Z.to_nat sl) c4) = sl) by (unfold sizeZ; lia).
  rewrite Sd, Ss.
  assert (T1 := totalLength_skip 4 c E1).
  assert (T2 := totalLength_skip 1 (skip 4 c) E2).
  assert (T3 : totalLength c3 = totalLength c2 - dl).
  { unfold c3. rewrite totalLength_skip; rewrite Z2Nat.id by lia; auto. }
  assert (T4 := totalLength_skip 1 c3 E4).
  assert (T5 : totalLength (skip (Z.to_nat sl) c4) = totalLength c4 - sl).
  { rewrite totalLength_skip; rewrite Z2Nat.id by lia; auto. }
  fold c2 in T2. fold c4 in T4.
  split; [reflexivity|]. split; [exact Hdl|]. split; [exact Hsl|].
  split; [lia|]. split; [lia|].
  pose proof (be_value_range (pull 4 c)) as Rv. rewrite L1 in Rv.
  split; [change (256 ^ Z.of_nat 4) with (2 ^ 32) in Rv; exact Rv|].
  assert (Hbv : be_bytes 4 (be_value (pull 4 c)) = pull 4 c).
  { pose proof (be_bytes_be_value (pull 4 c)) as Hbb.
    rewrite L1 in Hbb. exact Hbb. }
  rewrite Hbv. rewrite (pull_skip_concat 4 c) at 1.
  rewrite (pull_skip_concat 1 (skip 4 c)). fold c2.
  destruct (length_one _ L2) as (bd & Ebd).
  assert (Hbd : byte_of_Z dl = bd).
  { unfold dl. rewrite Ebd, be_value_single. apply byte_of_Z_of_byte. }
  rewrite Hbd, Ebd.
  rewrite (pull_skip_concat (Z.to_nat dl) c2). fold c3.
  rewrite (pull_skip_concat 1 c3). fold c4.
  destruct (length_one _ L4) as (bs & Ebs).
  assert (Hbs : byte_of_Z sl = bs).
  { unfold sl. rewrite Ebs, be_value_single. apply byte_of_Z_of_byte. }
  rewrite Hbs, Ebs.
  rewrite (pull_skip_concat (Z.to_nat sl) c4).
  rewrite <- ?app_assoc. reflexivity.
Qed.

(** Conversely, every such byte string is accepted. *)
Lemma parseLongHeaderInvariant_complete (initialByte : Z) (c : Cursor)
    (version : Z) (dst src rest : list byte) :
  0 <= version < 2 ^ 32 ->
  sizeZ dst <= kMaxConnectionIdSize -> sizeZ src <= kMaxConnectionIdSize ->
  concat c =
    be_bytes 4 version ++ [byte_of_Z (sizeZ dst)] ++ dst ++
    [byte_of_Z (sizeZ src)] ++ src ++ rest ->
  exists c',
    parseLongHeaderInvariant initialByte c =
      inr (mkParsedLongHeaderInvariant initialByte
             (mkLongHeaderInvariant version src dst)
             (4 + 1 + sizeZ dst + 1 + sizeZ src),
           c')
    /\ concat c' = rest.
Proof.
  intros Hv Hd Hs Hc. unfold kMaxConnectionIdSize in *.
  pose proof (sizeZ_nonneg dst) as Hd0. pose proof (sizeZ_nonneg src) as Hs0.
  unfold parseLongHeaderInvariant, readBE, readConnectionId.
  pose proof (be_bytes_length 4 version) as L4.
  rewrite (canAdvance_app c _ _ 4 Hc) by (unfold sizeZ; lia). cbn [negb].
  rewrite (pull_app c _ _ 4 Hc) by lia.
  pose proof (skip_app c _ _ 4 Hc ltac:(lia)) as Hc1.
  set (c1 := skip 4 c) in *.
  rewrite (canAdvance_app c1 [_] _ 1 Hc1) by (unfold sizeZ; simpl; lia).
  cbn [negb].
  rewrite (pull_app c1 [_] _ 1 Hc1) by reflexivity.
  pose proof (skip_app c1 [_] _ 1 Hc1 ltac:(reflexivity)) as Hc2.
  set (c2 := skip 1 c1) in *.
  rewrite be_value_single, Z_of_byte_of_Z, (Z.mod_small (sizeZ dst)) by lia.
  destruct (Z.gtb_spec (sizeZ dst) kMaxConnectionIdSize) as [Hgt|_];
    [unfold kMaxConnectionIdSize in Hgt; lia|].
  rewrite (canAdvance_app c2 dst _ (sizeZ dst) Hc2) by lia. cbn [negb].
  rewrite (pull_app c2 dst _ _ Hc2) by (unfold sizeZ; lia).
  pose proof (skip_app c2 dst _ (Z.to_nat (sizeZ dst)) Hc2
                ltac:(unfold sizeZ; lia)) as Hc3.
  set (c3 := skip (Z.to_nat (sizeZ dst)) c2) in *.
  rewrite (canAdvance_app c3 [_] _ 1 Hc3) by (unfold sizeZ; simpl; lia).
  cbn [negb].
  rewrite (pull_app c3 [_] _ 1 Hc3) by reflexivity.
  pose proof (skip_app c3 [_] _ 1 Hc3 ltac:(reflexivity)) as Hc4.
  set (c4 := skip 1 c3) in *.
  rewrite be_value_single, Z_of_byte_of_Z, (Z.mod_small (sizeZ src)) by lia.
  destruct (Z.gtb_spec (sizeZ src) kMaxConnectionIdSize) as [Hgt|_];
    [unfold kMaxConnectionIdSize in Hgt; lia|].
  rewrite (canAdvance_app c4 src _ (sizeZ src) Hc4) by lia. cbn [negb].
  rewrite (pull_app c4 src _ _ Hc4) by (unfold sizeZ; lia).
  pose proof (skip_app c4 src _ (Z.to_nat (sizeZ src)) Hc4
                ltac:(unfold sizeZ; lia)) as Hc5.
  set (c5 := skip (Z.to_nat (sizeZ src)) c4) in *.
  exists c5. split; [|exact Hc5].
  rewrite be_value_be_bytes_small
    by (change (256 ^ Z.of_nat 4) with (2 ^ 32); lia).
  do 3 f_equal.
  unfold totalLength. rewrite Hc, Hc5. rewrite !length_app, L4. simpl length.
  unfold sizeZ. lia.
Qed.

(** ** Long headers *)

Lemma parsePacketNumberLength_range (initialByte : Z) :
  1 <= parsePacketNumberLength initialByte <= kMaxPacketNumEncodingSize.
Proof.
  unfold parsePacketNumberLength, kPacketNumLenMask, kMaxPacketNumEncodingSize.
  change 0x03 with (Z.ones 2). rewrite Z.land_ones by lia.
  pose proof (Z.mod_pos_bound initialByte (2 ^ 2) ltac:(lia)) as H.
  change (2 ^ 2) with 4 in *. lia.
Qed.

(** Every two-bit value names a packet type: the [default:] branch of the
    [switch] in [parseLongHeader] is never taken. *)
Lemma parseLongHeaderType_total (initialByte : Z) :
  exists type,
    longHeaderTypeOfValue (parseLongHeaderType initialByte) = Some type
    /\ longHeaderTypeValue type = parseLongHeaderType initialByte.
Proof.
  unfold parseLongHeaderType, kPacketTypeMask, LongHeaderMasks.kTypeShift.
  assert (H : 0 <= Z.shiftr (Z.land initialByte 0x30) 4 < 4).
  { rewrite Z.shiftr_land. change (Z.shiftr 0x30 4) with (Z.ones 2).
    rewrite Z.land_ones by lia. apply Z.mod_pos_bound. lia. }
  set (v := Z.shiftr (Z.land initialByte 0x30) 4) in *.
  assert (Hv : v = 0 \/ v = 1 \/ v = 2 \/ v = 3) by lia.
  destruct Hv as [-> | [-> | [-> | ->]]];
    [exists Initial | exists ZeroRtt | exists Handshake | exists Retry];
    split; reflexivity.
Qed.

Section LongHeaderProperties.

Variable kRetryIntegrityTagLen : Z.
Variable kMinInitialDestinationConnIdLength : Z.
Variable defaultNodeType : QuicNodeType.

Lemma parseInitialToken_inl (c : Cursor) (e : TransportErrorCode) :
  parseInitialToken c = inl e -> e = FRAME_ENCODING_ERROR.
Proof.
  unfold parseInitialToken.
  destruct (decodeQuicInteger c) as [[[tokenLen n] c1]|];
    [|intros H; injection H as <-; reflexivity].
  destruct (canAdvance tokenLen c1); cbn [negb];
    [|intros H; injection H as <-; reflexivity].
  destruct (tokenLen >? 0); discriminate.
Qed.

Lemma parseLongHeaderVariants_inl (type : LongHeaderTypes)
    (p : ParsedLongHeaderInvariant) (c : Cursor) (nodeType : QuicNodeType)
    (e : TransportErrorCode) :
  parseLongHeaderVariants kRetryIntegrityTagLen
    kMinInitialDestinationConnIdLength type p c nodeType = inl e ->
  e = FRAME_ENCODING_ERROR.
Proof.
  unfold parseLongHeaderVariants.
  destruct (isRetry type).
  { destruct (totalLength c <=? kRetryIntegrityTagLen); [|discriminate].
    intros H; injection H as <-; reflexivity. }
  destruct (isInitial type && isServer nodeType && _);
    [intros H; injection H as <-; reflexivity|].
  destruct (if isInitial type then parseInitialToken c else inr ([], c))
    as [e0|[token c2]] eqn:Et.
  { intros H; injection H as <-.
    destruct (isInitial type); [|discriminate].
    apply parseInitialToken_inl in Et. exact Et. }
  destruct (decodeQuicInteger c2) as [[[pktLen n] c3]|];
    [|intros H; injection H as <-; reflexivity].
  repeat match goal with
         | |- context [if ?b then _ else _] => destruct b
         end; try discriminate; intros H; injection H as <-; reflexivity.
Qed.

(** X6. [parseLongHeader] reports every failure as FRAME_ENCODING_ERROR, also a
    connection-id length above 20, which [parseLongHeaderInvariant] reports
    as PROTOCOL_VIOLATION. *)
Theorem parseLongHeader_error_code (initialByte : Z) (cursor : Cursor)
    (e : TransportErrorCode) :
  parseLongHeader kRetryIntegrityTagLen kMinInitialDestinationConnIdLength
    defaultNodeType initialByte cursor = inl e ->
  e = FRAME_ENCODING_ERROR.
Proof.
  unfold parseLongHeader.
  destruct (getHeaderFormOfByte initialByte);
    [|intros H; injection H as <-; reflexivity].
  destruct (longHeaderTypeOfValue (parseLongHeaderType initialByte)) as [type|];
    [|intros H; injection H as <-; reflexivity].
  destruct (parseLongHeaderInvariant initialByte cursor) as [e0|[inv c1]];
    [intros H; injection H as <-; reflexivity|].
  destruct (invariantVersion (parsedInvariant inv) =? VERSION_NEGOTIATION);
    [discriminate|].
  destruct (parseLongHeaderVariants _ _ type inv c1 defaultNodeType)
    as [e1|[h c2]] eqn:Ev; [|discriminate].
  intros H; injection H as <-.
  apply parseLongHeaderVariants_inl in Ev. exact Ev.
Qed.

(** X7. What a successful [parseLongHeaderVariants] guarantees its caller. For a
    Retry the token is everything but the integrity tag, which is what is
    left in the cursor. Otherwise the packet number and the announced
    payload are there to be read, the packet-number length is between 1 and
    4, and only an Initial carries a token. *)
Theorem parseLongHeaderVariants_postcondition (type : LongHeaderTypes)
    (p : ParsedLongHeaderInvariant) (c c' : Cursor) (nodeType : QuicNodeType)
    (h : ParsedLongHeader) :
  0 <= kRetryIntegrityTagLen ->
  parseLongHeaderVariants kRetryIntegrityTagLen
    kMinInitialDestinationConnIdLength type p c nodeType = inr (h, c') ->
  parsedType h = type
  /\ parsedLongInvariant h = parsedInvariant p
  /\ (if isRetry type then
        parsedToken h <> []
        /\ concat c = parsedToken h ++ concat c'
        /\ totalLength c' = kRetryIntegrityTagLen
        /\ parsedPacketLength h = mkPacketLength 0 0
      else
        let packetNumLen := parsePacketNumberLength (parsedInitialByte p) in
        1 <= packetNumLen <= kMaxPacketNumEncodingSize
        /\ packetNumLen <= totalLength c'
        /\ packetLength (parsedPacketLength h) <= totalLength c'
        /\ (isInitial type = false -> parsedToken h = [] /\ concat c' =
              drop (Z.to_nat (lengthLength (parsedPacketLength h))) (concat c))
        /\ (isInitial type = true -> isServer nodeType = true ->
            kMinInitialDestinationConnIdLength
              <= sizeZ (invariantDstConnId (parsedInvariant p)))).
Proof.
  intros HK. unfold parseLongHeaderVariants.
  destruct (isRetry type) eqn:Er.
  { destruct (Z.leb_spec (totalLength c) kRetryIntegrityTagLen) as [|Hgt];
      [discriminate|].
    intros H. injection H as <- <-.
    cbn [parsedType parsedLongInvariant parsedToken parsedPacketLength].
    set (n := Z.to_nat (totalLength c - kRetryIntegrityTagLen)).
    assert (Hadv : canAdvance (Z.of_nat n) c = true).
    { unfold canAdvance. apply Z.leb_le. unfold n. lia. }
    split; [reflexivity|]. split; [reflexivity|].
    split.
    { intros Hnil. pose proof (pull_length n c Hadv) as Hl.
      rewrite Hnil in Hl. simpl in Hl. unfold n in Hl. lia. }
    split; [apply pull_skip_concat|].
    split; [|reflexivity].
    rewrite totalLength_skip by exact Hadv. unfold n. lia. }
  destruct (isInitial type) eqn:Ei; cbn [andb].
  - destruct (isServer nodeType) eqn:Es; cbn [andb].
    + destruct (Z.ltb_spec (sizeZ (invariantDstConnId (parsedInvariant p)))
                  kMinInitialDestinationConnIdLength) as [|Hge];
        [discriminate|].
      destruct (parseInitialToken c) as [e0|[token c2]]; [discriminate|].
      destruct (decodeQuicInteger c2) as [[[pktLen n] c3]|]; [|discriminate].
      set (pnl := parsePacketNumberLength (parsedInitialByte p)).
      destruct (canAdvance pktLen c3) eqn:E1; cbn [negb]; [|discriminate].
      destruct (canAdvance pnl c3) eqn:E2; cbn [negb]; [|discriminate].
      destruct (pnl >? kMaxPacketNumEncodingSize); [discriminate|].
      intros H. injection H as <- <-.
      cbn [parsedType parsedLongInvariant parsedToken parsedPacketLength
           packetLength].
      unfold canAdvance in E1, E2. apply Z.leb_le in E1, E2.
      split; [reflexivity|]. split; [reflexivity|].
      split; [apply parsePacketNumberLength_range|].
      split; [exact E2|]. split; [exact E1|].
      split; [discriminate|]. intros _ _. exact Hge.
    + destruct (parseInitialToken c) as [e0|[token c2]]; [discriminate|].
      destruct (decodeQuicInteger c2) as [[[pktLen n] c3]|]; [|discriminate].
      set (pnl := parsePacketNumberLength (parsedInitialByte p)).
      destruct (canAdvance pktLen c3) eqn:E1; cbn [negb]; [|discriminate].
      destruct (canAdvance pnl c3) eqn:E2; cbn [negb]; [|discriminate].
      destruct (pnl >? kMaxPacketNumEncodingSize); [discriminate|].
      intros H. injection H as <- <-.
      cbn [parsedType parsedLongInvariant parsedToken parsedPacketLength
           packetLength].
      unfold canAdvance in E1, E2. apply Z.leb_le in E1, E2.
      split; [reflexivity|]. split; [reflexivity|].
      split; [apply parsePacketNumberLength_range|].
      split; [exact E2|]. split; [exact E1|].
      split; [discriminate|]. intros _ Hs. discriminate.
  - destruct (decodeQuicInteger c) as [[[pktLen n] c3]|] eqn:Ed; [|discriminate].
    set (pnl := parsePacketNumberLength (parsedInitialByte p)).
    destruct (canAdvance pktLen c3) eqn:E1; cbn [negb]; [|discriminate].
    destruct (canAdvance pnl c3) eqn:E2; cbn [negb]; [|discriminate].
    destruct (pnl >? kMaxPacketNumEncodingSize); [discriminate|].
    intros H. injection H as <- <-.
    cbn [parsedType parsedLongInvariant parsedToken parsedPacketLength
         packetLength lengthLength].
    unfold canAdvance in E1, E2. apply Z.leb_le in E1, E2.
    split; [reflexivity|]. split; [reflexivity|].
    split; [apply parsePacketNumberLength_range|].
    split; [exact E2|]. split; [exact E1|].
    split; [|discriminate]. intros _. split; [reflexivity|].
    revert Ed. unfold decodeQuicInteger.
    destruct (concat c) as [|first bs] eqn:Ec; [discriminate|].
    destruct (canAdvance _ c); [|discriminate].
    destruct (pull _ c); [discriminate|].
    intros H. injection H as _ <- <-. rewrite Nat2Z.id.
    rewrite concat_skip, Ec. reflexivity.
Qed.

End LongHeaderProperties.

(** ** Version negotiation *)

Lemma readVersions_spec (k : nat) :
  forall (fuel : nat) (c : Cursor) (acc : list QuicVersion),
    totalLength c = 4 * Z.of_nat k -> (k <= fuel)%nat ->
    exists vs,
      readVersions fuel c acc = Some (acc ++ vs)
      /\ length vs = k
      /\ Forall (fun v => 0 <= v < 2 ^ 32) vs
      /\ concat (map (be_bytes 4) vs) = concat c.
Proof.
  induction k as [|k IH]; intros fuel c acc Hlen Hfuel.
  - exists []. rewrite app_nil_r.
    assert (Hc : concat c = []).
    { unfold totalLength in Hlen. destruct (concat c); [reflexivity|].
      simpl in Hlen. lia. }
    destruct fuel; simpl; rewrite Hlen; simpl;
      (split; [reflexivity|]; split; [reflexivity|];
       split; [constructor|]; symmetry; exact Hc).
  - destruct fuel as [|fuel]; [lia|]. cbn [readVersions].
    destruct (Z.eqb_spec (totalLength c) 0) as [H0|_]; [lia|].
    assert (Hadv : canAdvance (Z.of_nat 4) c = true).
    { unfold canAdvance. apply Z.leb_le. lia. }
    change (Z.of_nat 4) with 4 in Hadv. rewrite Hadv.
    unfold readBE. cbv beta iota.
    destruct (IH fuel (skip 4 c) (acc ++ [be_value (pull 4 c)]))
      as (vs & Hr & Hl & Hf & Hcat).
    { rewrite (totalLength_skip 4 c Hadv). lia. }
    { lia. }
    exists (be_value (pull 4 c) :: vs).
    rewrite Hr, <- app_assoc. split; [reflexivity|].
    split; [simpl; lia|].
    pose proof (pull_length 4 c Hadv) as L4.
    split.
    { constructor; [|exact Hf].
      pose proof (be_value_range (pull 4 c)) as Hv. rewrite L4 in Hv.
      change (256 ^ Z.of_nat 4) with (2 ^ 32) in Hv. exact Hv. }
    rewrite map_cons, concat_cons, Hcat.
    pose proof (be_bytes_be_value (pull 4 c)) as Hbb. rewrite L4 in Hbb.
    rewrite Hbb. symmetry. apply pull_skip_concat.
Qed.

(** X8. [decodeVersionNegotiation] never reads past the end of the data. It
    returns no packet exactly when the version list is empty or not a whole
    number of 4-byte versions; otherwise the packet carries the initial byte
    and the connection ids of the invariant, and its versions, written back
    as 4-byte big-endian numbers, are the bytes that were read. *)
Theorem decodeVersionNegotiation_spec (inv : ParsedLongHeaderInvariant)
    (cursor : Cursor) :
  exists result,
    decodeVersionNegotiation inv cursor = Some result
    /\ match result with
       | None => totalLength cursor < 4 \/ totalLength cursor mod 4 <> 0
       | Some packet =>
           4 <= totalLength cursor
           /\ totalLength cursor = 4 * sizeZ (versions packet)
           /\ packetType packet = parsedInitialByte inv
           /\ sourceConnectionId packet =
                invariantSrcConnId (parsedInvariant inv)
           /\ destinationConnectionId packet =
                invariantDstConnId (parsedInvariant inv)
           /\ concat (map (be_bytes 4) (versions packet)) = concat cursor
       end.
Proof.
  unfold decodeVersionNegotiation.
  destruct (Z.ltb_spec (totalLength cursor) 4) as [Hlt|Hge]; cbn [orb].
  { exists None. split; [reflexivity|]. left. exact Hlt. }
  destruct (Z.eqb_spec (totalLength cursor mod 4) 0) as [Hm|Hm]; cbn [negb].
  2: { exists None. split; [reflexivity|]. right. exact Hm. }
  set (k := Z.to_nat (totalLength cursor / 4)).
  assert (Hk : totalLength cursor = 4 * Z.of_nat k).
  { unfold k. rewrite Z2Nat.id by (apply Z.div_pos; lia).
    pose proof (Z.div_mod (totalLength cursor) 4 ltac:(lia)). lia. }
  destruct (readVersions_spec k (Z.to_nat (totalLength cursor)) cursor [] Hk
              ltac:(lia)) as (vs & Hr & Hl & _ & Hcat).
  rewrite Hr. cbn [mbind option_bind app].
  eexists. split; [reflexivity|].
  cbn [packetType sourceConnectionId destinationConnectionId versions].
  split; [exact Hge|]. split; [unfold sizeZ; lia|].
  repeat split; exact Hcat.
Qed.

(** ** What the builders write is what the parsers read *)

Lemma uint8_small (z : Z) : 0 <= z < 2 ^ 8 -> uint8 z = z.
Proof. intros H. unfold uint8, wrap. apply Z.mod_small. exact H. Qed.

Lemma Z_of_byte_of_Z_small (z : Z) :
  0 <= z < 256 -> Z_of_byte (byte_of_Z z) = z.
Proof. intros H. rewrite Z_of_byte_of_Z. apply Z.mod_small. exact H. Qed.

Lemma shortInitialByte_fields (protectionType : ProtectionType) (pnLen : Z) :
  1 <= pnLen <= 4 ->
  let b := shortInitialByte protectionType pnLen in
  0 <= b < 256
  /\ getHeaderFormOfByte b = Short
  /\ (Z.land b ShortHeaderMasks.kFixedBitMask =? 0) = false
  /\ (Z.land b ShortHeaderMasks.kReservedBitsMask =? 0) = true
  /\ (Z.land b ShortHeaderMasks.kKeyPhaseMask =? 0) =
       match protectionType with KeyPhaseOne => false | KeyPhaseZero => true end
  /\ parsePacketNumberLength b = pnLen.
Proof.
  intros H.
  assert (Hc : pnLen = 1 \/ pnLen = 2 \/ pnLen = 3 \/ pnLen = 4) by lia.
  destruct Hc as [-> | [-> | [-> | ->]]]; destruct protectionType;
    vm_compute; repeat split; congruence.
Qed.

Lemma longInitialByte_fields (type : LongHeaderTypes) (pnLen : Z) :
  1 <= pnLen <= 4 ->
  let b := longInitialByte type pnLen in
  0 <= b < 256
  /\ getHeaderFormOfByte b = Long
  /\ longHeaderTypeOfValue (parseLongHeaderType b) = Some type
  /\ parsePacketNumberLength b = pnLen.
Proof.
  intros H.
  assert (Hc : pnLen = 1 \/ pnLen = 2 \/ pnLen = 3 \/ pnLen = 4) by lia.
  destruct Hc as [-> | [-> | [-> | ->]]]; destruct type;
    vm_compute; repeat split; congruence.
Qed.

Lemma encodePacketNumber_result (pn la : PacketNum) (enc : PacketNumEncodingResult) :
  encodePacketNumber pn la = Some enc ->
  1 <= pnLength enc <= 4
  /\ pnResult enc = pn mod 256 ^ pnLength enc.
Proof.
  unfold encodePacketNumber.
  repeat match goal with
         | |- context [if ?c then _ else _] => destruct c
         end; try discriminate;
    intros H; injection H as <-; simpl; split; try lia; reflexivity.
Qed.

(** [parsePacketNumber] reads back the truncated packet number that
    [appendBytes] wrote. *)
Lemma parsePacketNumber_packetNumBytes
    (decodePacketNumber : Z -> Z -> PacketNum -> PacketNum)
    (initialByte : Z) (pn la : PacketNum) (enc : PacketNumEncodingResult)
    (rest : list byte) (expectedNext : PacketNum) :
  encodePacketNumber pn la = Some enc ->
  parsePacketNumberLength initialByte = pnLength enc ->
  parsePacketNumber decodePacketNumber initialByte
    (packetNumBytes (pnResult enc) (pnLength enc) ++ rest) expectedNext =
  (decodePacketNumber (pnResult enc) (pnLength enc) expectedNext, pnLength enc).
Proof.
  intros He Hl. apply encodePacketNumber_result in He as [Hlen Hres].
  unfold parsePacketNumber. rewrite Hl. f_equal. f_equal.
  unfold packetNumBytes.
  pose proof (be_bytes_length (Z.to_nat (pnLength enc)) (pnResult enc)) as Hbl.
  rewrite <- Hbl at 1. rewrite take_app_length.
  rewrite be_value_be_bytes. rewrite Z2Nat.id by lia.
  rewrite Hres. apply Z.mod_mod.
  apply Z.pow_nonzero; lia.
Qed.

(** *** Short headers *)

(** X10. The short header [encodeShortHeaderHelper] writes is read back by
    [parseShortHeader] with the same key phase and connection id, given the
    length of the connection id; the cursor is then at the packet number,
    whose length the initial byte gives and whose truncated value
    [parsePacketNumber] reads back. *)
Theorem shortHeader_roundtrip (shortHeader : ShortHeader) (spaceCounter : Z)
    (largestAcked : PacketNum) (enc : PacketNumEncodingResult)
    (bytes : list byte) (spaceCounter' : Z) :
  encodeShortHeaderHelper shortHeader spaceCounter largestAcked =
    Some (Some enc, bytes, spaceCounter') ->
  sizeZ (shortConnectionId shortHeader) <= kMaxConnectionIdSize ->
  exists initialByte,
    bytes = byte_of_Z initialByte :: shortConnectionId shortHeader
    /\ 0 <= initialByte < 256
    /\ parsePacketNumberLength initialByte = pnLength enc
    /\ (forall (cursor : Cursor) (rest : list byte),
          concat cursor = shortConnectionId shortHeader ++ rest ->
          exists header cursor',
            parseShortHeader initialByte cursor
              (sizeZ (shortConnectionId shortHeader)) = inr (header, cursor')
            /\ shortProtectionType header = shortProtectionType shortHeader
            /\ shortConnectionId header = shortConnectionId shortHeader
            /\ concat cursor' = rest)
    /\ (forall decodePacketNumber rest expectedNext,
          parsePacketNumber decodePacketNumber initialByte
            (packetNumBytes (pnResult enc) (pnLength enc) ++ rest)
            expectedNext =
          (decodePacketNumber (pnResult enc) (pnLength enc) expectedNext,
           pnLength enc)).
Proof.
  intros He Hcid. unfold encodeShortHeaderHelper in He.
  apply bind_Some in He as (e & Epn & He).
  destruct (_ <? _) in He; [discriminate|].
  injection He as <- <- _.
  pose proof (encodePacketNumber_result _ _ _ Epn) as [Hlen _].
  fold (shortInitialByte (shortProtectionType shortHeader) (pnLength e)).
  destruct (shortInitialByte_fields (shortProtectionType shortHeader)
              (pnLength e) Hlen) as (Hb & Hform & Hfix & Hres & Hkey & Hpn).
  set (b := shortInitialByte (shortProtectionType shortHeader) (pnLength e)) in *.
  exists b. split; [reflexivity|]. split; [exact Hb|]. split; [exact Hpn|].
  split.
  - intros cursor rest Hc.
    unfold parseShortHeader, parseShortHeaderInvariants.
    rewrite Hform, Hfix, Hres. cbn [negb].
    destruct (Z.gtb_spec (sizeZ (shortConnectionId shortHeader))
                kMaxConnectionIdSize) as [Hgt|_]; [lia|].
    rewrite (canAdvance_app cursor _ _ _ Hc) by lia. cbn [negb].
    rewrite (pull_app cursor _ _ _ Hc) by (unfold sizeZ; lia).
    eexists _, _. split; [reflexivity|].
    cbn [shortProtectionType shortConnectionId].
    split.
    { rewrite Hkey. destruct (shortProtectionType shortHeader); reflexivity. }
    split; [reflexivity|].
    apply (skip_app cursor _ _ _ Hc). unfold sizeZ. lia.
  - intros D rest expectedNext.
    apply (parsePacketNumber_packetNumBytes D b _ _ e rest expectedNext Epn Hpn).
Qed.

Lemma shortHeader_roundtrip_witness :
  exists initialByte,
    [x40; x03; x04; x05] = byte_of_Z initialByte :: shortConnectionId sampleShortHeader
    /\ 0 <= initialByte < 256
    /\ parsePacketNumberLength initialByte = 1
    /\ (forall (cursor : Cursor) (rest : list byte),
          concat cursor = shortConnectionId sampleShortHeader ++ rest ->
          exists header cursor',
            parseShortHeader initialByte cursor
              (sizeZ (shortConnectionId sampleShortHeader)) = inr (header, cursor')
            /\ shortProtectionType header = shortProtectionType sampleShortHeader
            /\ shortConnectionId header = shortConnectionId sampleShortHeader
            /\ concat cursor' = rest)
    /\ (forall decodePacketNumber rest expectedNext,
          parsePacketNumber decodePacketNumber initialByte
            (packetNumBytes 1 1 ++ rest) expectedNext =
          (decodePacketNumber 1 1 expectedNext, 1)).
Proof.
  exact (shortHeader_roundtrip sampleShortHeader 1200 0
           (mkPacketNumEncodingResult 1 1) [x40; x03; x04; x05] 1196
           eq_refl ltac:(vm_compute; discriminate)).
Defined.

(** ** What the constructors write *)

Lemma sizeZ_cons {A} (x : A) (l : list A) : sizeZ (x :: l) = 1 + sizeZ l.
Proof. unfold sizeZ. simpl length. lia. Qed.

Lemma sizeZ_be_bytes (n : nat) (v : Z) : sizeZ (be_bytes n v) = Z.of_nat n.
Proof. unfold sizeZ. rewrite be_bytes_length. reflexivity. Qed.

Lemma sizeZ_nil_inv {A} (l : list A) : sizeZ l = 0 -> l = [].
Proof. destruct l; [reflexivity|]. unfold sizeZ. simpl. lia. Qed.

(** The bytes and the space [encodeLongHeaderHelper] leaves for a header
    that is not a Retry: the space counter is charged for the bytes written
    and for the length and packet-number fields still to come. *)
Lemma encodeLongHeaderHelper_nonRetry (lh : LongHeader) (space : Z)
    (la : PacketNum) (enc : PacketNumEncodingResult) (bytes : list byte)
    (space' : Z) :
  encodeLongHeaderHelper lh space la = Some (enc, bytes, space') ->
  isRetry (longHeaderType lh) = false ->
  encodePacketNumber (longPacketSequenceNum lh) la = Some enc
  /\ (exists tokenPart,
        bytes =
          byte_of_Z (longInitialByte (longHeaderType lh) (pnLength enc)) ::
          be_bytes 4 (longVersion lh) ++
          [byte_of_Z (sizeZ (longDestinationConnId lh))] ++
          longDestinationConnId lh ++
          [byte_of_Z (sizeZ (longSourceConnId lh))] ++
          longSourceConnId lh ++ tokenPart
        /\ (if isInitial (longHeaderType lh) then
              exists lenBytes,
                encodeQuicInteger (sizeZ (longToken lh)) None = Some lenBytes
                /\ tokenPart = lenBytes ++ longToken lh
            else tokenPart = []))
  /\ space' =
       (let longHeaderSize := sizeZ bytes + kMaxPacketLenSize + pnLength enc in
        if space <? longHeaderSize then 0
        else uint32 (space - longHeaderSize)).
Proof.
  unfold encodeLongHeaderHelper. intros H Hretry. rewrite Hretry in H.
  apply bind_Some in H as (e & Epn & H). cbn [mbind option_bind] in H.
  apply bind_Some in H as (tokenLengthInt & Etok & H).
  cbn [mbind option_bind] in H. cbv zeta in H.
  rewrite app_nil_r in H. rewrite <- !app_assoc in H.
  change ([?x] ++ ?l) with (x :: l) in H.
  fold (longInitialByte (longHeaderType lh) (pnLength e)) in H.
  injection H as <- <- <-.
  split; [exact Epn|].
  assert (Hsize :
    1 + 4 + 1 + sizeZ (longSourceConnId lh) + 1 +
    sizeZ (longDestinationConnId lh) +
    (if isInitial (longHeaderType lh)
     then sizeZ tokenLengthInt + sizeZ (longToken lh) else 0) +
    kMaxPacketLenSize + pnLength e =
    sizeZ
      (byte_of_Z (longInitialByte (longHeaderType lh) (pnLength e)) ::
       be_bytes 4 (longVersion lh) ++
       [byte_of_Z (sizeZ (longDestinationConnId lh))] ++
       longDestinationConnId lh ++
       [byte_of_Z (sizeZ (longSourceConnId lh))] ++ longSourceConnId lh ++
       (if isInitial (longHeaderType lh)
        then tokenLengthInt ++ longToken lh else []))
    + kMaxPacketLenSize + pnLength e).
  { rewrite sizeZ_cons, !sizeZ_app, sizeZ_be_bytes.
    change (sizeZ [byte_of_Z (sizeZ (longDestinationConnId lh))]) with 1.
    change (sizeZ [byte_of_Z (sizeZ (longSourceConnId lh))]) with 1.
    destruct (isInitial (longHeaderType lh));
      [rewrite sizeZ_app|change (sizeZ (@nil byte)) with 0]; lia. }
  split.
  - exists (if isInitial (longHeaderType lh)
            then tokenLengthInt ++ longToken lh else []).
    split; [reflexivity|].
    destruct (isInitial (longHeaderType lh)); [|reflexivity].
    exists tokenLengthInt. split; [exact Etok|reflexivity].
  - cbv zeta. rewrite Hsize. reflexivity.
Qed.

Section RegularCalls.

Variable F : Type.

Local Abbreviation builder := (RegularQuicPacketBuilder.t F).
Local Abbreviation remaining := (RegularQuicPacketBuilder.remainingBytes_ F).
Local Abbreviation body := (RegularQuicPacketBuilder.body_ F).

Ltac regular_fields :=
  cbn [RegularQuicPacketBuilder.remainingBytes_ RegularQuicPacketBuilder.packet_
       RegularQuicPacketBuilder.header_ RegularQuicPacketBuilder.body_
       RegularQuicPacketBuilder.packetNumberEncoding_
       RegularQuicPacketBuilder.cipherOverhead_
       RegularQuicPacketBuilder.writeBE RegularQuicPacketBuilder.push
       RegularQuicPacketBuilder.appendBytes RegularQuicPacketBuilder.insert
       RegularQuicPacketBuilder.appendFrame
       RegularQuicPacketBuilder.setCipherOverhead writeHeader writeFrames].

(** What one call of the interface changes: it appends to the body and
    charges the bytes it appends; the header bytes, the packet-number
    encoding and the packet header stay as the constructor left them. *)
Lemma regular_call_inv (c : BuilderCall F) (b b' : builder) :
  RegularQuicPacketBuilder.call F c b = Some b' ->
  RegularQuicPacketBuilder.header_ F b' = RegularQuicPacketBuilder.header_ F b
  /\ RegularQuicPacketBuilder.packetNumberEncoding_ F b' =
       RegularQuicPacketBuilder.packetNumberEncoding_ F b
  /\ writeHeader (RegularQuicPacketBuilder.packet_ F b') =
       writeHeader (RegularQuicPacketBuilder.packet_ F b)
  /\ (0 <= RegularQuicPacketBuilder.cipherOverhead_ F b < 2 ^ 8 ->
      0 <= RegularQuicPacketBuilder.cipherOverhead_ F b' < 2 ^ 8)
  /\ (0 <= remaining b < 2 ^ 32 -> 0 <= remaining b' < 2 ^ 32)
  /\ exists extra,
       body b' = body b ++ extra
       /\ (0 <= remaining b < 2 ^ 32 -> sizeZ extra <= remaining b ->
           remaining b' = remaining b - sizeZ extra).
Proof.
  assert (Hwrap : forall z, 0 <= uint32 z < 2 ^ 32).
  { intros z. unfold uint32, wrap. apply Z.mod_pos_bound. lia. }
  assert (Hcharge : forall r n, 0 <= r < 2 ^ 32 -> 0 <= n <= r ->
                                uint32 (r - n) = r - n).
  { intros r n Hr Hn. apply uint32_small. lia. }
  destruct b as [r pkt hdr bd pne oh].
  destruct c as [w d|v|v n|buf|buf limit|data|frame|overhead];
    cbn [RegularQuicPacketBuilder.call].
  - intros H. injection H as <-.
    regular_fields. cbv zeta. regular_fields. repeat split; auto; try lia;
      try (match goal with
           | |- context [uint32 ?z] => pose proof (Hwrap z); lia
           end).
    exists (be_bytes w d). split; [reflexivity|].
    rewrite sizeZ_be_bytes. intros Hr Hn. apply Hcharge; lia.
  - unfold RegularQuicPacketBuilder.write.
    destruct (encodeQuicInteger v None) as [bytes|]; [|discriminate].
    cbn [mbind option_bind]. intros H. injection H as <-.
    regular_fields. cbv zeta. regular_fields. repeat split; auto; try lia;
      try (match goal with
           | |- context [uint32 ?z] => pose proof (Hwrap z); lia
           end).
    exists bytes. split; [reflexivity|].
    intros Hr Hn. apply Hcharge; [lia|]. pose proof (sizeZ_nonneg bytes). lia.
  - intros H. injection H as <-.
    regular_fields. cbv zeta. regular_fields. repeat split; auto; try lia;
      try (match goal with
           | |- context [uint32 ?z] => pose proof (Hwrap z); lia
           end).
    exists (packetNumBytes v (uint8 n)). split; [reflexivity|].
    assert (Hn8 : 0 <= uint8 n < 2 ^ 8)
      by (unfold uint8, wrap; apply Z.mod_pos_bound; lia).
    assert (Hs : sizeZ (packetNumBytes v (uint8 n)) = uint8 n).
    { unfold sizeZ. rewrite packetNumBytes_length. lia. }
    rewrite Hs. intros Hr Hn. apply Hcharge; lia.
  - intros H. injection H as <-.
    regular_fields. cbv zeta. regular_fields. repeat split; auto; try lia;
      try (match goal with
           | |- context [uint32 ?z] => pose proof (Hwrap z); lia
           end).
    exists (concat buf). split; [reflexivity|].
    intros Hr Hn. apply Hcharge; [lia|].
    unfold totalLength, sizeZ in *. lia.
  - unfold RegularQuicPacketBuilder.insertLimit. cbv zeta.
    destruct (canAdvance (uint64 limit) buf); [|discriminate].
    intros H. injection H as <-.
    regular_fields. cbv zeta. regular_fields. repeat split; auto; try lia;
      try (match goal with
           | |- context [uint32 ?z] => pose proof (Hwrap z); lia
           end).
    exists (pull (Z.to_nat (uint64 limit)) buf ++ []).
    split; [reflexivity|].
    intros Hr Hn. apply Hcharge; [lia|].
    unfold totalLength, sizeZ in *. cbn [concat]. lia.
  - intros H. injection H as <-.
    regular_fields. cbv zeta. regular_fields. repeat split; auto; try lia;
      try (match goal with
           | |- context [uint32 ?z] => pose proof (Hwrap z); lia
           end).
    exists data. split; [reflexivity|].
    intros Hr Hn. apply Hcharge; [lia|]. pose proof (sizeZ_nonneg data). lia.
  - intros H. injection H as <-.
    regular_fields. cbv zeta. regular_fields. repeat split; auto; try lia;
      try (match goal with
           | |- context [uint32 ?z] => pose proof (Hwrap z); lia
           end).
    exists []. rewrite app_nil_r.
    split; [reflexivity|]. intros _ _. change (sizeZ (@nil byte)) with 0. lia.
  - intros H. injection H as <-.
    regular_fields. cbv zeta. regular_fields. repeat split; auto; try lia;
      try (match goal with
           | |- context [uint32 ?z] => pose proof (Hwrap z); lia
           end).
    1,2: unfold uint8, wrap;
         pose proof (Z.mod_pos_bound overhead (2 ^ 8) ltac:(lia)); lia.
    exists []. rewrite app_nil_r.
    split; [reflexivity|]. intros _ _. change (sizeZ (@nil byte)) with 0. lia.
Qed.

Lemma regular_calls_inv (cs : list (BuilderCall F)) :
  forall (b b' : builder),
    RegularQuicPacketBuilder.calls F cs b = Some b' ->
    RegularQuicPacketBuilder.header_ F b' = RegularQuicPacketBuilder.header_ F b
    /\ RegularQuicPacketBuilder.packetNumberEncoding_ F b' =
         RegularQuicPacketBuilder.packetNumberEncoding_ F b
    /\ writeHeader (RegularQuicPacketBuilder.packet_ F b') =
         writeHeader (RegularQuicPacketBuilder.packet_ F b)
    /\ (0 <= RegularQuicPacketBuilder.cipherOverhead_ F b < 2 ^ 8 ->
        0 <= RegularQuicPacketBuilder.cipherOverhead_ F b' < 2 ^ 8)
    /\ (0 <= remaining b < 2 ^ 32 -> 0 <= remaining b' < 2 ^ 32)
    /\ exists extra,
         body b' = body b ++ extra
         /\ (0 <= remaining b < 2 ^ 32 -> sizeZ extra <= remaining b ->
             remaining b' = remaining b - sizeZ extra).
Proof.
  induction cs as [|c cs IH]; intros b b'; cbn [RegularQuicPacketBuilder.calls].
  - intros H. injection H as <-. repeat split; auto; try lia.
    exists []. rewrite app_nil_r. split; [reflexivity|].
    intros _ _. change (sizeZ (@nil byte)) with 0. lia.
  - intros H. apply bind_Some in H as (b1 & Hc & Hcs).
    destruct (regular_call_inv c b b1 Hc)
      as (H1 & H2 & H3 & H4 & H5 & e1 & H6 & H7).
    destruct (IH b1 b' Hcs) as (G1 & G2 & G3 & G4 & G5 & e2 & G6 & G7).
    split; [congruence|]. split; [congruence|]. split; [congruence|].
    split; [auto|]. split; [auto|].
    exists (e1 ++ e2). split; [rewrite G6, H6, app_assoc; reflexivity|].
    intros Hr Hn. rewrite sizeZ_app in Hn.
    pose proof (sizeZ_nonneg e1). pose proof (sizeZ_nonneg e2).
    rewrite sizeZ_app, G7; [rewrite H7; lia|auto|rewrite H7; lia].
Qed.

End RegularCalls.

(** ** Long headers: from the builder to the parser *)

Section LongHeaderComplete.

Variable kRetryIntegrityTagLen : Z.
Variable kMinInitialDestinationConnIdLength : Z.
Variable defaultNodeType : QuicNodeType.

(** [parseLongHeader] accepts the layout the builders write for a header
    that is not a Retry, whichever width the length field has, provided the
    bytes the length announces are there. *)
Lemma parseLongHeader_complete (type : LongHeaderTypes) (version : Z)
    (src dst token tokenPart lenBytes rest : list byte) (pnLen len : Z)
    (byteSize : option Z) (cursor : Cursor) :
  isRetry type = false ->
  1 <= pnLen <= 4 ->
  0 < version < 2 ^ 32 ->
  sizeZ dst <= kMaxConnectionIdSize ->
  sizeZ src <= kMaxConnectionIdSize ->
  (isInitial type = true -> isServer defaultNodeType = true ->
   kMinInitialDestinationConnIdLength <= sizeZ dst) ->
  (if isInitial type then
     exists tokenLen,
       encodeQuicInteger (sizeZ token) None = Some tokenLen
       /\ tokenPart = tokenLen ++ token
   else tokenPart = []) ->
  0 <= len ->
  encodeQuicInteger len byteSize = Some lenBytes ->
  len <= sizeZ rest ->
  pnLen <= sizeZ rest ->
  concat cursor =
    be_bytes 4 version ++ [byte_of_Z (sizeZ dst)] ++ dst ++
    [byte_of_Z (sizeZ src)] ++ src ++ tokenPart ++ lenBytes ++ rest ->
  exists cursor',
    parseLongHeader kRetryIntegrityTagLen kMinInitialDestinationConnIdLength
      defaultNodeType (longInitialByte type pnLen) cursor =
    inr (mkParsedLongHeaderResult false
           (Some (mkParsedLongHeader type
                    (mkLongHeaderInvariant version src dst)
                    (if isInitial type then token else [])
                    (mkPacketLength len (sizeZ lenBytes)))),
         cursor')
    /\ concat cursor' = rest.
Proof.
  intros Hretry Hpn Hv Hd Hs Hmin Htok Hlen0 Hlen Hfit Hpnfit Hc.
  destruct (longInitialByte_fields type pnLen Hpn) as (_ & Hform & Htype & Hpnl).
  unfold parseLongHeader. rewrite Hform, Htype.
  destruct (parseLongHeaderInvariant_complete (longInitialByte type pnLen)
              cursor version dst src (tokenPart ++ lenBytes ++ rest)
              ltac:(lia) Hd Hs Hc) as (c1 & Hinv & Hc1).
  rewrite Hinv. cbn [parsedInvariant invariantVersion].
  destruct (Z.eqb_spec version VERSION_NEGOTIATION) as [Hvn|_];
    [unfold VERSION_NEGOTIATION in Hvn; lia|].
  unfold parseLongHeaderVariants. rewrite Hretry.
  cbn [parsedInvariant invariantDstConnId parsedInitialByte].
  assert (Hcheck : isInitial type && isServer defaultNodeType
                   && (sizeZ dst <? kMinInitialDestinationConnIdLength) = false).
  { destruct (isInitial type); [|reflexivity].
    destruct (isServer defaultNodeType); [|reflexivity].
    cbn [andb]. apply Z.ltb_ge. apply Hmin; reflexivity. }
  rewrite Hcheck.
  assert (Htoken : exists c2,
    (if isInitial type then parseInitialToken c1 else inr ([], c1)) =
      inr (if isInitial type then token else [], c2)
    /\ concat c2 = lenBytes ++ rest).
  { destruct (isInitial type).
    - destruct Htok as (tokenLen & Htl & ->).
      rewrite <- app_assoc in Hc1.
      unfold parseInitialToken.
      rewrite (decodeQuicInteger_encode (sizeZ token) None tokenLen _ c1
                 (sizeZ_nonneg token) Htl Hc1).
      pose proof (skip_app c1 _ _ _ Hc1 eq_refl) as Hc1'.
      set (c1' := skip (length tokenLen) c1) in *.
      rewrite (canAdvance_app c1' token _ (sizeZ token) Hc1') by lia.
      cbn [negb].
      destruct (Z.gtb_spec (sizeZ token) 0) as [Hgt|Hle].
      + rewrite (pull_app c1' token _ _ Hc1') by (unfold sizeZ; lia).
        eexists. split; [reflexivity|].
        apply (skip_app c1' token _ _ Hc1'). unfold sizeZ. lia.
      + assert (token = []) as ->
          by (apply sizeZ_nil_inv; pose proof (sizeZ_nonneg token); lia).
        exists c1'. split; [reflexivity|exact Hc1'].
    - subst tokenPart. exists c1. split; [reflexivity|exact Hc1]. }
  destruct Htoken as (c2 & -> & Hc2).
  rewrite (decodeQuicInteger_encode len byteSize lenBytes rest c2 Hlen0 Hlen Hc2).
  pose proof (skip_app c2 _ _ _ Hc2 eq_refl) as Hc3.
  set (c3 := skip (length lenBytes) c2) in *.
  assert (Htl : totalLength c3 = sizeZ rest)
    by (unfold totalLength, sizeZ; rewrite Hc3; reflexivity).
  unfold canAdvance. rewrite Htl, Hpnl.
  destruct (Z.leb_spec len (sizeZ rest)); [|lia]. cbn [negb].
  destruct (Z.leb_spec pnLen (sizeZ rest)); [|lia]. cbn [negb].
  destruct (Z.gtb_spec pnLen kMaxPacketNumEncodingSize) as [Hgt|_];
    [unfold kMaxPacketNumEncodingSize in Hgt; lia|].
  exists c3. split; [reflexivity|exact Hc3].
Qed.

End LongHeaderComplete.

Section RegularRoundTrip.

Variable F : Type.
Variable sampleSize : Z.
Variable kRetryIntegrityTagLen : Z.
Variable kMinInitialDestinationConnIdLength : Z.
Variable defaultNodeType : QuicNodeType.

(** The state in which the constructor leaves a growable builder that was
    given a long header other than a Retry. *)
Lemma regular_new_long (r : Z) (lh : LongHeader) (la : PacketNum)
    (b : RegularQuicPacketBuilder.t F) :
  RegularQuicPacketBuilder.new F r (HLong lh) la = Some b ->
  exists enc bytes space,
    encodeLongHeaderHelper lh r la = Some (enc, bytes, space)
    /\ b = RegularQuicPacketBuilder.mk F space
             (mkRegularQuicWritePacket (HLong lh) []) bytes [] (Some enc) 0.
Proof.
  unfold RegularQuicPacketBuilder.new.
  destruct (encodeLongHeaderHelper lh r la) as [[[enc bytes] space]|];
    [|discriminate].
  cbn [mbind option_bind]. intros H. injection H as <-.
  exists enc, bytes, space. split; reflexivity.
Qed.

(** X11. A long header that is not a Retry, written by the growable builder, is
    read back by [parseLongHeader]: same type, version and connection ids,
    the token of an Initial, and a packet length that is exactly the number
    of bytes that follow the length field (packet number, body as padded,
    and the cipher overhead the caller announced). *)
Theorem regular_longHeader_roundtrip (r : Z) (lh : LongHeader)
    (la : PacketNum) (cs : list (BuilderCall F))
    (b0 b : RegularQuicPacketBuilder.t F) (p : Packet F) (tag : list byte) :
  RegularQuicPacketBuilder.new F r (HLong lh) la = Some b0 ->
  RegularQuicPacketBuilder.calls F cs b0 = Some b ->
  RegularQuicPacketBuilder.buildPacket F sampleSize b = Some p ->
  isRetry (longHeaderType lh) = false ->
  0 < longVersion lh < 2 ^ 32 ->
  sizeZ (longDestinationConnId lh) <= kMaxConnectionIdSize ->
  sizeZ (longSourceConnId lh) <= kMaxConnectionIdSize ->
  (isInitial (longHeaderType lh) = true -> isServer defaultNodeType = true ->
   kMinInitialDestinationConnIdLength <= sizeZ (longDestinationConnId lh)) ->
  0 <= sampleSize < 2 ^ 32 ->
  sizeZ (RegularQuicPacketBuilder.body_ F b) < 2 ^ 16 ->
  sizeZ tag = RegularQuicPacketBuilder.cipherOverhead_ F b ->
  exists enc initialByte tail,
    RegularQuicPacketBuilder.packetNumberEncoding_ F b = Some enc
    /\ builtHeader p = byte_of_Z initialByte :: tail
    /\ 0 <= initialByte < 256
    /\ parsePacketNumberLength initialByte = pnLength enc
    /\ forall cursor,
         concat cursor = tail ++ builtBody p ++ tag ->
         exists lengthSize cursor',
           parseLongHeader kRetryIntegrityTagLen
             kMinInitialDestinationConnIdLength defaultNodeType
             initialByte cursor =
           inr (mkParsedLongHeaderResult false
                  (Some (mkParsedLongHeader (longHeaderType lh)
                           (mkLongHeaderInvariant (longVersion lh)
                              (longSourceConnId lh)
                              (longDestinationConnId lh))
                           (if isInitial (longHeaderType lh)
                            then longToken lh else [])
                           (mkPacketLength (totalLength cursor') lengthSize))),
                cursor')
           /\ concat cursor' =
                packetNumBytes (pnResult enc) (pnLength enc) ++
                builtBody p ++ tag.
Proof.
  intros Hnew Hcalls Hbuild Hretry Hv Hd Hs Hmin Hss Hbody Htag.
  destruct (regular_new_long r lh la b0 Hnew) as (enc & bytes & space & He & ->).
  destruct (encodeLongHeaderHelper_nonRetry lh r la enc bytes space He Hretry)
    as (Epn & (tokenPart & Hbytes & Htok) & Hspace).
  pose proof (encodePacketNumber_result _ _ _ Epn) as [Hpn _].
  destruct (regular_calls_inv F cs _ b Hcalls)
    as (Hh & Hpne & Hwh & Hoh & Hrem & _).
  cbn [RegularQuicPacketBuilder.header_
       RegularQuicPacketBuilder.packetNumberEncoding_
       RegularQuicPacketBuilder.packet_ writeHeader
       RegularQuicPacketBuilder.cipherOverhead_
       RegularQuicPacketBuilder.remainingBytes_] in Hh, Hpne, Hwh, Hoh, Hrem.
  specialize (Hoh ltac:(lia)).
  assert (Hsp : 0 <= space < 2 ^ 32).
  { rewrite Hspace. cbv zeta. destruct (_ <? _); [lia|].
    unfold uint32, wrap. apply Z.mod_pos_bound. lia. }
  specialize (Hrem Hsp).
  pose proof (regular_buildPacket_spec F sampleSize b enc Hpne Hpn Hss Hoh
                Hrem Hbody) as Hspec.
  cbv zeta in Hspec. rewrite Hwh in Hspec.
  unfold lengthPatched in Hspec. cbn [asLong] in Hspec.
  rewrite Hretry in Hspec. cbn [negb] in Hspec.
  rewrite Hspec in Hbuild.
  apply bind_Some in Hbuild as (pktLen & Hlen & Hp).
  injection Hp as <-. cbn [builtHeader builtBody].
  destruct (longInitialByte_fields (longHeaderType lh) (pnLength enc) Hpn)
    as (Hib & _ & _ & Hpnl).
  rewrite Hh, Hbytes. cbn [app].
  eexists enc, (longInitialByte (longHeaderType lh) (pnLength enc)), _.
  split; [exact Hpne|]. split; [reflexivity|]. split; [exact Hib|].
  split; [exact Hpnl|].
  intros cursor Hc.
  set (body' := RegularQuicPacketBuilder.body_ F b ++ repeat x00 _) in *.
  set (pnBytes := packetNumBytes (pnResult enc) (pnLength enc)) in *.
  assert (Hrest : sizeZ (pnBytes ++ body' ++ tag) =
                  pnLength enc + sizeZ body'
                  + RegularQuicPacketBuilder.cipherOverhead_ F b).
  { rewrite !sizeZ_app, Htag. unfold pnBytes, sizeZ.
    rewrite packetNumBytes_length. lia. }
  destruct (parseLongHeader_complete kRetryIntegrityTagLen
              kMinInitialDestinationConnIdLength defaultNodeType
              (longHeaderType lh) (longVersion lh) (longSourceConnId lh)
              (longDestinationConnId lh) (longToken lh) tokenPart pktLen
              (pnBytes ++ body' ++ tag) (pnLength enc)
              (pnLength enc + sizeZ body'
               + RegularQuicPacketBuilder.cipherOverhead_ F b)
              None cursor Hretry Hpn Hv Hd Hs Hmin Htok)
    as (cursor' & Hparse & Hc').
  { pose proof (sizeZ_nonneg body'). lia. }
  { exact Hlen. }
  { rewrite Hrest. lia. }
  { rewrite Hrest. pose proof (sizeZ_nonneg body'). lia. }
  { rewrite Hc.
    repeat (rewrite <- app_assoc || rewrite <- app_comm_cons). reflexivity. }
  exists (sizeZ pktLen), cursor'. split; [|exact Hc'].
  rewrite Hparse. do 6 f_equal.
  unfold totalLength. rewrite Hc'. symmetry. exact Hrest.
Qed.

End RegularRoundTrip.

(** ** The byte budget of the growable builder *)

Section RegularBudget.

Variable F : Type.
Variable sampleSize : Z.

Lemma sizeZ_packetNumBytes (result len : Z) :
  0 <= len -> sizeZ (packetNumBytes result len) = len.
Proof.
  intros H. unfold sizeZ. rewrite packetNumBytes_length. lia.
Qed.

Lemma padCount_le_remaining {A} (fuel : nat) (deficit r : Z) (fs : list A) :
  0 <= r -> Z.of_nat (padCount fuel deficit r fs) <= r.
Proof.
  intros Hr. unfold padCount, kMaxPacketLenSize.
  destruct fs; [simpl; lia|]. lia.
Qed.

(** The state in which the constructor leaves a growable builder that was
    given a short header which fits. *)
Lemma regular_new_short (r : Z) (sh : ShortHeader) (la : PacketNum)
    (b : RegularQuicPacketBuilder.t F) :
  0 <= r < 2 ^ 32 ->
  RegularQuicPacketBuilder.new F r (HShort sh) la = Some b ->
  RegularQuicPacketBuilder.canBuildPacket F b = true ->
  exists enc,
    1 <= pnLength enc <= 4
    /\ 1 + sizeZ (shortConnectionId sh) + pnLength enc <= r
    /\ b = RegularQuicPacketBuilder.mk F
             (r - (1 + sizeZ (shortConnectionId sh) + pnLength enc))
             (mkRegularQuicWritePacket (HShort sh) [])
             (([byte_of_Z (shortInitialByte (shortProtectionType sh)
                             (pnLength enc))] ++ shortConnectionId sh) ++
              packetNumBytes (pnResult enc) (pnLength enc))
             [] (Some enc) 0.
Proof.
  intros Hr. unfold RegularQuicPacketBuilder.new, encodeShortHeaderHelper.
  destruct (encodePacketNumber (shortPacketSequenceNum sh) la) as [e|] eqn:E;
    [|discriminate].
  cbn [mbind option_bind].
  pose proof (encodePacketNumber_result _ _ _ E) as [Hpn _].
  pose proof (sizeZ_nonneg (shortConnectionId sh)) as Hcid.
  destruct (Z.ltb_spec r (1 + pnLength e + sizeZ (shortConnectionId sh)))
    as [Hlt|Hge]; cbn [mbind option_bind].
  - intros H. injection H as <-.
    unfold RegularQuicPacketBuilder.canBuildPacket.
    cbn [RegularQuicPacketBuilder.remainingBytes_]. discriminate.
  - intros H _. injection H as <-. exists e.
    split; [exact Hpn|]. split; [lia|].
    fold (shortInitialByte (shortProtectionType sh) (pnLength e)).
    rewrite (uint32_small (r - 1)) by lia.
    rewrite (uint32_small (r - 1 - sizeZ (shortConnectionId sh))) by lia.
    rewrite uint32_small by lia.
    f_equal. lia.
Qed.

(** The state in which the constructor leaves a growable builder that
    reports that a packet can be built: the header bytes it wrote, the space
    it set aside for the length and the packet number of a long header, and
    the space left make up the budget. *)
Lemma regular_new_state (r : Z) (h : PacketHeader) (la : PacketNum)
    (b0 : RegularQuicPacketBuilder.t F) :
  0 <= r < 2 ^ 16 ->
  match h with
  | HLong lh => isRetry (longHeaderType lh) = false
  | HShort _ => True
  end ->
  RegularQuicPacketBuilder.new F r h la = Some b0 ->
  RegularQuicPacketBuilder.canBuildPacket F b0 = true ->
  exists enc hdr space,
    b0 = RegularQuicPacketBuilder.mk F space (mkRegularQuicWritePacket h [])
           hdr [] (Some enc) 0
    /\ 1 <= pnLength enc <= 4
    /\ 0 <= space
    /\ sizeZ hdr
       + (if lengthPatched h then kMaxPacketLenSize + pnLength enc else 0)
       + space = r.
Proof.
  intros Hr Hh Hnew Hcan.
  destruct h as [lh|sh].
  - destruct (regular_new_long F r lh la b0 Hnew)
      as (enc & bytes & space & He & ->).
    destruct (encodeLongHeaderHelper_nonRetry lh r la enc bytes space He Hh)
      as (Epn & _ & Hspace).
    pose proof (encodePacketNumber_result _ _ _ Epn) as [Hpn _].
    exists enc, bytes, space. split; [reflexivity|]. split; [exact Hpn|].
    unfold RegularQuicPacketBuilder.canBuildPacket in Hcan.
    cbn [RegularQuicPacketBuilder.remainingBytes_] in Hcan.
    cbv zeta in Hspace.
    destruct (Z.ltb_spec r (sizeZ bytes + kMaxPacketLenSize + pnLength enc))
      as [Hlt|Hge].
    { subst space. discriminate. }
    pose proof (sizeZ_nonneg bytes).
    rewrite uint32_small in Hspace
      by (unfold kMaxPacketLenSize in *; lia).
    unfold lengthPatched. cbn [asLong]. rewrite Hh. cbn [negb].
    unfold kMaxPacketLenSize in *. lia.
  - destruct (regular_new_short r sh la b0 ltac:(lia) Hnew Hcan)
      as (enc & Hpn & Hle & ->).
    eexists enc, _, _. split; [reflexivity|]. split; [exact Hpn|].
    split; [lia|].
    unfold lengthPatched. cbn [asLong].
    rewrite !sizeZ_app. change (sizeZ [byte_of_Z _]) with 1.
    unfold sizeZ at 2. rewrite packetNumBytes_length. lia.
Qed.

(** What [buildPacket] returns for a builder in that state after any calls
    that kept within the space reported. *)
Lemma regular_built (r : Z) (h : PacketHeader) (la : PacketNum)
    (cs : list (BuilderCall F)) (b0 b : RegularQuicPacketBuilder.t F)
    (p : Packet F) :
  0 <= r < 2 ^ 16 ->
  0 <= sampleSize < 2 ^ 32 ->
  match h with
  | HLong lh => isRetry (longHeaderType lh) = false
  | HShort _ => True
  end ->
  RegularQuicPacketBuilder.new F r h la = Some b0 ->
  RegularQuicPacketBuilder.canBuildPacket F b0 = true ->
  RegularQuicPacketBuilder.calls F cs b0 = Some b ->
  sizeZ (RegularQuicPacketBuilder.body_ F b)
    <= RegularQuicPacketBuilder.remainingSpaceInPkt F b0 ->
  RegularQuicPacketBuilder.buildPacket F sampleSize b = Some p ->
  exists enc hdr space k lenField,
    RegularQuicPacketBuilder.header_ F b0 = hdr
    /\ RegularQuicPacketBuilder.header_ F b = hdr
    /\ RegularQuicPacketBuilder.packetNumberEncoding_ F b0 = Some enc
    /\ RegularQuicPacketBuilder.packetNumberEncoding_ F b = Some enc
    /\ writeHeader (RegularQuicPacketBuilder.packet_ F b0) = h
    /\ writeHeader (RegularQuicPacketBuilder.packet_ F b) = h
    /\ RegularQuicPacketBuilder.remainingBytes_ F b0 = space
    /\ 1 <= pnLength enc <= 4
    /\ 0 <= space
    /\ sizeZ hdr
       + (if lengthPatched h then kMaxPacketLenSize + pnLength enc else 0)
       + space = r
    /\ Z.of_nat k + sizeZ (RegularQuicPacketBuilder.body_ F b) <= space
    /\ (if lengthPatched h then 1 <= sizeZ lenField <= kMaxPacketLenSize
        else lenField = [])
    /\ builtHeader p =
         hdr ++ (if lengthPatched h
                 then lenField ++ packetNumBytes (pnResult enc) (pnLength enc)
                 else [])
    /\ builtBody p = RegularQuicPacketBuilder.body_ F b ++ repeat x00 k.
Proof.
  intros Hr Hss Hh Hnew Hcan Hcalls Hfit Hbuild.
  unfold RegularQuicPacketBuilder.remainingSpaceInPkt in *.
  destruct (regular_new_state r h la b0 Hr Hh Hnew Hcan)
    as (enc & hdr & space & -> & Hpn & Hsp & Hsum).
  destruct (regular_calls_inv F cs _ b Hcalls)
    as (Hhdr & Hpne & Hwh & Hoh & Hrem & extra & Hbody & Hcharge).
  cbn [RegularQuicPacketBuilder.header_
       RegularQuicPacketBuilder.packetNumberEncoding_
       RegularQuicPacketBuilder.packet_ writeHeader
       RegularQuicPacketBuilder.cipherOverhead_
       RegularQuicPacketBuilder.remainingBytes_
       RegularQuicPacketBuilder.body_] in *.
  cbn [app] in Hbody.
  pose proof (sizeZ_nonneg hdr) as Hhdr0.
  assert (Hif : 0 <= (if lengthPatched h
                      then kMaxPacketLenSize + pnLength enc else 0))
    by (destruct (lengthPatched h); unfold kMaxPacketLenSize; lia).
  assert (Hsp32 : 0 <= space < 2 ^ 32) by lia.
  specialize (Hoh ltac:(lia)). specialize (Hrem Hsp32).
  rewrite Hbody in Hfit. specialize (Hcharge Hsp32 Hfit).
  pose proof (regular_buildPacket_spec F sampleSize b enc Hpne Hpn Hss Hoh
                Hrem ltac:(rewrite Hbody; lia)) as Hspec.
  cbv zeta in Hspec. rewrite Hwh, Hhdr, Hbody in Hspec.
  set (k := padCount _ _ _ _) in Hspec.
  assert (Hk : Z.of_nat k <= RegularQuicPacketBuilder.remainingBytes_ F b)
    by (apply padCount_le_remaining; lia).
  rewrite Hcharge in Hk.
  rewrite Hspec in Hbuild.
  pose proof (sizeZ_nonneg extra) as Hex.
  remember (lengthPatched h) as patched eqn:Epatched.
  destruct patched.
  - apply bind_Some in Hbuild as (pktLen & Hlen & Hp). injection Hp as <-.
    cbn [builtHeader builtBody].
    apply encodeQuicInteger_shortest_length in Hlen.
    assert (Hl4 : 1 <= sizeZ pktLen <= kMaxPacketLenSize).
    { rewrite Hlen. rewrite !sizeZ_app, sizeZ_repeat.
      unfold kOneByteLimit, kTwoByteLimit, kFourByteLimit, kMaxPacketLenSize.
      repeat match goal with
             | |- context [if ?x <=? ?y then _ else _] =>
                 destruct (Z.leb_spec x y)
             end; lia. }
    exists enc, hdr, space, k, pktLen. rewrite Hbody.
    repeat (split; [first [reflexivity | assumption | lia]|]).
    reflexivity.
  - injection Hbuild as <-. cbn [builtHeader builtBody].
    exists enc, hdr, space, k, []. rewrite Hbody, app_nil_r.
    repeat (split; [first [reflexivity | assumption | lia]|]).
    reflexivity.
Qed.

(** X14. A packet never outgrows the budget its builder was constructed with. If
    the constructor reports that a packet can be built, and the calls made
    afterwards write no more than the space the builder reported, then the
    header and the body that [buildPacket] returns, padding included, take
    at most [remainingBytes] bytes. Retry headers are left out: the
    constructor does not charge them for the connection id and the token. *)
Theorem regular_packet_within_budget (r : Z) (h : PacketHeader)
    (la : PacketNum) (cs : list (BuilderCall F))
    (b0 b : RegularQuicPacketBuilder.t F) (p : Packet F) :
  0 <= r < 2 ^ 16 ->
  0 <= sampleSize < 2 ^ 32 ->
  match h with
  | HLong lh => isRetry (longHeaderType lh) = false
  | HShort _ => True
  end ->
  RegularQuicPacketBuilder.new F r h la = Some b0 ->
  RegularQuicPacketBuilder.canBuildPacket F b0 = true ->
  RegularQuicPacketBuilder.calls F cs b0 = Some b ->
  sizeZ (RegularQuicPacketBuilder.body_ F b)
    <= RegularQuicPacketBuilder.remainingSpaceInPkt F b0 ->
  RegularQuicPacketBuilder.buildPacket F sampleSize b = Some p ->
  sizeZ (builtHeader p) + sizeZ (builtBody p) <= r
  /\ sizeZ (builtBody p) <= RegularQuicPacketBuilder.remainingSpaceInPkt F b0.
Proof.
  intros Hr Hss Hh Hnew Hcan Hcalls Hfit Hbuild.
  destruct (regular_built r h la cs b0 b p Hr Hss Hh Hnew Hcan Hcalls Hfit
              Hbuild)
    as (enc & hdr & space & k & lenField & _ & _ & _ & _ & _ & _ & Hsp0 & Hpn
        & Hsp & Hsum & Hk & Hlen & Hhd & Hbd).
  unfold RegularQuicPacketBuilder.remainingSpaceInPkt. rewrite Hsp0, Hhd, Hbd.
  rewrite !sizeZ_app, sizeZ_repeat.
  pose proof (sizeZ_nonneg (RegularQuicPacketBuilder.body_ F b)).
  destruct (lengthPatched h).
  - rewrite sizeZ_app, sizeZ_packetNumBytes by lia.
    unfold kMaxPacketLenSize in *. lia.
  - change (sizeZ []) with 0. lia.
Qed.

(** X15. [getHeaderBytes] of the growable builder, for a header that is not a
    Retry, under the conditions of X14: the budget is below 2^16, the
    constructor reports that a packet can be built, the calls made
    afterwards succeed and write no more than the space the builder
    reported, and [buildPacket] returns. Then [getHeaderBytes] is fixed by
    the constructor and is a safe estimate of the header [buildPacket]
    returns: it is never less than the length of that header, it exceeds it
    by at most 3 bytes (the length field of a long header is counted as 4
    bytes and written in 1, 2 or 4), for a short header it is exact, and
    together with the space reported it makes up the budget. *)
Theorem regular_getHeaderBytes_bounds_header (r : Z) (h : PacketHeader)
    (la : PacketNum) (cs : list (BuilderCall F))
    (b0 b : RegularQuicPacketBuilder.t F) (p : Packet F) :
  0 <= r < 2 ^ 16 ->
  0 <= sampleSize < 2 ^ 32 ->
  match h with
  | HLong lh => isRetry (longHeaderType lh) = false
  | HShort _ => True
  end ->
  RegularQuicPacketBuilder.new F r h la = Some b0 ->
  RegularQuicPacketBuilder.canBuildPacket F b0 = true ->
  RegularQuicPacketBuilder.calls F cs b0 = Some b ->
  sizeZ (RegularQuicPacketBuilder.body_ F b)
    <= RegularQuicPacketBuilder.remainingSpaceInPkt F b0 ->
  RegularQuicPacketBuilder.buildPacket F sampleSize b = Some p ->
  exists n,
    RegularQuicPacketBuilder.getHeaderBytes F b0 = Some n
    /\ RegularQuicPacketBuilder.getHeaderBytes F b = Some n
    /\ sizeZ (builtHeader p) <= n <= sizeZ (builtHeader p) + 3
    /\ n + RegularQuicPacketBuilder.remainingSpaceInPkt F b0 = r
    /\ (getHeaderForm h = Short -> n = sizeZ (builtHeader p)).
Proof.
  intros Hr Hss Hh Hnew Hcan Hcalls Hfit Hbuild.
  destruct (regular_built r h la cs b0 b p Hr Hss Hh Hnew Hcan Hcalls Hfit
              Hbuild)
    as (enc & hdr & space & k & lenField & Hh0 & Hh1 & He0 & He1 & Hw0 & Hw1
        & Hsp0 & Hpn & Hsp & Hsum & Hk & Hlen & Hhd & Hbd).
  unfold RegularQuicPacketBuilder.remainingSpaceInPkt,
    RegularQuicPacketBuilder.getHeaderBytes.
  rewrite He0, He1, Hw0, Hw1, Hh0, Hh1, Hsp0, Hhd.
  cbn [mbind option_bind].
  pose proof (sizeZ_nonneg hdr) as Hhdr0.
  assert (Hform : (match getHeaderForm h with Long => true | Short => false end)
                  = lengthPatched h).
  { unfold lengthPatched. destruct h as [lh|sh]; cbn [getHeaderForm asLong];
      [rewrite Hh|]; reflexivity. }
  rewrite Hform.
  assert (Hshort : getHeaderForm h = Short -> lengthPatched h = false).
  { destruct h; cbn [getHeaderForm]; [discriminate|reflexivity]. }
  destruct (lengthPatched h).
  - eexists. split; [reflexivity|]. split; [reflexivity|].
    rewrite uint32_small by (unfold kMaxPacketLenSize in *; lia).
    rewrite !sizeZ_app, sizeZ_packetNumBytes by lia.
    unfold kMaxPacketLenSize in *.
    split; [lia|]. split; [lia|]. intros Hs. specialize (Hshort Hs).
    discriminate.
  - eexists. split; [reflexivity|]. split; [reflexivity|].
    rewrite uint32_small by lia. rewrite app_nil_r.
    split; [lia|]. split; [lia|]. intros _. lia.
Qed.

End RegularBudget.

(** ** The in-place builder against the growable one *)

Section BuildersAgree.

Variable F : Type.
Variable sampleSize : Z.
Variable bufWriterInsert : list byte -> IOBufChain -> Z -> option (list byte).

Local Abbreviation regular := (RegularQuicPacketBuilder.t F).
Local Abbreviation inplace := (InplaceQuicPacketBuilder.t F).

Ltac builder_fields :=
  cbn [RegularQuicPacketBuilder.remainingBytes_ RegularQuicPacketBuilder.packet_
       RegularQuicPacketBuilder.header_ RegularQuicPacketBuilder.body_
       RegularQuicPacketBuilder.packetNumberEncoding_
       RegularQuicPacketBuilder.cipherOverhead_
       InplaceQuicPacketBuilder.remainingBytes_ InplaceQuicPacketBuilder.packet_
       InplaceQuicPacketBuilder.iobuf_ InplaceQuicPacketBuilder.bodyStart_
       InplaceQuicPacketBuilder.packetNumberEncoding_
       InplaceQuicPacketBuilder.cipherOverhead_
       InplaceQuicPacketBuilder.packetLenOffset_
       InplaceQuicPacketBuilder.packetNumOffset_ writeHeader writeFrames] in *.

Local Abbreviation same := (sameBuilderState (F:=F)).

Lemma same_push (pre data : list byte) (b1 : regular) (b2 : inplace) :
  same pre b1 b2 ->
  same pre (RegularQuicPacketBuilder.push F data b1)
    (InplaceQuicPacketBuilder.push F data b2).
Proof.
  unfold sameBuilderState. destruct b1, b2. builder_fields.
  intros (-> & -> & -> & -> & -> & ->).
  unfold RegularQuicPacketBuilder.push, InplaceQuicPacketBuilder.push.
  builder_fields. rewrite app_assoc. repeat split; reflexivity.
Qed.

Lemma same_call (pre : list byte) (capacity : Z) (c : BuilderCall F)
    (b1 b1' : regular) (b2 : inplace) :
  same pre b1 b2 ->
  RegularQuicPacketBuilder.call F c b1 = Some b1' ->
  sizeZ pre + sizeZ (RegularQuicPacketBuilder.body_ F b1') <= capacity ->
  bufWriterCopies bufWriterInsert capacity [c] ->
  exists b2',
    InplaceQuicPacketBuilder.call F bufWriterInsert c b2 = Some b2'
    /\ same pre b1' b2'.
Proof.
  intros Hs Hc Hcap Hins.
  destruct c as [w d|v|v n|buf|buf limit|data|frame|overhead];
    cbn [RegularQuicPacketBuilder.call InplaceQuicPacketBuilder.call] in *.
  - apply (inj Some) in Hc. subst b1'. eexists. split; [reflexivity|].
    revert Hs. unfold sameBuilderState. destruct b1, b2. builder_fields.
    intros (-> & -> & -> & -> & -> & ->).
    unfold RegularQuicPacketBuilder.writeBE, InplaceQuicPacketBuilder.writeBE.
    builder_fields. rewrite app_assoc. repeat split; reflexivity.
  - unfold RegularQuicPacketBuilder.write, InplaceQuicPacketBuilder.write in *.
    destruct (encodeQuicInteger v None) as [bytes|]; cbn [mbind option_bind] in *;
      [|discriminate].
    apply (inj Some) in Hc. subst b1'. eexists. split; [reflexivity|].
    apply same_push. exact Hs.
  - apply (inj Some) in Hc. subst b1'. eexists. split; [reflexivity|].
    revert Hs. unfold sameBuilderState. destruct b1, b2. builder_fields.
    intros (-> & -> & -> & -> & -> & ->).
    unfold RegularQuicPacketBuilder.appendBytes,
      InplaceQuicPacketBuilder.appendBytes.
    builder_fields. cbv zeta. rewrite app_assoc. repeat split; reflexivity.
  - apply (inj Some) in Hc. subst b1'. eexists. split; [reflexivity|].
    revert Hs. unfold sameBuilderState. destruct b1, b2. builder_fields.
    intros (-> & -> & -> & -> & -> & ->).
    unfold RegularQuicPacketBuilder.insert, InplaceQuicPacketBuilder.insert.
    builder_fields. rewrite app_assoc. repeat split; reflexivity.
  - unfold RegularQuicPacketBuilder.insertLimit,
      InplaceQuicPacketBuilder.insertLimit in *. cbv zeta in *.
    destruct (canAdvance (uint64 limit) buf) eqn:Hadv; [|discriminate].
    apply (inj Some) in Hc. subst b1'.
    assert (H0 : 0 <= uint64 limit)
      by (unfold uint64, wrap; apply Z.mod_pos_bound; lia).
    assert (Hle : uint64 limit <= totalLength buf)
      by (apply Z.leb_le; exact Hadv).
    assert (Hl : sizeZ (pull (Z.to_nat (uint64 limit)) buf) = uint64 limit).
    { unfold sizeZ.
      rewrite pull_length by (rewrite Z2Nat.id by lia; exact Hadv). lia. }
    revert Hs Hcap. unfold sameBuilderState. destruct b1, b2. builder_fields.
    intros (-> & -> & -> & -> & -> & ->).
    unfold RegularQuicPacketBuilder.insert. builder_fields.
    cbn [concat]. rewrite app_nil_r. intros Hcap.
    rewrite (Hins _ buf limit (or_introl eq_refl) Hle)
      by (rewrite !sizeZ_app in *; lia).
    cbn [mbind option_bind]. eexists. split; [reflexivity|]. builder_fields.
    unfold totalLength. cbn [concat]. rewrite app_nil_r, app_assoc.
    fold (sizeZ (pull (Z.to_nat (uint64 limit)) buf)). rewrite Hl.
    repeat split; reflexivity.
  - apply (inj Some) in Hc. subst b1'. eexists. split; [reflexivity|].
    apply same_push. exact Hs.
  - apply (inj Some) in Hc. subst b1'. eexists. split; [reflexivity|].
    revert Hs. unfold sameBuilderState. destruct b1, b2. builder_fields.
    intros (-> & -> & -> & -> & -> & ->).
    unfold RegularQuicPacketBuilder.appendFrame,
      InplaceQuicPacketBuilder.appendFrame.
    builder_fields. repeat split; reflexivity.
  - apply (inj Some) in Hc. subst b1'. eexists. split; [reflexivity|].
    revert Hs. unfold sameBuilderState. destruct b1, b2. builder_fields.
    intros (-> & -> & -> & -> & -> & ->).
    unfold RegularQuicPacketBuilder.setCipherOverhead,
      InplaceQuicPacketBuilder.setCipherOverhead.
    builder_fields. repeat split; reflexivity.
Qed.

Lemma same_calls (pre : list byte) (capacity : Z) (cs : list (BuilderCall F)) :
  forall (b1 b1' : regular) (b2 : inplace),
    same pre b1 b2 ->
    RegularQuicPacketBuilder.calls F cs b1 = Some b1' ->
    sizeZ pre + sizeZ (RegularQuicPacketBuilder.body_ F b1') <= capacity ->
    bufWriterCopies bufWriterInsert capacity cs ->
    exists b2',
      InplaceQuicPacketBuilder.calls F bufWriterInsert cs b2 = Some b2'
      /\ same pre b1' b2'.
Proof.
  induction cs as [|c cs IH]; intros b1 b1' b2 Hs Hc Hcap Hins;
    cbn [RegularQuicPacketBuilder.calls InplaceQuicPacketBuilder.calls] in *.
  - apply (inj Some) in Hc. subst b1'. exists b2. split; [reflexivity|exact Hs].
  - apply bind_Some in Hc as (b1m & Hc1 & Hcs).
    destruct (regular_calls_inv F cs b1m b1' Hcs)
      as (_ & _ & _ & _ & _ & extra & Hbody & _).
    destruct (same_call pre capacity c b1 b1m b2 Hs Hc1) as (b2m & Hc2 & Hsm).
    { rewrite Hbody, sizeZ_app in Hcap. pose proof (sizeZ_nonneg extra). lia. }
    { intros written buf limit [Heq|[]]. apply Hins. left. exact Heq. }
    rewrite Hc2. cbn [mbind option_bind].
    apply (IH b1m b1' b2m Hsm Hcs Hcap).
    intros written buf limit Hin. apply Hins. right. exact Hin.
Qed.

Lemma same_padLoop (pre : list byte) (fuel : nat) :
  forall (bodyLength minBodySize extra : Z) (b1 : regular) (b2 : inplace),
    same pre b1 b2 ->
    same pre
      (RegularQuicPacketBuilder.padLoop F fuel bodyLength minBodySize extra b1)
      (InplaceQuicPacketBuilder.padLoop F fuel bodyLength minBodySize extra b2).
Proof.
  induction fuel as [|fuel IH]; intros bodyLength minBodySize extra b1 b2 Hs;
    cbn [RegularQuicPacketBuilder.padLoop InplaceQuicPacketBuilder.padLoop];
    [exact Hs|].
  destruct Hs as (H1 & H2 & H3 & H4 & H5 & H6).
  rewrite H3, H4, H6.
  destruct (needsPadding _ _ _ _ _ _); [|repeat split; assumption].
  unfold RegularQuicPacketBuilder.write, InplaceQuicPacketBuilder.write.
  rewrite encode_padding. cbn [mbind option_bind].
  apply IH. apply same_push. repeat split; assumption.
Qed.

(** The padding loop of the growable builder appends to the body and leaves
    the header alone. *)
Lemma regular_padLoop_appends (fuel : nat) :
  forall (bodyLength minBodySize extra : Z) (b : regular),
    let q :=
      RegularQuicPacketBuilder.padLoop F fuel bodyLength minBodySize extra b in
    RegularQuicPacketBuilder.header_ F q = RegularQuicPacketBuilder.header_ F b
    /\ writeHeader (RegularQuicPacketBuilder.packet_ F q) =
         writeHeader (RegularQuicPacketBuilder.packet_ F b)
    /\ exists padding,
         RegularQuicPacketBuilder.body_ F q =
           RegularQuicPacketBuilder.body_ F b ++ padding.
Proof.
  induction fuel as [|fuel IH]; intros bodyLength minBodySize extra b;
    cbn [RegularQuicPacketBuilder.padLoop]; cbv zeta.
  - split; [reflexivity|]. split; [reflexivity|].
    exists []. rewrite app_nil_r. reflexivity.
  - destruct (needsPadding _ _ _ _ _ _).
    2: { split; [reflexivity|]. split; [reflexivity|].
         exists []. rewrite app_nil_r. reflexivity. }
    unfold RegularQuicPacketBuilder.write. rewrite encode_padding.
    cbn [mbind option_bind].
    destruct (IH bodyLength minBodySize (extra + 1)
                (RegularQuicPacketBuilder.push F [x00] b))
      as (G1 & G2 & padding & G3).
    split; [rewrite G1; destruct b; reflexivity|].
    split; [rewrite G2; destruct b; reflexivity|].
    exists ([x00] ++ padding). rewrite G3. destruct b. builder_fields.
    unfold RegularQuicPacketBuilder.push. builder_fields.
    rewrite app_assoc. reflexivity.
Qed.

(** X17. For a short header the in-place builder can stand in for the
    growable one within the budget. Suppose the growable builder, given a
    budget, a short header and a sequence of calls, builds a packet whose
    header and body together do not exceed the budget, and suppose that
    [BufWriter::insert], for the limited inserts among the calls and within
    that budget, copies the first [limit] bytes of its chain. Then the
    in-place builder, given the same budget, header and calls, builds too:
    the same packet and the same body, and as header the bytes the buffer
    held before followed by the growable builder's header. *)
Theorem builders_agree_on_short_headers (iobuf : list byte) (r : Z)
    (sh : ShortHeader) (la : PacketNum) (cs : list (BuilderCall F))
    (b1 b1' : regular) (p1 : Packet F) :
  bufWriterCopies bufWriterInsert (sizeZ iobuf + r) cs ->
  RegularQuicPacketBuilder.new F r (HShort sh) la = Some b1 ->
  RegularQuicPacketBuilder.calls F cs b1 = Some b1' ->
  RegularQuicPacketBuilder.buildPacket F sampleSize b1' = Some p1 ->
  sizeZ (builtHeader p1) + sizeZ (builtBody p1) <= r ->
  exists (b2 b2' : inplace) (p2 : Packet F),
    InplaceQuicPacketBuilder.new F iobuf r (HShort sh) la = Some b2
    /\ InplaceQuicPacketBuilder.calls F bufWriterInsert cs b2 = Some b2'
    /\ InplaceQuicPacketBuilder.buildPacket F sampleSize b2' = Some p2
    /\ builtPacket p2 = builtPacket p1
    /\ builtHeader p2 = iobuf ++ builtHeader p1
    /\ builtBody p2 = builtBody p1.
Proof.
  intros Hins Hnew Hcalls Hbuild Hfit.
  unfold RegularQuicPacketBuilder.new, InplaceQuicPacketBuilder.new in *.
  destruct (encodeShortHeaderHelper sh r la) as [[[enc bytes] space]|];
    cbn [mbind option_bind] in *; [|discriminate].
  set (hdr := match enc with
              | Some e => bytes ++ packetNumBytes (pnResult e) (pnLength e)
              | None => bytes
              end).
  assert (Hs : exists b2,
    match enc with
    | Some e =>
        Some (InplaceQuicPacketBuilder.mk F
                (iobuf ++ bytes ++ packetNumBytes (pnResult e) (pnLength e))
                (uint32 (space - pnLength e))
                (mkRegularQuicWritePacket (HShort sh) []) enc 0 0 0
                (sizeZ (iobuf ++ bytes ++
                        packetNumBytes (pnResult e) (pnLength e))))
    | None =>
        Some (InplaceQuicPacketBuilder.mk F (iobuf ++ bytes) space
                (mkRegularQuicWritePacket (HShort sh) []) None 0 0 0
                (sizeZ (iobuf ++ bytes)))
    end = Some b2
    /\ same (iobuf ++ hdr) b1 b2
    /\ RegularQuicPacketBuilder.header_ F b1 = hdr
    /\ writeHeader (RegularQuicPacketBuilder.packet_ F b1) = HShort sh).
  { destruct enc as [e|]; apply (inj Some) in Hnew; subst b1; eexists;
      (split; [reflexivity|]); unfold sameBuilderState, hdr; builder_fields;
      rewrite app_nil_r; repeat split; reflexivity. }
  destruct Hs as (b2 & -> & Hsame & Hhdr & Hwh).
  destruct (regular_calls_inv F cs b1 b1' Hcalls) as (Hh' & _ & Hw' & _).
  rewrite Hhdr in Hh'. rewrite Hwh in Hw'.
  (* the packet the growable builder built *)
  unfold RegularQuicPacketBuilder.buildPacket in Hbuild.
  destruct (RegularQuicPacketBuilder.packetNumberEncoding_ F b1') as [e|] eqn:He;
    cbn [mbind option_bind] in Hbuild; [|discriminate].
  unfold RegularQuicPacketBuilder.minBodySizeOf in Hbuild. cbv zeta in Hbuild.
  set (m := uint64 (kMaxPacketNumEncodingSize - pnLength e + sampleSize)) in *.
  destruct (regular_padLoop_appends (Z.to_nat m)
              (sizeZ (RegularQuicPacketBuilder.body_ F b1')) m 0 b1')
    as (Hqh & Hqw & padding & Hqb).
  set (q1 := RegularQuicPacketBuilder.padLoop F (Z.to_nat m)
               (sizeZ (RegularQuicPacketBuilder.body_ F b1')) m 0 b1') in *.
  rewrite Hh' in Hqh. rewrite Hw' in Hqw.
  rewrite Hqw in Hbuild. unfold lengthPatched in Hbuild.
  cbn [asLong] in Hbuild. apply (inj Some) in Hbuild. subst p1.
  cbn [builtPacket builtHeader builtBody] in *.
  rewrite Hqh, Hqb, sizeZ_app in Hfit.
  pose proof (sizeZ_nonneg padding) as Hpad0.
  (* the calls on the in-place builder *)
  destruct (same_calls (iobuf ++ hdr) (sizeZ iobuf + r) cs b1 b1' b2 Hsame
              Hcalls) as (b2' & Hcalls2 & Hsame').
  { rewrite sizeZ_app. lia. }
  { exact Hins. }
  exists b2, b2'. eexists. split; [reflexivity|]. split; [exact Hcalls2|].
  unfold InplaceQuicPacketBuilder.buildPacket.
  pose proof Hsame' as (_ & _ & _ & _ & Henc & _). rewrite Henc, He.
  cbn [mbind option_bind].
  unfold InplaceQuicPacketBuilder.minBodySizeOf. fold m.
  assert (Hbl : sizeZ (InplaceQuicPacketBuilder.iobuf_ F b2')
                - InplaceQuicPacketBuilder.bodyStart_ F b2' =
                sizeZ (RegularQuicPacketBuilder.body_ F b1')).
  { destruct Hsame' as (G1 & G2 & _). rewrite G1, G2, sizeZ_app. lia. }
  rewrite Hbl. cbv zeta.
  pose proof (same_padLoop (iobuf ++ hdr) (Z.to_nat m)
                (sizeZ (RegularQuicPacketBuilder.body_ F b1')) m 0 b1' b2'
                Hsame') as Hpad.
  fold q1 in Hpad.
  destruct Hpad as (P1 & P2 & _ & P4 & _ & _).
  rewrite P4, Hqw. unfold lengthPatched. cbn [asLong mbind option_bind].
  split; [reflexivity|].
  cbn [builtPacket builtHeader builtBody].
  rewrite P1, P2, Hqh.
  assert (Hn : Z.to_nat (sizeZ (iobuf ++ hdr)) = length (iobuf ++ hdr))
    by (unfold sizeZ; lia).
  rewrite Hn, take_app_length, drop_app_length.
  split; [reflexivity|]. split; reflexivity.
Qed.

End BuildersAgree.

(** ** The in-place builder and long headers *)

Section InplaceLong.

Variable F : Type.
Variable sampleSize : Z.
Variable bufWriterInsert : list byte -> IOBufChain -> Z -> option (list byte).
Variable kRetryIntegrityTagLen : Z.
Variable kMinInitialDestinationConnIdLength : Z.
Variable defaultNodeType : QuicNodeType.

Local Abbreviation inplace := (InplaceQuicPacketBuilder.t F).

Ltac inplace_fields :=
  cbn [InplaceQuicPacketBuilder.remainingBytes_ InplaceQuicPacketBuilder.packet_
       InplaceQuicPacketBuilder.iobuf_ InplaceQuicPacketBuilder.bodyStart_
       InplaceQuicPacketBuilder.packetNumberEncoding_
       InplaceQuicPacketBuilder.cipherOverhead_
       InplaceQuicPacketBuilder.packetLenOffset_
       InplaceQuicPacketBuilder.packetNumOffset_
       InplaceQuicPacketBuilder.writeBE InplaceQuicPacketBuilder.push
       InplaceQuicPacketBuilder.appendBytes InplaceQuicPacketBuilder.insert
       InplaceQuicPacketBuilder.appendFrame
       InplaceQuicPacketBuilder.setCipherOverhead writeHeader writeFrames].

(** What one call changes in an in-place builder: it appends to the buffer;
    the recorded offsets, the packet-number encoding and the packet header
    stay as the constructor left them. *)
Lemma inplace_call_inv (c : BuilderCall F) (b b' : inplace) :
  InplaceQuicPacketBuilder.call F bufWriterInsert c b = Some b' ->
  InplaceQuicPacketBuilder.packetLenOffset_ F b' =
    InplaceQuicPacketBuilder.packetLenOffset_ F b
  /\ InplaceQuicPacketBuilder.packetNumOffset_ F b' =
       InplaceQuicPacketBuilder.packetNumOffset_ F b
  /\ InplaceQuicPacketBuilder.bodyStart_ F b' =
       InplaceQuicPacketBuilder.bodyStart_ F b
  /\ InplaceQuicPacketBuilder.packetNumberEncoding_ F b' =
       InplaceQuicPacketBuilder.packetNumberEncoding_ F b
  /\ writeHeader (InplaceQuicPacketBuilder.packet_ F b') =
       writeHeader (InplaceQuicPacketBuilder.packet_ F b)
  /\ (0 <= InplaceQuicPacketBuilder.cipherOverhead_ F b < 2 ^ 8 ->
      0 <= InplaceQuicPacketBuilder.cipherOverhead_ F b' < 2 ^ 8)
  /\ (0 <= InplaceQuicPacketBuilder.remainingBytes_ F b < 2 ^ 32 ->
      0 <= InplaceQuicPacketBuilder.remainingBytes_ F b' < 2 ^ 32)
  /\ exists extra,
       InplaceQuicPacketBuilder.iobuf_ F b' =
         InplaceQuicPacketBuilder.iobuf_ F b ++ extra.
Proof.
  assert (Hwrap : forall z, 0 <= uint32 z < 2 ^ 32).
  { intros z. unfold uint32, wrap. apply Z.mod_pos_bound. lia. }
  destruct b as [buf r pkt pne oh lo no bs].
  destruct c as [w d|v|v n|cbuf|cbuf limit|data|frame|overhead];
    cbn [InplaceQuicPacketBuilder.call].
  - intros H. injection H as <-. inplace_fields.
    repeat split; auto; try lia; try (pose proof (Hwrap (r - Z.of_nat w)); lia).
    eexists; reflexivity.
  - unfold InplaceQuicPacketBuilder.write.
    destruct (encodeQuicInteger v None) as [bytes|]; [|discriminate].
    cbn [mbind option_bind]. intros H. injection H as <-. inplace_fields.
    repeat split; auto; try lia;
      try (pose proof (Hwrap (r - sizeZ bytes)); lia).
    eexists; reflexivity.
  - intros H. injection H as <-. inplace_fields. cbv zeta. inplace_fields.
    repeat split; auto; try lia; try (pose proof (Hwrap (r - uint8 n)); lia).
    eexists; reflexivity.
  - intros H. injection H as <-. inplace_fields.
    repeat split; auto; try lia;
      try (pose proof (Hwrap (r - totalLength cbuf)); lia).
    eexists; reflexivity.
  - unfold InplaceQuicPacketBuilder.insertLimit. cbv zeta. inplace_fields.
    destruct (bufWriterInsert buf cbuf (uint64 limit)) as [copied|];
      cbn [mbind option_bind]; [|discriminate].
    intros H. injection H as <-. inplace_fields.
    repeat split; auto; try lia;
      try (pose proof (Hwrap (r - uint64 limit)); lia).
    eexists; reflexivity.
  - intros H. injection H as <-. inplace_fields.
    repeat split; auto; try lia;
      try (pose proof (Hwrap (r - sizeZ data)); lia).
    eexists; reflexivity.
  - intros H. injection H as <-. inplace_fields.
    repeat split; auto; try lia.
    exists []. rewrite app_nil_r. reflexivity.
  - intros H. injection H as <-. inplace_fields.
    repeat split; auto; try lia.
    1,2: unfold uint8, wrap;
         pose proof (Z.mod_pos_bound overhead (2 ^ 8) ltac:(lia)); lia.
    exists []. rewrite app_nil_r. reflexivity.
Qed.

Lemma inplace_calls_inv (cs : list (BuilderCall F)) :
  forall (b b' : inplace),
    InplaceQuicPacketBuilder.calls F bufWriterInsert cs b = Some b' ->
    InplaceQuicPacketBuilder.packetLenOffset_ F b' =
      InplaceQuicPacketBuilder.packetLenOffset_ F b
    /\ InplaceQuicPacketBuilder.packetNumOffset_ F b' =
         InplaceQuicPacketBuilder.packetNumOffset_ F b
    /\ InplaceQuicPacketBuilder.bodyStart_ F b' =
         InplaceQuicPacketBuilder.bodyStart_ F b
    /\ InplaceQuicPacketBuilder.packetNumberEncoding_ F b' =
         InplaceQuicPacketBuilder.packetNumberEncoding_ F b
    /\ writeHeader (InplaceQuicPacketBuilder.packet_ F b') =
         writeHeader (InplaceQuicPacketBuilder.packet_ F b)
    /\ (0 <= InplaceQuicPacketBuilder.cipherOverhead_ F b < 2 ^ 8 ->
        0 <= InplaceQuicPacketBuilder.cipherOverhead_ F b' < 2 ^ 8)
    /\ (0 <= InplaceQuicPacketBuilder.remainingBytes_ F b < 2 ^ 32 ->
        0 <= InplaceQuicPacketBuilder.remainingBytes_ F b' < 2 ^ 32)
    /\ exists extra,
         InplaceQuicPacketBuilder.iobuf_ F b' =
           InplaceQuicPacketBuilder.iobuf_ F b ++ extra.
Proof.
  induction cs as [|c cs IH]; intros b b'; cbn [InplaceQuicPacketBuilder.calls].
  - intros H. injection H as <-. repeat split; auto; try lia.
    exists []. rewrite app_nil_r. reflexivity.
  - intros H. apply bind_Some in H as (b1 & Hc & Hcs).
    destruct (inplace_call_inv c b b1 Hc)
      as (H1 & H2 & H3 & H4 & H5 & H6 & H7 & e1 & H8).
    destruct (IH b1 b' Hcs) as (G1 & G2 & G3 & G4 & G5 & G6 & G7 & e2 & G8).
    repeat (split; [congruence || auto|]).
    exists (e1 ++ e2). rewrite G8, H8, app_assoc. reflexivity.
Qed.

(** The state in which the constructor leaves an in-place builder that was
    given a long header other than a Retry: the header bytes, then the
    reserved slot; the budget is not charged. *)
Lemma inplace_new_long (iobuf : list byte) (r : Z) (lh : LongHeader)
    (la : PacketNum) (b : inplace) :
  InplaceQuicPacketBuilder.new F iobuf r (HLong lh) la = Some b ->
  isRetry (longHeaderType lh) = false ->
  exists enc bytes space,
    encodeLongHeaderHelper lh r la = Some (enc, bytes, space)
    /\ b = InplaceQuicPacketBuilder.mk F
             ((iobuf ++ bytes) ++
              repeat x00 (Z.to_nat (pnLength enc + kMaxPacketLenSize)))
             r (mkRegularQuicWritePacket (HLong lh) []) (Some enc) 0
             (sizeZ (iobuf ++ bytes))
             (sizeZ (iobuf ++ bytes) + kMaxPacketLenSize)
             (sizeZ ((iobuf ++ bytes) ++
                     repeat x00 (Z.to_nat (pnLength enc + kMaxPacketLenSize)))).
Proof.
  unfold InplaceQuicPacketBuilder.new. intros H Hretry.
  destruct (encodeLongHeaderHelper lh r la) as [[[enc bytes] space]|];
    [|discriminate].
  cbn [mbind option_bind] in H. rewrite Hretry in H. cbn [negb] in H.
  injection H as <-. exists enc, bytes, space. split; reflexivity.
Qed.

(** The packet [buildPacket] returns for such a builder: the header is the
    caller's bytes, the encoded header, the 4-byte length field and the
    packet number; the body is what the calls wrote, then the padding. *)
Lemma inplace_long_layout (iobuf : list byte) (r : Z) (lh : LongHeader)
    (la : PacketNum) (cs : list (BuilderCall F)) (b0 b : inplace)
    (p : Packet F) :
  InplaceQuicPacketBuilder.new F iobuf r (HLong lh) la = Some b0 ->
  InplaceQuicPacketBuilder.calls F bufWriterInsert cs b0 = Some b ->
  InplaceQuicPacketBuilder.buildPacket F sampleSize b = Some p ->
  isRetry (longHeaderType lh) = false ->
  0 <= sampleSize < 2 ^ 32 ->
  0 <= r < 2 ^ 32 ->
  sizeZ (InplaceQuicPacketBuilder.iobuf_ F b)
    - InplaceQuicPacketBuilder.bodyStart_ F b < 2 ^ 16 ->
  exists enc bytes space extra k,
    encodeLongHeaderHelper lh r la = Some (enc, bytes, space)
    /\ InplaceQuicPacketBuilder.packetNumberEncoding_ F b = Some enc
    /\ writeHeader (InplaceQuicPacketBuilder.packet_ F b) = HLong lh
    /\ InplaceQuicPacketBuilder.bodyStart_ F b =
         sizeZ (iobuf ++ bytes) + pnLength enc + kMaxPacketLenSize
    /\ sizeZ (InplaceQuicPacketBuilder.iobuf_ F b)
         - InplaceQuicPacketBuilder.bodyStart_ F b = sizeZ extra
    /\ 0 <= InplaceQuicPacketBuilder.cipherOverhead_ F b < 2 ^ 8
    /\ builtHeader p =
         (iobuf ++ bytes) ++
         encodeWithSize kMaxPacketLenSize
           (pnLength enc + sizeZ extra
            + InplaceQuicPacketBuilder.cipherOverhead_ F b) ++
         packetNumBytes (pnResult enc) (pnLength enc)
    /\ builtBody p = extra ++ repeat x00 k.
Proof.
  intros Hnew Hcalls Hbuild Hretry Hss Hr Hbody.
  destruct (inplace_new_long iobuf r lh la b0 Hnew Hretry)
    as (enc & bytes & space & He & ->).
  destruct (encodeLongHeaderHelper_nonRetry lh r la enc bytes space He Hretry)
    as (Epn & _ & _).
  pose proof (encodePacketNumber_result _ _ _ Epn) as [Hpn _].
  destruct (inplace_calls_inv cs _ b Hcalls)
    as (Hlo & Hno & Hbs & Hpne & Hwh & Hoh & Hrem & extra & Hbuf).
  cbn [InplaceQuicPacketBuilder.remainingBytes_ InplaceQuicPacketBuilder.packet_
       InplaceQuicPacketBuilder.iobuf_ InplaceQuicPacketBuilder.bodyStart_
       InplaceQuicPacketBuilder.packetNumberEncoding_
       InplaceQuicPacketBuilder.cipherOverhead_
       InplaceQuicPacketBuilder.packetLenOffset_
       InplaceQuicPacketBuilder.packetNumOffset_ writeHeader]
    in Hlo, Hno, Hbs, Hpne, Hwh, Hoh, Hrem, Hbuf.
  specialize (Hoh ltac:(lia)). specialize (Hrem Hr).
  set (slot := repeat x00 (Z.to_nat (pnLength enc + kMaxPacketLenSize))) in *.
  set (hdr := iobuf ++ bytes) in *.
  assert (Hslot : sizeZ slot = pnLength enc + kMaxPacketLenSize).
  { unfold slot. rewrite sizeZ_repeat. unfold kMaxPacketLenSize. lia. }
  assert (Hwritten : sizeZ (InplaceQuicPacketBuilder.iobuf_ F b)
                     - InplaceQuicPacketBuilder.bodyStart_ F b = sizeZ extra).
  { rewrite Hbuf, Hbs, sizeZ_app. lia. }
  rewrite Hwritten in *.
  pose proof (sizeZ_nonneg extra) as Hex.
  pose proof (inplace_buildPacket_spec F sampleSize b enc Hpne Hpn Hss Hoh
                Hrem ltac:(rewrite Hwritten; lia)) as Hspec.
  cbv zeta in Hspec. rewrite Hwh, Hwritten, Hlo, Hno, Hbs, Hbuf in Hspec.
  unfold lengthPatched in Hspec. cbn [asLong] in Hspec.
  rewrite Hretry in Hspec. cbn [negb] in Hspec.
  set (oh := InplaceQuicPacketBuilder.cipherOverhead_ F b) in *.
  rewrite encodeQuicInteger_fixed_fits in Hspec
    by (unfold kFourByteLimit; lia).
  cbn [mbind option_bind] in Hspec.
  set (lenField := encodeWithSize kMaxPacketLenSize
                     (pnLength enc + sizeZ extra + oh)) in *.
  set (pnBytes := packetNumBytes (pnResult enc) (pnLength enc)) in *.
  assert (Hl4 : sizeZ lenField = kMaxPacketLenSize).
  { unfold sizeZ, lenField.
    rewrite encodeWithSize_length; unfold kMaxPacketLenSize; lia. }
  assert (Hlpn : sizeZ pnBytes = pnLength enc).
  { unfold sizeZ, pnBytes. rewrite packetNumBytes_length. lia. }
  match type of Hspec with
  | context [backFill _ _ (backFill _ _ (_ ++ repeat x00 ?pad))] =>
      set (k := pad) in *
  end.
  destruct (patched_layout ((hdr ++ slot) ++ extra) (repeat x00 k) lenField
              pnBytes (sizeZ hdr) (sizeZ hdr + kMaxPacketLenSize)
              (sizeZ (hdr ++ slot)) (sizeZ_nonneg hdr))
    as [Htake Hdrop].
  { rewrite Hl4. reflexivity. }
  { rewrite Hlpn, sizeZ_app, Hslot. lia. }
  { rewrite (sizeZ_app (hdr ++ slot)). lia. }
  cbv zeta in Htake, Hdrop. rewrite Hspec in Hbuild. injection Hbuild as <-.
  cbn [builtHeader builtBody]. rewrite Htake, Hdrop.
  assert (Hn1 : Z.to_nat (sizeZ hdr) = length hdr) by (unfold sizeZ; lia).
  assert (Hn2 : Z.to_nat (sizeZ (hdr ++ slot)) = length (hdr ++ slot))
    by (unfold sizeZ; lia).
  rewrite Hn1, Hn2. rewrite <- (app_assoc hdr slot extra).
  rewrite take_app_length. rewrite (app_assoc hdr slot extra).
  rewrite drop_app_length.
  exists enc, bytes, space, extra, k.
  split; [exact He|]. split; [exact Hpne|]. split; [exact Hwh|].
  split.
  { rewrite Hbs, (sizeZ_app hdr slot), Hslot.
    fold hdr. lia. }
  split; [reflexivity|]. split; [exact Hoh|].
  split; reflexivity.
Qed.

(** X12. A long header that is not a Retry, written by the in-place builder, is
    read back by [parseLongHeader] with the same type, version, connection
    ids and token, and a length field of exactly 4 bytes. The length it
    carries was computed before [buildPacket] padded the body: it counts the
    packet number, the body the calls wrote and the cipher overhead, and is
    short of the bytes that follow by the number of padding bytes. Nor has
    the constructor charged the header to the budget. *)
Theorem inplace_longHeader_roundtrip (iobuf : list byte) (r : Z)
    (lh : LongHeader) (la : PacketNum) (cs : list (BuilderCall F))
    (b0 b : inplace) (p : Packet F) (tag : list byte) :
  InplaceQuicPacketBuilder.new F iobuf r (HLong lh) la = Some b0 ->
  InplaceQuicPacketBuilder.calls F bufWriterInsert cs b0 = Some b ->
  InplaceQuicPacketBuilder.buildPacket F sampleSize b = Some p ->
  isRetry (longHeaderType lh) = false ->
  0 < longVersion lh < 2 ^ 32 ->
  sizeZ (longDestinationConnId lh) <= kMaxConnectionIdSize ->
  sizeZ (longSourceConnId lh) <= kMaxConnectionIdSize ->
  (isInitial (longHeaderType lh) = true -> isServer defaultNodeType = true ->
   kMinInitialDestinationConnIdLength <= sizeZ (longDestinationConnId lh)) ->
  0 <= sampleSize < 2 ^ 32 ->
  0 <= r < 2 ^ 32 ->
  sizeZ (InplaceQuicPacketBuilder.iobuf_ F b)
    - InplaceQuicPacketBuilder.bodyStart_ F b < 2 ^ 16 ->
  sizeZ tag = InplaceQuicPacketBuilder.cipherOverhead_ F b ->
  let written := sizeZ (InplaceQuicPacketBuilder.iobuf_ F b)
                 - InplaceQuicPacketBuilder.bodyStart_ F b in
  let padding := sizeZ (builtBody p) - written in
  InplaceQuicPacketBuilder.remainingSpaceInPkt F b0 = r
  /\ 0 <= padding
  /\ exists enc initialByte tail,
       InplaceQuicPacketBuilder.packetNumberEncoding_ F b = Some enc
       /\ builtHeader p = iobuf ++ byte_of_Z initialByte :: tail
       /\ 0 <= initialByte < 256
       /\ parsePacketNumberLength initialByte = pnLength enc
       /\ forall cursor,
            concat cursor = tail ++ builtBody p ++ tag ->
            exists cursor',
              parseLongHeader kRetryIntegrityTagLen
                kMinInitialDestinationConnIdLength defaultNodeType
                initialByte cursor =
              inr (mkParsedLongHeaderResult false
                     (Some (mkParsedLongHeader (longHeaderType lh)
                              (mkLongHeaderInvariant (longVersion lh)
                                 (longSourceConnId lh)
                                 (longDestinationConnId lh))
                              (if isInitial (longHeaderType lh)
                               then longToken lh else [])
                              (mkPacketLength (totalLength cursor' - padding)
                                 kMaxPacketLenSize))),
                   cursor')
              /\ concat cursor' =
                   packetNumBytes (pnResult enc) (pnLength enc) ++
                   builtBody p ++ tag.
Proof.
  intros Hnew Hcalls Hbuild Hretry Hv Hd Hs Hmin Hss Hr Hbody Htag.
  destruct (inplace_long_layout iobuf r lh la cs b0 b p Hnew Hcalls Hbuild
              Hretry Hss Hr Hbody)
    as (enc & bytes & space & extra & k & He & Hpne & Hwh & Hbs & Hwritten
        & Hoh & Hhdr & Hbd).
  destruct (encodeLongHeaderHelper_nonRetry lh r la enc bytes space He Hretry)
    as (Epn & (tokenPart & Hbytes & Htok) & _).
  pose proof (encodePacketNumber_result _ _ _ Epn) as [Hpn _].
  intros written padding. subst written padding.
  rewrite Hwritten, Hhdr, Hbd.
  set (oh := InplaceQuicPacketBuilder.cipherOverhead_ F b) in *.
  set (lenField := encodeWithSize kMaxPacketLenSize
                     (pnLength enc + sizeZ extra + oh)) in *.
  set (pnBytes := packetNumBytes (pnResult enc) (pnLength enc)) in *.
  set (padBytes := repeat x00 k) in *.
  assert (Hl4 : sizeZ lenField = kMaxPacketLenSize).
  { unfold sizeZ, lenField.
    rewrite encodeWithSize_length; unfold kMaxPacketLenSize; lia. }
  assert (Hlpn : sizeZ pnBytes = pnLength enc).
  { unfold sizeZ, pnBytes. rewrite packetNumBytes_length. lia. }
  pose proof (sizeZ_nonneg extra) as Hex.
  assert (Hpadeq : sizeZ (extra ++ padBytes) - sizeZ extra = sizeZ padBytes)
    by (rewrite sizeZ_app; lia).
  rewrite Hpadeq.
  pose proof (sizeZ_nonneg padBytes) as Hpad.
  split.
  { apply inplace_new_long in Hnew as (e' & b' & s' & _ & ->);
      [reflexivity|exact Hretry]. }
  split; [exact Hpad|].
  destruct (longInitialByte_fields (longHeaderType lh) (pnLength enc) Hpn)
    as (Hib & _ & _ & Hpnl).
  rewrite Hbytes.
  eexists enc, (longInitialByte (longHeaderType lh) (pnLength enc)), _.
  split; [exact Hpne|].
  split.
  { rewrite <- !app_assoc. cbn [app]. reflexivity. }
  split; [exact Hib|]. split; [exact Hpnl|].
  intros cursor Hc.
  assert (Hrest : sizeZ (pnBytes ++ (extra ++ padBytes) ++ tag) =
                  pnLength enc + sizeZ extra + oh + sizeZ padBytes).
  { rewrite !sizeZ_app, Htag, Hlpn. lia. }
  destruct (parseLongHeader_complete kRetryIntegrityTagLen
              kMinInitialDestinationConnIdLength defaultNodeType
              (longHeaderType lh) (longVersion lh) (longSourceConnId lh)
              (longDestinationConnId lh) (longToken lh) tokenPart lenField
              (pnBytes ++ (extra ++ padBytes) ++ tag) (pnLength enc)
              (pnLength enc + sizeZ extra + oh)
              (Some kMaxPacketLenSize) cursor Hretry Hpn Hv Hd Hs Hmin Htok)
    as (cursor' & Hparse & Hc').
  { lia. }
  { apply encodeQuicInteger_fixed_fits. unfold kFourByteLimit. lia. }
  { rewrite Hrest. lia. }
  { rewrite Hrest. lia. }
  { rewrite Hc.
    repeat (rewrite <- app_assoc || rewrite <- app_comm_cons). reflexivity. }
  exists cursor'. split; [|exact Hc'].
  rewrite Hparse, Hl4. do 6 f_equal.
  unfold totalLength. rewrite Hc'.
  fold (sizeZ (pnBytes ++ (extra ++ padBytes) ++ tag)).
  rewrite Hrest. lia.
Qed.

(** X16. [getHeaderBytes] of the in-place builder, for a long header that is not a
    Retry, is not the length of the header [buildPacket] returns: that
    header starts with the bytes the caller's buffer already held and ends
    with the reserved length and packet-number slot, and [getHeaderBytes]
    adds the size of the slot once more. *)
Theorem inplace_getHeaderBytes_counts_slot_twice (iobuf : list byte) (r : Z)
    (lh : LongHeader) (la : PacketNum) (cs : list (BuilderCall F))
    (b0 b : inplace) (p : Packet F) :
  InplaceQuicPacketBuilder.new F iobuf r (HLong lh) la = Some b0 ->
  InplaceQuicPacketBuilder.calls F bufWriterInsert cs b0 = Some b ->
  InplaceQuicPacketBuilder.buildPacket F sampleSize b = Some p ->
  isRetry (longHeaderType lh) = false ->
  0 <= sampleSize < 2 ^ 32 ->
  0 <= r < 2 ^ 32 ->
  sizeZ (InplaceQuicPacketBuilder.iobuf_ F b)
    - InplaceQuicPacketBuilder.bodyStart_ F b < 2 ^ 16 ->
  sizeZ (builtHeader p) + 8 < 2 ^ 32 ->
  exists enc,
    InplaceQuicPacketBuilder.packetNumberEncoding_ F b = Some enc
    /\ InplaceQuicPacketBuilder.getHeaderBytes F b =
         Some (sizeZ (builtHeader p) + pnLength enc + kMaxPacketLenSize)
    /\ InplaceQuicPacketBuilder.getHeaderBytes F b0 =
         InplaceQuicPacketBuilder.getHeaderBytes F b.
Proof.
  intros Hnew Hcalls Hbuild Hretry Hss Hr Hbody Hsmall.
  destruct (inplace_long_layout iobuf r lh la cs b0 b p Hnew Hcalls Hbuild
              Hretry Hss Hr Hbody)
    as (enc & bytes & space & extra & k & He & Hpne & Hwh & Hbs & Hwritten
        & Hoh & Hhdr & Hbd).
  destruct (encodeLongHeaderHelper_nonRetry lh r la enc bytes space He Hretry)
    as (Epn & _ & _).
  pose proof (encodePacketNumber_result _ _ _ Epn) as [Hpn _].
  assert (Hlen : sizeZ (builtHeader p) =
                 sizeZ (iobuf ++ bytes) + kMaxPacketLenSize + pnLength enc).
  { assert (Hl4 : forall v, sizeZ (encodeWithSize kMaxPacketLenSize v) =
                             kMaxPacketLenSize).
    { intros v. unfold sizeZ.
      rewrite encodeWithSize_length; unfold kMaxPacketLenSize; lia. }
    assert (Hlpn : sizeZ (packetNumBytes (pnResult enc) (pnLength enc)) =
                   pnLength enc).
    { unfold sizeZ. rewrite packetNumBytes_length. lia. }
    rewrite Hhdr, (sizeZ_app (iobuf ++ bytes)), (sizeZ_app (encodeWithSize _ _)).
    rewrite Hl4, Hlpn. lia. }
  pose proof (sizeZ_nonneg (iobuf ++ bytes)) as Hnn.
  assert (Hb : InplaceQuicPacketBuilder.getHeaderBytes F b =
               Some (sizeZ (builtHeader p) + pnLength enc + kMaxPacketLenSize)).
  { unfold InplaceQuicPacketBuilder.getHeaderBytes.
    rewrite Hpne, Hwh, Hbs. cbn [mbind option_bind getHeaderForm].
    rewrite uint32_small by (unfold kMaxPacketLenSize in *; lia).
    f_equal. lia. }
  exists enc. split; [exact Hpne|]. split; [exact Hb|].
  rewrite Hb.
  apply inplace_new_long in Hnew as (e' & b' & s' & He' & ->);
    [|exact Hretry].
  rewrite He in He'. injection He' as <- <- <-.
  unfold InplaceQuicPacketBuilder.getHeaderBytes.
  cbn [InplaceQuicPacketBuilder.packetNumberEncoding_
       InplaceQuicPacketBuilder.packet_ InplaceQuicPacketBuilder.bodyStart_
       writeHeader mbind option_bind getHeaderForm].
  rewrite (sizeZ_app (iobuf ++ bytes)), sizeZ_repeat.
  rewrite uint32_small by (unfold kMaxPacketLenSize in *; lia).
  f_equal. unfold kMaxPacketLenSize in *. lia.
Qed.

End InplaceLong.

(** ** Version negotiation: from the builder to the decoder *)

Lemma be_bytes_4_inj (v w : Z) :
  0 <= v < 2 ^ 32 -> 0 <= w < 2 ^ 32 -> be_bytes 4 v = be_bytes 4 w -> v = w.
Proof.
  intros Hv Hw H. apply (f_equal be_value) in H.
  rewrite !be_value_be_bytes_small in H
    by (change (256 ^ Z.of_nat 4) with (2 ^ 32); assumption).
  exact H.
Qed.

(** A list of 32-bit numbers is determined by its big-endian bytes. *)
Lemma be_bytes_4_concat_inj (vs : list Z) :
  forall ws,
    Forall (fun v => 0 <= v < 2 ^ 32) vs ->
    Forall (fun v => 0 <= v < 2 ^ 32) ws ->
    concat (map (be_bytes 4) vs) = concat (map (be_bytes 4) ws) ->
    vs = ws.
Proof.
  induction vs as [|v vs IH]; intros [|w ws] Hvs Hws H.
  - reflexivity.
  - apply (f_equal (@length byte)) in H. cbn [map concat] in H.
    rewrite length_app, be_bytes_length in H. simpl in H. lia.
  - apply (f_equal (@length byte)) in H. cbn [map concat] in H.
    rewrite length_app, be_bytes_length in H. simpl in H. lia.
  - rewrite !map_cons, !concat_cons in H.
    apply app_inj_1 in H as [H1 H2]; [|rewrite !be_bytes_length; reflexivity].
    inversion Hvs as [|? ? Hv Hvs']. inversion Hws as [|? ? Hw Hws']. subst.
    f_equal; [apply be_bytes_4_inj; assumption|apply IH; assumption].
Qed.

Section VersionNegotiationRoundTrip.

Variable kDefaultUDPSendPacketLen : Z.
Variable kRetryIntegrityTagLen : Z.
Variable kMinInitialDestinationConnIdLength : Z.
Variable defaultNodeType : QuicNodeType.

(** X9. The bytes of a version-negotiation packet, as the builder writes them,
    are read back as the packet the builder returns. If the budget has room
    for the header and one version, the connection ids have at most 20 bytes
    and at least one 32-bit version is given, then the first byte is 0x80;
    [parseLongHeader] reports version negotiation and no header for the
    bytes after it; and [parseLongHeaderInvariant] followed by
    [decodeVersionNegotiation] gives exactly the packet of [buildPacket],
    with the versions that were written. *)
Theorem versionNegotiation_roundtrip (srcConnId dstConnId : ConnectionId)
    (vs : list QuicVersion) :
  0 <= kDefaultUDPSendPacketLen < 2 ^ 32 ->
  7 + sizeZ dstConnId + sizeZ srcConnId + 4 <= kDefaultUDPSendPacketLen ->
  sizeZ dstConnId <= kMaxConnectionIdSize ->
  sizeZ srcConnId <= kMaxConnectionIdSize ->
  vs <> [] ->
  Forall (fun v => 0 <= v < 2 ^ 32) vs ->
  let '(packet, data) :=
    VersionNegotiationPacketBuilder.buildPacket
      (VersionNegotiationPacketBuilder.new kDefaultUDPSendPacketLen
         srcConnId dstConnId vs) in
  exists tail,
    data = byte_of_Z kHeaderFormMask :: tail
    /\ versions packet <> []
    /\ forall cursor,
         concat cursor = tail ->
         exists inv cursor',
           parseLongHeaderInvariant kHeaderFormMask cursor = inr (inv, cursor')
           /\ parseLongHeader kRetryIntegrityTagLen
                kMinInitialDestinationConnIdLength defaultNodeType
                kHeaderFormMask cursor =
              inr (mkParsedLongHeaderResult true None, cursor')
           /\ decodeVersionNegotiation inv cursor' = Some (Some packet).
Proof.
  intros HK Hfit Hd Hs Hne Hvs.
  pose proof (sizeZ_nonneg dstConnId) as Hd0.
  pose proof (sizeZ_nonneg srcConnId) as Hs0.
  unfold VersionNegotiationPacketBuilder.buildPacket,
    VersionNegotiationPacketBuilder.new,
    VersionNegotiationPacketBuilder.writeVersionNegotiationPacket.
  cbn [VersionNegotiationPacketBuilder.remainingBytes_
       VersionNegotiationPacketBuilder.packet_
       VersionNegotiationPacketBuilder.data_].
  set (budget := kDefaultUDPSendPacketLen
                 - (7 + sizeZ dstConnId + sizeZ srcConnId)).
  assert (Hrem : VersionNegotiationPacketBuilder.remainingAfterHeader
                   (uint32 kDefaultUDPSendPacketLen)
                   (mkVersionNegotiationPacket
                      VersionNegotiationPacketBuilder.generateRandomPacketType
                      srcConnId dstConnId []) = budget).
  { unfold VersionNegotiationPacketBuilder.remainingAfterHeader.
    cbn [sourceConnectionId destinationConnectionId].
    rewrite (uint32_small kDefaultUDPSendPacketLen) by lia.
    rewrite (uint32_small (kDefaultUDPSendPacketLen - 1)) by lia.
    rewrite (uint32_small (kDefaultUDPSendPacketLen - 1 - 4)) by lia.
    rewrite (uint32_small (kDefaultUDPSendPacketLen - 1 - 4 - 1)) by lia.
    rewrite (uint32_small (kDefaultUDPSendPacketLen - 1 - 4 - 1
                           - sizeZ dstConnId)) by lia.
    rewrite (uint32_small (kDefaultUDPSendPacketLen - 1 - 4 - 1
                           - sizeZ dstConnId - 1)) by lia.
    rewrite uint32_small by lia. unfold budget. lia. }
  rewrite Hrem.
  rewrite writeVersions_spec by (unfold budget; lia).
  cbn [VersionNegotiationPacketBuilder.remainingBytes_
       VersionNegotiationPacketBuilder.packet_
       VersionNegotiationPacketBuilder.data_
       packetType sourceConnectionId destinationConnectionId versions app].
  set (k := Nat.min (length vs) (Z.to_nat (budget / 4))).
  assert (Hk1 : (1 <= k)%nat).
  { unfold k. destruct vs as [|v vs']; [contradiction|]. simpl length.
    assert (1 <= budget / 4)
      by (apply Z.div_le_lower_bound; unfold budget; lia).
    lia. }
  unfold VersionNegotiationPacketBuilder.generateRandomPacketType.
  unfold VersionNegotiationPacketBuilder.headerBytes.
  cbn [packetType destinationConnectionId sourceConnectionId app].
  eexists. split; [reflexivity|].
  split.
  { destruct vs as [|v vs']; [contradiction|].
    destruct k; [lia|]. discriminate. }
  intros cursor Hc.
  destruct (parseLongHeaderInvariant_complete kHeaderFormMask cursor
              VERSION_NEGOTIATION dstConnId srcConnId
              (concat (map (be_bytes 4) (take k vs)))
              ltac:(unfold VERSION_NEGOTIATION; lia) Hd Hs)
    as (c' & Hinv & Hc').
  { rewrite Hc. repeat (rewrite <- app_assoc || rewrite <- app_comm_cons).
    reflexivity. }
  eexists _, c'. split; [exact Hinv|].
  split.
  { unfold parseLongHeader. rewrite Hinv. reflexivity. }
  assert (Hlen : totalLength c' = 4 * Z.of_nat k).
  { unfold totalLength. rewrite Hc'. unfold sizeZ.
    assert (Hl : forall ws : list Z,
              length (concat (map (be_bytes 4) ws)) = (4 * length ws)%nat).
    { induction ws as [|w ws IH]; [reflexivity|].
      rewrite map_cons, concat_cons, length_app, be_bytes_length, IH.
      simpl length. lia. }
    rewrite Hl, length_take.
    pose proof (Nat.le_min_l (length vs) (Z.to_nat (budget / 4))) as Hkl.
    fold k in Hkl. rewrite Nat.min_l by exact Hkl. lia. }
  unfold decodeVersionNegotiation. rewrite Hlen.
  destruct (Z.ltb_spec (4 * Z.of_nat k) 4) as [Hlt|_]; [lia|].
  replace ((4 * Z.of_nat k) mod 4) with 0
    by (rewrite Z.mul_comm, Z.mod_mul; lia).
  cbn [orb negb Z.eqb].
  destruct (readVersions_spec k (Z.to_nat (4 * Z.of_nat k)) c' [] Hlen
              ltac:(lia)) as (ws & Hr & Hl & Hws & Hcat).
  rewrite Hr. cbn [mbind option_bind app].
  cbn [parsedInitialByte parsedInvariant invariantSrcConnId invariantDstConnId].
  do 3 f_equal.
  apply be_bytes_4_concat_inj;
    [exact Hws|apply Forall_take; exact Hvs|].
  rewrite Hcat, Hc'. reflexivity.
Qed.

End VersionNegotiationRoundTrip.

(** ** Retry headers: from the builder to the parser *)

Lemma retryInitialByte_fields (pnLen odcidSize : Z) :
  1 <= pnLen <= 4 -> 0 <= odcidSize <= kMaxConnectionIdSize ->
  let b := retryInitialByte pnLen odcidSize in
  0 <= b < 256
  /\ getHeaderFormOfByte b = Long
  /\ longHeaderTypeOfValue (parseLongHeaderType b) = Some Retry.
Proof.
  unfold kMaxConnectionIdSize. intros Hp Hn.
  assert (Hc : pnLen = 1 \/ pnLen = 2 \/ pnLen = 3 \/ pnLen = 4) by lia.
  assert (Hz : exists k, odcidSize = Z.of_nat k /\ (k <= 20)%nat)
    by (exists (Z.to_nat odcidSize); lia).
  destruct Hz as (k & -> & Hk).
  do 21 (destruct k as [|k];
         [destruct Hc as [-> | [-> | [-> | ->]]];
          vm_compute; repeat split; congruence|]).
  lia.
Qed.

Section RetryRoundTrip.

Variable kRetryIntegrityTagLen : Z.
Variable kMinInitialDestinationConnIdLength : Z.
Variable defaultNodeType : QuicNodeType.

(** X13. A Retry header written by [encodeLongHeaderHelper] and followed by an
    integrity tag of [kRetryIntegrityTagLen] bytes is read by
    [parseLongHeader] as a Retry with the version and connection ids
    written, but not with the token written: the helper puts the length of
    the original destination connection id and that id in front of the
    token, and the parser takes everything before the tag as the token. *)
Theorem retry_header_token_includes_odcid (lh : LongHeader) (space : Z)
    (la : PacketNum) (enc : PacketNumEncodingResult) (bytes : list byte)
    (space' : Z) (odcid : ConnectionId) (tag : list byte) :
  isRetry (longHeaderType lh) = true ->
  encodeLongHeaderHelper lh space la = Some (enc, bytes, space') ->
  longOriginalDstConnId lh = Some odcid ->
  0 < longVersion lh < 2 ^ 32 ->
  sizeZ (longDestinationConnId lh) <= kMaxConnectionIdSize ->
  sizeZ (longSourceConnId lh) <= kMaxConnectionIdSize ->
  sizeZ odcid <= kMaxConnectionIdSize ->
  0 <= kRetryIntegrityTagLen ->
  sizeZ tag = kRetryIntegrityTagLen ->
  exists initialByte tail,
    bytes = byte_of_Z initialByte :: tail
    /\ 0 <= initialByte < 256
    /\ forall cursor,
         concat cursor = tail ++ tag ->
         exists cursor',
           parseLongHeader kRetryIntegrityTagLen
             kMinInitialDestinationConnIdLength defaultNodeType
             initialByte cursor =
           inr (mkParsedLongHeaderResult false
                  (Some (mkParsedLongHeader Retry
                           (mkLongHeaderInvariant (longVersion lh)
                              (longSourceConnId lh)
                              (longDestinationConnId lh))
                           (byte_of_Z (sizeZ odcid) :: odcid ++ longToken lh)
                           (mkPacketLength 0 0))),
                cursor')
           /\ concat cursor' = tag.
Proof.
  intros Hretry He Hodcid Hv Hd Hs Ho HK Htag.
  assert (Htype : longHeaderType lh = Retry)
    by (destruct (longHeaderType lh); try discriminate Hretry; reflexivity).
  unfold encodeLongHeaderHelper in He. rewrite Htype, Hodcid in He.
  cbn [isRetry isInitial] in He.
  apply bind_Some in He as (e & Epn & He). cbn [mbind option_bind] in He.
  cbv zeta in He.
  pose proof (encodePacketNumber_result _ _ _ Epn) as [Hpn _].
  destruct (sizeZ (longToken lh) =? 0); [discriminate He|].
  cbn [mbind option_bind] in He. injection He as <- <- _.
  fold (longInitialByte Retry (pnLength e)).
  fold (retryInitialByte (pnLength e) (sizeZ odcid)).
  pose proof (sizeZ_nonneg odcid) as Ho0.
  destruct (retryInitialByte_fields (pnLength e) (sizeZ odcid) Hpn
              ltac:(lia)) as (Hib & Hform & Hty).
  cbn [app]. rewrite <- !app_assoc. cbn [app].
  eexists (retryInitialByte (pnLength e) (sizeZ odcid)), _.
  split; [reflexivity|]. split; [exact Hib|].
  intros cursor Hc.
  set (retryToken := byte_of_Z (sizeZ odcid) :: odcid ++ longToken lh).
  destruct (parseLongHeaderInvariant_complete
              (retryInitialByte (pnLength e) (sizeZ odcid)) cursor
              (longVersion lh) (longDestinationConnId lh)
              (longSourceConnId lh) (retryToken ++ tag)
              ltac:(lia) Hd Hs) as (c1 & Hinv & Hc1).
  { rewrite Hc. unfold retryToken.
    repeat (rewrite <- app_assoc || rewrite <- app_comm_cons). reflexivity. }
  unfold parseLongHeader. rewrite Hform, Hty, Hinv.
  cbn [parsedInvariant invariantVersion].
  destruct (Z.eqb_spec (longVersion lh) VERSION_NEGOTIATION) as [Hvn|_];
    [unfold VERSION_NEGOTIATION in Hvn; lia|].
  unfold parseLongHeaderVariants. cbn [isRetry parsedInvariant].
  assert (Hlen : totalLength c1 = sizeZ retryToken + kRetryIntegrityTagLen).
  { unfold totalLength. rewrite Hc1. fold (sizeZ (retryToken ++ tag)).
    rewrite sizeZ_app, Htag. reflexivity. }
  assert (Hpos : 1 <= sizeZ retryToken).
  { unfold retryToken. rewrite sizeZ_cons.
    pose proof (sizeZ_nonneg (odcid ++ longToken lh)). lia. }
  rewrite Hlen.
  destruct (Z.leb_spec (sizeZ retryToken + kRetryIntegrityTagLen)
              kRetryIntegrityTagLen) as [Hle|_]; [lia|].
  replace (sizeZ retryToken + kRetryIntegrityTagLen - kRetryIntegrityTagLen)
    with (sizeZ retryToken) by lia.
  assert (Hn : Z.to_nat (sizeZ retryToken) = length retryToken)
    by (unfold sizeZ; lia).
  rewrite Hn.
  rewrite (pull_app c1 retryToken tag _ Hc1 eq_refl).
  eexists. split; [reflexivity|].
  apply (skip_app c1 retryToken tag _ Hc1 eq_refl).
Qed.

End RetryRoundTrip.

(** ** Frame decoders: every frame consumes input *)

Lemma totalLength_skip_le (n : nat) (c : Cursor) :
  totalLength (skip n c) <= totalLength c.
Proof.
  unfold totalLength. rewrite concat_skip, length_drop. lia.
Qed.

(** A variable-length integer takes 1, 2, 4 or 8 bytes off the cursor. *)
Lemma decodeQuicInteger_consumes (c c' : Cursor) (v n : Z) :
  decodeQuicInteger c = Some (v, n, c') ->
  1 <= n <= 8 /\ totalLength c' = totalLength c - n.
Proof.
  unfold decodeQuicInteger.
  destruct (concat c) as [|first bs] eqn:Ec; [discriminate|].
  pose proof (Z_of_byte_range first) as Hf.
  set (k := Z_of_byte first / 64).
  assert (Hk : 0 <= k <= 3).
  { unfold k. split; [apply Z.div_pos; lia|].
    assert (Z_of_byte first / 64 < 4) by (apply Z.div_lt_upper_bound; lia).
    lia. }
  assert (Hp : 1 <= 2 ^ k <= 8).
  { assert (2 ^ 0 <= 2 ^ k) by (apply Z.pow_le_mono_r; lia).
    assert (2 ^ k <= 2 ^ 3) by (apply Z.pow_le_mono_r; lia).
    change (2 ^ 0) with 1 in *. change (2 ^ 3) with 8 in *. lia. }
  destruct (canAdvance (Z.of_nat (Z.to_nat (2 ^ k))) c) eqn:Hadv;
    [|discriminate].
  destruct (pull (Z.to_nat (2 ^ k)) c) as [|b0 rest]; [discriminate|].
  intros H. injection H as _ <- <-.
  split; [lia|]. apply totalLength_skip. exact Hadv.
Qed.

Lemma decodeAckInteger_consumes (c c' : Cursor) (v : Z) :
  decodeAckInteger c = Ok (v, c') -> totalLength c' < totalLength c.
Proof.
  unfold decodeAckInteger.
  destruct (decodeQuicInteger c) as [[[v0 n] c0]|] eqn:E; [|discriminate].
  intros H. injection H as _ <-.
  apply decodeQuicInteger_consumes in E. lia.
Qed.

Lemma decodeAckBlocks_consumes (n : nat) :
  forall (c c' : Cursor) (p : PacketNum) (acc blocks : list AckBlock),
    decodeAckBlocks n c p acc = Ok (blocks, c') ->
    totalLength c' <= totalLength c.
Proof.
  induction n as [|n IH]; intros c c' p acc blocks; cbn [decodeAckBlocks].
  - intros H. injection H as _ <-. lia.
  - destruct (decodeAckInteger c) as [[g c1]| |] eqn:E1;
      cbn [mbind outcome_bind]; try discriminate.
    destruct (decodeAckInteger c1) as [[l c2]| |] eqn:E2;
      cbn [mbind outcome_bind]; try discriminate.
    destruct (nextAckedPacketGap p g) as [e| |];
      cbn [mbind outcome_bind]; try discriminate.
    destruct (nextAckedPacketLen e l) as [s| |];
      cbn [mbind outcome_bind]; try discriminate.
    intros H. apply IH in H.
    apply decodeAckInteger_consumes in E1, E2. lia.
Qed.

Lemma decodeAckFrame_consumes (c c' : Cursor) (header : PacketHeader)
    (params : CodecParameters) (frame : ReadAckFrame) :
  decodeAckFrame c header params = Ok (frame, c') ->
  totalLength c' < totalLength c.
Proof.
  unfold decodeAckFrame.
  destruct (decodeAckInteger c) as [[v1 c1]| |] eqn:E1;
    cbn [mbind outcome_bind]; try discriminate.
  destruct (decodeAckInteger c1) as [[v2 c2]| |] eqn:E2;
    cbn [mbind outcome_bind]; try discriminate.
  destruct (decodeAckInteger c2) as [[v3 c3]| |] eqn:E3;
    cbn [mbind outcome_bind]; try discriminate.
  destruct (decodeAckInteger c3) as [[v4 c4]| |] eqn:E4;
    cbn [mbind outcome_bind]; try discriminate.
  destruct (adjustAckDelay _ v2) as [d| |];
    cbn [mbind outcome_bind]; try discriminate.
  destruct (nextAckedPacketLen v1 v4) as [s| |];
    cbn [mbind outcome_bind]; try discriminate.
  destruct (decodeAckBlocks _ c4 s _) as [[bl c5]| |] eqn:E5;
    cbn [mbind outcome_bind]; try discriminate.
  intros H. injection H as _ <-.
  apply decodeAckBlocks_consumes in E5.
  apply decodeAckInteger_consumes in E1, E2, E3, E4. lia.
Qed.

Lemma decodePaddingFrame_consumes (c : Cursor) :
  totalLength (decodePaddingFrame c) <= totalLength c.
Proof.
  unfold decodePaddingFrame.
  destruct (peekBytes c) as [|b bs]; [lia|].
  destruct (negb _); [lia|].
  destruct (bytes_eqb _ _); [apply totalLength_skip_le|lia].
Qed.

Section FrameProgress.

Variable toApplicationErrorCode : Z -> Z.
Variable toTransportErrorCode : Z -> Z.
Variable kMaxReasonPhraseLength : Z.
Variable MIN_STREAM_DATA : FrameType.
Variable EXPIRED_STREAM_DATA : FrameType.

Local Abbreviation parseFrame :=
  (FrameCodec.parseFrame toApplicationErrorCode toTransportErrorCode
     kMaxReasonPhraseLength MIN_STREAM_DATA EXPIRED_STREAM_DATA).
Local Abbreviation decodeFrameOfType :=
  (FrameCodec.decodeFrameOfType toApplicationErrorCode toTransportErrorCode
     kMaxReasonPhraseLength MIN_STREAM_DATA EXPIRED_STREAM_DATA).
Local Abbreviation decodeFrames :=
  (FrameCodec.decodeFrames toApplicationErrorCode toTransportErrorCode
     kMaxReasonPhraseLength MIN_STREAM_DATA EXPIRED_STREAM_DATA).
Local Abbreviation decodeRegularPacket :=
  (FrameCodec.decodeRegularPacket toApplicationErrorCode toTransportErrorCode
     kMaxReasonPhraseLength MIN_STREAM_DATA EXPIRED_STREAM_DATA).

Lemma decodeInteger_consumes (t : FrameType) (c c' : Cursor) (v : Z) :
  FrameCodec.decodeInteger t c = Decoded (v, c') ->
  totalLength c' < totalLength c.
Proof.
  unfold FrameCodec.decodeInteger.
  destruct (decodeQuicInteger c) as [[[v0 n] c0]|] eqn:E; [|discriminate].
  intros H. injection H as _ <-.
  apply decodeQuicInteger_consumes in E. lia.
Qed.

(** One step through a decoder: case analysis on the next read or test,
    keeping what it says about the length of the cursor. *)
Ltac decoder_step H :=
  match type of H with
  | context [FrameCodec.decodeInteger ?t ?c] =>
      let E := fresh "E" in
      destruct (FrameCodec.decodeInteger t c) as [[? ?]| |] eqn:E;
      cbn [mbind decoded_bind] in H; cbv beta iota in H;
      [apply decodeInteger_consumes in E|discriminate H|discriminate H]
  | context [ofOutcome (decodeAckFrame ?c ?h ?p)] =>
      let E := fresh "E" in
      destruct (decodeAckFrame c h p) as [[? ?]| |] eqn:E;
      cbn [ofOutcome mbind decoded_bind] in H; cbv beta iota in H;
      [apply decodeAckFrame_consumes in E|discriminate H|discriminate H]
  | context [decodeQuicInteger ?c] =>
      let E := fresh "E" in
      destruct (decodeQuicInteger c) as [[[? ?] ?]|] eqn:E;
      cbv beta iota in H;
      [apply decodeQuicInteger_consumes in E|discriminate H]
  | context [FrameCodec.readFixedString ?n ?c] =>
      unfold FrameCodec.readFixedString in H
  | context [readBE ?n ?c] => unfold readBE in H; cbv beta iota in H
  | context [readConnectionId ?n ?c] =>
      unfold readConnectionId in H; cbv beta iota in H
  | context [if ?b then _ else _] =>
      destruct b;
      cbn [mbind decoded_bind] in H; cbv beta iota in H;
      try discriminate H
  end.

Ltac decoder_done H :=
  injection H as _ <-;
  repeat match goal with
         | |- context [skip ?n ?c] =>
             pose proof (totalLength_skip_le n c);
             generalize dependent (skip n c); intros
         | H : context [skip ?n ?c] |- _ =>
             pose proof (totalLength_skip_le n c);
             generalize dependent (skip n c); intros
         end;
  try (unfold totalLength in *; cbn [concat length] in *); lia.

(** No decoder gives back a cursor longer than the one it was given. *)
Lemma decodeFrameOfType_consumes (frameType : FrameType) (initialByte : Z)
    (queue queue' : BufQueue) (header : PacketHeader)
    (params : CodecParameters) (frame : FrameCodec.QuicFrame) :
  decodeFrameOfType frameType initialByte queue header params =
    Some (Decoded (frame, queue')) ->
  totalLength queue' <= totalLength queue.
Proof.
  unfold FrameCodec.decodeFrameOfType.
  repeat match goal with
         | |- (if ?b then _ else _) = _ -> _ => destruct b
         end;
    intros H; try discriminate H; apply (inj Some) in H.
  all: unfold FrameCodec.decodePingFrame, FrameCodec.decodeAckFrameWithECN,
    FrameCodec.decodeRstStreamFrame, FrameCodec.decodeStopSendingFrame,
    FrameCodec.decodeCryptoFrame, FrameCodec.decodeNewTokenFrame,
    FrameCodec.decodeStreamFrame, FrameCodec.decodeMaxDataFrame,
    FrameCodec.decodeMaxStreamDataFrame, FrameCodec.decodeBiDiMaxStreamsFrame,
    FrameCodec.decodeUniMaxStreamsFrame, FrameCodec.decodeDataBlockedFrame,
    FrameCodec.decodeStreamDataBlockedFrame,
    FrameCodec.decodeBiDiStreamsBlockedFrame,
    FrameCodec.decodeUniStreamsBlockedFrame,
    FrameCodec.decodeNewConnectionIdFrame,
    FrameCodec.decodeRetireConnectionIdFrame,
    FrameCodec.decodePathChallengeFrame, FrameCodec.decodePathResponseFrame,
    FrameCodec.decodeConnectionCloseFrame, FrameCodec.decodeApplicationClose,
    FrameCodec.decodeMinStreamDataFrame,
    FrameCodec.decodeExpiredStreamDataFrame,
    FrameCodec.decodeHandshakeDoneFrame, FrameCodec.throwFrame in H.
  all: try (injection H as _ <-; first [lia | apply decodePaddingFrame_consumes]).
  all: repeat decoder_step H.
  all: decoder_done H.
Qed.

(** A frame that [parseFrame] returns has taken at least one byte off the
    queue. *)
Lemma parseFrame_consumes (queue queue' : BufQueue) (header : PacketHeader)
    (params : CodecParameters) (frame : FrameCodec.QuicFrame) :
  parseFrame queue header params = Ok (frame, queue') ->
  totalLength queue' < totalLength queue.
Proof.
  unfold FrameCodec.parseFrame.
  destruct (negb (canAdvance 1 queue)); [discriminate|].
  destruct (decodeQuicInteger queue) as [[[v n] q1]|] eqn:E; [|discriminate].
  apply decodeQuicInteger_consumes in E. cbv zeta.
  destruct (decodeFrameOfType (uint8 v) v q1 header params)
    as [[[f q2]| |]|] eqn:Ed; try discriminate.
  intros H. injection H as _ <-.
  apply decodeFrameOfType_consumes in Ed. lia.
Qed.

Lemma decodeFrames_returns (fuel : nat) :
  forall (queue : BufQueue) (header : PacketHeader) (params : CodecParameters)
         (acc : list FrameCodec.QuicFrame),
    totalLength queue <= Z.of_nat fuel ->
    exists result,
      decodeFrames fuel queue header params acc = Some result
      /\ forall frames,
           result = Ok frames ->
           Z.of_nat (length frames) <= Z.of_nat (length acc) + totalLength queue.
Proof.
  induction fuel as [|fuel IH]; intros queue header params acc Hfuel;
    cbn [FrameCodec.decodeFrames]; unfold chainLength;
    pose proof (totalLength_nonneg queue) as Hq.
  - destruct (Z.gtb_spec (totalLength queue) 0) as [Hgt|_]; [lia|].
    eexists. split; [reflexivity|]. intros frames H. injection H as <-. lia.
  - destruct (Z.gtb_spec (totalLength queue) 0) as [Hgt|_].
    2: { eexists. split; [reflexivity|]. intros frames H. injection H as <-.
         lia. }
    destruct (parseFrame queue header params) as [[f q']| |] eqn:Ep.
    + apply parseFrame_consumes in Ep.
      destruct (IH q' header params (acc ++ [f]) ltac:(lia))
        as (result & Hr & Hlen).
      exists result. split; [exact Hr|].
      intros frames Hf. specialize (Hlen frames Hf).
      rewrite length_app in Hlen. simpl length in Hlen. lia.
    + eexists. split; [reflexivity|]. discriminate.
    + eexists. split; [reflexivity|]. discriminate.
Qed.

(** X1. [decodeRegularPacket] returns for every packet: each frame that
    [parseFrame] hands back has taken at least one byte off the queue, so
    the loop ends after at most as many frames as the packet has bytes. The
    result is a packet with the header given and at most that many frames,
    an exception, or a failed [DCHECK]. *)
Theorem decodeRegularPacket_returns (header : PacketHeader)
    (params : CodecParameters) (packetData : IOBufChain) :
  exists result,
    decodeRegularPacket header params packetData = Some result
    /\ forall packet,
         result = Ok packet ->
         FrameCodec.packetHeader packet = header
         /\ Z.of_nat (length (FrameCodec.packetFrames packet))
            <= totalLength packetData.
Proof.
  unfold FrameCodec.decodeRegularPacket.
  destruct (decodeFrames_returns (length (concat packetData)) packetData
              header params [] ltac:(unfold totalLength; lia))
    as (result & Hr & Hlen).
  rewrite Hr. destruct result as [frames| |].
  - eexists. split; [reflexivity|]. intros packet H. injection H as <-.
    cbn [FrameCodec.packetHeader FrameCodec.packetFrames].
    split; [reflexivity|]. specialize (Hlen frames eq_refl).
    simpl length in Hlen. lia.
  - eexists. split; [reflexivity|]. discriminate.
  - eexists. split; [reflexivity|]. discriminate.
Qed.

End FrameProgress.

(** ** Frame decoders: which input fails a [DCHECK] *)

(** The two [DCHECK_LT]s of [decodeAckFrame] hold exactly for the exponents
    1 to 63. *)
Lemma adjustAckDelay_Aborted (exponent delay : Z) :
  0 <= exponent < 256 ->
  (adjustAckDelay exponent delay = Aborted <-> exponent = 0 \/ 64 <= exponent).
Proof.
  intros He. unfold adjustAckDelay, throwAck.
  destruct (Z.ltb_spec exponent 64) as [Hlt|Hge]; cbn [negb].
  2: { split; [intros _; right; exact Hge|reflexivity]. }
  rewrite (uint8_small (64 - exponent)) by lia.
  destruct (Z.ltb_spec (64 - exponent) 64) as [Hlt2|Hge2]; cbn [negb].
  2: { split; [intros _; left; lia|reflexivity]. }
  split; [|lia].
  destruct (negb _); [discriminate|].
  destruct (_ >? _); discriminate.
Qed.

Lemma decodeAckFrame_Aborted (c : Cursor) (header : PacketHeader)
    (params : CodecParameters) :
  decodeAckFrame c header params = Aborted <->
  getHeaderForm header = Short
  /\ (uint8 (peerAckDelayExponent params) = 0
      \/ 64 <= uint8 (peerAckDelayExponent params))
  /\ exists v1 c1 v2 c2 v3 c3 v4 c4,
       decodeAckInteger c = Ok (v1, c1)
       /\ decodeAckInteger c1 = Ok (v2, c2)
       /\ decodeAckInteger c2 = Ok (v3, c3)
       /\ decodeAckInteger c3 = Ok (v4, c4).
Proof.
  assert (Hint : forall c0, decodeAckInteger c0 <> Aborted).
  { intros c0. unfold decodeAckInteger, throwAck.
    destruct (decodeQuicInteger c0) as [[[? ?] ?]|]; discriminate. }
  assert (Hu8 : 0 <= uint8 (peerAckDelayExponent params) < 256).
  { unfold uint8, wrap. apply Z.mod_pos_bound. lia. }
  unfold decodeAckFrame.
  split.
  - destruct (decodeAckInteger c) as [[v1 c1]| |] eqn:E1;
      cbn [mbind outcome_bind]; try discriminate;
      [|intros _; exfalso; exact (Hint c E1)].
    destruct (decodeAckInteger c1) as [[v2 c2]| |] eqn:E2;
      cbn [mbind outcome_bind]; try discriminate;
      [|intros _; exfalso; exact (Hint c1 E2)].
    destruct (decodeAckInteger c2) as [[v3 c3]| |] eqn:E3;
      cbn [mbind outcome_bind]; try discriminate;
      [|intros _; exfalso; exact (Hint c2 E3)].
    destruct (decodeAckInteger c3) as [[v4 c4]| |] eqn:E4;
      cbn [mbind outcome_bind]; try discriminate;
      [|intros _; exfalso; exact (Hint c3 E4)].
    destruct (adjustAckDelay _ v2) as [d| |] eqn:Ed;
      cbn [mbind outcome_bind]; try discriminate.
    + unfold nextAckedPacketLen, throwAck.
      destruct (v1 <? v4); cbn [mbind outcome_bind]; [discriminate|].
      destruct (decodeAckBlocks _ c4 _ _) as [[bl c5]| |] eqn:Eb;
        cbn [mbind outcome_bind]; try discriminate.
      exfalso. exact (decodeAckBlocks_not_Aborted _ _ _ _ Eb).
    + intros _. destruct header as [lh|sh]; cbn [getHeaderForm] in *.
      * apply adjustAckDelay_Aborted in Ed;
          unfold kDefaultAckDelayExponent in *; lia.
      * apply adjustAckDelay_Aborted in Ed; [|exact Hu8].
        split; [reflexivity|]. split; [exact Ed|].
        exists v1, c1, v2, c2, v3, c3, v4, c4. repeat split; assumption.
  - intros (Hform & Hexp & v1 & c1 & v2 & c2 & v3 & c3 & v4 & c4
            & E1 & E2 & E3 & E4).
    rewrite E1. cbn [mbind outcome_bind]. rewrite E2. cbn [mbind outcome_bind].
    rewrite E3. cbn [mbind outcome_bind]. rewrite E4. cbn [mbind outcome_bind].
    rewrite Hform.
    apply (adjustAckDelay_Aborted _ v2 Hu8) in Hexp. rewrite Hexp.
    reflexivity.
Qed.

Section FrameChecks.

Variable toApplicationErrorCode : Z -> Z.
Variable toTransportErrorCode : Z -> Z.
Variable kMaxReasonPhraseLength : Z.
Variable MIN_STREAM_DATA : FrameType.
Variable EXPIRED_STREAM_DATA : FrameType.

Local Abbreviation parseFrame :=
  (FrameCodec.parseFrame toApplicationErrorCode toTransportErrorCode
     kMaxReasonPhraseLength MIN_STREAM_DATA EXPIRED_STREAM_DATA).
Local Abbreviation decodeFrameOfType :=
  (FrameCodec.decodeFrameOfType toApplicationErrorCode toTransportErrorCode
     kMaxReasonPhraseLength MIN_STREAM_DATA EXPIRED_STREAM_DATA).

Ltac no_crash_step H :=
  match type of H with
  | context [FrameCodec.decodeInteger ?t ?c] =>
      unfold FrameCodec.decodeInteger in H
  | context [decodeQuicInteger ?c] =>
      destruct (decodeQuicInteger c) as [[[? ?] ?]|];
      cbn [mbind decoded_bind] in H; cbv beta iota in H;
      try discriminate H
  | context [FrameCodec.readFixedString ?n ?c] =>
      unfold FrameCodec.readFixedString in H
  | context [readBE ?n ?c] => unfold readBE in H; cbv beta iota in H
  | context [readConnectionId ?n ?c] =>
      unfold readConnectionId in H; cbv beta iota in H
  | context [if ?b then _ else _] =>
      destruct b;
      cbn [mbind decoded_bind] in H; cbv beta iota in H;
      try discriminate H
  end.

(** Only the two ACK decoders can fail a [DCHECK]. *)
Lemma decodeFrameOfType_Crashed (frameType : FrameType) (initialByte : Z)
    (queue : BufQueue) (header : PacketHeader) (params : CodecParameters) :
  decodeFrameOfType frameType initialByte queue header params = Some Crashed ->
  (frameType = ACK \/ frameType = ACK_ECN)
  /\ decodeAckFrame queue header params = Aborted.
Proof.
  unfold FrameCodec.decodeFrameOfType.
  destruct (Z.eqb_spec frameType PADDING); [discriminate|].
  destruct (Z.eqb_spec frameType PING); [discriminate|].
  destruct (Z.eqb_spec frameType ACK) as [Hack|_].
  { intros H. apply (inj Some) in H. split; [left; exact Hack|].
    destruct (decodeAckFrame queue header params) as [[f c]| |];
      [discriminate H|discriminate H|reflexivity]. }
  destruct (Z.eqb_spec frameType ACK_ECN) as [Hecn|_].
  { intros H. apply (inj Some) in H. split; [right; exact Hecn|].
    unfold FrameCodec.decodeAckFrameWithECN in H.
    destruct (decodeAckFrame queue header params) as [[f c]| |];
      [|discriminate H|reflexivity].
    cbn [ofOutcome mbind decoded_bind] in H. cbv beta iota in H.
    exfalso. unfold FrameCodec.throwFrame in H.
    repeat no_crash_step H. }
  repeat match goal with
         | |- (if ?b then _ else _) = _ -> _ => destruct b
         end;
    intros H; try discriminate H; apply (inj Some) in H; exfalso.
  all: unfold FrameCodec.decodeRstStreamFrame,
    FrameCodec.decodeStopSendingFrame,
    FrameCodec.decodeCryptoFrame, FrameCodec.decodeNewTokenFrame,
    FrameCodec.decodeStreamFrame, FrameCodec.decodeMaxDataFrame,
    FrameCodec.decodeMaxStreamDataFrame, FrameCodec.decodeBiDiMaxStreamsFrame,
    FrameCodec.decodeUniMaxStreamsFrame, FrameCodec.decodeDataBlockedFrame,
    FrameCodec.decodeStreamDataBlockedFrame,
    FrameCodec.decodeBiDiStreamsBlockedFrame,
    FrameCodec.decodeUniStreamsBlockedFrame,
    FrameCodec.decodeNewConnectionIdFrame,
    FrameCodec.decodeRetireConnectionIdFrame,
    FrameCodec.decodePathChallengeFrame, FrameCodec.decodePathResponseFrame,
    FrameCodec.decodeConnectionCloseFrame, FrameCodec.decodeApplicationClose,
    FrameCodec.decodeMinStreamDataFrame,
    FrameCodec.decodeExpiredStreamDataFrame,
    FrameCodec.decodeHandshakeDoneFrame, FrameCodec.throwFrame in H.
  all: repeat no_crash_step H.
Qed.

(** X2. [parseFrame] fails a [DCHECK] in one situation only: the frame is an ACK
    or ACK_ECN frame of a short-header packet, its first four integers
    decode, and the peer's ack-delay exponent is 0 or at least 64. In every
    such situation it does fail: the exponent 0, which a peer may announce,
    makes [leftShift] 64 and trips the second [DCHECK_LT]. No other frame,
    and no long-header packet, reaches a failing check. *)
Theorem parseFrame_aborts_iff (queue : BufQueue) (header : PacketHeader)
    (params : CodecParameters) :
  parseFrame queue header params = Aborted <->
  getHeaderForm header = Short
  /\ (uint8 (peerAckDelayExponent params) = 0
      \/ 64 <= uint8 (peerAckDelayExponent params))
  /\ exists initialByte size q0 v1 q1 v2 q2 v3 q3 v4 q4,
       decodeQuicInteger queue = Some (initialByte, size, q0)
       /\ (uint8 initialByte = ACK \/ uint8 initialByte = ACK_ECN)
       /\ decodeAckInteger q0 = Ok (v1, q1)
       /\ decodeAckInteger q1 = Ok (v2, q2)
       /\ decodeAckInteger q2 = Ok (v3, q3)
       /\ decodeAckInteger q3 = Ok (v4, q4).
Proof.
  unfold FrameCodec.parseFrame. split.
  - destruct (negb (canAdvance 1 queue)); [discriminate|].
    destruct (decodeQuicInteger queue) as [[[v n] q0]|] eqn:E;
      [|discriminate].
    cbv zeta.
    destruct (decodeFrameOfType (uint8 v) v q0 header params)
      as [[[f q2]| |]|] eqn:Ed; try discriminate.
    intros _. apply decodeFrameOfType_Crashed in Ed as [Htype Hack].
    apply decodeAckFrame_Aborted in Hack
      as (Hform & Hexp & v1 & c1 & v2 & c2 & v3 & c3 & v4 & c4
          & E1 & E2 & E3 & E4).
    split; [exact Hform|]. split; [exact Hexp|].
    exists v, n, q0, v1, c1, v2, c2, v3, c3, v4, c4.
    repeat (split; [first [reflexivity | assumption]|]). exact E4.
  - intros (Hform & Hexp & v & n & q0 & v1 & c1 & v2 & c2 & v3 & c3 & v4 & c4
            & E & Htype & E1 & E2 & E3 & E4).
    assert (Hadv : canAdvance 1 queue = true).
    { apply decodeQuicInteger_consumes in E.
      apply decodeAckInteger_consumes in E1.
      pose proof (totalLength_nonneg c1).
      unfold canAdvance. apply Z.leb_le. lia. }
    rewrite Hadv, E. cbn [negb]. cbv zeta.
    assert (Hack : decodeAckFrame q0 header params = Aborted).
    { apply decodeAckFrame_Aborted. split; [exact Hform|].
      split; [exact Hexp|].
      exists v1, c1, v2, c2, v3, c3, v4, c4. repeat split; assumption. }
    unfold FrameCodec.decodeFrameOfType.
    destruct Htype as [-> | ->].
    + cbn [Z.eqb PADDING PING ACK Pos.eqb]. rewrite Hack. reflexivity.
    + cbn [Z.eqb PADDING PING ACK ACK_ECN Pos.eqb].
      unfold FrameCodec.decodeAckFrameWithECN. rewrite Hack. reflexivity.
Qed.

End FrameChecks.

(** ** STREAM frames: from the wire format to the frame *)

(** A value below 64 is encoded in the single byte of that value. *)
Lemma encodeQuicInteger_one_byte (v : Z) :
  0 <= v <= kOneByteLimit ->
  encodeQuicInteger v None = Some [byte_of_Z v].
Proof.
  intros Hv. unfold encodeQuicInteger.
  destruct (Z.leb_spec v kOneByteLimit) as [_|Hgt]; [|lia].
  unfold encodeWithSize. change (Z.to_nat 1) with 1%nat.
  cbn [be_bytes app]. change (Z.log2 1 * 64) with 0.
  rewrite Z.lor_0_r, byte_of_Z_of_byte. reflexivity.
Qed.

Section StreamFrames.

Variable toApplicationErrorCode : Z -> Z.
Variable toTransportErrorCode : Z -> Z.
Variable kMaxReasonPhraseLength : Z.
Variable MIN_STREAM_DATA : FrameType.
Variable EXPIRED_STREAM_DATA : FrameType.

Local Abbreviation parseFrame :=
  (FrameCodec.parseFrame toApplicationErrorCode toTransportErrorCode
     kMaxReasonPhraseLength MIN_STREAM_DATA EXPIRED_STREAM_DATA).
Local Abbreviation decodeFrameOfType :=
  (FrameCodec.decodeFrameOfType toApplicationErrorCode toTransportErrorCode
     kMaxReasonPhraseLength MIN_STREAM_DATA EXPIRED_STREAM_DATA).

Lemma decodeInteger_encode (frameType : FrameType) (v : Z)
    (byteSize : option Z) (bytes rest : list byte) (c : Cursor) :
  0 <= v -> encodeQuicInteger v byteSize = Some bytes ->
  concat c = bytes ++ rest ->
  exists c',
    FrameCodec.decodeInteger frameType c = Decoded (v, c')
    /\ concat c' = rest.
Proof.
  intros Hv He Hc. unfold FrameCodec.decodeInteger.
  rewrite (decodeQuicInteger_encode v byteSize bytes rest c Hv He Hc).
  eexists. split; [reflexivity|].
  apply (skip_app c bytes rest); [exact Hc|reflexivity].
Qed.

(** The eight STREAM frame types all reach [decodeStreamFrame]. *)
Lemma decodeFrameOfType_stream (frameType : FrameType) (initialByte : Z)
    (queue : BufQueue) (header : PacketHeader) (params : CodecParameters) :
  STREAM <= frameType <= STREAM_OFF_LEN_FIN ->
  decodeFrameOfType frameType initialByte queue header params =
  Some (FrameCodec.decodeStreamFrame queue (uint8 initialByte)).
Proof.
  unfold STREAM, STREAM_OFF_LEN_FIN. intros Ht.
  unfold FrameCodec.decodeFrameOfType.
  destruct (Z.eqb_spec frameType PADDING) as [H|_];
    [unfold PADDING in H; lia|].
  destruct (Z.eqb_spec frameType PING) as [H|_]; [unfold PING in H; lia|].
  destruct (Z.eqb_spec frameType ACK) as [H|_]; [unfold ACK in H; lia|].
  destruct (Z.eqb_spec frameType ACK_ECN) as [H|_];
    [unfold ACK_ECN in H; lia|].
  destruct (Z.eqb_spec frameType RST_STREAM) as [H|_];
    [unfold RST_STREAM in H; lia|].
  destruct (Z.eqb_spec frameType STOP_SENDING) as [H|_];
    [unfold STOP_SENDING in H; lia|].
  destruct (Z.eqb_spec frameType CRYPTO_FRAME) as [H|_];
    [unfold CRYPTO_FRAME in H; lia|].
  destruct (Z.eqb_spec frameType NEW_TOKEN) as [H|_];
    [unfold NEW_TOKEN in H; lia|].
  destruct (Z.leb_spec STREAM frameType) as [_|H]; [|unfold STREAM in H; lia].
  destruct (Z.leb_spec frameType STREAM_OFF_LEN_FIN) as [_|H];
    [|unfold STREAM_OFF_LEN_FIN in H; lia].
  reflexivity.
Qed.

(** X3. How [parseFrame] reads a STREAM frame. The frame type, one of 0x08 to
    0x0f, is followed by the stream id, by the offset if bit 2 of the type is
    set, and by a length if bit 1 is set. With a length, the frame carries
    exactly that many of the bytes that follow and the queue keeps the rest;
    if fewer bytes follow, [parseFrame] throws FRAME_ENCODING_ERROR with the
    frame's own type. Without a length, the frame takes every byte that
    follows and leaves the queue empty, so it is the last frame of its
    packet. FIN is bit 0 of the type; a frame without an offset has offset
    0. *)
Theorem streamFrame_wire_format (frameType : FrameType)
    (streamId offset len : Z) (size1 size2 size3 : option Z)
    (streamIdBytes offsetBytes lenBytes tail : list byte)
    (queue : BufQueue) (header : PacketHeader) (params : CodecParameters) :
  STREAM <= frameType <= STREAM_OFF_LEN_FIN ->
  0 <= streamId -> 0 <= offset -> 0 <= len ->
  encodeQuicInteger streamId size1 = Some streamIdBytes ->
  (if hasOffset frameType
   then encodeQuicInteger offset size2 = Some offsetBytes
   else offsetBytes = [] /\ offset = 0) ->
  (if hasDataLength frameType
   then encodeQuicInteger len size3 = Some lenBytes
   else lenBytes = []) ->
  concat queue =
    byte_of_Z frameType :: streamIdBytes ++ offsetBytes ++ lenBytes ++ tail ->
  if hasDataLength frameType then
    if sizeZ tail <? len then
      parseFrame queue header params =
        Throw (mkException FRAME_ENCODING_ERROR (Some frameType))
    else
      exists queue',
        parseFrame queue header params =
          Ok (FrameCodec.ReadStreamFrame streamId offset
                (take (Z.to_nat len) tail) (hasFin frameType),
              queue')
        /\ concat queue' = drop (Z.to_nat len) tail
  else
    parseFrame queue header params =
      Ok (FrameCodec.ReadStreamFrame streamId offset tail (hasFin frameType),
          []).
Proof.
  intros Ht Hsid Hoff Hlen Esid Eoff Elen Hc.
  assert (Ht' : 8 <= frameType <= 15)
    by (unfold STREAM, STREAM_OFF_LEN_FIN in Ht; exact Ht).
  assert (Hu8 : uint8 frameType = frameType) by (apply uint8_small; lia).
  assert (Hadv : canAdvance 1 queue = true).
  { unfold canAdvance, totalLength. rewrite Hc. simpl length.
    apply Z.leb_le. lia. }
  assert (Hq1 : exists q1,
            decodeQuicInteger queue = Some (frameType, 1, q1)
            /\ concat q1 = streamIdBytes ++ offsetBytes ++ lenBytes ++ tail).
  { pose proof (decodeQuicInteger_encode frameType None [byte_of_Z frameType]
                  (streamIdBytes ++ offsetBytes ++ lenBytes ++ tail) queue
                  ltac:(lia)
                  (encodeQuicInteger_one_byte frameType
                     ltac:(unfold kOneByteLimit; lia))
                  Hc) as Hd.
    eexists. split; [exact Hd|].
    apply (skip_app queue [byte_of_Z frameType]); [exact Hc|reflexivity]. }
  destruct Hq1 as (q1 & Hd & Hc1).
  assert (Hparse : parseFrame queue header params =
                   match FrameCodec.decodeStreamFrame q1 frameType with
                   | Decoded result => Ok result
                   | Raised _ =>
                       Throw (mkException FRAME_ENCODING_ERROR (Some frameType))
                   | Crashed => Aborted
                   end).
  { unfold FrameCodec.parseFrame. rewrite Hadv, Hd. cbn [negb]. cbv zeta.
    rewrite Hu8, decodeFrameOfType_stream by exact Ht. rewrite Hu8.
    reflexivity. }
  destruct (decodeInteger_encode STREAM streamId size1 streamIdBytes _ q1 Hsid
              Esid Hc1) as (q2 & Hd2 & Hc2).
  assert (Hq3 : exists q3,
            (if hasOffset frameType then FrameCodec.decodeInteger STREAM q2
             else Decoded (0, q2)) = Decoded (offset, q3)
            /\ concat q3 = lenBytes ++ tail).
  { destruct (hasOffset frameType).
    - exact (decodeInteger_encode STREAM offset size2 offsetBytes _ q2 Hoff
               Eoff Hc2).
    - destruct Eoff as [-> ->]. exists q2. split; [reflexivity|exact Hc2]. }
  destruct Hq3 as (q3 & Hd3 & Hc3).
  assert (Hstream : FrameCodec.decodeStreamFrame q1 frameType =
            if hasDataLength frameType then
              '(dataLength, c3) ← FrameCodec.decodeInteger STREAM q3;
              if totalLength c3 <? dataLength
              then FrameCodec.throwFrame STREAM
              else Decoded (FrameCodec.ReadStreamFrame streamId offset
                              (pull (Z.to_nat dataLength) c3)
                              (hasFin frameType),
                            skip (Z.to_nat dataLength) c3)
            else Decoded (FrameCodec.ReadStreamFrame streamId offset
                            (concat q3) (hasFin frameType), [])).
  { unfold FrameCodec.decodeStreamFrame. rewrite Hd2.
    cbn [mbind decoded_bind]. cbv beta iota. rewrite Hd3.
    cbn [mbind decoded_bind]. reflexivity. }
  rewrite Hparse, Hstream.
  destruct (hasDataLength frameType).
  - destruct (decodeInteger_encode STREAM len size3 lenBytes tail q3 Hlen
                Elen Hc3) as (q4 & Hd4 & Hc4).
    rewrite Hd4. cbn [mbind decoded_bind]. cbv beta iota.
    unfold totalLength. rewrite Hc4. fold (sizeZ tail).
    destruct (sizeZ tail <? len); [reflexivity|].
    eexists. split; [unfold pull; rewrite Hc4; reflexivity|].
    rewrite concat_skip, Hc4. reflexivity.
  - subst lenBytes. cbn [app] in Hc3. rewrite Hc3. reflexivity.
Qed.

End StreamFrames.

(** ** Frame types and CONNECTION_CLOSE *)

Section FrameTypes.

Variable toApplicationErrorCode : Z -> Z.
Variable toTransportErrorCode : Z -> Z.
Variable kMaxReasonPhraseLength : Z.
Variable MIN_STREAM_DATA : FrameType.
Variable EXPIRED_STREAM_DATA : FrameType.

Local Abbreviation parseFrame :=
  (FrameCodec.parseFrame toApplicationErrorCode toTransportErrorCode
     kMaxReasonPhraseLength MIN_STREAM_DATA EXPIRED_STREAM_DATA).
Local Abbreviation decodeFrameOfType :=
  (FrameCodec.decodeFrameOfType toApplicationErrorCode toTransportErrorCode
     kMaxReasonPhraseLength MIN_STREAM_DATA EXPIRED_STREAM_DATA).

(** [parseFrame] on a queue that starts with an encoded frame type. *)
Lemma parseFrame_encoded_type (v : Z) (size : option Z)
    (bytes rest : list byte) (queue : BufQueue) (header : PacketHeader)
    (params : CodecParameters) :
  0 <= v -> encodeQuicInteger v size = Some bytes ->
  concat queue = bytes ++ rest ->
  exists queue1,
    concat queue1 = rest
    /\ parseFrame queue header params =
       match decodeFrameOfType (uint8 v) v queue1 header params with
       | Some (Decoded result) => Ok result
       | Some (Raised _) =>
           Throw (mkException FRAME_ENCODING_ERROR (Some (uint8 v)))
       | Some Crashed => Aborted
       | None => Throw (mkException FRAME_ENCODING_ERROR (Some (uint8 v)))
       end.
Proof.
  intros Hv He Hc.
  pose proof (decodeQuicInteger_encode v size bytes rest queue Hv He Hc) as Hd.
  pose proof (decodeQuicInteger_consumes _ _ _ _ Hd) as [Hn Hlen].
  assert (Hadv : canAdvance 1 queue = true).
  { unfold canAdvance. apply Z.leb_le.
    pose proof (totalLength_nonneg (skip (length bytes) queue)). lia. }
  exists (skip (length bytes) queue). split.
  - apply (skip_app queue bytes rest); [exact Hc|reflexivity].
  - unfold FrameCodec.parseFrame. rewrite Hadv, Hd. reflexivity.
Qed.

(** X5. [parseFrame] looks at the low 8 bits of the frame type only, whatever
    the width it was encoded in: a type whose low byte is 1 is a PING, also
    a type such as 0x101 that no frame has. A type whose low byte is above
    HANDSHAKE_DONE and is neither of the two partial-reliability types is
    rejected with FRAME_ENCODING_ERROR, the exception carrying that low
    byte. *)
Theorem parseFrame_dispatches_on_low_byte (v : Z) (size : option Z)
    (bytes rest : list byte) (queue : BufQueue) (header : PacketHeader)
    (params : CodecParameters) :
  0 <= v -> encodeQuicInteger v size = Some bytes ->
  concat queue = bytes ++ rest ->
  (uint8 v = PING ->
   exists queue',
     parseFrame queue header params = Ok (FrameCodec.PingFrame, queue')
     /\ concat queue' = rest)
  /\ (HANDSHAKE_DONE < uint8 v ->
      uint8 v <> MIN_STREAM_DATA -> uint8 v <> EXPIRED_STREAM_DATA ->
      parseFrame queue header params =
        Throw (mkException FRAME_ENCODING_ERROR (Some (uint8 v)))).
Proof.
  intros Hv He Hc.
  destruct (parseFrame_encoded_type v size bytes rest queue header params
              Hv He Hc) as (q1 & Hc1 & Hparse).
  rewrite Hparse. split.
  - intros Hping. rewrite Hping. exists q1. split; [reflexivity|exact Hc1].
  - intros Hhigh Hmin Hexp.
    assert (Hnone : decodeFrameOfType (uint8 v) v q1 header params = None).
    { unfold FrameCodec.decodeFrameOfType.
      unfold HANDSHAKE_DONE in Hhigh.
      repeat match goal with
             | |- context [?a =? ?b] =>
                 destruct (Z.eqb_spec a b) as [Heq|_];
                 [first [contradiction
                        | exfalso; revert Heq;
                          unfold PADDING, PING, ACK, ACK_ECN, RST_STREAM,
                            STOP_SENDING, CRYPTO_FRAME, NEW_TOKEN, MAX_DATA,
                            MAX_STREAM_DATA, MAX_STREAMS_BIDI, MAX_STREAMS_UNI,
                            DATA_BLOCKED, STREAM_DATA_BLOCKED,
                            STREAMS_BLOCKED_BIDI, STREAMS_BLOCKED_UNI,
                            NEW_CONNECTION_ID, RETIRE_CONNECTION_ID,
                            PATH_CHALLENGE, PATH_RESPONSE, CONNECTION_CLOSE,
                            CONNECTION_CLOSE_APP_ERR, HANDSHAKE_DONE; lia]|]
             | |- context [(?a <=? ?b) && (?c <=? ?d)] =>
                 destruct (Z.leb_spec c d) as [Hle|_];
                 [exfalso; unfold STREAM_OFF_LEN_FIN in Hle; lia
                 |rewrite andb_false_r]
             end.
      reflexivity. }
    rewrite Hnone. reflexivity.
Qed.

(** [decodeQuicInteger] looks at the bytes of the chain, not at how they are
    split into buffers. *)
Lemma decodeQuicInteger_bytes (c : Cursor) :
  match decodeQuicInteger c with
  | Some (v, n, c') => varintAtHead (concat c) = Some (v, n, concat c')
  | None => varintAtHead (concat c) = None
  end.
Proof.
  unfold varintAtHead, decodeQuicInteger, canAdvance, totalLength, pull.
  cbn [concat]. rewrite app_nil_r.
  destruct (concat c) as [|first bs] eqn:Ec; [reflexivity|].
  destruct (_ <=? _); [|reflexivity].
  destruct (take _ (first :: bs)) as [|b0 rest]; [reflexivity|].
  cbn [mbind option_bind]. rewrite !concat_skip. cbn [concat].
  rewrite app_nil_r, Ec. reflexivity.
Qed.

(** X4. How [parseFrame] reads a CONNECTION_CLOSE frame: behind the type
    byte 0x1c come an error code, the type of the offending frame, the
    length of the reason phrase (three variable-length integers) and the
    phrase. [parseFrame] returns the frame, with the code, the phrase and
    the frame type, exactly when all three integers are there in full, the
    frame-type field takes a single byte, and the phrase is not longer than
    [kMaxReasonPhraseLength] and is there in full; the queue then keeps what
    follows the phrase. In every other case, whichever field the frame is cut
    short in, it throws FRAME_ENCODING_ERROR for CONNECTION_CLOSE, also
    when the cursor itself raised for a phrase cut short. The second part
    says the same of a frame given by the encodings of its fields. *)
Theorem connectionClose_wire_format (queue : BufQueue) (body : list byte)
    (header : PacketHeader) (params : CodecParameters) :
  concat queue = byte_of_Z CONNECTION_CLOSE :: body ->
  match varintAtHead body with
  | Some (code, _, rest1) =>
      match varintAtHead rest1 with
      | Some (triggering, triggeringSize, rest2) =>
          match varintAtHead rest2 with
          | Some (len, _, tail) =>
              if (triggeringSize =? 1) && (len <=? kMaxReasonPhraseLength)
                 && (len <=? sizeZ tail)
              then
                exists queue',
                  parseFrame queue header params =
                    Ok (FrameCodec.ConnectionCloseFrame
                          (FrameCodec.TransportCode (toTransportErrorCode code))
                          (take (Z.to_nat len) tail) (Some (uint8 triggering)),
                        queue')
                  /\ concat queue' = drop (Z.to_nat len) tail
              else
                parseFrame queue header params =
                  Throw (mkException FRAME_ENCODING_ERROR
                           (Some CONNECTION_CLOSE))
          | None =>
              parseFrame queue header params =
                Throw (mkException FRAME_ENCODING_ERROR (Some CONNECTION_CLOSE))
          end
      | None =>
          parseFrame queue header params =
            Throw (mkException FRAME_ENCODING_ERROR (Some CONNECTION_CLOSE))
      end
  | None =>
      parseFrame queue header params =
        Throw (mkException FRAME_ENCODING_ERROR (Some CONNECTION_CLOSE))
  end
  /\
  (forall (code triggering len : Z) (size1 size2 size3 : option Z)
          (codeBytes triggeringBytes lenBytes tail : list byte),
     0 <= code -> 0 <= triggering -> 0 <= len ->
     encodeQuicInteger code size1 = Some codeBytes ->
     encodeQuicInteger triggering size2 = Some triggeringBytes ->
     encodeQuicInteger len size3 = Some lenBytes ->
     body = codeBytes ++ triggeringBytes ++ lenBytes ++ tail ->
     if (sizeZ triggeringBytes =? 1) && (len <=? kMaxReasonPhraseLength)
        && (len <=? sizeZ tail)
     then
       exists queue',
         parseFrame queue header params =
           Ok (FrameCodec.ConnectionCloseFrame
                 (FrameCodec.TransportCode (toTransportErrorCode code))
                 (take (Z.to_nat len) tail) (Some (uint8 triggering)),
               queue')
         /\ concat queue' = drop (Z.to_nat len) tail
     else
       parseFrame queue header params =
         Throw (mkException FRAME_ENCODING_ERROR (Some CONNECTION_CLOSE))).
Proof.
  intros Hc.
  destruct (parseFrame_encoded_type CONNECTION_CLOSE None
              [byte_of_Z CONNECTION_CLOSE] body queue header
              params ltac:(unfold CONNECTION_CLOSE; lia)
              (encodeQuicInteger_one_byte CONNECTION_CLOSE
                 ltac:(unfold CONNECTION_CLOSE, kOneByteLimit; lia))
              Hc) as (q1 & Hc1 & Hparse).
  rewrite Hparse.
  change (uint8 CONNECTION_CLOSE) with CONNECTION_CLOSE.
  change (decodeFrameOfType CONNECTION_CLOSE CONNECTION_CLOSE q1 header params)
    with (Some (FrameCodec.decodeConnectionCloseFrame toTransportErrorCode
                  kMaxReasonPhraseLength q1)).
  assert (Hbytes :
    match varintAtHead body with
    | Some (code, _, rest1) =>
        match varintAtHead rest1 with
        | Some (triggering, triggeringSize, rest2) =>
            match varintAtHead rest2 with
            | Some (len, _, tail) =>
                if (triggeringSize =? 1) && (len <=? kMaxReasonPhraseLength)
                   && (len <=? sizeZ tail)
                then
                  exists queue',
                    FrameCodec.decodeConnectionCloseFrame toTransportErrorCode
                      kMaxReasonPhraseLength q1 =
                      Decoded
                        (FrameCodec.ConnectionCloseFrame
                           (FrameCodec.TransportCode (toTransportErrorCode code))
                           (take (Z.to_nat len) tail) (Some (uint8 triggering)),
                         queue')
                    /\ concat queue' = drop (Z.to_nat len) tail
                else
                  exists e,
                    FrameCodec.decodeConnectionCloseFrame toTransportErrorCode
                      kMaxReasonPhraseLength q1 = Raised e
            | None =>
                exists e,
                  FrameCodec.decodeConnectionCloseFrame toTransportErrorCode
                    kMaxReasonPhraseLength q1 = Raised e
            end
        | None =>
            exists e,
              FrameCodec.decodeConnectionCloseFrame toTransportErrorCode
                kMaxReasonPhraseLength q1 = Raised e
        end
    | None =>
        exists e,
          FrameCodec.decodeConnectionCloseFrame toTransportErrorCode
            kMaxReasonPhraseLength q1 = Raised e
    end).
  { unfold FrameCodec.decodeConnectionCloseFrame, FrameCodec.decodeInteger,
      FrameCodec.throwFrame.
    pose proof (decodeQuicInteger_bytes q1) as H1. rewrite Hc1 in H1.
    destruct (decodeQuicInteger q1) as [[[code n1] c1]|]; rewrite H1;
      cbn [mbind decoded_bind]; [|eexists; reflexivity].
    cbv beta iota zeta.
    pose proof (decodeQuicInteger_bytes c1) as H2.
    destruct (decodeQuicInteger c1) as [[[trig n2] c2]|]; rewrite H2;
      [|eexists; reflexivity].
    pose proof (decodeQuicInteger_bytes c2) as H3.
    destruct (n2 =? 1); cbn [negb andb].
    2: { destruct (varintAtHead (concat c2)) as [[[? ?] ?]|];
           eexists; reflexivity. }
    destruct (decodeQuicInteger c2) as [[[len n3] c3]|]; rewrite H3;
      [|eexists; reflexivity].
    rewrite Z.gtb_ltb.
    destruct (Z.leb_spec len kMaxReasonPhraseLength) as [Hle|Hgt].
    2: { destruct (Z.ltb_spec kMaxReasonPhraseLength len); [|lia].
         cbn [andb]. eexists; reflexivity. }
    destruct (Z.ltb_spec kMaxReasonPhraseLength len); [lia|].
    cbn [andb]. unfold FrameCodec.readFixedString, canAdvance, totalLength.
    fold (sizeZ (concat c3)).
    destruct (len <=? sizeZ (concat c3)); cbn [mbind decoded_bind];
      [|eexists; reflexivity].
    eexists. split; [unfold pull; reflexivity|].
    rewrite concat_skip. reflexivity. }
  split.
  - destruct (varintAtHead body) as [[[code n1] rest1]|].
    2: { destruct Hbytes as [e ->]. reflexivity. }
    destruct (varintAtHead rest1) as [[[trig n2] rest2]|].
    2: { destruct Hbytes as [e ->]. reflexivity. }
    destruct (varintAtHead rest2) as [[[len n3] tail]|].
    2: { destruct Hbytes as [e ->]. reflexivity. }
    destruct ((n2 =? 1) && (len <=? kMaxReasonPhraseLength)
              && (len <=? sizeZ tail)).
    + destruct Hbytes as (queue' & -> & Hq). exists queue'.
      split; [reflexivity|exact Hq].
    + destruct Hbytes as [e ->]. reflexivity.
  - intros code triggering len size1 size2 size3 codeBytes triggeringBytes
      lenBytes tail Hcode Htrig Hlen Ecode Etrig Elen ->.
    assert (Hhead : forall v size bytes rest,
              0 <= v -> encodeQuicInteger v size = Some bytes ->
              varintAtHead (bytes ++ rest) = Some (v, sizeZ bytes, rest)).
    { intros v size bytes rest Hv He. unfold varintAtHead.
      rewrite (decodeQuicInteger_encode v size bytes rest [bytes ++ rest] Hv He)
        by (cbn [concat]; rewrite app_nil_r; reflexivity).
      cbn [mbind option_bind]. rewrite concat_skip. cbn [concat].
      rewrite app_nil_r, drop_app_length. reflexivity. }
    rewrite (Hhead code size1 codeBytes _ Hcode Ecode),
      (Hhead triggering size2 triggeringBytes _ Htrig Etrig),
      (Hhead len size3 lenBytes _ Hlen Elen) in Hbytes.
    destruct ((sizeZ triggeringBytes =? 1) && (len <=? kMaxReasonPhraseLength)
              && (len <=? sizeZ tail)).
    + destruct Hbytes as (queue' & -> & Hq). exists queue'.
      split; [reflexivity|exact Hq].
    + destruct Hbytes as [e ->]. reflexivity.
Qed.

End FrameTypes.

(** ** The theorems above at sample inputs *)

Lemma parseLongHeader_error_code_witness :
  parseLongHeaderInvariant 0xc0 longCidCursor = inl PROTOCOL_VIOLATION
  /\ exists e,
       parseLongHeader 16 8 Server 0xc0 longCidCursor = inl e
       /\ e = FRAME_ENCODING_ERROR.
Proof.
  split; [vm_compute; reflexivity|].
  exists FRAME_ENCODING_ERROR. split; [vm_compute; reflexivity|].
  apply (parseLongHeader_error_code 16 8 Server 0xc0 longCidCursor).
  vm_compute. reflexivity.
Defined.

Lemma parseLongHeaderVariants_postcondition_witness :
  exists h c',
    parseLongHeaderVariants 16 8 Handshake sampleInvariant sampleVariantCursor
      Server = inr (h, c')
    /\ parsedType h = Handshake
    /\ parsedLongInvariant h = parsedInvariant sampleInvariant.
Proof.
  exists (mkParsedLongHeader Handshake
            (mkLongHeaderInvariant 0xfaceb001 [x01; x02] [x03; x04; x05]) []
            (mkPacketLength 2 1)),
         [[x01; xff]].
  split; [vm_compute; reflexivity|].
  destruct (parseLongHeaderVariants_postcondition 16 8 Handshake
              sampleInvariant sampleVariantCursor [[x01; xff]] Server
              (mkParsedLongHeader Handshake
                 (mkLongHeaderInvariant 0xfaceb001 [x01; x02] [x03; x04; x05])
                 [] (mkPacketLength 2 1))
              ltac:(lia) ltac:(vm_compute; reflexivity))
    as (H1 & H2 & _).
  split; [exact H1|exact H2].
Defined.

Lemma regular_longHeader_roundtrip_witness :
  exists enc initialByte tail,
    RegularQuicPacketBuilder.packetNumberEncoding_ unit
      (regularBuilderState sampleRegularBuilder) = Some enc
    /\ builtHeader sampleRegularPacket = byte_of_Z initialByte :: tail
    /\ 0 <= initialByte < 256
    /\ parsePacketNumberLength initialByte = pnLength enc.
Proof.
  destruct (regular_longHeader_roundtrip unit 16 16 8 Server 1200
              sampleHandshakeHeader 0 sampleCalls sampleRegularStart
              (regularBuilderState sampleRegularBuilder) sampleRegularPacket []
              ltac:(vm_compute; reflexivity) ltac:(vm_compute; reflexivity)
              ltac:(vm_compute; reflexivity) ltac:(reflexivity)
              ltac:(vm_compute; split; reflexivity)
              ltac:(vm_compute; discriminate) ltac:(vm_compute; discriminate)
              ltac:(intros H; discriminate H) ltac:(lia)
              ltac:(vm_compute; reflexivity) ltac:(reflexivity))
    as (enc & initialByte & tail & H1 & H2 & H3 & H4 & _).
  exists enc, initialByte, tail. repeat split; assumption || apply H3.
Defined.

Lemma regular_packet_within_budget_witness :
  sizeZ (builtHeader sampleRegularPacket) + sizeZ (builtBody sampleRegularPacket)
    <= 1200
  /\ sizeZ (builtBody sampleRegularPacket)
     <= RegularQuicPacketBuilder.remainingSpaceInPkt unit sampleRegularStart.
Proof.
  exact (regular_packet_within_budget unit 16 1200 (HLong sampleHandshakeHeader)
           0 sampleCalls sampleRegularStart
           (regularBuilderState sampleRegularBuilder) sampleRegularPacket
           ltac:(lia) ltac:(lia) ltac:(reflexivity)
           ltac:(vm_compute; reflexivity) ltac:(vm_compute; reflexivity)
           ltac:(vm_compute; reflexivity) ltac:(vm_compute; discriminate)
           ltac:(vm_compute; reflexivity)).
Defined.

Lemma regular_getHeaderBytes_bounds_header_witness :
  exists n,
    RegularQuicPacketBuilder.getHeaderBytes unit sampleRegularStart = Some n
    /\ RegularQuicPacketBuilder.getHeaderBytes unit
         (regularBuilderState sampleRegularBuilder) = Some n
    /\ sizeZ (builtHeader sampleRegularPacket) <= n
       <= sizeZ (builtHeader sampleRegularPacket) + 3.
Proof.
  destruct (regular_getHeaderBytes_bounds_header unit 16 1200
              (HLong sampleHandshakeHeader) 0 sampleCalls sampleRegularStart
              (regularBuilderState sampleRegularBuilder) sampleRegularPacket
              ltac:(lia) ltac:(lia) ltac:(reflexivity)
              ltac:(vm_compute; reflexivity) ltac:(vm_compute; reflexivity)
              ltac:(vm_compute; reflexivity) ltac:(vm_compute; discriminate)
              ltac:(vm_compute; reflexivity))
    as (n & H1 & H2 & H3 & _).
  exists n. split; [exact H1|]. split; [exact H2|exact H3].
Defined.

Lemma inplace_longHeader_roundtrip_witness :
  InplaceQuicPacketBuilder.remainingSpaceInPkt unit sampleInplaceStart = 1200
  /\ exists enc initialByte tail,
       InplaceQuicPacketBuilder.packetNumberEncoding_ unit
         (inplaceBuilderState sampleInplaceBuilder) = Some enc
       /\ builtHeader sampleInplacePacket = [] ++ byte_of_Z initialByte :: tail
       /\ 0 <= initialByte < 256.
Proof.
  pose proof (inplace_longHeader_roundtrip unit 16 sampleBufWriterInsert 16 8
                Server [] 1200
                sampleHandshakeHeader 0 sampleCalls sampleInplaceStart
                (inplaceBuilderState sampleInplaceBuilder) sampleInplacePacket
                []
                ltac:(vm_compute; reflexivity) ltac:(vm_compute; reflexivity)
                ltac:(vm_compute; reflexivity) ltac:(reflexivity)
                ltac:(vm_compute; split; reflexivity)
                ltac:(vm_compute; discriminate) ltac:(vm_compute; discriminate)
                ltac:(intros H; discriminate H) ltac:(lia) ltac:(lia)
                ltac:(vm_compute; reflexivity) ltac:(reflexivity)) as H.
  cbv zeta in H.
  destruct H as (H1 & _ & enc & initialByte & tail & H2 & H3 & H4 & _).
  split; [exact H1|].
  exists enc, initialByte, tail. split; [exact H2|]. split; [exact H3|exact H4].
Defined.

Lemma inplace_getHeaderBytes_counts_slot_twice_witness :
  exists enc,
    InplaceQuicPacketBuilder.packetNumberEncoding_ unit
      (inplaceBuilderState sampleInplaceBuilder) = Some enc
    /\ InplaceQuicPacketBuilder.getHeaderBytes unit
         (inplaceBuilderState sampleInplaceBuilder) =
       Some (sizeZ (builtHeader sampleInplacePacket) + pnLength enc
             + kMaxPacketLenSize)
    /\ InplaceQuicPacketBuilder.getHeaderBytes unit sampleInplaceStart =
       InplaceQuicPacketBuilder.getHeaderBytes unit
         (inplaceBuilderState sampleInplaceBuilder).
Proof.
  exact (inplace_getHeaderBytes_counts_slot_twice unit 16 sampleBufWriterInsert
           [] 1200
           sampleHandshakeHeader 0 sampleCalls sampleInplaceStart
           (inplaceBuilderState sampleInplaceBuilder) sampleInplacePacket
           ltac:(vm_compute; reflexivity) ltac:(vm_compute; reflexivity)
           ltac:(vm_compute; reflexivity) ltac:(reflexivity)
           ltac:(lia) ltac:(lia)
           ltac:(vm_compute; reflexivity) ltac:(vm_compute; reflexivity)).
Defined.

Lemma versionNegotiation_roundtrip_witness :
  exists tail,
    snd (VersionNegotiationPacketBuilder.buildPacket
           (VersionNegotiationPacketBuilder.new 1252 [x01] [x02; x03] [1; 2])) =
      byte_of_Z kHeaderFormMask :: tail
    /\ versions
         (fst (VersionNegotiationPacketBuilder.buildPacket
                 (VersionNegotiationPacketBuilder.new 1252 [x01] [x02; x03]
                    [1; 2]))) <> [].
Proof.
  pose proof (versionNegotiation_roundtrip 1252 16 8 Server [x01] [x02; x03]
                [1; 2] ltac:(lia) ltac:(vm_compute; discriminate)
                ltac:(vm_compute; discriminate)
                ltac:(vm_compute; discriminate) ltac:(discriminate)
                ltac:(repeat constructor; lia)) as H.
  destruct (VersionNegotiationPacketBuilder.buildPacket _) as [packet data].
  destruct H as (tail & H1 & H2 & _).
  exists tail. split; [exact H1|exact H2].
Defined.

Lemma parseFrame_aborts_iff_witness :
  sampleParseFrame sampleAckQueue sampleAckHeader (mkCodecParameters 0) =
  Aborted.
Proof.
  apply (proj2 (parseFrame_aborts_iff (fun code : Z => code)
                  (fun code : Z => code) sampleMaxReasonPhraseLength
                  sampleMinStreamData sampleExpiredStreamData sampleAckQueue
                  sampleAckHeader (mkCodecParameters 0))).
  split; [reflexivity|]. split; [left; reflexivity|].
  exists 2, 1, [[x0a; x01; x00; x00]], 10, [[x01; x00; x00]], 1, [[x00; x00]],
    0, [[x00]], 0, [].
  split; [vm_compute; reflexivity|]. split; [left; reflexivity|].
  repeat split; vm_compute; reflexivity.
Defined.

Lemma streamFrame_wire_format_witness :
  exists queue',
    sampleParseFrame sampleStreamQueue sampleAckHeader (mkCodecParameters 3) =
      Ok (FrameCodec.ReadStreamFrame 4 2 [x61; x62; x63] false, queue')
    /\ concat queue' = [x01].
Proof.
  exact (streamFrame_wire_format (fun code : Z => code) (fun code : Z => code)
           sampleMaxReasonPhraseLength sampleMinStreamData
           sampleExpiredStreamData STREAM_OFF_LEN 4 2 3 None None None
           [x04] [x02] [x03] [x61; x62; x63; x01] sampleStreamQueue
           sampleAckHeader (mkCodecParameters 3)
           ltac:(vm_compute; split; discriminate) ltac:(lia) ltac:(lia)
           ltac:(lia) ltac:(reflexivity) ltac:(reflexivity) ltac:(reflexivity)
           ltac:(reflexivity)).
Defined.

Lemma parseFrame_dispatches_on_low_byte_witness :
  exists queue',
    sampleParseFrame samplePingQueue sampleAckHeader (mkCodecParameters 3) =
      Ok (FrameCodec.PingFrame, queue')
    /\ concat queue' = [x00].
Proof.
  exact (proj1 (parseFrame_dispatches_on_low_byte (fun code : Z => code)
                  (fun code : Z => code) sampleMaxReasonPhraseLength
                  sampleMinStreamData sampleExpiredStreamData 257 None
                  [x41; x01] [x00] samplePingQueue sampleAckHeader
                  (mkCodecParameters 3)
                  ltac:(lia) ltac:(reflexivity) ltac:(reflexivity))
           eq_refl).
Defined.

Lemma connectionClose_wire_format_witness :
  (exists queue',
     sampleParseFrame sampleCloseQueue sampleAckHeader (mkCodecParameters 3) =
       Ok (FrameCodec.ConnectionCloseFrame (FrameCodec.TransportCode 10)
             [x6e; x6f] (Some 6),
           queue')
     /\ concat queue' = [])
  /\ sampleParseFrame cutCloseQueue sampleAckHeader (mkCodecParameters 3) =
       Throw (mkException FRAME_ENCODING_ERROR (Some CONNECTION_CLOSE)).
Proof.
  split.
  - exact (proj1 (connectionClose_wire_format (fun code : Z => code)
                    (fun code : Z => code) sampleMaxReasonPhraseLength
                    sampleMinStreamData sampleExpiredStreamData
                    sampleCloseQueue [x0a; x06; x02; x6e; x6f] sampleAckHeader
                    (mkCodecParameters 3) eq_refl)).
  - exact (proj1 (connectionClose_wire_format (fun code : Z => code)
                    (fun code : Z => code) sampleMaxReasonPhraseLength
                    sampleMinStreamData sampleExpiredStreamData
                    cutCloseQueue [x0a; x06; x40] sampleAckHeader
                    (mkCodecParameters 3) eq_refl)).
Defined.

Lemma builders_agree_on_short_headers_witness :
  exists (b2 b2' : InplaceQuicPacketBuilder.t unit) (p2 : Packet unit),
    InplaceQuicPacketBuilder.new unit [xff] 1200 (HShort sampleShortHeader) 0 =
      Some b2
    /\ InplaceQuicPacketBuilder.calls unit sampleBufWriterInsert
         sampleShortCalls b2 = Some b2'
    /\ InplaceQuicPacketBuilder.buildPacket unit 16 b2' = Some p2
    /\ builtPacket p2 = builtPacket sampleShortPacket
    /\ builtHeader p2 = [xff] ++ builtHeader sampleShortPacket
    /\ builtBody p2 = builtBody sampleShortPacket.
Proof.
  apply (builders_agree_on_short_headers unit 16 sampleBufWriterInsert [xff]
           1200 sampleShortHeader 0 sampleShortCalls
           (regularBuilderState emptyRegularBuilder) sampleShortBuilt
           sampleShortPacket).
  - intros written buf limit _ _ _. reflexivity.
  - vm_compute. reflexivity.
  - vm_compute. reflexivity.
  - vm_compute. reflexivity.
  - vm_compute. discriminate.
Defined.

Lemma retry_header_token_includes_odcid_witness :
  encodeLongHeaderHelper sampleRetryHeader 1200 0 =
    Some (mkPacketNumEncodingResult 1 1, sampleRetryBytes, 1183)
  /\ exists initialByte tail,
       sampleRetryBytes = byte_of_Z initialByte :: tail
       /\ 0 <= initialByte < 256.
Proof.
  split; [vm_compute; reflexivity|].
  destruct (retry_header_token_includes_odcid 16 8 Server sampleRetryHeader
              1200 0 (mkPacketNumEncodingResult 1 1) sampleRetryBytes 1183
              [x09; x09; x09; x09] (repeat xaa 16)
              ltac:(reflexivity) ltac:(vm_compute; reflexivity)
              ltac:(reflexivity) ltac:(vm_compute; split; reflexivity)
              ltac:(vm_compute; discriminate) ltac:(vm_compute; discriminate)
              ltac:(vm_compute; discriminate) ltac:(lia) ltac:(reflexivity))
    as (initialByte & tail & H1 & H2 & _).
  exists initialByte, tail. split; [exact H1|exact H2].
Defined.
